(** * ice PTP hardware layer (ice_ptp_hw.c): a shallow embedding

    The driver functions are embedded as programs of a small state monad
    over the trace of transactions they issue to the device.  The device
    itself (memory-mapped registers, the sideband queue, the firmware admin
    queue) is an external collaborator: it is a record of response
    functions which may depend on the whole history of transactions, so
    every statement proved for all devices covers every hardware behaviour
    and every transport fault.

    Debug and warning prints (ice_debug, dev_warn, dev_info) touch no
    register and are left out.  Constants, macros and tables that live in
    the headers (ice_ptp_hw.h, ice_ptp_consts.h, ice_cgu_regs.h, ...) are
    fields of the class [IceDefs]. *)

From Stdlib Require Import ZArith List Bool Lia.
Import ListNotations.
Local Open Scope Z_scope.

(** ** Fixed-width integers *)

Definition u8 (x : Z) : Z := x mod 2 ^ 8.
Definition u16 (x : Z) : Z := x mod 2 ^ 16.
Definition u32 (x : Z) : Z := x mod 2 ^ 32.
Definition u64 (x : Z) : Z := x mod 2 ^ 64.

Definition lower_32_bits (v : Z) : Z := u32 v.
Definition upper_32_bits (v : Z) : Z := u32 (Z.shiftr v 32).

(** div64_u64: unsigned 64-bit division. *)
Definition div64_u64 (dividend divisor : Z) : Z := u64 dividend / u64 divisor.

(** Linux errno values. *)
Definition EIO : Z := 5.
Definition EBUSY : Z := 16.
Definition EINVAL : Z := 22.
Definition EOPNOTSUPP : Z := 95.

(** [if (status)] of the C source. *)
Definition failed (status : Z) : bool := negb (status =? 0).

(** ** Enumerations *)

Inductive ice_phy_model :=
| ICE_PHY_UNSUP
| ICE_PHY_ETH56G
| ICE_PHY_E810
| ICE_PHY_E822.

(** [ICE_PTP_TMR_CMD_OTHER] stands for any integer outside the enumeration,
    which the [default:] branches of the source handle.  The type is
    [enum ice_ptp_tmr_cmd] of the source. *)
Inductive enum_ice_ptp_tmr_cmd :=
| ICE_PTP_INIT_TIME
| ICE_PTP_INIT_INCVAL
| ICE_PTP_ADJ_TIME
| ICE_PTP_ADJ_TIME_AT_TIME
| ICE_PTP_READ_TIME
| ICE_PTP_NOP
| ICE_PTP_TMR_CMD_OTHER.

Inductive ice_ptp_link_spd :=
| ICE_PTP_LNK_SPD_1G
| ICE_PTP_LNK_SPD_10G
| ICE_PTP_LNK_SPD_25G
| ICE_PTP_LNK_SPD_25G_RS
| ICE_PTP_LNK_SPD_40G
| ICE_PTP_LNK_SPD_50G
| ICE_PTP_LNK_SPD_50G_RS
| ICE_PTP_LNK_SPD_100G_RS.

Definition link_spd_eqb (a b : ice_ptp_link_spd) : bool :=
  match a, b with
  | ICE_PTP_LNK_SPD_1G, ICE_PTP_LNK_SPD_1G
  | ICE_PTP_LNK_SPD_10G, ICE_PTP_LNK_SPD_10G
  | ICE_PTP_LNK_SPD_25G, ICE_PTP_LNK_SPD_25G
  | ICE_PTP_LNK_SPD_25G_RS, ICE_PTP_LNK_SPD_25G_RS
  | ICE_PTP_LNK_SPD_40G, ICE_PTP_LNK_SPD_40G
  | ICE_PTP_LNK_SPD_50G, ICE_PTP_LNK_SPD_50G
  | ICE_PTP_LNK_SPD_50G_RS, ICE_PTP_LNK_SPD_50G_RS
  | ICE_PTP_LNK_SPD_100G_RS, ICE_PTP_LNK_SPD_100G_RS => true
  | _, _ => false
  end.

Inductive ice_cgu_state :=
| ICE_CGU_STATE_UNKNOWN
| ICE_CGU_STATE_INVALID
| ICE_CGU_STATE_FREERUN
| ICE_CGU_STATE_LOCKED
| ICE_CGU_STATE_LOCKED_HO_ACQ
| ICE_CGU_STATE_HOLDOVER.

Inductive eth56g_res_type :=
| ETH56G_PHY_REG
| ETH56G_PHY_MEM.

(** ** Sideband queue messages *)

Inductive ice_sbq_msg_opcode :=
| ice_sbq_msg_rd
| ice_sbq_msg_wr.

Record ice_sbq_msg_input := mk_sbq_msg {
  dest_dev : Z;
  opcode : ice_sbq_msg_opcode;
  msg_addr_low : Z;
  msg_addr_high : Z;
  data : Z
}.

(** ** Transactions with the device and their trace *)

Inductive event :=
| EvRd32 (addr val : Z)
| EvWr32 (addr val : Z)
| EvFlush
| EvSbq (msg : ice_sbq_msg_input) (lock_sbq : bool) (status val : Z)
| EvAq (dpll_idx status : Z)
| EvSleep (min_us max_us : Z).

Definition trace := list event.

(** Answer of the firmware to ice_aq_get_cgu_dpll_status. *)
Record cgu_dpll_status := mk_dpll_status {
  aq_status : Z;
  aq_ref_state : Z;
  aq_dpll_state : Z;
  aq_phase_offset : Z;
  aq_eec_mode : Z
}.

(** The device: how it answers a request after a given history.
    [dev_uninit] is not an answer of the hardware: it is the word an
    uninitialised local variable of the driver holds, which C leaves
    indeterminate and which may differ from one call to the next. *)
Record device := mk_device {
  dev_rd32 : trace -> Z -> Z;
  dev_sbq : trace -> ice_sbq_msg_input -> bool -> Z * Z;
  dev_aq_get_cgu_dpll_status : trace -> Z -> cgu_dpll_status;
  dev_uninit : trace -> Z
}.

(** The fields of struct ice_hw that the modelled functions read. *)
Record ice_hw := mk_hw {
  phy_model : ice_phy_model;
  phy_ports : Z;
  max_phy_port : Z;
  pf_id : Z;
  phy_addr : Z -> Z;
  tmr_index_owned : Z;
  tmr_index_assoc : Z;
  time_ref : Z;
  ts_ll_read : bool;
  dev : device
}.

(** ** The monad of driver code *)

Definition M (A : Type) : Type := trace -> A * trace.

Definition ret {A : Type} (a : A) : M A := fun t => (a, t).

Definition bind {A B : Type} (m : M A) (k : A -> M B) : M B :=
  fun t => let (a, t') := m t in k a t'.

Declare Scope drv_scope.
Delimit Scope drv_scope with drv.
Notation "x <- m ;; k" := (bind m (fun x => k))
  (at level 61, m at next level, right associativity) : drv_scope.
Notation "' pat <- m ;; k" := (bind m (fun x => match x with pat => k end))
  (at level 61, pat pattern, m at next level, right associativity) : drv_scope.
Notation "m ;;; k" := (bind m (fun _ => k))
  (at level 61, right associativity) : drv_scope.
Local Open Scope drv_scope.

Definition emit (e : event) : M unit := fun t => (tt, t ++ [e]).

(** A u32 field that is read before anything was assigned to it. *)
Definition uninit_u32 (hw : ice_hw) : M Z :=
  fun t => (u32 (dev_uninit (dev hw) t), t).

Definition rd32 (hw : ice_hw) (addr : Z) : M Z :=
  fun t => let v := u32 (dev_rd32 (dev hw) t addr) in (v, t ++ [EvRd32 addr v]).

Definition wr32 (hw : ice_hw) (addr val : Z) : M unit :=
  emit (EvWr32 addr (u32 val)).

Definition ice_flush (hw : ice_hw) : M unit := emit EvFlush.

Definition usleep_range (min_us max_us : Z) : M unit :=
  emit (EvSleep min_us max_us).

Definition msleep (ms : Z) : M unit := emit (EvSleep (ms * 1000) (ms * 1000)).

Definition udelay (us : Z) : M unit := emit (EvSleep us us).

(** ice_sbq_rw_reg_lp: one sideband transaction; returns the status and
    the data word of the answer. *)
Definition ice_sbq_rw_reg_lp (hw : ice_hw) (msg : ice_sbq_msg_input)
    (lock_sbq : bool) : M (Z * Z) :=
  fun t => let (status, val) := dev_sbq (dev hw) t msg lock_sbq in
           ((status, u32 val), t ++ [EvSbq msg lock_sbq status (u32 val)]).

(** [for (port = 0; port < n; port++) { status = body(port);
    if (status) return status; } return 0;] *)
Fixpoint for_ports_from (n : nat) (port : Z) (body : Z -> M Z) : M Z :=
  match n with
  | O => ret 0
  | S n' =>
      status <- body port ;;
      if failed status then ret status
      else for_ports_from n' (port + 1) body
  end.

Definition for_ports (n : Z) (body : Z -> M Z) : M Z :=
  for_ports_from (Z.to_nat n) 0 body.

(** ** Header definitions

    Register addresses, masks, opcodes, address macros and constant tables
    of the headers.  Enumerators whose numeric value the code compares or
    casts are numbers here. *)

Record bitfield := mk_bitfield { bf_shift : Z; bf_width : Z }.

Definition bf_get (f : bitfield) (v : Z) : Z :=
  Z.shiftr v (bf_shift f) mod 2 ^ bf_width f.

Definition bf_set (f : bitfield) (v x : Z) : Z :=
  let m := Z.shiftl (2 ^ bf_width f - 1) (bf_shift f) in
  u32 (Z.lor (Z.land v (Z.lnot m))
             (Z.shiftl (x mod 2 ^ bf_width f) (bf_shift f))).

(** One entry of e822_vernier[]. *)
Record ice_vernier_info_e822 := mk_vernier {
  tx_fixed_delay : Z;
  rx_fixed_delay : Z;
  pmd_adj_divisor : Z
}.

(** One entry of e822_cgu_params[]. *)
Record ice_cgu_pll_params_e822 := mk_cgu_params {
  refclk_pre_div : Z;
  feedback_div : Z;
  frac_n_div : Z;
  post_pll_div : Z
}.

Class IceDefs := {
  (* source timer, ice_hw_autogen.h and ice_ptp_hw.h *)
  GLTSYN_CMD : Z;
  GLTSYN_CMD_SYNC : Z;
  SYNC_EXEC_CMD : Z;
  SEL_CPK_SRC : Z;
  SEL_PHY_SRC : Z;
  GLTSYN_CMD_INIT_TIME : Z;
  GLTSYN_CMD_INIT_INCVAL : Z;
  GLTSYN_CMD_ADJ_TIME : Z;
  GLTSYN_CMD_ADJ_INIT_TIME : Z;
  GLTSYN_CMD_READ_TIME : Z;
  GLTSYN_INCVAL_L : Z -> Z;
  GLTSYN_INCVAL_H : Z -> Z;
  INCVAL_HIGH_M : Z;
  GLTSYN_SHADJ_L : Z -> Z;
  GLTSYN_SHADJ_H : Z -> Z;
  GLTSYN_SHTIME_0 : Z -> Z;
  GLTSYN_SHTIME_L : Z -> Z;
  PFTSYN_SEM : Z;
  PFTSYN_SEM_BYTES : Z;
  PFTSYN_SEM_BUSY_M : Z;
  PF_SB_ATQBAL : Z;
  PF_SB_ATQBAH : Z;
  (* PHY timer commands *)
  PHY_CMD_INIT_TIME : Z;
  PHY_CMD_INIT_INCVAL : Z;
  PHY_CMD_ADJ_TIME : Z;
  PHY_CMD_ADJ_TIME_AT_TIME : Z;
  PHY_CMD_READ_TIME : Z;
  TS_CMD_MASK : Z;
  TS_CMD_MASK_E810 : Z;
  (* sideband destinations and address words *)
  rmn_0 : Z;
  rmn_1 : Z;
  rmn_2 : Z;
  cgu : Z;
  ICE_LO_WORD : Z -> Z;
  ICE_HI_WORD : Z -> Z;
  (* 56G PHY *)
  ICE_PORTS_PER_QUAD : Z;
  ice_eth56g_port_base : Z -> Z;
  PHY_PTP_LANE_ADDR_STEP : Z;
  PHY_PTP_MEM_START : Z;
  PHY_PTP_MEM_LANE_STEP : Z;
  PHY_REG_TX_TMR_CMD : Z;
  PHY_REG_RX_TMR_CMD : Z;
  PHY_REG_TX_TIMER_INC_PRE_L : Z;
  PHY_REG_TX_TIMER_INC_PRE_U : Z;
  PHY_REG_RX_TIMER_INC_PRE_L : Z;
  PHY_REG_RX_TIMER_INC_PRE_U : Z;
  PHY_REG_TX_CAPTURE_L : Z;
  PHY_REG_TX_CAPTURE_U : Z;
  PHY_REG_RX_CAPTURE_L : Z;
  PHY_REG_RX_CAPTURE_U : Z;
  PHY_REG_TOTAL_TX_OFFSET_L : Z;
  PHY_REG_TOTAL_TX_OFFSET_U : Z;
  PHY_REG_TOTAL_RX_OFFSET_L : Z;
  PHY_REG_TOTAL_RX_OFFSET_U : Z;
  PHY_REG_TX_MEMORY_STATUS_L : Z;
  PHY_REG_TX_MEMORY_STATUS_U : Z;
  PHY_REG_TIMETUS_L : Z;
  PHY_REG_TIMETUS_U : Z;
  PHY_REG_TX_OFFSET_READY : Z;
  PHY_REG_RX_OFFSET_READY : Z;
  PHY_TSTAMP_L : Z -> Z;
  PHY_TSTAMP_U : Z -> Z;
  (* E822 PHY: port and quad addressing *)
  ICE_PORTS_PER_PHY_E822 : Z;
  ICE_QUADS_PER_PHY_E822 : Z;
  ICE_MAX_QUAD : Z;
  P_0_BASE : Z;
  P_4_BASE : Z;
  P_Q0_L : Z -> Z -> Z;
  P_Q0_H : Z -> Z -> Z;
  P_Q1_L : Z -> Z -> Z;
  P_Q1_H : Z -> Z -> Z;
  Q_0_BASE : Z;
  Q_1_BASE : Z;
  Q_REG_TX_MEMORY_BANK_START : Z;
  TS_L : Z -> Z -> Z;
  TS_H : Z -> Z -> Z;
  TS_PHY_LOW_M : Z;
  TS_PHY_HIGH_S : Z;
  P_REG_40B_LOW_M : Z;
  P_REG_40B_HIGH_S : Z;
  (* E822 PHY: port registers *)
  P_REG_TX_TMR_CMD : Z;
  P_REG_RX_TMR_CMD : Z;
  P_REG_PAR_PCS_TX_OFFSET_L : Z;
  P_REG_PAR_PCS_TX_OFFSET_U : Z;
  P_REG_PAR_PCS_RX_OFFSET_L : Z;
  P_REG_PAR_PCS_RX_OFFSET_U : Z;
  P_REG_PAR_TX_TIME_L : Z;
  P_REG_PAR_TX_TIME_U : Z;
  P_REG_PAR_RX_TIME_L : Z;
  P_REG_PAR_RX_TIME_U : Z;
  P_REG_TOTAL_TX_OFFSET_L : Z;
  P_REG_TOTAL_TX_OFFSET_U : Z;
  P_REG_TOTAL_RX_OFFSET_L : Z;
  P_REG_TOTAL_RX_OFFSET_U : Z;
  P_REG_UIX66_10G_40G_L : Z;
  P_REG_UIX66_10G_40G_U : Z;
  P_REG_UIX66_25G_100G_L : Z;
  P_REG_UIX66_25G_100G_U : Z;
  P_REG_TX_CAPTURE_L : Z;
  P_REG_TX_CAPTURE_U : Z;
  P_REG_RX_CAPTURE_L : Z;
  P_REG_RX_CAPTURE_U : Z;
  P_REG_TX_TIMER_INC_PRE_L : Z;
  P_REG_TX_TIMER_INC_PRE_U : Z;
  P_REG_RX_TIMER_INC_PRE_L : Z;
  P_REG_RX_TIMER_INC_PRE_U : Z;
  P_REG_TIMETUS_L : Z;
  P_REG_TIMETUS_U : Z;
  P_REG_PAR_RX_TUS_L : Z;
  P_REG_PAR_RX_TUS_U : Z;
  P_REG_PAR_TX_TUS_L : Z;
  P_REG_PAR_TX_TUS_U : Z;
  P_REG_PCS_RX_TUS_L : Z;
  P_REG_PCS_RX_TUS_U : Z;
  P_REG_PCS_TX_TUS_L : Z;
  P_REG_PCS_TX_TUS_U : Z;
  P_REG_DESK_PAR_RX_TUS_L : Z;
  P_REG_DESK_PAR_RX_TUS_U : Z;
  P_REG_DESK_PAR_TX_TUS_L : Z;
  P_REG_DESK_PAR_TX_TUS_U : Z;
  P_REG_DESK_PCS_RX_TUS_L : Z;
  P_REG_DESK_PCS_RX_TUS_U : Z;
  P_REG_DESK_PCS_TX_TUS_L : Z;
  P_REG_DESK_PCS_TX_TUS_U : Z;
  P_REG_TX_OR : Z;
  P_REG_RX_OR : Z;
  P_REG_TX_OV_STATUS : Z;
  P_REG_TX_OV_STATUS_OV_M : Z;
  P_REG_RX_OV_STATUS : Z;
  P_REG_RX_OV_STATUS_OV_M : Z;
  P_REG_LINK_SPEED : Z;
  P_REG_LINK_SPEED_FEC_MODE : Z -> Z;
  P_REG_LINK_SPEED_SERDES_M : Z;
  P_REG_PMD_ALIGNMENT : Z;
  P_REG_RX_40_TO_160_CNT : Z;
  P_REG_RX_40_TO_160_CNT_RXCYC_M : Z;
  P_REG_RX_80_TO_160_CNT : Z;
  P_REG_RX_80_TO_160_CNT_RXCYC_M : Z;
  (* E822 link: serdes and FEC enumerators, Vernier table, PLL frequency *)
  ICE_PTP_SERDES_1G : Z;
  ICE_PTP_SERDES_10G : Z;
  ICE_PTP_SERDES_25G : Z;
  ICE_PTP_SERDES_40G : Z;
  ICE_PTP_SERDES_50G : Z;
  ICE_PTP_SERDES_100G : Z;
  ICE_PTP_FEC_MODE_CLAUSE74 : Z;
  ICE_PTP_FEC_MODE_RS_FEC : Z;
  e822_vernier : ice_ptp_link_spd -> ice_vernier_info_e822;
  ice_e822_pll_freq : Z -> Z;
  (* E810 external PHY *)
  E810_ETH_GLTSYN_CMD : Z;
  ETH_GLTSYN_SHADJ_L : Z -> Z;
  ETH_GLTSYN_SHADJ_H : Z -> Z;
  TS_EXT : Z -> Z -> Z -> Z;
  LOW_TX_MEMORY_BANK_START : Z;
  HIGH_TX_MEMORY_BANK_START : Z;
  TS_LL_READ_TS_IDX : Z -> Z;
  TS_LL_READ_RETRIES : Z;
  TS_LL_READ_TS : Z;
  TS_LL_READ_TS_HIGH_S : Z;
  TS_VALID : Z;
  TS_HIGH_S : Z;
  TS_LOW_M : Z;
  (* clock generation unit *)
  NUM_ICE_TIME_REF_FREQ : Z;
  ICE_TIME_REF_FREQ_25_000 : Z;
  NUM_ICE_CLK_SRC : Z;
  ICE_CLK_SRC_TCX0 : Z;
  e822_cgu_params : Z -> ice_cgu_pll_params_e822;
  NAC_CGU_DWORD9 : Z;
  NAC_CGU_DWORD19 : Z;
  NAC_CGU_DWORD22 : Z;
  NAC_CGU_DWORD24 : Z;
  NAC_CGU_DWORD23_E825C : Z;
  TSPLL_RO_BWM_LF : Z;
  TSPLL_RO_LOCK_E825C : Z;
  dw9_time_ref_freq_sel : bitfield;
  dw19_tspll_fbdiv_intgr : bitfield;
  dw19_tspll_ndivratio : bitfield;
  dw22_time1588clk_div : bitfield;
  dw22_time1588clk_sel_div2 : bitfield;
  dw24_tspll_fbdiv_frac : bitfield;
  dw24_ts_pll_enable : bitfield;
  dw24_ref1588_ck_div : bitfield;
  dw24_time_ref_sel : bitfield;
  dw23_ts_pll_enable : bitfield;
  dw23_ref1588_ck_div : bitfield;
  dw23_time_ref_sel : bitfield;
  bwm_lf_plllock_true_lock_cri : bitfield;
  ro_lock_plllock_true_lock_cri : bitfield;
  (* DPLL status of the admin queue *)
  ICE_CGU_DPLL_MAX : Z;
  ICE_AQC_GET_CGU_DPLL_STATUS_STATE_LOCK : Z;
  ICE_AQC_GET_CGU_DPLL_STATUS_STATE_HO_READY : Z;
  ICE_AQC_GET_CGU_DPLL_STATUS_STATE_CLK_REF_SEL : Z;
  ICE_AQC_GET_CGU_DPLL_STATUS_STATE_CLK_REF_SHIFT : Z
}.

Section Driver.
Context {defs : IceDefs}.

(** ** Source timer commands *)

Definition ice_get_ptp_src_clock_index (hw : ice_hw) : Z := tmr_index_assoc hw.

Definition ice_ptp_read_src_incval (hw : ice_hw) : M Z :=
  let tmr_idx := ice_get_ptp_src_clock_index hw in
  lo <- rd32 hw (GLTSYN_INCVAL_L tmr_idx) ;;
  hi <- rd32 hw (GLTSYN_INCVAL_H tmr_idx) ;;
  ret (Z.lor (Z.shiftl (Z.land hi INCVAL_HIGH_M) 32) lo).

(** The value the switch of ice_ptp_src_cmd leaves in cmd_val; [None] is the
    default branch, which returns without writing. *)
Definition src_cmd_val (hw : ice_hw) (cmd : enum_ice_ptp_tmr_cmd) : option Z :=
  let tmr_idx := ice_get_ptp_src_clock_index hw in
  let cmd_val := u32 (Z.shiftl tmr_idx SEL_CPK_SRC) in
  match cmd with
  | ICE_PTP_INIT_TIME => Some (Z.lor cmd_val GLTSYN_CMD_INIT_TIME)
  | ICE_PTP_INIT_INCVAL => Some (Z.lor cmd_val GLTSYN_CMD_INIT_INCVAL)
  | ICE_PTP_ADJ_TIME => Some (Z.lor cmd_val GLTSYN_CMD_ADJ_TIME)
  | ICE_PTP_ADJ_TIME_AT_TIME => Some (Z.lor cmd_val GLTSYN_CMD_ADJ_INIT_TIME)
  | ICE_PTP_READ_TIME => Some (Z.lor cmd_val GLTSYN_CMD_READ_TIME)
  | ICE_PTP_NOP => Some cmd_val
  | ICE_PTP_TMR_CMD_OTHER => None
  end.

Definition ice_ptp_src_cmd (hw : ice_hw) (cmd : enum_ice_ptp_tmr_cmd) : M unit :=
  match src_cmd_val hw cmd with
  | None => ret tt
  | Some cmd_val => wr32 hw GLTSYN_CMD cmd_val
  end.

Definition ice_ptp_exec_tmr_cmd (hw : ice_hw) : M unit :=
  wr32 hw GLTSYN_CMD_SYNC SYNC_EXEC_CMD ;;;
  ice_flush hw.

Definition ice_ptp_clean_cmd (hw : ice_hw) : M unit :=
  wr32 hw GLTSYN_CMD 0 ;;;
  ice_flush hw.

(** The value the switch of the per-port command functions leaves in
    cmd_val; [None] is the default branch, which returns -EINVAL. *)
Definition phy_cmd_val (hw : ice_hw) (cmd : enum_ice_ptp_tmr_cmd) : option Z :=
  let tmr_idx := ice_get_ptp_src_clock_index hw in
  let cmd_val := u32 (Z.shiftl tmr_idx SEL_PHY_SRC) in
  match cmd with
  | ICE_PTP_INIT_TIME => Some (Z.lor cmd_val PHY_CMD_INIT_TIME)
  | ICE_PTP_INIT_INCVAL => Some (Z.lor cmd_val PHY_CMD_INIT_INCVAL)
  | ICE_PTP_ADJ_TIME => Some (Z.lor cmd_val PHY_CMD_ADJ_TIME)
  | ICE_PTP_ADJ_TIME_AT_TIME => Some (Z.lor cmd_val PHY_CMD_ADJ_TIME_AT_TIME)
  | ICE_PTP_READ_TIME => Some (Z.lor cmd_val PHY_CMD_READ_TIME)
  | ICE_PTP_NOP | ICE_PTP_TMR_CMD_OTHER => None
  end.

(** [val &= ~mask; val |= cmd_val;] on a u32. *)
Definition rmw_cmd (mask val cmd_val : Z) : Z :=
  u32 (Z.lor (Z.land val (Z.lnot mask)) cmd_val).

(** ** 56G PHY register access *)

Definition ice_write_phy_eth56g_raw_lp (hw : ice_hw) (phy_index reg_addr val : Z)
    (lock_sbq : bool) : M Z :=
  let phy_msg := {| opcode := ice_sbq_msg_wr;
                    msg_addr_low := ICE_LO_WORD reg_addr;
                    msg_addr_high := ICE_HI_WORD reg_addr;
                    data := u32 val;
                    dest_dev := phy_addr hw phy_index |} in
  '(status, _) <- ice_sbq_rw_reg_lp hw phy_msg lock_sbq ;;
  ret status.

Definition ice_read_phy_eth56g_raw_lp (hw : ice_hw) (phy_index reg_addr : Z)
    (lock_sbq : bool) : M (Z * Z) :=
  let phy_msg := {| opcode := ice_sbq_msg_rd;
                    msg_addr_low := ICE_LO_WORD reg_addr;
                    msg_addr_high := ICE_HI_WORD reg_addr;
                    data := 0;
                    dest_dev := phy_addr hw phy_index |} in
  '(status, val) <- ice_sbq_rw_reg_lp hw phy_msg lock_sbq ;;
  ret (status, val).

Definition ice_phy_port_res_address_eth56g (port : Z) (res_type : eth56g_res_type)
    (offset : Z) : Z * Z :=
  let phy := u8 (port / ICE_PORTS_PER_QUAD) in
  let lane := u8 (port mod ICE_PORTS_PER_QUAD) in
  match res_type with
  | ETH56G_PHY_REG =>
      (0, u32 (offset + ice_eth56g_port_base phy + PHY_PTP_LANE_ADDR_STEP * lane))
  | ETH56G_PHY_MEM =>
      (0, u32 (offset + ice_eth56g_port_base phy + PHY_PTP_MEM_START
               + PHY_PTP_MEM_LANE_STEP * lane))
  end.

(** The source divides the port number by hw->phy_ports in the
    declarations, before it checks the port: with hw->phy_ports = 0 the C
    code divides by zero and does not reach the check.  Z's division is
    total, so the model has no such fault; what it returns for
    [phy_ports hw = 0] says nothing about the code, and a statement about
    the refusal of a port assumes [phy_ports hw <> 0]. *)
Definition ice_write_phy_port_eth56g_lp (hw : ice_hw) (port reg_offs val : Z)
    (res_type : eth56g_res_type) (lock_sbq : bool) : M Z :=
  let phy_index := u8 (port / phy_ports hw) in
  let phy_port := u8 (port mod phy_ports hw) in
  if port >=? max_phy_port hw then ret (- EIO)
  else
    let '(status, reg_addr) :=
      ice_phy_port_res_address_eth56g phy_port res_type (u16 reg_offs) in
    if failed status then ret status
    else ice_write_phy_eth56g_raw_lp hw phy_index reg_addr val lock_sbq.

(** As for the write, the division by hw->phy_ports comes before the
    check of the port; see there for [phy_ports hw = 0]. *)
Definition ice_read_phy_port_eth56g_lp (hw : ice_hw) (port reg_offs : Z)
    (res_type : eth56g_res_type) (lock_sbq : bool) : M (Z * Z) :=
  let phy_index := u8 (port / phy_ports hw) in
  let phy_port := u8 (port mod phy_ports hw) in
  if port >=? max_phy_port hw then ret (- EIO, 0)
  else
    let '(status, reg_addr) :=
      ice_phy_port_res_address_eth56g phy_port res_type (u16 reg_offs) in
    if failed status then ret (status, 0)
    else ice_read_phy_eth56g_raw_lp hw phy_index reg_addr lock_sbq.

Definition ice_write_phy_reg_eth56g_lp (hw : ice_hw) (port offset val : Z)
    (lock_sbq : bool) : M Z :=
  ice_write_phy_port_eth56g_lp hw port offset val ETH56G_PHY_REG lock_sbq.

Definition ice_write_phy_reg_eth56g (hw : ice_hw) (port offset val : Z) : M Z :=
  ice_write_phy_reg_eth56g_lp hw port offset val true.

Definition ice_read_phy_reg_eth56g_lp (hw : ice_hw) (port offset : Z)
    (lock_sbq : bool) : M (Z * Z) :=
  ice_read_phy_port_eth56g_lp hw port offset ETH56G_PHY_REG lock_sbq.

Definition ice_read_phy_reg_eth56g (hw : ice_hw) (port offset : Z) : M (Z * Z) :=
  ice_read_phy_reg_eth56g_lp hw port offset true.

Definition ice_phy_port_mem_read_eth56g_lp (hw : ice_hw) (port offset : Z)
    (lock_sbq : bool) : M (Z * Z) :=
  ice_read_phy_port_eth56g_lp hw port offset ETH56G_PHY_MEM lock_sbq.

Definition ice_phy_port_mem_read_eth56g (hw : ice_hw) (port offset : Z)
    : M (Z * Z) :=
  ice_phy_port_mem_read_eth56g_lp hw port offset true.

Definition ice_phy_port_mem_write_eth56g_lp (hw : ice_hw) (port offset val : Z)
    (lock_sbq : bool) : M Z :=
  ice_write_phy_port_eth56g_lp hw port offset val ETH56G_PHY_MEM lock_sbq.

Definition ice_phy_port_mem_write_eth56g (hw : ice_hw) (port offset val : Z)
    : M Z :=
  ice_phy_port_mem_write_eth56g_lp hw port offset val true.

(** The switch of ice_is_64b_phy_reg_eth56g: the first matching case label
    gives the high address. *)
Definition ice_is_64b_phy_reg_eth56g (low_addr : Z) : option Z :=
  if low_addr =? PHY_REG_TX_TIMER_INC_PRE_L then Some PHY_REG_TX_TIMER_INC_PRE_U
  else if low_addr =? PHY_REG_RX_TIMER_INC_PRE_L then Some PHY_REG_RX_TIMER_INC_PRE_U
  else if low_addr =? PHY_REG_TX_CAPTURE_L then Some PHY_REG_TX_CAPTURE_U
  else if low_addr =? PHY_REG_RX_CAPTURE_L then Some PHY_REG_RX_CAPTURE_U
  else if low_addr =? PHY_REG_TOTAL_TX_OFFSET_L then Some PHY_REG_TOTAL_TX_OFFSET_U
  else if low_addr =? PHY_REG_TOTAL_RX_OFFSET_L then Some PHY_REG_TOTAL_RX_OFFSET_U
  else if low_addr =? PHY_REG_TX_MEMORY_STATUS_L then Some PHY_REG_TX_MEMORY_STATUS_U
  else None.

Definition ice_is_40b_phy_reg_eth56g (low_addr : Z) : option Z :=
  if low_addr =? PHY_REG_TIMETUS_L then Some PHY_REG_TIMETUS_U
  else None.

Definition ice_write_40b_phy_reg_eth56g (hw : ice_hw) (port low_addr val : Z)
    : M Z :=
  match ice_is_40b_phy_reg_eth56g low_addr with
  | None => ret (- EINVAL)
  | Some high_addr =>
      let lo := u32 (Z.land val P_REG_40B_LOW_M) in
      let hi := u32 (Z.shiftr val P_REG_40B_HIGH_S) in
      status <- ice_write_phy_reg_eth56g hw port low_addr lo ;;
      if failed status then ret status
      else
        status <- ice_write_phy_reg_eth56g hw port high_addr hi ;;
        if failed status then ret status
        else ret 0
  end.

Definition ice_write_64b_phy_reg_eth56g (hw : ice_hw) (port low_addr val : Z)
    : M Z :=
  match ice_is_64b_phy_reg_eth56g low_addr with
  | None => ret (- EINVAL)
  | Some high_addr =>
      let lo := lower_32_bits val in
      let hi := upper_32_bits val in
      status <- ice_write_phy_reg_eth56g hw port low_addr lo ;;
      if failed status then ret status
      else
        status <- ice_write_phy_reg_eth56g hw port high_addr hi ;;
        if failed status then ret status
        else ret 0
  end.

(** ** 56G PHY: timer commands *)

Definition ice_ptp_one_port_cmd_eth56g (hw : ice_hw) (port : Z)
    (cmd : enum_ice_ptp_tmr_cmd) (lock_sbq : bool) : M Z :=
  match phy_cmd_val hw cmd with
  | None => ret (- EINVAL)
  | Some cmd_val =>
      (* Tx case *)
      '(status, val) <- ice_read_phy_reg_eth56g_lp hw port PHY_REG_TX_TMR_CMD lock_sbq ;;
      if failed status then ret status
      else
        let val := rmw_cmd TS_CMD_MASK val cmd_val in
        status <- ice_write_phy_reg_eth56g_lp hw port PHY_REG_TX_TMR_CMD val lock_sbq ;;
        if failed status then ret status
        else
          (* Rx case *)
          '(status, val) <- ice_read_phy_reg_eth56g_lp hw port PHY_REG_RX_TMR_CMD lock_sbq ;;
          if failed status then ret status
          else
            let val := rmw_cmd TS_CMD_MASK val cmd_val in
            status <- ice_write_phy_reg_eth56g_lp hw port PHY_REG_RX_TMR_CMD val lock_sbq ;;
            if failed status then ret status
            else ret 0
  end.

Definition ice_ptp_port_cmd_eth56g (hw : ice_hw) (cmd : enum_ice_ptp_tmr_cmd)
    (lock_sbq : bool) : M Z :=
  for_ports (max_phy_port hw)
    (fun port => ice_ptp_one_port_cmd_eth56g hw port cmd lock_sbq).

(** ** E822 PHY register access *)

(** ice_fill_phy_msg_e822 on a zeroed message. *)
Definition ice_fill_phy_msg_e822 (port offset : Z) (op : ice_sbq_msg_opcode)
    (val : Z) : ice_sbq_msg_input :=
  let phy_port := port mod ICE_PORTS_PER_PHY_E822 in
  let phy := port / ICE_PORTS_PER_PHY_E822 in
  let quadtype := (port / ICE_PORTS_PER_QUAD) mod ICE_QUADS_PER_PHY_E822 in
  {| msg_addr_low :=
       if quadtype =? 0 then P_Q0_L (P_0_BASE + offset) phy_port
       else P_Q1_L (P_4_BASE + offset) phy_port;
     msg_addr_high :=
       if quadtype =? 0 then P_Q0_H (P_0_BASE + offset) phy_port
       else P_Q1_H (P_4_BASE + offset) phy_port;
     dest_dev :=
       if phy =? 0 then rmn_0 else if phy =? 1 then rmn_1 else rmn_2;
     opcode := op;
     data := val |}.

Definition ice_read_phy_reg_e822_lp (hw : ice_hw) (port offset : Z)
    (lock_sbq : bool) : M (Z * Z) :=
  let msg := ice_fill_phy_msg_e822 port offset ice_sbq_msg_rd 0 in
  '(status, val) <- ice_sbq_rw_reg_lp hw msg lock_sbq ;;
  if failed status then ret (status, 0)
  else ret (0, val).

Definition ice_read_phy_reg_e822 (hw : ice_hw) (port offset : Z) : M (Z * Z) :=
  ice_read_phy_reg_e822_lp hw port offset true.

Definition ice_write_phy_reg_e822_lp (hw : ice_hw) (port offset val : Z)
    (lock_sbq : bool) : M Z :=
  let msg := ice_fill_phy_msg_e822 port offset ice_sbq_msg_wr (u32 val) in
  '(status, _) <- ice_sbq_rw_reg_lp hw msg lock_sbq ;;
  if failed status then ret status
  else ret 0.

Definition ice_write_phy_reg_e822 (hw : ice_hw) (port offset val : Z) : M Z :=
  ice_write_phy_reg_e822_lp hw port offset val true.

Definition ice_is_64b_phy_reg_e822 (low_addr : Z) : option Z :=
  if low_addr =? P_REG_PAR_PCS_TX_OFFSET_L then Some P_REG_PAR_PCS_TX_OFFSET_U
  else if low_addr =? P_REG_PAR_PCS_RX_OFFSET_L then Some P_REG_PAR_PCS_RX_OFFSET_U
  else if low_addr =? P_REG_PAR_TX_TIME_L then Some P_REG_PAR_TX_TIME_U
  else if low_addr =? P_REG_PAR_RX_TIME_L then Some P_REG_PAR_RX_TIME_U
  else if low_addr =? P_REG_TOTAL_TX_OFFSET_L then Some P_REG_TOTAL_TX_OFFSET_U
  else if low_addr =? P_REG_TOTAL_RX_OFFSET_L then Some P_REG_TOTAL_RX_OFFSET_U
  else if low_addr =? P_REG_UIX66_10G_40G_L then Some P_REG_UIX66_10G_40G_U
  else if low_addr =? P_REG_UIX66_25G_100G_L then Some P_REG_UIX66_25G_100G_U
  else if low_addr =? P_REG_TX_CAPTURE_L then Some P_REG_TX_CAPTURE_U
  else if low_addr =? P_REG_RX_CAPTURE_L then Some P_REG_RX_CAPTURE_U
  else if low_addr =? P_REG_TX_TIMER_INC_PRE_L then Some P_REG_TX_TIMER_INC_PRE_U
  else if low_addr =? P_REG_RX_TIMER_INC_PRE_L then Some P_REG_RX_TIMER_INC_PRE_U
  else None.

Definition ice_is_40b_phy_reg_e822 (low_addr : Z) : option Z :=
  if low_addr =? P_REG_TIMETUS_L then Some P_REG_TIMETUS_U
  else if low_addr =? P_REG_PAR_RX_TUS_L then Some P_REG_PAR_RX_TUS_U
  else if low_addr =? P_REG_PAR_TX_TUS_L then Some P_REG_PAR_TX_TUS_U
  else if low_addr =? P_REG_PCS_RX_TUS_L then Some P_REG_PCS_RX_TUS_U
  else if low_addr =? P_REG_PCS_TX_TUS_L then Some P_REG_PCS_TX_TUS_U
  else if low_addr =? P_REG_DESK_PAR_RX_TUS_L then Some P_REG_DESK_PAR_RX_TUS_U
  else if low_addr =? P_REG_DESK_PAR_TX_TUS_L then Some P_REG_DESK_PAR_TX_TUS_U
  else if low_addr =? P_REG_DESK_PCS_RX_TUS_L then Some P_REG_DESK_PCS_RX_TUS_U
  else if low_addr =? P_REG_DESK_PCS_TX_TUS_L then Some P_REG_DESK_PCS_TX_TUS_U
  else None.

Definition ice_read_64b_phy_reg_e822 (hw : ice_hw) (port low_addr : Z)
    : M (Z * Z) :=
  match ice_is_64b_phy_reg_e822 low_addr with
  | None => ret (- EINVAL, 0)
  | Some high_addr =>
      '(status, low) <- ice_read_phy_reg_e822 hw port low_addr ;;
      if failed status then ret (status, 0)
      else
        '(status, high) <- ice_read_phy_reg_e822 hw port high_addr ;;
        if failed status then ret (status, 0)
        else ret (0, Z.lor (Z.shiftl high 32) low)
  end.

Definition ice_write_40b_phy_reg_e822 (hw : ice_hw) (port low_addr val : Z)
    : M Z :=
  match ice_is_40b_phy_reg_e822 low_addr with
  | None => ret (- EINVAL)
  | Some high_addr =>
      let low := u32 (Z.land val P_REG_40B_LOW_M) in
      let high := u32 (Z.shiftr val P_REG_40B_HIGH_S) in
      status <- ice_write_phy_reg_e822 hw port low_addr low ;;
      if failed status then ret status
      else
        status <- ice_write_phy_reg_e822 hw port high_addr high ;;
        if failed status then ret status
        else ret 0
  end.

Definition ice_write_64b_phy_reg_e822 (hw : ice_hw) (port low_addr val : Z)
    : M Z :=
  match ice_is_64b_phy_reg_e822 low_addr with
  | None => ret (- EINVAL)
  | Some high_addr =>
      let low := lower_32_bits val in
      let high := upper_32_bits val in
      status <- ice_write_phy_reg_e822 hw port low_addr low ;;
      if failed status then ret status
      else
        status <- ice_write_phy_reg_e822 hw port high_addr high ;;
        if failed status then ret status
        else ret 0
  end.

(** ** E822 PHY: timer commands *)

Definition ice_ptp_one_port_cmd_e822 (hw : ice_hw) (port : Z)
    (cmd : enum_ice_ptp_tmr_cmd) (lock_sbq : bool) : M Z :=
  match phy_cmd_val hw cmd with
  | None => ret (- EINVAL)
  | Some cmd_val =>
      (* Tx case *)
      '(status, val) <- ice_read_phy_reg_e822_lp hw port P_REG_TX_TMR_CMD lock_sbq ;;
      if failed status then ret status
      else
        let val := rmw_cmd TS_CMD_MASK val cmd_val in
        status <- ice_write_phy_reg_e822_lp hw port P_REG_TX_TMR_CMD val lock_sbq ;;
        if failed status then ret status
        else
          (* Rx case *)
          '(status, val) <- ice_read_phy_reg_e822_lp hw port P_REG_RX_TMR_CMD lock_sbq ;;
          if failed status then ret status
          else
            let val := rmw_cmd TS_CMD_MASK val cmd_val in
            status <- ice_write_phy_reg_e822_lp hw port P_REG_RX_TMR_CMD val lock_sbq ;;
            if failed status then ret status
            else ret 0
  end.

Definition ice_ptp_port_cmd_e822 (hw : ice_hw) (cmd : enum_ice_ptp_tmr_cmd)
    (lock_sbq : bool) : M Z :=
  for_ports (phy_ports hw)
    (fun port => ice_ptp_one_port_cmd_e822 hw port cmd lock_sbq).

(** ** E810 external PHY *)

Definition ice_read_phy_reg_e810_lp (hw : ice_hw) (addr : Z) (lock_sbq : bool)
    : M (Z * Z) :=
  let msg := {| msg_addr_low := ICE_LO_WORD addr;
                msg_addr_high := ICE_HI_WORD addr;
                opcode := ice_sbq_msg_rd;
                dest_dev := rmn_0;
                data := 0 |} in
  '(status, val) <- ice_sbq_rw_reg_lp hw msg lock_sbq ;;
  if failed status then ret (status, 0)
  else ret (0, val).

Definition ice_read_phy_reg_e810 (hw : ice_hw) (addr : Z) : M (Z * Z) :=
  ice_read_phy_reg_e810_lp hw addr true.

Definition ice_write_phy_reg_e810_lp (hw : ice_hw) (addr val : Z)
    (lock_sbq : bool) : M Z :=
  let msg := {| msg_addr_low := ICE_LO_WORD addr;
                msg_addr_high := ICE_HI_WORD addr;
                opcode := ice_sbq_msg_wr;
                dest_dev := rmn_0;
                data := u32 val |} in
  '(status, _) <- ice_sbq_rw_reg_lp hw msg lock_sbq ;;
  if failed status then ret status
  else ret 0.

Definition ice_write_phy_reg_e810 (hw : ice_hw) (addr val : Z) : M Z :=
  ice_write_phy_reg_e810_lp hw addr val true.

(** The switch of ice_ptp_port_cmd. *)
Definition e810_cmd_val (cmd : enum_ice_ptp_tmr_cmd) : option Z :=
  match cmd with
  | ICE_PTP_INIT_TIME => Some GLTSYN_CMD_INIT_TIME
  | ICE_PTP_INIT_INCVAL => Some GLTSYN_CMD_INIT_INCVAL
  | ICE_PTP_ADJ_TIME => Some GLTSYN_CMD_ADJ_TIME
  | ICE_PTP_ADJ_TIME_AT_TIME => Some GLTSYN_CMD_ADJ_INIT_TIME
  | ICE_PTP_READ_TIME => Some GLTSYN_CMD_READ_TIME
  | ICE_PTP_NOP | ICE_PTP_TMR_CMD_OTHER => None
  end.

Definition ice_ptp_port_cmd (hw : ice_hw) (cmd : enum_ice_ptp_tmr_cmd)
    (lock_sbq : bool) (eth_gltsyn_cmd_addr : Z) : M Z :=
  match e810_cmd_val cmd with
  | None => ret (- EINVAL)
  | Some cmd_val =>
      '(status, val) <- ice_read_phy_reg_e810_lp hw eth_gltsyn_cmd_addr lock_sbq ;;
      if failed status then ret status
      else
        let val := rmw_cmd TS_CMD_MASK_E810 val cmd_val in
        status <- ice_write_phy_reg_e810_lp hw eth_gltsyn_cmd_addr val lock_sbq ;;
        if failed status then ret status
        else ret 0
  end.

Definition ice_ptp_port_cmd_e810 (hw : ice_hw) (cmd : enum_ice_ptp_tmr_cmd)
    (lock_sbq : bool) : M Z :=
  ice_ptp_port_cmd hw cmd lock_sbq E810_ETH_GLTSYN_CMD.

(** ** The shared commit step *)

(** The switch on hw->phy_model in ice_ptp_tmr_cmd. *)
Definition ice_ptp_port_cmd_dispatch (hw : ice_hw) (cmd : enum_ice_ptp_tmr_cmd)
    (lock_sbq : bool) : M Z :=
  match phy_model hw with
  | ICE_PHY_ETH56G => ice_ptp_port_cmd_eth56g hw cmd lock_sbq
  | ICE_PHY_E810 => ice_ptp_port_cmd_e810 hw cmd lock_sbq
  | ICE_PHY_E822 => ice_ptp_port_cmd_e822 hw cmd lock_sbq
  | ICE_PHY_UNSUP => ret (- EOPNOTSUPP)
  end.

Definition ice_ptp_tmr_cmd (hw : ice_hw) (cmd : enum_ice_ptp_tmr_cmd)
    (lock_sbq : bool) : M Z :=
  (* First, prepare the source timer *)
  ice_ptp_src_cmd hw cmd ;;;
  (* Next, prepare the ports *)
  status <- ice_ptp_port_cmd_dispatch hw cmd lock_sbq ;;
  if failed status then ret status
  else
    ice_ptp_exec_tmr_cmd hw ;;;
    ice_ptp_clean_cmd hw ;;;
    ret 0.

(** ice_ptp_one_port_cmd: the generic single-port dispatcher. *)
Definition ice_ptp_one_port_cmd (hw : ice_hw) (port : Z) (cmd : enum_ice_ptp_tmr_cmd)
    (lock_sbq : bool) : M Z :=
  match phy_model hw with
  | ICE_PHY_ETH56G => ice_ptp_one_port_cmd_eth56g hw port ICE_PTP_READ_TIME true
  | ICE_PHY_E822 => ice_ptp_one_port_cmd_e822 hw port ICE_PTP_READ_TIME true
  | _ => ret (- EOPNOTSUPP)
  end.

(** ** E822 Vernier calibration *)

(** ice_e822_time_ref (inline of ice_ptp_hw.h): the TIME_REF selection
    kept in the function capabilities. *)
Definition ice_e822_time_ref (hw : ice_hw) : Z := time_ref hw.

(** The two switches of ice_phy_get_speed_and_fec_e822; [None] is a default
    branch (-EIO). *)
Definition serdes_link_spd (fec serdes : Z) : option ice_ptp_link_spd :=
  if fec =? ICE_PTP_FEC_MODE_RS_FEC then
    if serdes =? ICE_PTP_SERDES_25G then Some ICE_PTP_LNK_SPD_25G_RS
    else if serdes =? ICE_PTP_SERDES_50G then Some ICE_PTP_LNK_SPD_50G_RS
    else if serdes =? ICE_PTP_SERDES_100G then Some ICE_PTP_LNK_SPD_100G_RS
    else None
  else
    if serdes =? ICE_PTP_SERDES_1G then Some ICE_PTP_LNK_SPD_1G
    else if serdes =? ICE_PTP_SERDES_10G then Some ICE_PTP_LNK_SPD_10G
    else if serdes =? ICE_PTP_SERDES_25G then Some ICE_PTP_LNK_SPD_25G
    else if serdes =? ICE_PTP_SERDES_40G then Some ICE_PTP_LNK_SPD_40G
    else if serdes =? ICE_PTP_SERDES_50G then Some ICE_PTP_LNK_SPD_50G
    else None.

(** Returns (status, link speed, FEC mode); the two outputs are meaningful
    on success only. *)
Definition ice_phy_get_speed_and_fec_e822 (hw : ice_hw) (port : Z)
    : M (Z * ice_ptp_link_spd * Z) :=
  '(status, serdes) <- ice_read_phy_reg_e822 hw port P_REG_LINK_SPEED ;;
  if failed status then ret (status, ICE_PTP_LNK_SPD_1G, 0)
  else
    (* Determine the FEC algorithm *)
    let fec := P_REG_LINK_SPEED_FEC_MODE serdes in
    let serdes := Z.land serdes P_REG_LINK_SPEED_SERDES_M in
    (* Determine the link speed *)
    match serdes_link_spd fec serdes with
    | None => ret (- EIO, ICE_PTP_LNK_SPD_1G, 0)
    | Some link => ret (0, link, fec)
    end.

Definition ice_calc_fixed_tx_offset_e822 (hw : ice_hw)
    (link_spd : ice_ptp_link_spd) : M Z :=
  let cur_freq := u64 (ice_e822_pll_freq (ice_e822_time_ref hw)) in
  clk_incval <- ice_ptp_read_src_incval hw ;;
  (* Calculate TUs per second *)
  let tu_per_sec := u64 (cur_freq * clk_incval) in
  let fixed_offset := div64_u64 tu_per_sec 10000 in
  let fixed_offset := u64 (fixed_offset * tx_fixed_delay (e822_vernier link_spd)) in
  let fixed_offset := div64_u64 fixed_offset 10000000 in
  ret fixed_offset.

Definition ice_calc_fixed_rx_offset_e822 (hw : ice_hw)
    (link_spd : ice_ptp_link_spd) : M Z :=
  let cur_freq := u64 (ice_e822_pll_freq (ice_e822_time_ref hw)) in
  clk_incval <- ice_ptp_read_src_incval hw ;;
  (* Calculate TUs per second *)
  let tu_per_sec := u64 (cur_freq * clk_incval) in
  let fixed_offset := div64_u64 tu_per_sec 10000 in
  let fixed_offset := u64 (fixed_offset * rx_fixed_delay (e822_vernier link_spd)) in
  let fixed_offset := div64_u64 fixed_offset 10000000 in
  ret fixed_offset.

Definition ice_phy_cfg_tx_offset_e822 (hw : ice_hw) (port : Z) : M Z :=
  (* Nothing to do if we've already programmed the offset *)
  '(status, reg) <- ice_read_phy_reg_e822 hw port P_REG_TX_OR ;;
  if failed status then ret status
  else if negb (reg =? 0) then ret 0
  else
    '(status, reg) <- ice_read_phy_reg_e822 hw port P_REG_TX_OV_STATUS ;;
    if failed status then ret status
    else if Z.land reg P_REG_TX_OV_STATUS_OV_M =? 0 then ret (- EBUSY)
    else
      '(status, link_spd, fec_mode) <- ice_phy_get_speed_and_fec_e822 hw port ;;
      if failed status then ret status
      else
        total_offset <- ice_calc_fixed_tx_offset_e822 hw link_spd ;;
        (* Read the first Vernier offset and add it to the total offset *)
        '(status, total_offset) <-
          (if link_spd_eqb link_spd ICE_PTP_LNK_SPD_1G
              || link_spd_eqb link_spd ICE_PTP_LNK_SPD_10G
              || link_spd_eqb link_spd ICE_PTP_LNK_SPD_25G
              || link_spd_eqb link_spd ICE_PTP_LNK_SPD_25G_RS
              || link_spd_eqb link_spd ICE_PTP_LNK_SPD_40G
              || link_spd_eqb link_spd ICE_PTP_LNK_SPD_50G
           then
             '(status, val) <- ice_read_64b_phy_reg_e822 hw port P_REG_PAR_PCS_TX_OFFSET_L ;;
             if failed status then ret (status, total_offset)
             else ret (0, u64 (total_offset + val))
           else ret (0, total_offset)) ;;
        if failed status then ret status
        else
          (* The second Vernier offset, for multi-lane speeds with RS-FEC *)
          '(status, total_offset) <-
            (if link_spd_eqb link_spd ICE_PTP_LNK_SPD_50G_RS
                || link_spd_eqb link_spd ICE_PTP_LNK_SPD_100G_RS
             then
               '(status, val) <- ice_read_64b_phy_reg_e822 hw port P_REG_PAR_TX_TIME_L ;;
               if failed status then ret (status, total_offset)
               else ret (0, u64 (total_offset + val))
             else ret (0, total_offset)) ;;
          if failed status then ret status
          else
            (* Program the total offset and indicate that it is ready *)
            status <- ice_write_64b_phy_reg_e822 hw port P_REG_TOTAL_TX_OFFSET_L total_offset ;;
            if failed status then ret status
            else
              status <- ice_write_phy_reg_e822 hw port P_REG_TX_OR 1 ;;
              if failed status then ret status
              else ret 0.

(** The multiplier ice_phy_calc_pmd_adj_e822 derives from the PMD alignment
    counter. *)
Definition pmd_adj_mult (link_spd : ice_ptp_link_spd) (fec_mode pmd_align : Z)
    : Z :=
  if link_spd_eqb link_spd ICE_PTP_LNK_SPD_1G then
    if pmd_align =? 4 then 10
    else (pmd_align + 6) mod 10
  else if link_spd_eqb link_spd ICE_PTP_LNK_SPD_10G
          || link_spd_eqb link_spd ICE_PTP_LNK_SPD_25G
          || link_spd_eqb link_spd ICE_PTP_LNK_SPD_40G
          || link_spd_eqb link_spd ICE_PTP_LNK_SPD_50G then
    (* If Clause 74 FEC, always calculate PMD adjust *)
    if negb (pmd_align =? 65) || (fec_mode =? ICE_PTP_FEC_MODE_CLAUSE74)
    then pmd_align
    else 0
  else if link_spd_eqb link_spd ICE_PTP_LNK_SPD_25G_RS
          || link_spd_eqb link_spd ICE_PTP_LNK_SPD_50G_RS
          || link_spd_eqb link_spd ICE_PTP_LNK_SPD_100G_RS then
    if pmd_align <? 17 then pmd_align + 40
    else pmd_align
  else 0.

(** [div64_u64(tu_per_sec, 125) * mult / pmd_adj_divisor] in u64. *)
Definition pmd_scale (tu_per_sec mult pmd_adj_divisor : Z) : Z :=
  let adj := div64_u64 tu_per_sec 125 in
  let adj := u64 (adj * mult) in
  div64_u64 adj pmd_adj_divisor.

(** Returns (status, pmd_adj). *)
Definition ice_phy_calc_pmd_adj_e822 (hw : ice_hw) (port : Z)
    (link_spd : ice_ptp_link_spd) (fec_mode : Z) : M (Z * Z) :=
  '(status, val) <- ice_read_phy_reg_e822 hw port P_REG_PMD_ALIGNMENT ;;
  if failed status then ret (status, 0)
  else
    let pmd_align := u8 val in
    let cur_freq := u64 (ice_e822_pll_freq (ice_e822_time_ref hw)) in
    clk_incval <- ice_ptp_read_src_incval hw ;;
    (* Calculate TUs per second *)
    let tu_per_sec := u64 (cur_freq * clk_incval) in
    (* Get the link speed dependent PMD adjustment divisor *)
    let pmd_adj_divisor := u32 (pmd_adj_divisor (e822_vernier link_spd)) in
    let mult := pmd_adj_mult link_spd fec_mode pmd_align in
    (* In some cases, there's no need to adjust for the PMD alignment *)
    if mult =? 0 then ret (0, 0)
    else
      let adj := pmd_scale tu_per_sec mult pmd_adj_divisor in
      (* For 25G-RS and 50G-RS, a further adjustment for the Rx cycle count *)
      if link_spd_eqb link_spd ICE_PTP_LNK_SPD_25G_RS then
        '(status, val) <- ice_read_phy_reg_e822 hw port P_REG_RX_40_TO_160_CNT ;;
        if failed status then ret (status, 0)
        else
          let rx_cycle := u8 (Z.land val P_REG_RX_40_TO_160_CNT_RXCYC_M) in
          if negb (rx_cycle =? 0) then
            let mult := u64 ((4 - rx_cycle) * 40) in
            let cycle_adj := pmd_scale tu_per_sec mult pmd_adj_divisor in
            ret (0, u64 (adj + cycle_adj))
          else ret (0, adj)
      else if link_spd_eqb link_spd ICE_PTP_LNK_SPD_50G_RS then
        '(status, val) <- ice_read_phy_reg_e822 hw port P_REG_RX_80_TO_160_CNT ;;
        if failed status then ret (status, 0)
        else
          let rx_cycle := u8 (Z.land val P_REG_RX_80_TO_160_CNT_RXCYC_M) in
          if negb (rx_cycle =? 0) then
            let mult := u64 (rx_cycle * 40) in
            let cycle_adj := pmd_scale tu_per_sec mult pmd_adj_divisor in
            ret (0, u64 (adj + cycle_adj))
          else ret (0, adj)
      else ret (0, adj).

Definition ice_phy_cfg_rx_offset_e822 (hw : ice_hw) (port : Z) : M Z :=
  (* Nothing to do if we've already programmed the offset *)
  '(status, reg) <- ice_read_phy_reg_e822 hw port P_REG_RX_OR ;;
  if failed status then ret status
  else if negb (reg =? 0) then ret 0
  else
    '(status, reg) <- ice_read_phy_reg_e822 hw port P_REG_RX_OV_STATUS ;;
    if failed status then ret status
    else if Z.land reg P_REG_RX_OV_STATUS_OV_M =? 0 then ret (- EBUSY)
    else
      '(status, link_spd, fec_mode) <- ice_phy_get_speed_and_fec_e822 hw port ;;
      if failed status then ret status
      else
        total_offset <- ice_calc_fixed_rx_offset_e822 hw link_spd ;;
        (* Read the first Vernier offset and add it to the total offset *)
        '(status, val) <- ice_read_64b_phy_reg_e822 hw port P_REG_PAR_PCS_RX_OFFSET_L ;;
        if failed status then ret status
        else
          let total_offset := u64 (total_offset + val) in
          (* All multi-lane link speeds include a second Vernier calibration *)
          '(status, total_offset) <-
            (if link_spd_eqb link_spd ICE_PTP_LNK_SPD_40G
                || link_spd_eqb link_spd ICE_PTP_LNK_SPD_50G
                || link_spd_eqb link_spd ICE_PTP_LNK_SPD_50G_RS
                || link_spd_eqb link_spd ICE_PTP_LNK_SPD_100G_RS
             then
               '(status, val) <- ice_read_64b_phy_reg_e822 hw port P_REG_PAR_RX_TIME_L ;;
               if failed status then ret (status, total_offset)
               else ret (0, u64 (total_offset + val))
             else ret (0, total_offset)) ;;
          if failed status then ret status
          else
            (* In addition, Rx must account for the PMD alignment *)
            '(status, pmd) <- ice_phy_calc_pmd_adj_e822 hw port link_spd fec_mode ;;
            if failed status then ret status
            else
              (* For RS-FEC, this adjustment adds delay, but for other modes,
                 it subtracts delay. *)
              let total_offset :=
                if fec_mode =? ICE_PTP_FEC_MODE_RS_FEC
                then u64 (total_offset + pmd)
                else u64 (total_offset - pmd) in
              status <- ice_write_64b_phy_reg_e822 hw port P_REG_TOTAL_RX_OFFSET_L total_offset ;;
              if failed status then ret status
              else
                status <- ice_write_phy_reg_e822 hw port P_REG_RX_OR 1 ;;
                if failed status then ret status
                else ret 0.

(** ** 56G PHY offsets *)

Definition ice_calc_fixed_tx_offset_eth56g (hw : ice_hw)
    (link_spd : ice_ptp_link_spd) : Z :=
  let fixed_offset := 0 in
  fixed_offset.

Definition ice_phy_cfg_tx_offset_eth56g (hw : ice_hw) (port : Z) : M Z :=
  let link_spd := ICE_PTP_LNK_SPD_10G in
  let total_offset := ice_calc_fixed_tx_offset_eth56g hw link_spd in
  status <- ice_write_64b_phy_reg_eth56g hw port PHY_REG_TOTAL_TX_OFFSET_L total_offset ;;
  if failed status then ret status
  else ice_write_phy_reg_eth56g hw port PHY_REG_TX_OFFSET_READY 1.

Definition ice_calc_fixed_rx_offset_eth56g (hw : ice_hw)
    (link_spd : ice_ptp_link_spd) : Z :=
  let fixed_offset := 0 in
  fixed_offset.

(** The source passes the literal 0 as link speed, the first enumerator. *)
Definition ice_phy_cfg_rx_offset_eth56g (hw : ice_hw) (port : Z) : M Z :=
  let total_offset := ice_calc_fixed_rx_offset_eth56g hw ICE_PTP_LNK_SPD_1G in
  status <- ice_write_64b_phy_reg_eth56g hw port PHY_REG_TOTAL_RX_OFFSET_L total_offset ;;
  if failed status then ret status
  else ice_write_phy_reg_eth56g hw port PHY_REG_RX_OFFSET_READY 1.

(** ** Clock generation unit *)

(** cgu_msg is a local that is not initialised, and the source assigns
    every field of it but data: the message carries an indeterminate data
    word. *)
Definition ice_read_cgu_reg_e82x (hw : ice_hw) (addr : Z) : M (Z * Z) :=
  unassigned <- uninit_u32 hw ;;
  let cgu_msg := {| opcode := ice_sbq_msg_rd;
                    dest_dev := cgu;
                    msg_addr_low := addr;
                    msg_addr_high := 0;
                    data := unassigned |} in
  '(status, val) <- ice_sbq_rw_reg_lp hw cgu_msg true ;;
  if failed status then ret (status, 0)
  else ret (0, val).

Definition ice_write_cgu_reg_e82x (hw : ice_hw) (addr val : Z) : M Z :=
  let cgu_msg := {| opcode := ice_sbq_msg_wr;
                    dest_dev := cgu;
                    msg_addr_low := addr;
                    msg_addr_high := 0;
                    data := u32 val |} in
  '(status, _) <- ice_sbq_rw_reg_lp hw cgu_msg true ;;
  if failed status then ret status
  else ret 0.

(** [clk_freq] and [clk_src] are in-out parameters of the source: the
    result is (status, clk_freq, clk_src), the last two as the pointers
    hold them on return. *)
Definition ice_cfg_cgu_pll_e822 (hw : ice_hw) (clk_freq clk_src : Z)
    : M (Z * Z * Z) :=
  let fail status := ret (status, clk_freq, clk_src) in
  if clk_freq >=? NUM_ICE_TIME_REF_FREQ then fail (- EINVAL)
  else if clk_src >=? NUM_ICE_CLK_SRC then fail (- EINVAL)
  else if (clk_src =? ICE_CLK_SRC_TCX0)
          && negb (clk_freq =? ICE_TIME_REF_FREQ_25_000) then fail (- EINVAL)
  else
    '(status, dw9) <- ice_read_cgu_reg_e82x hw NAC_CGU_DWORD9 ;;
    if failed status then fail status else
    '(status, dw24) <- ice_read_cgu_reg_e82x hw NAC_CGU_DWORD24 ;;
    if failed status then fail status else
    '(status, bwm_lf) <- ice_read_cgu_reg_e82x hw TSPLL_RO_BWM_LF ;;
    if failed status then fail status else
    (* Disable the PLL before changing the clock source or frequency *)
    '(status, dw24) <-
      (if negb (bf_get dw24_ts_pll_enable dw24 =? 0) then
         let dw24 := bf_set dw24_ts_pll_enable dw24 0 in
         status <- ice_write_cgu_reg_e82x hw NAC_CGU_DWORD24 dw24 ;;
         ret (status, dw24)
       else ret (0, dw24)) ;;
    if failed status then fail status else
    (* Set the frequency *)
    let dw9 := bf_set dw9_time_ref_freq_sel dw9 clk_freq in
    status <- ice_write_cgu_reg_e82x hw NAC_CGU_DWORD9 dw9 ;;
    if failed status then fail status else
    (* Configure the TS PLL feedback divisor *)
    '(status, dw19) <- ice_read_cgu_reg_e82x hw NAC_CGU_DWORD19 ;;
    if failed status then fail status else
    let dw19 := bf_set dw19_tspll_fbdiv_intgr dw19
                  (feedback_div (e822_cgu_params clk_freq)) in
    let dw19 := bf_set dw19_tspll_ndivratio dw19 1 in
    status <- ice_write_cgu_reg_e82x hw NAC_CGU_DWORD19 dw19 ;;
    if failed status then fail status else
    (* Configure the TS PLL post divisor *)
    '(status, dw22) <- ice_read_cgu_reg_e82x hw NAC_CGU_DWORD22 ;;
    if failed status then fail status else
    let dw22 := bf_set dw22_time1588clk_div dw22
                  (post_pll_div (e822_cgu_params clk_freq)) in
    let dw22 := bf_set dw22_time1588clk_sel_div2 dw22 0 in
    status <- ice_write_cgu_reg_e82x hw NAC_CGU_DWORD22 dw22 ;;
    if failed status then fail status else
    (* Configure the TS PLL pre divisor and clock source *)
    '(status, dw24) <- ice_read_cgu_reg_e82x hw NAC_CGU_DWORD24 ;;
    if failed status then fail status else
    let dw24 := bf_set dw24_ref1588_ck_div dw24
                  (refclk_pre_div (e822_cgu_params clk_freq)) in
    let dw24 := bf_set dw24_tspll_fbdiv_frac dw24
                  (frac_n_div (e822_cgu_params clk_freq)) in
    let dw24 := bf_set dw24_time_ref_sel dw24 clk_src in
    status <- ice_write_cgu_reg_e82x hw NAC_CGU_DWORD24 dw24 ;;
    if failed status then fail status else
    (* Finally, enable the PLL *)
    let dw24 := bf_set dw24_ts_pll_enable dw24 1 in
    status <- ice_write_cgu_reg_e82x hw NAC_CGU_DWORD24 dw24 ;;
    if failed status then fail status else
    (* Wait to verify if the PLL locks *)
    msleep 1 ;;;
    '(status, bwm_lf) <- ice_read_cgu_reg_e82x hw TSPLL_RO_BWM_LF ;;
    if failed status then fail status else
    if bf_get bwm_lf_plllock_true_lock_cri bwm_lf =? 0 then fail (- EBUSY)
    else
      ret (0, bf_get dw9_time_ref_freq_sel dw9, bf_get dw24_time_ref_sel dw24).

Definition ice_cfg_cgu_pll_e825c (hw : ice_hw) (clk_freq clk_src : Z)
    : M (Z * Z * Z) :=
  let fail status := ret (status, clk_freq, clk_src) in
  if clk_freq >=? NUM_ICE_TIME_REF_FREQ then fail (- EINVAL)
  else if clk_src >=? NUM_ICE_CLK_SRC then fail (- EINVAL)
  else if (clk_src =? ICE_CLK_SRC_TCX0)
          && negb (clk_freq =? ICE_TIME_REF_FREQ_25_000) then fail (- EINVAL)
  else
    '(status, dw9) <- ice_read_cgu_reg_e82x hw NAC_CGU_DWORD9 ;;
    if failed status then fail status else
    '(status, dw24) <- ice_read_cgu_reg_e82x hw NAC_CGU_DWORD24 ;;
    if failed status then fail status else
    '(status, dw23) <- ice_read_cgu_reg_e82x hw NAC_CGU_DWORD23_E825C ;;
    if failed status then fail status else
    '(status, ro_lock) <- ice_read_cgu_reg_e82x hw TSPLL_RO_LOCK_E825C ;;
    if failed status then fail status else
    (* Disable the PLL before changing the clock source or frequency *)
    '(status, dw23) <-
      (if negb (bf_get dw23_ts_pll_enable dw23 =? 0) then
         let dw23 := bf_set dw23_ts_pll_enable dw23 0 in
         status <- ice_write_cgu_reg_e82x hw NAC_CGU_DWORD23_E825C dw23 ;;
         ret (status, dw23)
       else ret (0, dw23)) ;;
    if failed status then fail status else
    (* Set the frequency *)
    let dw9 := bf_set dw9_time_ref_freq_sel dw9 clk_freq in
    status <- ice_write_cgu_reg_e82x hw NAC_CGU_DWORD9 dw9 ;;
    if failed status then fail status else
    (* Configure the TS PLL feedback divisor *)
    '(status, dw19) <- ice_read_cgu_reg_e82x hw NAC_CGU_DWORD19 ;;
    if failed status then fail status else
    let dw19 := bf_set dw19_tspll_fbdiv_intgr dw19
                  (feedback_div (e822_cgu_params clk_freq)) in
    let dw19 := bf_set dw19_tspll_ndivratio dw19 1 in
    status <- ice_write_cgu_reg_e82x hw NAC_CGU_DWORD19 dw19 ;;
    if failed status then fail status else
    (* Configure the TS PLL post divisor *)
    '(status, dw22) <- ice_read_cgu_reg_e82x hw NAC_CGU_DWORD22 ;;
    if failed status then fail status else
    let dw22 := bf_set dw22_time1588clk_div dw22
                  (post_pll_div (e822_cgu_params clk_freq)) in
    let dw22 := bf_set dw22_time1588clk_sel_div2 dw22 0 in
    status <- ice_write_cgu_reg_e82x hw NAC_CGU_DWORD22 dw22 ;;
    if failed status then fail status else
    (* Configure the TS PLL pre divisor and clock source *)
    '(status, dw23) <- ice_read_cgu_reg_e82x hw NAC_CGU_DWORD23_E825C ;;
    if failed status then fail status else
    let dw23 := bf_set dw23_ref1588_ck_div dw23
                  (refclk_pre_div (e822_cgu_params clk_freq)) in
    let dw23 := bf_set dw23_time_ref_sel dw23 clk_src in
    status <- ice_write_cgu_reg_e82x hw NAC_CGU_DWORD23_E825C dw23 ;;
    if failed status then fail status else
    let dw24 := bf_set dw24_tspll_fbdiv_frac dw24
                  (frac_n_div (e822_cgu_params clk_freq)) in
    status <- ice_write_cgu_reg_e82x hw NAC_CGU_DWORD24 dw24 ;;
    if failed status then fail status else
    (* Finally, enable the PLL *)
    let dw23 := bf_set dw23_ts_pll_enable dw23 1 in
    status <- ice_write_cgu_reg_e82x hw NAC_CGU_DWORD23_E825C dw23 ;;
    if failed status then fail status else
    (* Wait to verify if the PLL locks *)
    msleep 1 ;;;
    '(status, ro_lock) <- ice_read_cgu_reg_e82x hw TSPLL_RO_LOCK_E825C ;;
    if failed status then fail status else
    if bf_get ro_lock_plllock_true_lock_cri ro_lock =? 0 then fail (- EBUSY)
    else
      ret (0, bf_get dw9_time_ref_freq_sel dw9, bf_get dw23_time_ref_sel dw23).

(** ice_aq_get_cgu_dpll_status: the admin-queue command, answered by the
    firmware. *)
Definition ice_aq_get_cgu_dpll_status (hw : ice_hw) (dpll_idx : Z)
    : M cgu_dpll_status :=
  fun t => let r := dev_aq_get_cgu_dpll_status (dev hw) t dpll_idx in
           (r, t ++ [EvAq dpll_idx (aq_status r)]).

(** The result is (state, pin, phase_offset); [pin] and [phase_offset] are
    what the two buffers hold when both pointers are given, and are
    written only after a successful status query. *)
Definition ice_get_cgu_state (hw : ice_hw) (dpll_idx : Z)
    (last_dpll_state : ice_cgu_state) : M (ice_cgu_state * Z * Z) :=
  if dpll_idx >=? ICE_CGU_DPLL_MAX then ret (ICE_CGU_STATE_INVALID, 0, 0)
  else
    r <- ice_aq_get_cgu_dpll_status hw dpll_idx ;;
    if failed (aq_status r) then ret (ICE_CGU_STATE_INVALID, 0, 0)
    else
      let dpll_state := u16 (aq_dpll_state r) in
      (* current ref pin in dpll_state_refsel_status_X register *)
      let pin :=
        u8 (Z.shiftr (Z.land dpll_state ICE_AQC_GET_CGU_DPLL_STATUS_STATE_CLK_REF_SEL)
                     ICE_AQC_GET_CGU_DPLL_STATUS_STATE_CLK_REF_SHIFT) in
      let phase_offset := aq_phase_offset r in
      if negb (Z.land dpll_state ICE_AQC_GET_CGU_DPLL_STATUS_STATE_LOCK =? 0) then
        if negb (Z.land dpll_state ICE_AQC_GET_CGU_DPLL_STATUS_STATE_HO_READY =? 0)
        then ret (ICE_CGU_STATE_LOCKED_HO_ACQ, pin, phase_offset)
        else ret (ICE_CGU_STATE_LOCKED, pin, phase_offset)
      else
        match last_dpll_state with
        | ICE_CGU_STATE_LOCKED_HO_ACQ | ICE_CGU_STATE_HOLDOVER =>
            ret (ICE_CGU_STATE_HOLDOVER, pin, phase_offset)
        | _ => ret (ICE_CGU_STATE_FREERUN, pin, phase_offset)
        end.

(** ** The global PTP semaphore *)

Definition MAX_TRIES : nat := 15.

Definition ptp_sem_addr (hw : ice_hw) : Z :=
  PFTSYN_SEM + PFTSYN_SEM_BYTES * pf_id hw.

(** The loop of ice_ptp_lock with [tries] iterations left; the result is
    hw_lock when the loop is left. *)
Fixpoint ice_ptp_lock_loop (hw : ice_hw) (tries : nat) (hw_lock : Z) : M Z :=
  match tries with
  | O => ret hw_lock
  | S tries' =>
      hw_lock <- rd32 hw (ptp_sem_addr hw) ;;
      let hw_lock := Z.land hw_lock PFTSYN_SEM_BUSY_M in
      if hw_lock =? 0 then ret hw_lock
      else
        (* Somebody is holding the lock *)
        usleep_range 5000 6000 ;;;
        ice_ptp_lock_loop hw tries' hw_lock
  end.

(** hw_lock is not initialised before the loop; as MAX_TRIES is positive
    the first iteration assigns it. *)
Definition ice_ptp_lock (hw : ice_hw) : M bool :=
  hw_lock <- ice_ptp_lock_loop hw MAX_TRIES 0 ;;
  ret (hw_lock =? 0).

Definition ice_ptp_unlock (hw : ice_hw) : M unit :=
  wr32 hw (ptp_sem_addr hw) 0.

(** ** Increment value *)

Definition ice_ptp_prep_phy_incval_eth56g (hw : ice_hw) (incval : Z) : M Z :=
  for_ports (max_phy_port hw)
    (fun port => ice_write_40b_phy_reg_eth56g hw port PHY_REG_TIMETUS_L incval).

Definition ice_ptp_prep_phy_incval_e822 (hw : ice_hw) (incval : Z) : M Z :=
  for_ports (phy_ports hw)
    (fun port => ice_write_40b_phy_reg_e822 hw port P_REG_TIMETUS_L incval).

Definition ice_ptp_prep_phy_incval_e810 (hw : ice_hw) (incval : Z) : M Z :=
  let tmr_idx := tmr_index_owned hw in
  let low := lower_32_bits incval in
  let high := upper_32_bits incval in
  status <- ice_write_phy_reg_e810 hw (ETH_GLTSYN_SHADJ_L tmr_idx) low ;;
  if failed status then ret status
  else
    status <- ice_write_phy_reg_e810 hw (ETH_GLTSYN_SHADJ_H tmr_idx) high ;;
    if failed status then ret status
    else ret 0.

Definition ice_ptp_write_incval (hw : ice_hw) (incval : Z) (wr_main_tmr : bool)
    : M Z :=
  let tmr_idx := tmr_index_owned hw in
  (if wr_main_tmr then
     (* Shadow Adjust *)
     wr32 hw (GLTSYN_SHADJ_L tmr_idx) (lower_32_bits incval) ;;;
     wr32 hw (GLTSYN_SHADJ_H tmr_idx) (upper_32_bits incval)
   else ret tt) ;;;
  status <- match phy_model hw with
            | ICE_PHY_ETH56G => ice_ptp_prep_phy_incval_eth56g hw incval
            | ICE_PHY_E810 => ice_ptp_prep_phy_incval_e810 hw incval
            | ICE_PHY_E822 => ice_ptp_prep_phy_incval_e822 hw incval
            | ICE_PHY_UNSUP => ret (- EOPNOTSUPP)
            end ;;
  if failed status then ret status
  else ice_ptp_tmr_cmd hw ICE_PTP_INIT_INCVAL true.

Definition ice_ptp_write_incval_locked (hw : ice_hw) (incval : Z)
    (wr_main_tmr : bool) : M Z :=
  locked <- ice_ptp_lock hw ;;
  if negb locked then ret (- EBUSY)
  else
    status <- ice_ptp_write_incval hw incval wr_main_tmr ;;
    ice_ptp_unlock hw ;;;
    ret status.

(** ** E822: synchronising a port timer with the PHC *)

Definition ice_ptp_prep_port_adj_e822 (hw : ice_hw) (port time : Z)
    (lock_sbq : bool) : M Z :=
  let l_time := lower_32_bits time in
  let u_time := upper_32_bits time in
  (* Tx case *)
  status <- ice_write_phy_reg_e822_lp hw port P_REG_TX_TIMER_INC_PRE_L l_time lock_sbq ;;
  if failed status then ret status
  else
    status <- ice_write_phy_reg_e822_lp hw port P_REG_TX_TIMER_INC_PRE_U u_time lock_sbq ;;
    if failed status then ret status
    else
      (* Rx case *)
      status <- ice_write_phy_reg_e822_lp hw port P_REG_RX_TIMER_INC_PRE_L l_time lock_sbq ;;
      if failed status then ret status
      else
        status <- ice_write_phy_reg_e822_lp hw port P_REG_RX_TIMER_INC_PRE_U u_time lock_sbq ;;
        if failed status then ret status
        else ret 0.

(** Returns (status, tx_ts, rx_ts). *)
Definition ice_ptp_read_port_capture_e822 (hw : ice_hw) (port : Z)
    : M (Z * Z * Z) :=
  (* Tx case *)
  '(status, tx_ts) <- ice_read_64b_phy_reg_e822 hw port P_REG_TX_CAPTURE_L ;;
  if failed status then ret (status, 0, 0)
  else
    (* Rx case *)
    '(status, rx_ts) <- ice_read_64b_phy_reg_e822 hw port P_REG_RX_CAPTURE_L ;;
    if failed status then ret (status, tx_ts, 0)
    else ret (0, tx_ts, rx_ts).

(** Returns (status, phy_time, phc_time). *)
Definition ice_read_phy_and_phc_time_e822 (hw : ice_hw) (port : Z)
    : M (Z * Z * Z) :=
  let tmr_idx := ice_get_ptp_src_clock_index hw in
  (* Prepare the PHC timer for a ICE_PTP_READ_TIME capture command *)
  ice_ptp_src_cmd hw ICE_PTP_READ_TIME ;;;
  (* Prepare the PHY timer for a ICE_PTP_READ_TIME capture command *)
  status <- ice_ptp_one_port_cmd_e822 hw port ICE_PTP_READ_TIME true ;;
  if failed status then ret (status, 0, 0)
  else
    (* Issue the sync to start the ICE_PTP_READ_TIME capture *)
    ice_ptp_exec_tmr_cmd hw ;;;
    ice_ptp_clean_cmd hw ;;;
    (* Read the captured PHC time from the shadow time registers *)
    zo <- rd32 hw (GLTSYN_SHTIME_0 tmr_idx) ;;
    lo <- rd32 hw (GLTSYN_SHTIME_L tmr_idx) ;;
    let phc_time := Z.lor (Z.shiftl lo 32) zo in
    (* Read the captured PHY time from the PHY shadow registers *)
    '(status, tx_time, rx_time) <- ice_ptp_read_port_capture_e822 hw port ;;
    if failed status then ret (status, 0, phc_time)
    else ret (0, tx_time, phc_time).

Definition ice_sync_phy_timer_e822 (hw : ice_hw) (port : Z) : M Z :=
  locked <- ice_ptp_lock hw ;;
  if negb locked then ret (- EBUSY)
  else
    let err_unlock status := (ice_ptp_unlock hw ;;; ret status) in
    '(status, phy_time, phc_time) <- ice_read_phy_and_phc_time_e822 hw port ;;
    if failed status then err_unlock status
    else
      (* The amount to add to the port time, in 2s complement arithmetic *)
      let difference := u64 (phc_time - phy_time) in
      status <- ice_ptp_prep_port_adj_e822 hw port difference true ;;
      if failed status then err_unlock status
      else
        status <- ice_ptp_one_port_cmd_e822 hw port ICE_PTP_ADJ_TIME true ;;
        if failed status then err_unlock status
        else
          (* Init PHC mstr/src cmd for exec during sync *)
          ice_ptp_src_cmd hw ICE_PTP_READ_TIME ;;;
          (* Issue the sync to activate the time adjustment *)
          ice_ptp_exec_tmr_cmd hw ;;;
          ice_ptp_clean_cmd hw ;;;
          (* Re-capture the timer values to flush the command registers *)
          '(status, phy_time, phc_time) <- ice_read_phy_and_phc_time_e822 hw port ;;
          if failed status then err_unlock status
          else
            ice_ptp_unlock hw ;;;
            ret 0.

(** ** Timestamp extraction *)

(** Returns (status, tstamp). *)
Definition ice_read_phy_tstamp_eth56g (hw : ice_hw) (port idx : Z)
    : M (Z * Z) :=
  let lo_addr := u16 (PHY_TSTAMP_L idx) in
  let hi_addr := u16 (PHY_TSTAMP_U idx) in
  '(status, lo) <- ice_phy_port_mem_read_eth56g hw port lo_addr ;;
  if failed status then ret (status, 0)
  else
    '(status, hi) <- ice_phy_port_mem_read_eth56g hw port hi_addr ;;
    if failed status then ret (status, 0)
    else
      ret (0, u64 (Z.lor (Z.shiftl hi TS_PHY_HIGH_S) (Z.land lo TS_PHY_LOW_M))).

(** A failure of the read is only logged. *)
Definition ice_clear_phy_tstamp_eth56g (hw : ice_hw) (port idx : Z) : M Z :=
  '(status, unused_tstamp) <- ice_read_phy_tstamp_eth56g hw port idx ;;
  let lo_addr := u16 (PHY_TSTAMP_L idx) in
  status <- ice_phy_port_mem_write_eth56g hw port lo_addr 0 ;;
  if failed status then ret status
  else ret 0.

(** ice_fill_quad_msg_e822 on a zeroed message; [None] is -EINVAL. *)
Definition ice_fill_quad_msg_e822 (quad offset : Z) (op : ice_sbq_msg_opcode)
    (val : Z) : option ice_sbq_msg_input :=
  if quad >=? ICE_MAX_QUAD then None
  else
    let addr :=
      if quad mod ICE_QUADS_PER_PHY_E822 =? 0 then u32 (Q_0_BASE + offset)
      else u32 (Q_1_BASE + offset) in
    Some {| dest_dev := rmn_0;
            msg_addr_low := ICE_LO_WORD addr;
            msg_addr_high := ICE_HI_WORD addr;
            opcode := op;
            data := val |}.

Definition ice_read_quad_reg_e822_lp (hw : ice_hw) (quad offset : Z)
    (lock_sbq : bool) : M (Z * Z) :=
  match ice_fill_quad_msg_e822 quad offset ice_sbq_msg_rd 0 with
  | None => ret (- EINVAL, 0)
  | Some msg =>
      '(status, val) <- ice_sbq_rw_reg_lp hw msg lock_sbq ;;
      if failed status then ret (status, 0)
      else ret (status, val)
  end.

Definition ice_read_quad_reg_e822 (hw : ice_hw) (quad offset : Z) : M (Z * Z) :=
  ice_read_quad_reg_e822_lp hw quad offset true.

Definition ice_write_quad_reg_e822_lp (hw : ice_hw) (quad offset val : Z)
    (lock_sbq : bool) : M Z :=
  match ice_fill_quad_msg_e822 quad offset ice_sbq_msg_wr (u32 val) with
  | None => ret (- EINVAL)
  | Some msg =>
      '(status, _) <- ice_sbq_rw_reg_lp hw msg lock_sbq ;;
      ret status
  end.

Definition ice_write_quad_reg_e822 (hw : ice_hw) (quad offset val : Z) : M Z :=
  ice_write_quad_reg_e822_lp hw quad offset val true.

(** Returns (status, tstamp). *)
Definition ice_read_phy_tstamp_e822 (hw : ice_hw) (quad idx : Z) : M (Z * Z) :=
  let lo_addr := u16 (TS_L Q_REG_TX_MEMORY_BANK_START idx) in
  let hi_addr := u16 (TS_H Q_REG_TX_MEMORY_BANK_START idx) in
  '(status, lo) <- ice_read_quad_reg_e822 hw quad lo_addr ;;
  if failed status then ret (status, 0)
  else
    '(status, hi) <- ice_read_quad_reg_e822 hw quad hi_addr ;;
    if failed status then ret (status, 0)
    else
      ret (0, u64 (Z.lor (Z.shiftl hi TS_PHY_HIGH_S) (Z.land lo TS_PHY_LOW_M))).

Definition ice_clear_phy_tstamp_e822 (hw : ice_hw) (quad idx : Z) : M Z :=
  '(status, unused_tstamp) <- ice_read_phy_tstamp_e822 hw quad idx ;;
  if failed status then ret status
  else ret 0.

(** The polling loop of ice_read_phy_tstamp_ll_e810, [i] iterations left;
    returns (status, hi, lo). *)
Fixpoint ice_read_phy_tstamp_ll_e810_loop (hw : ice_hw) (i : nat)
    : M (Z * Z * Z) :=
  match i with
  | O =>
      (* FW failed to provide the TS in time *)
      ret (- EBUSY, 0, 0)
  | S i' =>
      val <- rd32 hw PF_SB_ATQBAL ;;
      (* When the bit is cleared, the TS is ready in the register *)
      if Z.land val TS_LL_READ_TS =? 0 then
        (* High 8 bit value of the TS is on the bits 16:23 *)
        let hi := u8 (Z.shiftr val TS_LL_READ_TS_HIGH_S) in
        (* Read the low 32 bit value and set the TS valid bit *)
        lo <- rd32 hw PF_SB_ATQBAH ;;
        ret (0, hi, u32 (Z.lor lo TS_VALID))
      else
        udelay 10 ;;;
        ice_read_phy_tstamp_ll_e810_loop hw i'
  end.

Definition ice_read_phy_tstamp_ll_e810 (hw : ice_hw) (idx : Z)
    : M (Z * Z * Z) :=
  (* Write TS index to read to the PF register so the FW can read it *)
  wr32 hw PF_SB_ATQBAL (TS_LL_READ_TS_IDX idx) ;;;
  (* Read the register repeatedly until the FW provides us the TS *)
  ice_read_phy_tstamp_ll_e810_loop hw (Z.to_nat (u8 TS_LL_READ_RETRIES)).

Definition ice_read_phy_tstamp_sbq_e810 (hw : ice_hw) (lport idx : Z)
    : M (Z * Z * Z) :=
  let hi_addr := u32 (TS_EXT HIGH_TX_MEMORY_BANK_START lport idx) in
  let lo_addr := u32 (TS_EXT LOW_TX_MEMORY_BANK_START lport idx) in
  '(status, lo_val) <- ice_read_phy_reg_e810 hw lo_addr ;;
  if failed status then ret (status, 0, 0)
  else
    '(status, hi_val) <- ice_read_phy_reg_e810 hw hi_addr ;;
    if failed status then ret (status, 0, 0)
    else ret (0, u8 hi_val, lo_val).

(** Returns (status, tstamp). *)
Definition ice_read_phy_tstamp_e810 (hw : ice_hw) (lport idx : Z) : M (Z * Z) :=
  '(status, hi, lo) <-
    (if ts_ll_read hw then ice_read_phy_tstamp_ll_e810 hw idx
     else ice_read_phy_tstamp_sbq_e810 hw lport idx) ;;
  if failed status then ret (status, 0)
  else ret (0, u64 (Z.lor (Z.shiftl hi TS_HIGH_S) (Z.land lo TS_LOW_M))).

Definition ice_clear_phy_tstamp_e810 (hw : ice_hw) (lport idx : Z) : M Z :=
  '(status, unused_tstamp) <- ice_read_phy_tstamp_e810 hw lport idx ;;
  if failed status then ret status
  else
    let lo_addr := u32 (TS_EXT LOW_TX_MEMORY_BANK_START lport idx) in
    let hi_addr := u32 (TS_EXT HIGH_TX_MEMORY_BANK_START lport idx) in
    status <- ice_write_phy_reg_e810 hw lo_addr 0 ;;
    if failed status then ret status
    else
      status <- ice_write_phy_reg_e810 hw hi_addr 0 ;;
      if failed status then ret status
      else ret 0.

Definition ice_clear_phy_tstamp (hw : ice_hw) (block idx : Z) : M Z :=
  match phy_model hw with
  | ICE_PHY_ETH56G => ice_clear_phy_tstamp_eth56g hw block idx
  | ICE_PHY_E810 => ice_clear_phy_tstamp_e810 hw block idx
  | ICE_PHY_E822 => ice_clear_phy_tstamp_e822 hw block idx
  | ICE_PHY_UNSUP => ret (- EOPNOTSUPP)
  end.

(** ** Reading traces *)

(** The events a program adds to the history [t]. *)
Definition issued {A : Type} (m : M A) (t : trace) : list event :=
  skipn (length t) (snd (m t)).

(** A register write: a memory-mapped write or a sideband write message. *)
Definition is_write (e : event) : bool :=
  match e with
  | EvWr32 _ _ => true
  | EvSbq msg _ _ _ =>
      match opcode msg with ice_sbq_msg_wr => true | ice_sbq_msg_rd => false end
  | _ => false
  end.

Definition is_wr32_to (addr : Z) (e : event) : bool :=
  match e with
  | EvWr32 a _ => a =? addr
  | _ => false
  end.

Definition is_sbq (e : event) : bool :=
  match e with
  | EvSbq _ _ _ _ => true
  | _ => false
  end.

Definition count_ev (p : event -> bool) (evs : list event) : nat :=
  length (filter p evs).

(** [shape m S]: from every history, [m] returns some result [a] and
    extends the history by some events [evs] with [S a evs]. *)
Definition shape {A : Type} (m : M A) (S : A -> list event -> Prop) : Prop :=
  forall t, exists a evs, m t = (a, t ++ evs) /\ S a evs.

(** [n] consecutive calls of a program, the results in call order. *)
Fixpoint repeat_call {A : Type} (n : nat) (m : M A) : M (list A) :=
  match n with
  | O => ret []
  | S n' =>
      a <- m ;;
      rest <- repeat_call n' m ;;
      ret (a :: rest)
  end.

End Driver.

(** * NVM access (the second half of the file)

    The NVM code talks to the firmware through the admin queue and to a
    few registers.  It gets its own trace: admin queue commands with the
    answers of the firmware, resource requests, register accesses.  A
    program that does not leave a loop yields [None]; the loops of the
    source that are no plain [for] carry the number of rounds the model
    follows them. *)

(** Status codes of enum ice_status and the constants of ice_adminq_cmd.h,
    ice_controlq.h, ice_nvm.h and ice_hw_autogen.h used by the NVM code. *)
Class NvmDefs := {
  ICE_ERR_PARAM : Z;
  ICE_ERR_INVAL_SIZE : Z;
  ICE_ERR_DOES_NOT_EXIST : Z;
  ICE_ERR_OUT_OF_RANGE : Z;
  ICE_ERR_NO_MEMORY : Z;
  ICE_ERR_AQ_ERROR : Z;
  ICE_ERR_NVM_CHECKSUM : Z;
  ICE_AQ_RC_EINVAL : Z;
  ICE_AQC_NVM_MAX_OFFSET : Z;
  ICE_AQ_MAX_BUF_LEN : Z;
  ICE_AQC_NVM_START_POINT : Z;
  ICE_AQC_NVM_FLASH_ONLY : Z;
  ICE_AQC_NVM_LAST_CMD : Z;
  ICE_AQC_NVM_CHECKSUM_VERIFY : Z;
  ICE_AQC_NVM_CHECKSUM_CORRECT : Z;
  ICE_NVM_RES_ID : Z;
  ICE_NVM_TIMEOUT : Z;
  ICE_RES_READ : Z;
  ICE_SR_PFA_PTR : Z;
  ICE_SR_PBA_BLOCK_PTR : Z;
  (* NVM access requests *)
  ICE_NVM_CFG_MODULE_M : Z;
  ICE_NVM_CFG_MODULE_S : Z;
  ICE_NVM_CFG_FLAGS_M : Z;
  ICE_NVM_CFG_FLAGS_S : Z;
  ICE_NVM_CFG_EXT_FLAGS_M : Z;
  ICE_NVM_CFG_ADAPTER_INFO_M : Z;
  ICE_NVM_CFG_ADAPTER_INFO_S : Z;
  ICE_NVM_CMD_READ : Z;
  ICE_NVM_CMD_WRITE : Z;
  ICE_NVM_REG_RW_MODULE : Z;
  ICE_NVM_REG_RW_FLAGS : Z;
  ICE_NVM_GET_FEATURES_MODULE : Z;
  ICE_NVM_GET_FEATURES_FLAGS : Z;
  ICE_NVM_ACCESS_MAJOR_VER : Z;
  ICE_NVM_ACCESS_MINOR_VER : Z;
  ICE_NVM_FEATURES_0_REG_ACCESS : Z;
  sizeof_ice_nvm_features : Z;
  sizeof_regval : Z;
  GL_HICR : Z;
  GL_HICR_EN : Z;
  GL_FWSTS : Z;
  GL_MNG_FWSM : Z;
  GLGEN_CSR_DEBUG_C : Z;
  GLGEN_RSTAT : Z;
  GLPCI_LBARCTRL : Z;
  GLNVM_GENS : Z;
  GLNVM_FLA : Z;
  PF_FUNC_RID : Z;
  GL_HIDA : Z -> Z;
  GL_HIBA : Z -> Z;
  ICE_NVM_ACCESS_GL_HIDA_MAX : Z;
  ICE_NVM_ACCESS_GL_HIBA_MAX : Z
}.

(** struct ice_aqc_nvm, the parameters of the NVM read command (0x0701). *)
Record ice_aqc_nvm := mk_aqc_nvm {
  offset_low : Z;
  offset_high : Z;
  cmd_flags : Z;
  module_typeid : Z;
  nvm_length : Z
}.

Inductive nvm_event :=
| NvAcquireRes (res access timeout status rc : Z)
| NvReleaseRes (res rc : Z)
| NvAqRead (cmd : ice_aqc_nvm) (buf_size status rc : Z) (bytes : list Z)
| NvAqChecksum (flags status rc checksum : Z)
| NvRd32 (addr val : Z)
| NvWr32 (addr val : Z).

Definition nvm_trace := list nvm_event.

(** The firmware and the registers: how they answer after a given history.
    An admin queue command is answered with a status, the return code the
    queue keeps in sq_last_status, and its payload. *)
Record nvm_device := mk_nvm_device {
  nv_acquire_res : nvm_trace -> Z -> Z -> Z -> Z * Z;
  nv_release_res : nvm_trace -> Z -> Z;
  nv_aq_nvm_read : nvm_trace -> ice_aqc_nvm -> Z * Z * (nat -> Z);
  nv_aq_nvm_checksum : nvm_trace -> Z -> Z * Z * Z;
  nv_rd32 : nvm_trace -> Z -> Z
}.

(** The fields of struct ice_hw that the NVM code reads: hw->nvm.sr_words,
    hw->nvm.blank_nvm_mode, hw->device_id, and hw->adminq.sq_last_status as
    it is before the first command of the history. *)
Record nvm_hw := mk_nvm_hw {
  sr_words : Z;
  blank_nvm_mode : bool;
  device_id : Z;
  sq_last_status0 : Z;
  nvm_dev : nvm_device
}.

Definition Nvm (A : Type) : Type := nvm_trace -> option (A * nvm_trace).

Definition nvm_ret {A : Type} (a : A) : Nvm A := fun t => Some (a, t).

Definition nvm_bind {A B : Type} (m : Nvm A) (k : A -> Nvm B) : Nvm B :=
  fun t => match m t with
           | Some (a, t') => k a t'
           | None => None
           end.

(** The model stops following a loop. *)
Definition nvm_unfinished {A : Type} : Nvm A := fun _ => None.

Declare Scope nvm_scope.
Delimit Scope nvm_scope with nvm.
Notation "x <- m ;; k" := (nvm_bind m (fun x => k))
  (at level 61, m at next level, right associativity) : nvm_scope.
Notation "' pat <- m ;; k" := (nvm_bind m (fun x => match x with pat => k end))
  (at level 61, pat pattern, m at next level, right associativity) : nvm_scope.
Notation "m ;;; k" := (nvm_bind m (fun _ => k))
  (at level 61, right associativity) : nvm_scope.

Section NvmModel.
Context {nvm_defs : NvmDefs}.
Local Open Scope nvm_scope.

(** hw->adminq.sq_last_status after the history [t]: the return code of the
    last admin queue command. *)
Definition sq_last_status (hw : nvm_hw) (t : nvm_trace) : Z :=
  fold_left
    (fun acc e =>
       match e with
       | NvAcquireRes _ _ _ _ rc => rc
       | NvReleaseRes _ rc => rc
       | NvAqRead _ _ _ rc _ => rc
       | NvAqChecksum _ _ rc _ => rc
       | NvRd32 _ _ | NvWr32 _ _ => acc
       end)
    t (sq_last_status0 hw).

Definition read_sq_last_status (hw : nvm_hw) : Nvm Z :=
  fun t => Some (sq_last_status hw t, t).

(** ice_acquire_res and ice_release_res of ice_common.c. *)
Definition ice_acquire_res (hw : nvm_hw) (res access timeout : Z) : Nvm Z :=
  fun t => let (status, rc) := nv_acquire_res (nvm_dev hw) t res access timeout in
           Some (status, t ++ [NvAcquireRes res access timeout status rc]).

Definition ice_release_res (hw : nvm_hw) (res : Z) : Nvm unit :=
  fun t => Some (tt, t ++ [NvReleaseRes res (nv_release_res (nvm_dev hw) t res)]).

(** ice_aq_send_cmd for an NVM read: the firmware fills the buffer, which
    has room for [buf_size] bytes. *)
Definition ice_aq_send_cmd_nvm_read (hw : nvm_hw) (cmd : ice_aqc_nvm)
    (buf_size : Z) : Nvm (Z * list Z) :=
  fun t => let '(status, rc, payload) := nv_aq_nvm_read (nvm_dev hw) t cmd in
           let bytes := map (fun i => u8 (payload i)) (seq 0 (Z.to_nat buf_size)) in
           Some ((status, bytes), t ++ [NvAqRead cmd buf_size status rc bytes]).

(** ice_aq_send_cmd for the checksum command (0x0706); returns the status
    and the checksum field of the answer. *)
Definition ice_aq_send_cmd_nvm_checksum (hw : nvm_hw) (flags : Z) : Nvm (Z * Z) :=
  fun t => let '(status, rc, checksum) := nv_aq_nvm_checksum (nvm_dev hw) t flags in
           Some ((status, u16 checksum),
                 t ++ [NvAqChecksum flags status rc (u16 checksum)]).

Definition nvm_rd32 (hw : nvm_hw) (addr : Z) : Nvm Z :=
  fun t => let v := u32 (nv_rd32 (nvm_dev hw) t addr) in
           Some (v, t ++ [NvRd32 addr v]).

Definition nvm_wr32 (hw : nvm_hw) (addr val : Z) : Nvm unit :=
  fun t => Some (tt, t ++ [NvWr32 addr (u32 val)]).

(** Returns (status, bytes delivered).  ice_fill_dflt_direct_cmd_desc
    leaves the parameters of the descriptor zeroed. *)
Definition ice_aq_read_nvm (hw : nvm_hw) (module_typeid offset length : Z)
    (last_command read_shadow_ram : bool) : Nvm (Z * list Z) :=
  if offset >? ICE_AQC_NVM_MAX_OFFSET then nvm_ret (ICE_ERR_PARAM, [])
  else
    let flags := 0 in
    let flags :=
      if negb read_shadow_ram && (module_typeid =? ICE_AQC_NVM_START_POINT)
      then u8 (Z.lor flags ICE_AQC_NVM_FLASH_ONLY) else flags in
    (* If this is the last command in a series, set the proper flag. *)
    let flags :=
      if last_command then u8 (Z.lor flags ICE_AQC_NVM_LAST_CMD) else flags in
    let cmd := {| cmd_flags := flags;
                  module_typeid := u16 module_typeid;
                  offset_low := u16 (Z.land offset 0xFFFF);
                  offset_high := u8 (Z.land (Z.shiftr offset 16) 0xFF);
                  nvm_length := u16 length |} in
    ice_aq_send_cmd_nvm_read hw cmd (u16 length).

(** The buffer [data] after [chunk] has been stored at position [pos]. *)
Definition store_at (data : list Z) (pos : Z) (chunk : list Z) : list Z :=
  firstn (Z.to_nat pos) data ++ chunk
  ++ skipn (Z.to_nat pos + length chunk) data.

(** The do-while loop of ice_read_flat_nvm, followed for [rounds] rounds;
    returns (status, bytes_read, data). *)
Fixpoint ice_read_flat_nvm_loop (rounds : nat) (hw : nvm_hw)
    (offset inlen bytes_read : Z) (data : list Z) (read_shadow_ram : bool)
    : Nvm (Z * Z * list Z) :=
  match rounds with
  | O => nvm_unfinished
  | S rounds' =>
      (* ice_aq_read_nvm cannot read more than 4Kb at a time, and a read
         from the Shadow RAM may not cross over a sector boundary. *)
      let sector_offset := offset mod ICE_AQ_MAX_BUF_LEN in
      let read_size :=
        Z.min (u32 (ICE_AQ_MAX_BUF_LEN - sector_offset))
              (u32 (inlen - bytes_read)) in
      let last_cmd := negb (u32 (bytes_read + read_size) <? inlen) in
      '(status, chunk) <-
        ice_aq_read_nvm hw ICE_AQC_NVM_START_POINT offset (u16 read_size)
          last_cmd read_shadow_ram ;;
      let data := store_at data bytes_read chunk in
      if failed status then nvm_ret (status, bytes_read, data)
      else
        let bytes_read := u32 (bytes_read + read_size) in
        let offset := u32 (offset + read_size) in
        if last_cmd then nvm_ret (status, bytes_read, data)
        else ice_read_flat_nvm_loop rounds' hw offset inlen bytes_read data
               read_shadow_ram
  end.

(** [length] is the value of *length on entry, [data] the buffer on entry;
    returns (status, *length, data).  Every round but the last reads at
    least one byte, so the loop is followed for [length] + 1 rounds. *)
Definition ice_read_flat_nvm (hw : nvm_hw) (offset length : Z) (data : list Z)
    (read_shadow_ram : bool) : Nvm (Z * Z * list Z) :=
  let inlen := length in
  (* Verify the length of the read if this is for the Shadow RAM *)
  if read_shadow_ram && (u32 (offset + inlen) >? u32 (sr_words hw * 2))
  then nvm_ret (ICE_ERR_PARAM, 0, data)
  else
    ice_read_flat_nvm_loop (S (Z.to_nat inlen)) hw offset inlen 0 data
      read_shadow_ram.

Definition le16_to_cpu (bytes : list Z) : Z :=
  u16 (nth 0 bytes 0 + 256 * nth 1 bytes 0).

(** Returns (status, word); the word is written on success only. *)
Definition ice_read_sr_word_aq (hw : nvm_hw) (offset : Z) : Nvm (Z * Z) :=
  '(status, bytes, data_local) <-
    ice_read_flat_nvm hw (u32 (u16 offset * 2)) 2 [0; 0] true ;;
  if failed status then nvm_ret (status, 0)
  else nvm_ret (0, le16_to_cpu data_local).

Definition ice_acquire_nvm (hw : nvm_hw) (access : Z) : Nvm Z :=
  if blank_nvm_mode hw then nvm_ret 0
  else ice_acquire_res hw ICE_NVM_RES_ID access ICE_NVM_TIMEOUT.

Definition ice_release_nvm (hw : nvm_hw) : Nvm unit :=
  if blank_nvm_mode hw then nvm_ret tt
  else ice_release_res hw ICE_NVM_RES_ID.

Definition ice_read_sr_word (hw : nvm_hw) (offset : Z) : Nvm (Z * Z) :=
  status <- ice_acquire_nvm hw ICE_RES_READ ;;
  if negb (failed status) then
    '(status, word) <- ice_read_sr_word_aq hw offset ;;
    ice_release_nvm hw ;;;
    nvm_ret (status, word)
  else nvm_ret (status, 0).

(** The walk through the TLVs of ice_get_pfa_module_tlv, followed for
    [rounds] rounds; returns (status, module_tlv, module_tlv_len). *)
Fixpoint ice_get_pfa_module_tlv_loop (rounds : nat) (hw : nvm_hw)
    (pfa_ptr pfa_len next_tlv module_type : Z) : Nvm (Z * Z * Z) :=
  match rounds with
  | O => nvm_unfinished
  | S rounds' =>
      if next_tlv <? pfa_ptr + pfa_len then
        (* Read TLV type *)
        '(status, tlv_sub_module_type) <- ice_read_sr_word hw next_tlv ;;
        if failed status then nvm_ret (ICE_ERR_DOES_NOT_EXIST, 0, 0)
        else
          (* Read TLV length *)
          '(status, tlv_len) <- ice_read_sr_word hw (u16 (next_tlv + 1)) ;;
          if failed status then nvm_ret (ICE_ERR_DOES_NOT_EXIST, 0, 0)
          else if tlv_sub_module_type =? u16 module_type then
            if negb (tlv_len =? 0) then nvm_ret (0, next_tlv, tlv_len)
            else nvm_ret (ICE_ERR_INVAL_SIZE, 0, 0)
          else
            (* Check next TLV, i.e. current TLV pointer + length + 2 words *)
            ice_get_pfa_module_tlv_loop rounds' hw pfa_ptr pfa_len
              (u16 (next_tlv + tlv_len + 2)) module_type
      else
        (* Module does not exist *)
        nvm_ret (ICE_ERR_DOES_NOT_EXIST, 0, 0)
  end.

(** next_tlv is a u16: a walk of more than 2^16 rounds has come back to a
    word it has read before. *)
Definition ice_get_pfa_module_tlv (hw : nvm_hw) (module_type : Z)
    : Nvm (Z * Z * Z) :=
  '(status, pfa_ptr) <- ice_read_sr_word hw ICE_SR_PFA_PTR ;;
  if failed status then nvm_ret (status, 0, 0)
  else
    '(status, pfa_len) <- ice_read_sr_word hw pfa_ptr ;;
    if failed status then nvm_ret (status, 0, 0)
    else
      (* Starting with first TLV after PFA length *)
      ice_get_pfa_module_tlv_loop (S (Z.to_nat (2 ^ 16))) hw pfa_ptr pfa_len
        (u16 (pfa_ptr + 1)) module_type.

(** The for loop of ice_read_pba_string with [n] words left to read, at
    index [i], and the termination of the string after it; [stores] are
    the assignments to pba_num made so far, as pairs of an index and a
    value.  Returns the status and the assignments made. *)
Fixpoint ice_read_pba_string_loop (n : nat) (hw : nvm_hw)
    (pba_tlv pba_size i status : Z) (stores : list (Z * Z))
    : Nvm (Z * list (Z * Z)) :=
  match n with
  | O => nvm_ret (status, stores ++ [(pba_size * 2, 0)])
  | S n' =>
      '(status, pba_word) <- ice_read_sr_word hw (u16 ((pba_tlv + 2 + 1) + i)) ;;
      if failed status then nvm_ret (status, stores)
      else
        let stores :=
          stores ++ [(i * 2, Z.land (Z.shiftr pba_word 8) 0xFF);
                     (i * 2 + 1, Z.land pba_word 0xFF)] in
        ice_read_pba_string_loop n' hw pba_tlv pba_size (i + 1) status stores
  end.

(** [pba_num_size] is the size of the buffer pba_num; returns the status
    and the assignments to pba_num[index], in the order they are made. *)
Definition ice_read_pba_string (hw : nvm_hw) (pba_num_size : Z)
    : Nvm (Z * list (Z * Z)) :=
  '(status, pba_tlv, pba_tlv_len) <-
    ice_get_pfa_module_tlv hw ICE_SR_PBA_BLOCK_PTR ;;
  if failed status then nvm_ret (status, [])
  else
    (* pba_size is the next word *)
    '(status, pba_size) <- ice_read_sr_word hw (u16 (pba_tlv + 2)) ;;
    if failed status then nvm_ret (status, [])
    else if pba_tlv_len <? pba_size then nvm_ret (ICE_ERR_INVAL_SIZE, [])
    else
      (* Subtract one to get PBA word count *)
      let pba_size := u16 (pba_size - 1) in
      if pba_num_size <? u32 (u32 pba_size * 2 + 1) then nvm_ret (ICE_ERR_PARAM, [])
      else
        ice_read_pba_string_loop (Z.to_nat pba_size) hw pba_tlv pba_size 0 status [].

(** The bisection of ice_discover_flash_size, followed for [rounds]
    rounds; returns the status and, when the loop is left by its
    condition, the value stored in hw->nvm.flash_size. *)
Fixpoint ice_discover_flash_size_loop (rounds : nat) (hw : nvm_hw)
    (min_size max_size status : Z) : Nvm (Z * option Z) :=
  match rounds with
  | O => nvm_unfinished
  | S rounds' =>
      if u32 (max_size - min_size) >? 1 then
        let offset := u32 (max_size + min_size) / 2 in
        '(status, len, data) <- ice_read_flat_nvm hw offset 1 [0] false ;;
        last_status <- read_sq_last_status hw ;;
        if (status =? ICE_ERR_AQ_ERROR) && (last_status =? ICE_AQ_RC_EINVAL)
        then ice_discover_flash_size_loop rounds' hw min_size offset 0
        else if negb (failed status)
        then ice_discover_flash_size_loop rounds' hw offset max_size status
        else
          (* an unexpected error occurred *)
          nvm_ret (status, None)
      else nvm_ret (status, Some max_size)
  end.

(** The interval is a pair of u32: it is halved at most 32 times. *)
Definition ice_discover_flash_size (hw : nvm_hw) : Nvm (Z * option Z) :=
  let min_size := 0 in
  let max_size := u32 (ICE_AQC_NVM_MAX_OFFSET + 1) in
  status <- ice_acquire_nvm hw ICE_RES_READ ;;
  if failed status then nvm_ret (status, None)
  else
    '(status, flash_size) <-
      ice_discover_flash_size_loop 33 hw min_size max_size status ;;
    ice_release_nvm hw ;;;
    nvm_ret (status, flash_size).

Definition ice_nvm_validate_checksum (hw : nvm_hw) : Nvm Z :=
  status <- ice_acquire_nvm hw ICE_RES_READ ;;
  if failed status then nvm_ret status
  else
    '(status, checksum) <-
      ice_aq_send_cmd_nvm_checksum hw ICE_AQC_NVM_CHECKSUM_VERIFY ;;
    ice_release_nvm hw ;;;
    if negb (failed status) then
      if negb (checksum =? ICE_AQC_NVM_CHECKSUM_CORRECT)
      then nvm_ret ICE_ERR_NVM_CHECKSUM
      else nvm_ret status
    else nvm_ret status.

(** ** NVM access requests *)

(** struct ice_nvm_access_cmd. *)
Record ice_nvm_access_cmd := mk_nvm_access_cmd {
  command : Z;
  config : Z;
  acc_offset : Z;
  data_size : Z
}.

(** struct ice_nvm_features. *)
Record ice_nvm_features := mk_nvm_features {
  feat_major : Z;
  feat_minor : Z;
  feat_size : Z;
  feat_features0 : Z
}.

(** What a request does to union ice_nvm_access_data: nothing, or it
    clears [size] bytes and then may store a register value or the
    features structure. *)
Inductive nvm_access_result :=
| DataUntouched
| DataCleared (size : Z)
| DataRegval (size regval : Z)
| DataFeatures (size : Z) (features : ice_nvm_features).

Definition ice_nvm_access_get_features (cmd : ice_nvm_access_cmd)
    : Z * nvm_access_result :=
  if data_size cmd <? sizeof_ice_nvm_features then (ICE_ERR_NO_MEMORY, DataUntouched)
  else
    (0, DataFeatures (data_size cmd)
          {| feat_major := ICE_NVM_ACCESS_MAJOR_VER;
             feat_minor := ICE_NVM_ACCESS_MINOR_VER;
             feat_size := sizeof_ice_nvm_features;
             feat_features0 := ICE_NVM_FEATURES_0_REG_ACCESS |}).

Definition ice_nvm_access_get_module (cmd : ice_nvm_access_cmd) : Z :=
  Z.shiftr (Z.land (config cmd) ICE_NVM_CFG_MODULE_M) ICE_NVM_CFG_MODULE_S.

Definition ice_nvm_access_get_flags (cmd : ice_nvm_access_cmd) : Z :=
  Z.shiftr (Z.land (config cmd) ICE_NVM_CFG_FLAGS_M) ICE_NVM_CFG_FLAGS_S.

Definition ice_nvm_access_get_adapter (cmd : ice_nvm_access_cmd) : Z :=
  Z.shiftr (Z.land (config cmd) ICE_NVM_CFG_ADAPTER_INFO_M)
    ICE_NVM_CFG_ADAPTER_INFO_S.

(** The case labels of the switch of ice_validate_nvm_rw_reg. *)
Definition nvm_rw_reg_cases : list Z :=
  [GL_HICR; GL_HICR_EN; GL_FWSTS; GL_MNG_FWSM; GLGEN_CSR_DEBUG_C; GLGEN_RSTAT;
   GLPCI_LBARCTRL; GLNVM_GENS; GLNVM_FLA; PF_FUNC_RID].

(** [for (i = 0; i <= max; i++) if (offset == (u32)reg(i)) return 0;] *)
Definition offset_in_array (offset : Z) (reg : Z -> Z) (max : Z) : bool :=
  existsb (fun i => offset =? u32 (reg (Z.of_nat i)))
          (seq 0 (Z.to_nat (max + 1))).

Definition ice_validate_nvm_rw_reg (cmd : ice_nvm_access_cmd) : Z :=
  let module := ice_nvm_access_get_module cmd in
  let flags := ice_nvm_access_get_flags cmd in
  let offset := acc_offset cmd in
  (* Make sure the module and flags indicate a read/write request *)
  if negb (module =? ICE_NVM_REG_RW_MODULE)
     || negb (flags =? ICE_NVM_REG_RW_FLAGS)
     || negb (data_size cmd =? sizeof_regval)
  then ICE_ERR_PARAM
  else if existsb (Z.eqb offset) nvm_rw_reg_cases then 0
  else if offset_in_array offset GL_HIDA ICE_NVM_ACCESS_GL_HIDA_MAX then 0
  else if offset_in_array offset GL_HIBA ICE_NVM_ACCESS_GL_HIBA_MAX then 0
  else
    (* All other register offsets are not valid *)
    ICE_ERR_OUT_OF_RANGE.

Definition ice_nvm_access_read (hw : nvm_hw) (cmd : ice_nvm_access_cmd)
    : Nvm (Z * nvm_access_result) :=
  (* Always initialize the output data, even on failure *)
  let status := ice_validate_nvm_rw_reg cmd in
  if failed status then nvm_ret (status, DataCleared (data_size cmd))
  else
    regval <- nvm_rd32 hw (acc_offset cmd) ;;
    nvm_ret (0, DataRegval (data_size cmd) regval).

(** [regval] is data->regval. *)
Definition ice_nvm_access_write (hw : nvm_hw) (cmd : ice_nvm_access_cmd)
    (regval : Z) : Nvm (Z * nvm_access_result) :=
  let status := ice_validate_nvm_rw_reg cmd in
  if failed status then nvm_ret (status, DataUntouched)
  else if existsb (Z.eqb (acc_offset cmd)) [GL_HICR_EN; GLGEN_RSTAT]
  then nvm_ret (ICE_ERR_OUT_OF_RANGE, DataUntouched)
  else
    nvm_wr32 hw (acc_offset cmd) regval ;;;
    nvm_ret (0, DataUntouched).

Definition ice_handle_nvm_access (hw : nvm_hw) (cmd : ice_nvm_access_cmd)
    (regval : Z) : Nvm (Z * nvm_access_result) :=
  (* Extended flags are currently reserved and must be zero *)
  if negb (Z.land (config cmd) ICE_NVM_CFG_EXT_FLAGS_M =? 0)
  then nvm_ret (ICE_ERR_PARAM, DataUntouched)
  else
    (* Adapter info must match the HW device ID *)
    let adapter_info := ice_nvm_access_get_adapter cmd in
    if negb (adapter_info =? device_id hw)
    then nvm_ret (ICE_ERR_PARAM, DataUntouched)
    else if command cmd =? ICE_NVM_CMD_READ then
      let module := ice_nvm_access_get_module cmd in
      let flags := ice_nvm_access_get_flags cmd in
      if (module =? ICE_NVM_GET_FEATURES_MODULE)
         && (flags =? ICE_NVM_GET_FEATURES_FLAGS)
         && (acc_offset cmd =? 0)
      then nvm_ret (ice_nvm_access_get_features cmd)
      else ice_nvm_access_read hw cmd
    else if command cmd =? ICE_NVM_CMD_WRITE then
      ice_nvm_access_write hw cmd regval
    else nvm_ret (ICE_ERR_PARAM, DataUntouched).

End NvmModel.
(** * Setting, adjusting and stopping the timers

    The functions that prepare the shadow registers of the source timer and
    of the PHY ports for a timer command, the commands built on them, and
    the remaining accessors of the PHY registers. *)

(** The header definitions these functions use in addition to [IceDefs]. *)
Class IceTimeDefs := {
  GLTSYN_SHTIME_H : Z -> Z;
  ETH_GLTSYN_SHTIME_0 : Z -> Z;
  ETH_GLTSYN_SHTIME_L : Z -> Z;
  (* 56G PHY port registers *)
  PHY_REG_TX_TIMER_CNT_ADJ_L : Z;
  PHY_REG_TX_TIMER_CNT_ADJ_U : Z;
  PHY_REG_RX_TIMER_CNT_ADJ_L : Z;
  PHY_REG_RX_TIMER_CNT_ADJ_U : Z;
  PHY_REG_TS_INT_CONFIG : Z;
  PHY_TS_INT_CONFIG_ENA_M : Z;
  PHY_TS_INT_CONFIG_THRESHOLD_M : Z;
  PHY_TS_INT_CONFIG_THRESHOLD_S : Z;
  (* E822 port and quad registers *)
  P_REG_TX_TIMER_CNT_ADJ_L : Z;
  P_REG_TX_TIMER_CNT_ADJ_U : Z;
  P_REG_RX_TIMER_CNT_ADJ_L : Z;
  P_REG_RX_TIMER_CNT_ADJ_U : Z;
  P_REG_PS : Z;
  P_REG_PS_START_M : Z;
  P_REG_PS_ENA_CLK_M : Z;
  P_REG_PS_SFT_RESET_M : Z;
  Q_REG_TX_MEM_GBL_CFG : Z;
  Q_REG_TX_MEM_GBL_CFG_INTR_ENA_M : Z;
  Q_REG_TX_MEM_GBL_CFG_INTR_THR_M : Z;
  Q_REG_TX_MEM_GBL_CFG_INTR_THR_S : Z;
  Q_REG_TX_MEMORY_STATUS_L : Z;
  Q_REG_TX_MEMORY_STATUS_U : Z
}.

(** The value of a 32-bit and of a 64-bit word read as a signed number. *)
Definition s32 (x : Z) : Z := (x + 2 ^ 31) mod 2 ^ 32 - 2 ^ 31.
Definition s64 (x : Z) : Z := (x + 2 ^ 63) mod 2 ^ 64 - 2 ^ 63.

Section TimeModel.
Context {defs : IceDefs} {tdefs : IceTimeDefs}.

(** ** 56G PHY *)

(** Returns (status, val).  The high word is read at low_addr +
    sizeof(u32); the address ice_is_40b_phy_reg_eth56g looks up is only
    used in the log. *)
Definition ice_read_40b_phy_reg_eth56g (hw : ice_hw) (port low_addr : Z)
    : M (Z * Z) :=
  match ice_is_40b_phy_reg_eth56g low_addr with
  | None => ret (- EINVAL, 0)
  | Some high_addr =>
      '(status, lo) <- ice_read_phy_reg_eth56g hw port low_addr ;;
      if failed status then ret (status, 0)
      else
        '(status, hi) <- ice_read_phy_reg_eth56g hw port (u16 (low_addr + 4)) ;;
        if failed status then ret (status, 0)
        else
          ret (0, u64 (Z.lor (Z.shiftl hi P_REG_40B_HIGH_S)
                             (Z.land lo P_REG_40B_LOW_M)))
  end.

(** Returns (status, val). *)
Definition ice_read_64b_phy_reg_eth56g (hw : ice_hw) (port low_addr : Z)
    : M (Z * Z) :=
  match ice_is_64b_phy_reg_eth56g low_addr with
  | None => ret (- EINVAL, 0)
  | Some high_addr =>
      '(status, lo) <- ice_read_phy_reg_eth56g hw port low_addr ;;
      if failed status then ret (status, 0)
      else
        '(status, hi) <- ice_read_phy_reg_eth56g hw port high_addr ;;
        if failed status then ret (status, 0)
        else ret (0, Z.lor (Z.shiftl hi 32) lo)
  end.

Definition ice_ptp_prep_port_phy_time_eth56g (hw : ice_hw) (port phy_time : Z)
    : M Z :=
  (* Tx case *)
  status <- ice_write_64b_phy_reg_eth56g hw port PHY_REG_TX_TIMER_INC_PRE_L phy_time ;;
  if failed status then ret status
  else
    (* Rx case *)
    ice_write_64b_phy_reg_eth56g hw port PHY_REG_RX_TIMER_INC_PRE_L phy_time.

Definition ice_ptp_prep_phy_time_eth56g (hw : ice_hw) (time : Z) : M Z :=
  (* The time represents the upper 32 bits of the PHY timer *)
  let phy_time := u64 (Z.shiftl (u32 time) 32) in
  for_ports (max_phy_port hw)
    (fun port => ice_ptp_prep_port_phy_time_eth56g hw port phy_time).

Definition ice_ptp_prep_port_adj_eth56g (hw : ice_hw) (port time : Z)
    (lock_sbq : bool) : M Z :=
  let l_time := lower_32_bits time in
  let u_time := upper_32_bits time in
  (* Tx case *)
  status <- ice_write_phy_reg_eth56g_lp hw port PHY_REG_TX_TIMER_INC_PRE_L l_time lock_sbq ;;
  if failed status then ret status
  else
    status <- ice_write_phy_reg_eth56g_lp hw port PHY_REG_TX_TIMER_INC_PRE_U u_time lock_sbq ;;
    if failed status then ret status
    else
      (* Rx case *)
      status <- ice_write_phy_reg_eth56g_lp hw port PHY_REG_RX_TIMER_INC_PRE_L l_time lock_sbq ;;
      if failed status then ret status
      else
        status <- ice_write_phy_reg_eth56g_lp hw port PHY_REG_RX_TIMER_INC_PRE_U u_time lock_sbq ;;
        if failed status then ret status
        else ret 0.

(** [adj] is an s32. *)
Definition ice_ptp_prep_phy_adj_eth56g (hw : ice_hw) (adj : Z) (lock_sbq : bool)
    : M Z :=
  let cycles := s64 (Z.shiftl adj 32) in
  for_ports (max_phy_port hw)
    (fun port => ice_ptp_prep_port_adj_eth56g hw port cycles lock_sbq).

(** Returns (status, incval). *)
Definition ice_ptp_read_phy_incval_eth56g (hw : ice_hw) (port : Z) : M (Z * Z) :=
  '(status, incval) <- ice_read_40b_phy_reg_eth56g hw port PHY_REG_TIMETUS_L ;;
  if failed status then ret (status, incval)
  else ret (0, incval).

Definition ice_ptp_prep_phy_adj_target_eth56g (hw : ice_hw) (target_time : Z)
    : M Z :=
  for_ports (max_phy_port hw)
    (fun port =>
       (* Tx case: no sub-nanoseconds data *)
       status <- ice_write_phy_reg_eth56g_lp hw port PHY_REG_TX_TIMER_CNT_ADJ_L 0 true ;;
       if failed status then ret status
       else
         status <- ice_write_phy_reg_eth56g_lp hw port PHY_REG_TX_TIMER_CNT_ADJ_U
                     target_time true ;;
         if failed status then ret status
         else
           (* Rx case: no sub-nanoseconds data *)
           status <- ice_write_phy_reg_eth56g_lp hw port PHY_REG_RX_TIMER_CNT_ADJ_L 0 true ;;
           if failed status then ret status
           else
             status <- ice_write_phy_reg_eth56g_lp hw port PHY_REG_RX_TIMER_CNT_ADJ_U
                         target_time true ;;
             if failed status then ret status
             else ret 0).

(** Returns (status, tx_ts, rx_ts). *)
Definition ice_ptp_read_port_capture_eth56g (hw : ice_hw) (port : Z)
    : M (Z * Z * Z) :=
  (* Tx case *)
  '(status, tx_ts) <- ice_read_64b_phy_reg_eth56g hw port PHY_REG_TX_CAPTURE_L ;;
  if failed status then ret (status, 0, 0)
  else
    (* Rx case *)
    '(status, rx_ts) <- ice_read_64b_phy_reg_eth56g hw port PHY_REG_RX_CAPTURE_L ;;
    if failed status then ret (status, tx_ts, 0)
    else ret (0, tx_ts, rx_ts).


Definition ice_ptp_clear_phy_offset_ready_eth56g (hw : ice_hw) : M Z :=
  for_ports (max_phy_port hw)
    (fun port =>
       status <- ice_write_phy_reg_eth56g hw port PHY_REG_TX_OFFSET_READY 0 ;;
       if failed status then ret status
       else
         status <- ice_write_phy_reg_eth56g hw port PHY_REG_RX_OFFSET_READY 0 ;;
         if failed status then ret status
         else ret 0).

(** Returns (status, phy_time, phc_time). *)
Definition ice_read_phy_and_phc_time_eth56g (hw : ice_hw) (port : Z)
    : M (Z * Z * Z) :=
  let tmr_idx := ice_get_ptp_src_clock_index hw in
  (* Prepare the PHC timer for a ICE_PTP_READ_TIME capture command *)
  ice_ptp_src_cmd hw ICE_PTP_READ_TIME ;;;
  (* Prepare the PHY timer for a ICE_PTP_READ_TIME capture command *)
  status <- ice_ptp_one_port_cmd_eth56g hw port ICE_PTP_READ_TIME true ;;
  if failed status then ret (status, 0, 0)
  else
    (* Issue the sync to start the ICE_PTP_READ_TIME capture *)
    ice_ptp_exec_tmr_cmd hw ;;;
    ice_ptp_clean_cmd hw ;;;
    (* Read the captured PHC time from the shadow time registers *)
    zo <- rd32 hw (GLTSYN_SHTIME_0 tmr_idx) ;;
    lo <- rd32 hw (GLTSYN_SHTIME_L tmr_idx) ;;
    let phc_time := Z.lor (Z.shiftl lo 32) zo in
    (* Read the captured PHY time from the PHY shadow registers *)
    '(status, tx_time, rx_time) <- ice_ptp_read_port_capture_eth56g hw port ;;
    if failed status then ret (status, 0, phc_time)
    else ret (0, tx_time, phc_time).

Definition ice_sync_phy_timer_eth56g (hw : ice_hw) (port : Z) : M Z :=
  locked <- ice_ptp_lock hw ;;
  if negb locked then ret (- EBUSY)
  else
    let err_unlock status := (ice_ptp_unlock hw ;;; ret status) in
    '(status, phy_time, phc_time) <- ice_read_phy_and_phc_time_eth56g hw port ;;
    if failed status then err_unlock status
    else
      ice_ptp_src_cmd hw ICE_PTP_NOP ;;;
      (* The amount to add to the port time, in 2s complement arithmetic *)
      let difference := u64 (phc_time - phy_time) in
      status <- ice_ptp_prep_port_adj_eth56g hw port (s64 difference) true ;;
      if failed status then err_unlock status
      else
        status <- ice_ptp_one_port_cmd_eth56g hw port ICE_PTP_ADJ_TIME true ;;
        if failed status then err_unlock status
        else
          (* Issue the sync to activate the time adjustment *)
          ice_ptp_exec_tmr_cmd hw ;;;
          ice_ptp_clean_cmd hw ;;;
          (* Re-capture the timer values to flush the command registers *)
          '(status, phy_time, phc_time) <- ice_read_phy_and_phc_time_eth56g hw port ;;
          err_unlock status.

Definition ice_stop_phy_timer_eth56g (hw : ice_hw) (port : Z) (soft_reset : bool)
    : M Z :=
  status <- ice_write_phy_reg_eth56g hw port PHY_REG_TX_OFFSET_READY 0 ;;
  if failed status then ret status
  else
    status <- ice_write_phy_reg_eth56g hw port PHY_REG_RX_OFFSET_READY 0 ;;
    if failed status then ret status
    else ret 0.

(** Returns (status, tstamp_ready). *)
Definition ice_get_phy_tx_tstamp_ready_eth56g (hw : ice_hw) (port : Z)
    : M (Z * Z) :=
  '(status, tstamp_ready) <-
    ice_read_64b_phy_reg_eth56g hw port PHY_REG_TX_MEMORY_STATUS_L ;;
  if failed status then ret (status, tstamp_ready)
  else ret (0, tstamp_ready).

(** ** E822 *)

(** Returns (status, val). *)
Definition ice_read_40b_phy_reg_e822 (hw : ice_hw) (port low_addr : Z)
    : M (Z * Z) :=
  match ice_is_40b_phy_reg_e822 low_addr with
  | None => ret (- EINVAL, 0)
  | Some high_addr =>
      '(status, low) <- ice_read_phy_reg_e822 hw port low_addr ;;
      if failed status then ret (status, 0)
      else
        '(status, high) <- ice_read_phy_reg_e822 hw port high_addr ;;
        if failed status then ret (status, 0)
        else
          ret (0, u64 (Z.lor (Z.shiftl high P_REG_40B_HIGH_S)
                             (Z.land low P_REG_40B_LOW_M)))
  end.

Definition ice_ptp_prep_phy_time_e822 (hw : ice_hw) (time : Z) : M Z :=
  (* The time represents the upper 32 bits of the PHY timer *)
  let phy_time := u64 (Z.shiftl (u32 time) 32) in
  for_ports (phy_ports hw)
    (fun port =>
       (* Tx case *)
       status <- ice_write_64b_phy_reg_e822 hw port P_REG_TX_TIMER_INC_PRE_L phy_time ;;
       if failed status then ret status
       else
         (* Rx case *)
         status <- ice_write_64b_phy_reg_e822 hw port P_REG_RX_TIMER_INC_PRE_L phy_time ;;
         if failed status then ret status
         else ret 0).

(** [adj] is an s32; the negation of a negative [adj] is taken in 32 bits
    before it is widened, as the source writes [(s64)-adj]. *)
Definition ice_ptp_prep_phy_adj_e822 (hw : ice_hw) (adj : Z) (lock_sbq : bool)
    : M Z :=
  let cycles :=
    if adj >? 0 then s64 (Z.shiftl adj 32)
    else s64 (- s64 (Z.shiftl (s32 (- adj)) 32)) in
  for_ports (phy_ports hw)
    (fun port => ice_ptp_prep_port_adj_e822 hw port cycles lock_sbq).

(** Returns (status, incval). *)
Definition ice_ptp_read_phy_incval_e822 (hw : ice_hw) (port : Z) : M (Z * Z) :=
  '(status, incval) <- ice_read_40b_phy_reg_e822 hw port P_REG_TIMETUS_L ;;
  if failed status then ret (status, incval)
  else ret (0, incval).

Definition ice_ptp_prep_phy_adj_target_e822 (hw : ice_hw) (target_time : Z)
    : M Z :=
  for_ports (phy_ports hw)
    (fun port =>
       (* Tx case: no sub-nanoseconds data *)
       status <- ice_write_phy_reg_e822_lp hw port P_REG_TX_TIMER_CNT_ADJ_L 0 true ;;
       if failed status then ret status
       else
         status <- ice_write_phy_reg_e822_lp hw port P_REG_TX_TIMER_CNT_ADJ_U
                     target_time true ;;
         if failed status then ret status
         else
           (* Rx case: no sub-nanoseconds data *)
           status <- ice_write_phy_reg_e822_lp hw port P_REG_RX_TIMER_CNT_ADJ_L 0 true ;;
           if failed status then ret status
           else
             status <- ice_write_phy_reg_e822_lp hw port P_REG_RX_TIMER_CNT_ADJ_U
                         target_time true ;;
             if failed status then ret status
             else ret 0).

(** 6600 UIs is 640 nanoseconds at 10Gb/40Gb *)
Definition LINE_UI_10G_40G : Z := 640.
(** 6600 UIs is 256 nanoseconds at 25Gb/100Gb *)
Definition LINE_UI_25G_100G : Z := 256.

Definition ice_phy_cfg_uix_e822 (hw : ice_hw) (port : Z) : M Z :=
  let cur_freq := u64 (ice_e822_pll_freq (ice_e822_time_ref hw)) in
  clk_incval <- ice_ptp_read_src_incval hw ;;
  (* Calculate TUs per second divided by 256 *)
  let tu_per_sec := Z.shiftr (u64 (cur_freq * clk_incval)) 8 in
  (* Program the 10Gb/40Gb conversion ratio *)
  let uix := div64_u64 (u64 (tu_per_sec * LINE_UI_10G_40G)) 390625000 in
  status <- ice_write_64b_phy_reg_e822 hw port P_REG_UIX66_10G_40G_L uix ;;
  if failed status then ret status
  else
    (* Program the 25Gb/100Gb conversion ratio *)
    let uix := div64_u64 (u64 (tu_per_sec * LINE_UI_25G_100G)) 390625000 in
    status <- ice_write_64b_phy_reg_e822 hw port P_REG_UIX66_25G_100G_L uix ;;
    if failed status then ret status
    else ret 0.

Definition ice_ptp_clear_phy_offset_ready_e822 (hw : ice_hw) : M Z :=
  for_ports (phy_ports hw)
    (fun port =>
       status <- ice_write_phy_reg_e822 hw port P_REG_TX_OR 0 ;;
       if failed status then ret status
       else
         status <- ice_write_phy_reg_e822 hw port P_REG_RX_OR 0 ;;
         if failed status then ret status
         else ret 0).

Definition ice_stop_phy_timer_e822 (hw : ice_hw) (port : Z) (soft_reset : bool)
    : M Z :=
  status <- ice_write_phy_reg_e822 hw port P_REG_TX_OR 0 ;;
  if failed status then ret status
  else
    status <- ice_write_phy_reg_e822 hw port P_REG_RX_OR 0 ;;
    if failed status then ret status
    else
      '(status, val) <- ice_read_phy_reg_e822 hw port P_REG_PS ;;
      if failed status then ret status
      else
        let val := u32 (Z.land val (Z.lnot P_REG_PS_START_M)) in
        status <- ice_write_phy_reg_e822 hw port P_REG_PS val ;;
        if failed status then ret status
        else
          let val := u32 (Z.land val (Z.lnot P_REG_PS_ENA_CLK_M)) in
          status <- ice_write_phy_reg_e822 hw port P_REG_PS val ;;
          if failed status then ret status
          else
            if soft_reset then
              let val := u32 (Z.lor val P_REG_PS_SFT_RESET_M) in
              status <- ice_write_phy_reg_e822 hw port P_REG_PS val ;;
              if failed status then ret status
              else ret 0
            else ret 0.

(** Returns (status, tstamp_ready). *)
Definition ice_get_phy_tx_tstamp_ready_e822 (hw : ice_hw) (quad : Z)
    : M (Z * Z) :=
  '(status, hi) <- ice_read_quad_reg_e822 hw quad Q_REG_TX_MEMORY_STATUS_U ;;
  if failed status then ret (status, 0)
  else
    '(status, lo) <- ice_read_quad_reg_e822 hw quad Q_REG_TX_MEMORY_STATUS_L ;;
    if failed status then ret (status, 0)
    else ret (0, Z.lor (Z.shiftl hi 32) lo).

(** [threshold] is a u8. *)
Definition ice_phy_cfg_intr_e822 (hw : ice_hw) (quad : Z) (ena : bool)
    (threshold : Z) : M Z :=
  '(err, val) <- ice_read_quad_reg_e822 hw quad Q_REG_TX_MEM_GBL_CFG ;;
  if failed err then ret err
  else
    let val :=
      if ena then
        let val := u32 (Z.lor val Q_REG_TX_MEM_GBL_CFG_INTR_ENA_M) in
        let val := u32 (Z.land val (Z.lnot Q_REG_TX_MEM_GBL_CFG_INTR_THR_M)) in
        u32 (Z.lor val (Z.land (Z.shiftl (u8 threshold) Q_REG_TX_MEM_GBL_CFG_INTR_THR_S)
                               Q_REG_TX_MEM_GBL_CFG_INTR_THR_M))
      else u32 (Z.land val (Z.lnot Q_REG_TX_MEM_GBL_CFG_INTR_ENA_M)) in
    ice_write_quad_reg_e822 hw quad Q_REG_TX_MEM_GBL_CFG val.

(** ** E810 *)

Definition ice_ptp_prep_phy_time_e810 (hw : ice_hw) (time : Z) : M Z :=
  let tmr_idx := tmr_index_owned hw in
  status <- ice_write_phy_reg_e810 hw (ETH_GLTSYN_SHTIME_0 tmr_idx) 0 ;;
  if failed status then ret status
  else
    status <- ice_write_phy_reg_e810 hw (ETH_GLTSYN_SHTIME_L tmr_idx) time ;;
    if failed status then ret status
    else ret 0.

(** [adj] is an s32. *)
Definition ice_ptp_prep_phy_adj_e810 (hw : ice_hw) (adj : Z) (lock_sbq : bool)
    : M Z :=
  let tmr_idx := tmr_index_owned hw in
  status <- ice_write_phy_reg_e810_lp hw (ETH_GLTSYN_SHADJ_L tmr_idx) 0 lock_sbq ;;
  if failed status then ret status
  else
    status <- ice_write_phy_reg_e810_lp hw (ETH_GLTSYN_SHADJ_H tmr_idx) adj lock_sbq ;;
    if failed status then ret status
    else ret 0.

Definition ice_ptp_prep_phy_adj_target_e810 (hw : ice_hw) (target_time : Z)
    : M Z :=
  let tmr_idx := tmr_index_owned hw in
  status <- ice_write_phy_reg_e810 hw (ETH_GLTSYN_SHTIME_0 tmr_idx) 0 ;;
  if failed status then ret status
  else
    status <- ice_write_phy_reg_e810 hw (ETH_GLTSYN_SHTIME_L tmr_idx) target_time ;;
    if failed status then ret status
    else ret 0.

(** E810 devices do not use a Tx memory status register. *)
Definition ice_get_phy_tx_tstamp_ready_e810 (hw : ice_hw) (port : Z)
    : M (Z * Z) :=
  ret (0, 0xFFFFFFFFFFFFFFFF).

(** ** The commands on all timers *)

Definition ice_ptp_init_time (hw : ice_hw) (time : Z) (wr_main_tmr : bool)
    : M Z :=
  let tmr_idx := tmr_index_owned hw in
  (* Source timers *)
  (if wr_main_tmr then
     wr32 hw (GLTSYN_SHTIME_L tmr_idx) (lower_32_bits time) ;;;
     wr32 hw (GLTSYN_SHTIME_H tmr_idx) (upper_32_bits time) ;;;
     wr32 hw (GLTSYN_SHTIME_0 tmr_idx) 0
   else ret tt) ;;;
  (* PHY Clks *)
  status <- match phy_model hw with
            | ICE_PHY_ETH56G =>
                ice_ptp_prep_phy_time_eth56g hw (Z.land time 0xFFFFFFFF)
            | ICE_PHY_E810 =>
                ice_ptp_prep_phy_time_e810 hw (Z.land time 0xFFFFFFFF)
            | ICE_PHY_E822 =>
                ice_ptp_prep_phy_time_e822 hw (Z.land time 0xFFFFFFFF)
            | ICE_PHY_UNSUP => ret (- EOPNOTSUPP)
            end ;;
  if failed status then ret status
  else ice_ptp_tmr_cmd hw ICE_PTP_INIT_TIME true.

(** [adj] is an s32. *)
Definition ice_ptp_adj_clock (hw : ice_hw) (adj : Z) (lock_sbq : bool) : M Z :=
  let tmr_idx := tmr_index_owned hw in
  (* Write the desired clock adjustment into the GLTSYN_SHADJ register *)
  wr32 hw (GLTSYN_SHADJ_L tmr_idx) 0 ;;;
  wr32 hw (GLTSYN_SHADJ_H tmr_idx) adj ;;;
  status <- match phy_model hw with
            | ICE_PHY_ETH56G => ice_ptp_prep_phy_adj_eth56g hw adj lock_sbq
            | ICE_PHY_E810 => ice_ptp_prep_phy_adj_e810 hw adj lock_sbq
            | ICE_PHY_E822 => ice_ptp_prep_phy_adj_e822 hw adj lock_sbq
            | ICE_PHY_UNSUP => ret (- EOPNOTSUPP)
            end ;;
  if failed status then ret status
  else ice_ptp_tmr_cmd hw ICE_PTP_ADJ_TIME lock_sbq.

Definition ice_ptp_adj_clock_at_time (hw : ice_hw) (at_time adj : Z) : M Z :=
  let tmr_idx := tmr_index_owned hw in
  let time_lo := lower_32_bits at_time in
  let time_hi := upper_32_bits at_time in
  (* Write the desired clock adjustment into the GLTSYN_SHADJ register *)
  wr32 hw (GLTSYN_SHADJ_L tmr_idx) 0 ;;;
  wr32 hw (GLTSYN_SHADJ_H tmr_idx) adj ;;;
  (* Write the target time to trigger the adjustment for source clock *)
  wr32 hw (GLTSYN_SHTIME_0 tmr_idx) 0 ;;;
  wr32 hw (GLTSYN_SHTIME_L tmr_idx) time_lo ;;;
  wr32 hw (GLTSYN_SHTIME_H tmr_idx) time_hi ;;;
  (* Prepare PHY port adjustments *)
  status <- match phy_model hw with
            | ICE_PHY_ETH56G => ice_ptp_prep_phy_adj_eth56g hw adj true
            | ICE_PHY_E810 => ice_ptp_prep_phy_adj_e810 hw adj true
            | ICE_PHY_E822 => ice_ptp_prep_phy_adj_e822 hw adj true
            | ICE_PHY_UNSUP => ret (- EOPNOTSUPP)
            end ;;
  if failed status then ret status
  else
    (* Set target time for each PHY port *)
    status <- match phy_model hw with
              | ICE_PHY_ETH56G => ice_ptp_prep_phy_adj_target_eth56g hw time_lo
              | ICE_PHY_E810 => ice_ptp_prep_phy_adj_target_e810 hw time_lo
              | ICE_PHY_E822 => ice_ptp_prep_phy_adj_target_e822 hw time_lo
              | ICE_PHY_UNSUP => ret (- EOPNOTSUPP)
              end ;;
    if failed status then ret status
    else ice_ptp_tmr_cmd hw ICE_PTP_ADJ_TIME_AT_TIME true.

Definition ice_ptp_clear_phy_offset_ready (hw : ice_hw) : M Z :=
  match phy_model hw with
  | ICE_PHY_ETH56G => ice_ptp_clear_phy_offset_ready_eth56g hw
  | ICE_PHY_E810 => ret 0
  | ICE_PHY_E822 => ice_ptp_clear_phy_offset_ready_e822 hw
  | ICE_PHY_UNSUP => ret (- EOPNOTSUPP)
  end.

(** Returns (status, tstamp). *)
Definition ice_read_phy_tstamp (hw : ice_hw) (block idx : Z) : M (Z * Z) :=
  match phy_model hw with
  | ICE_PHY_ETH56G => ice_read_phy_tstamp_eth56g hw block idx
  | ICE_PHY_E810 => ice_read_phy_tstamp_e810 hw block idx
  | ICE_PHY_E822 => ice_read_phy_tstamp_e822 hw block idx
  | ICE_PHY_UNSUP => ret (- EOPNOTSUPP, 0)
  end.

(** Returns (status, tstamp_ready). *)
Definition ice_get_phy_tx_tstamp_ready (hw : ice_hw) (block : Z) : M (Z * Z) :=
  match phy_model hw with
  | ICE_PHY_ETH56G => ice_get_phy_tx_tstamp_ready_eth56g hw block
  | ICE_PHY_E810 => ice_get_phy_tx_tstamp_ready_e810 hw block
  | ICE_PHY_E822 => ice_get_phy_tx_tstamp_ready_e822 hw block
  | ICE_PHY_UNSUP => ret (- EOPNOTSUPP, 0)
  end.

(** Returns (status, tx_ts, rx_ts). *)
Definition ice_ptp_read_port_capture (hw : ice_hw) (port : Z) : M (Z * Z * Z) :=
  match phy_model hw with
  | ICE_PHY_ETH56G => ice_ptp_read_port_capture_eth56g hw port
  | ICE_PHY_E822 => ice_ptp_read_port_capture_e822 hw port
  | _ => ret (- EOPNOTSUPP, 0, 0)
  end.

(** Returns (status, incval). *)
Definition ice_ptp_read_phy_incval (hw : ice_hw) (port : Z) : M (Z * Z) :=
  match phy_model hw with
  | ICE_PHY_ETH56G => ice_ptp_read_phy_incval_eth56g hw port
  | ICE_PHY_E822 => ice_ptp_read_phy_incval_e822 hw port
  | _ => ret (- EOPNOTSUPP, 0)
  end.

End TimeModel.

(** * Trace shapes used in the statements *)

Section Shapes.
Context {defs : IceDefs}.

Definition all_sbq (evs : list event) : Prop :=
  Forall (fun e => is_sbq e = true) evs.

(** What a loop over ports leaves: the stagings of ports [port], [port+1],
    ... in order; it stops at the first port whose staging fails. [One p s e]
    describes one iteration (port, status, events). *)
Fixpoint loop_spec (One : Z -> Z -> list event -> Prop) (n : nat) (port : Z)
    (status : Z) (evs : list event) : Prop :=
  match n with
  | O => status = 0 /\ evs = []
  | S n' =>
      exists s1 e1, One port s1 e1 /\
        ((s1 <> 0 /\ status = s1 /\ evs = e1) \/
         (s1 = 0 /\ exists e2, evs = e1 ++ e2 /\
                   loop_spec One n' (port + 1) status e2))
  end.

(** [n] ports staged one after another, from [port] on, none failing. *)
Fixpoint staged_ports (one : Z -> list event -> Prop) (n : nat) (port : Z)
    (evs : list event) : Prop :=
  match n with
  | O => evs = []
  | S n' => exists e1 e2, evs = e1 ++ e2 /\ one port e1 /\
                          staged_ports one n' (port + 1) e2
  end.

(** The sideband message for a 56G port register. *)
Definition eth56g_reg_msg (hw : ice_hw) (port offset : Z)
    (op : ice_sbq_msg_opcode) (val : Z) : ice_sbq_msg_input :=
  let reg_addr :=
    snd (ice_phy_port_res_address_eth56g (u8 (port mod phy_ports hw))
           ETH56G_PHY_REG (u16 offset)) in
  {| opcode := op;
     msg_addr_low := ICE_LO_WORD reg_addr;
     msg_addr_high := ICE_HI_WORD reg_addr;
     data := val;
     dest_dev := phy_addr hw (u8 (port / phy_ports hw)) |}.

(** The sideband message for a 56G port memory location. *)
Definition eth56g_mem_msg (hw : ice_hw) (port offset : Z)
    (op : ice_sbq_msg_opcode) (val : Z) : ice_sbq_msg_input :=
  let reg_addr :=
    snd (ice_phy_port_res_address_eth56g (u8 (port mod phy_ports hw))
           ETH56G_PHY_MEM (u16 offset)) in
  {| opcode := op;
     msg_addr_low := ICE_LO_WORD reg_addr;
     msg_addr_high := ICE_HI_WORD reg_addr;
     data := val;
     dest_dev := phy_addr hw (u8 (port / phy_ports hw)) |}.

(** The sideband message for an E810 external PHY register. *)
Definition e810_msg (addr : Z) (op : ice_sbq_msg_opcode) (val : Z)
    : ice_sbq_msg_input :=
  {| msg_addr_low := ICE_LO_WORD addr;
     msg_addr_high := ICE_HI_WORD addr;
     opcode := op;
     dest_dev := rmn_0;
     data := val |}.

(** A successful read-modify-write of one command register: the read
    message [rd], answered with [v], then the write message built by [wr]
    from the new value. *)
Definition rmw_events (rd : ice_sbq_msg_input) (wr : Z -> ice_sbq_msg_input)
    (mask cmd_val : Z) (lock_sbq : bool) (evs : list event) : Prop :=
  exists v w,
    evs = [EvSbq rd lock_sbq 0 v;
           EvSbq (wr (u32 (rmw_cmd mask v cmd_val))) lock_sbq 0 w].

(** One E822 port staged: its Tx command register, then its Rx one. *)
Definition staged_e822 (cmd_val : Z) (lock_sbq : bool) (port : Z)
    (evs : list event) : Prop :=
  exists e_tx e_rx, evs = e_tx ++ e_rx /\
    rmw_events (ice_fill_phy_msg_e822 port P_REG_TX_TMR_CMD ice_sbq_msg_rd 0)
               (ice_fill_phy_msg_e822 port P_REG_TX_TMR_CMD ice_sbq_msg_wr)
               TS_CMD_MASK cmd_val lock_sbq e_tx /\
    rmw_events (ice_fill_phy_msg_e822 port P_REG_RX_TMR_CMD ice_sbq_msg_rd 0)
               (ice_fill_phy_msg_e822 port P_REG_RX_TMR_CMD ice_sbq_msg_wr)
               TS_CMD_MASK cmd_val lock_sbq e_rx.

(** One 56G port staged: its Tx command register, then its Rx one. *)
Definition staged_eth56g (hw : ice_hw) (cmd_val : Z) (lock_sbq : bool)
    (port : Z) (evs : list event) : Prop :=
  exists e_tx e_rx, evs = e_tx ++ e_rx /\
    rmw_events (eth56g_reg_msg hw port PHY_REG_TX_TMR_CMD ice_sbq_msg_rd 0)
               (eth56g_reg_msg hw port PHY_REG_TX_TMR_CMD ice_sbq_msg_wr)
               TS_CMD_MASK cmd_val lock_sbq e_tx /\
    rmw_events (eth56g_reg_msg hw port PHY_REG_RX_TMR_CMD ice_sbq_msg_rd 0)
               (eth56g_reg_msg hw port PHY_REG_RX_TMR_CMD ice_sbq_msg_wr)
               TS_CMD_MASK cmd_val lock_sbq e_rx.

(** The staging of all PHY ports by ice_ptp_tmr_cmd when it succeeds: the
    ports in index order, each with the opcode of [cmd]; the E810 has one
    command register for all its external PHYs. *)
Definition ports_staged (hw : ice_hw) (cmd : enum_ice_ptp_tmr_cmd)
    (lock_sbq : bool) (evs : list event) : Prop :=
  match phy_model hw with
  | ICE_PHY_ETH56G =>
      staged_ports
        (fun port e => exists cmd_val, phy_cmd_val hw cmd = Some cmd_val /\
                                       staged_eth56g hw cmd_val lock_sbq port e)
        (Z.to_nat (max_phy_port hw)) 0 evs
  | ICE_PHY_E822 =>
      staged_ports
        (fun port e => exists cmd_val, phy_cmd_val hw cmd = Some cmd_val /\
                                       staged_e822 cmd_val lock_sbq port e)
        (Z.to_nat (phy_ports hw)) 0 evs
  | ICE_PHY_E810 =>
      exists cmd_val, e810_cmd_val cmd = Some cmd_val /\
        rmw_events (e810_msg E810_ETH_GLTSYN_CMD ice_sbq_msg_rd 0)
                   (e810_msg E810_ETH_GLTSYN_CMD ice_sbq_msg_wr)
                   TS_CMD_MASK_E810 cmd_val lock_sbq evs
  | ICE_PHY_UNSUP => False
  end.

(** The write of ice_ptp_src_cmd. *)
Definition src_cmd_events (hw : ice_hw) (cmd : enum_ice_ptp_tmr_cmd) : list event :=
  match src_cmd_val hw cmd with
  | Some cmd_val => [EvWr32 GLTSYN_CMD (u32 cmd_val)]
  | None => []
  end.

(** The execute pulse and the clearing of the command register. *)
Definition commit_events : list event :=
  [EvWr32 GLTSYN_CMD_SYNC (u32 SYNC_EXEC_CMD); EvFlush;
   EvWr32 GLTSYN_CMD (u32 0); EvFlush].

(** [emits_only P m]: every event [m] issues satisfies [P]. *)
Definition emits_only {A : Type} (P : event -> Prop) (m : M A) : Prop :=
  shape m (fun _ evs => Forall P evs).

Definition sbq_event (e : event) : Prop := is_sbq e = true.

(** [k] polls of the semaphore that found it busy, each followed by the
    sleep of 5 to 6 ms. *)
Fixpoint busy_polls (hw : ice_hw) (k : nat) (evs : list event) : Prop :=
  match k with
  | O => evs = []
  | S k' =>
      exists v rest,
        evs = EvRd32 (ptp_sem_addr hw) v :: EvSleep 5000 6000 :: rest /\
        Z.land v PFTSYN_SEM_BUSY_M <> 0 /\
        busy_polls hw k' rest
  end.

(** The events of ice_ptp_lock and its result: either MAX_TRIES busy polls
    and [false], or fewer busy polls, one poll that reads the busy bit
    clear, and [true]. *)
Definition lock_events (hw : ice_hw) (locked : bool) (evs : list event) : Prop :=
  exists k polls, busy_polls hw k polls /\
    ((locked = false /\ k = MAX_TRIES /\ evs = polls) \/
     (locked = true /\ (k < MAX_TRIES)%nat /\
      exists v, Z.land v PFTSYN_SEM_BUSY_M = 0 /\
                evs = polls ++ [EvRd32 (ptp_sem_addr hw) v])).

(** A function that works under the semaphore: when the semaphore is not
    acquired it returns -EBUSY having written no register; when it is
    acquired, the write that releases it is the last event of the call and
    the only one. *)
Definition locked_section (hw : ice_hw) (status : Z) (evs : list event) : Prop :=
  exists locked lock_evs, lock_events hw locked lock_evs /\
    ((locked = false /\ status = - EBUSY /\ evs = lock_evs /\
      count_ev is_write evs = 0%nat) \/
     (locked = true /\
      exists body,
        evs = lock_evs ++ body ++ [EvWr32 (ptp_sem_addr hw) (u32 0)] /\
        count_ev (is_wr32_to (ptp_sem_addr hw)) (lock_evs ++ body) = 0%nat /\
        count_ev (is_wr32_to (ptp_sem_addr hw)) evs = 1%nat)).

(** Not a write to the semaphore register. *)
Definition not_sem_write (hw : ice_hw) (e : event) : Prop :=
  is_wr32_to (ptp_sem_addr hw) e = false.

(** [m] issues no write to the semaphore register except its last event,
    which releases the semaphore. *)
Definition ends_unlock (hw : ice_hw) (m : M Z) : Prop :=
  shape m (fun _ evs =>
    exists body, evs = body ++ [EvWr32 (ptp_sem_addr hw) (u32 0)] /\
                 Forall (not_sem_write hw) body).

(** *** Clearing a timestamp *)

(** Not a sideband write. *)
Definition read_event (e : event) : Prop :=
  match e with
  | EvSbq msg _ _ _ => opcode msg = ice_sbq_msg_rd
  | _ => True
  end.

(** No sideband write. *)
Definition no_phy_write (evs : list event) : Prop := Forall read_event evs.

(** Some reading first, without any sideband write, then the sideband
    write [low]. *)
Definition read_then_write (low : ice_sbq_msg_input) (evs : list event) : Prop :=
  exists reads lock_sbq status w rest,
    evs = reads ++ EvSbq low lock_sbq status w :: rest /\
    reads <> [] /\ no_phy_write reads.

(** The claim "the timestamp is read, then its low word is written with
    zero", for some sideband write of zero. *)
Definition read_then_zero (evs : list event) : Prop :=
  exists low, opcode low = ice_sbq_msg_wr /\ data low = 0 /\
              read_then_write low evs.

(** The write of zero to the low word of timestamp [idx]: in the memory of
    a 56G port, and on the E810 external PHY. *)
Definition tstamp_low_zero_eth56g (hw : ice_hw) (port idx : Z)
    : ice_sbq_msg_input :=
  eth56g_mem_msg hw port (u16 (PHY_TSTAMP_L idx)) ice_sbq_msg_wr (u32 0).

Definition tstamp_low_zero_e810 (lport idx : Z) : ice_sbq_msg_input :=
  e810_msg (u32 (TS_EXT LOW_TX_MEMORY_BANK_START lport idx)) ice_sbq_msg_wr (u32 0).

Definition tstamp_high_zero_e810 (lport idx : Z) : ice_sbq_msg_input :=
  e810_msg (u32 (TS_EXT HIGH_TX_MEMORY_BANK_START lport idx)) ice_sbq_msg_wr (u32 0).

(** *** Programming a Vernier offset on the E822 *)

(** Sideband transactions on a port register of the E822, with the
    sideband lock taken. *)
Definition E_rd (port offset status v : Z) : event :=
  EvSbq (ice_fill_phy_msg_e822 port offset ice_sbq_msg_rd 0) true status v.

Definition E_wr (port offset val status w : Z) : event :=
  EvSbq (ice_fill_phy_msg_e822 port offset ice_sbq_msg_wr (u32 val)) true status w.

(** The case labels the switch of ice_is_64b_phy_reg_e822 goes through up
    to the total offsets; C requires the labels of a switch to differ. *)
Definition offset_case_labels_distinct : Prop :=
  NoDup [P_REG_PAR_PCS_TX_OFFSET_L; P_REG_PAR_PCS_RX_OFFSET_L;
         P_REG_PAR_TX_TIME_L; P_REG_PAR_RX_TIME_L;
         P_REG_TOTAL_TX_OFFSET_L; P_REG_TOTAL_RX_OFFSET_L].

(** The attempt to program [total] and raise the ready flag: the low word,
    the high word, the flag, in this order, stopping at the first failing
    write; [status] is the first nonzero status, or 0. *)
Definition program_attempt (port low high ready total status : Z)
    (evs : list event) : Prop :=
  exists s1 w1,
    (s1 <> 0 /\ status = s1 /\
     evs = [E_wr port low (lower_32_bits total) s1 w1]) \/
    (s1 = 0 /\ exists s2 w2,
       (s2 <> 0 /\ status = s2 /\
        evs = [E_wr port low (lower_32_bits total) 0 w1;
               E_wr port high (upper_32_bits total) s2 w2]) \/
       (s2 = 0 /\ exists w3,
        evs = [E_wr port low (lower_32_bits total) 0 w1;
               E_wr port high (upper_32_bits total) 0 w2;
               E_wr port ready 1 status w3])).

(** Not a register write. *)
Definition not_write (e : event) : Prop := is_write e = false.

(** *** The Rx offset of the E822 *)

(** The two reads of ice_ptp_read_src_incval, and the increment value they
    give. *)
Definition incval_reads (hw : ice_hw) (lo hi : Z) : list event :=
  let tmr_idx := ice_get_ptp_src_clock_index hw in
  [EvRd32 (GLTSYN_INCVAL_L tmr_idx) lo; EvRd32 (GLTSYN_INCVAL_H tmr_idx) hi].

Definition incval_of (lo hi : Z) : Z :=
  Z.lor (Z.shiftl (Z.land hi INCVAL_HIGH_M) 32) lo.

(** Time units per second at an increment value. *)
Definition tu_per_sec_of (hw : ice_hw) (incval : Z) : Z :=
  u64 (u64 (ice_e822_pll_freq (ice_e822_time_ref hw)) * incval).

(** The fixed Rx delay of a link speed, in time units. *)
Definition fixed_rx_offset_of (hw : ice_hw) (link : ice_ptp_link_spd)
    (incval : Z) : Z :=
  div64_u64
    (u64 (div64_u64 (tu_per_sec_of hw incval) 10000
          * rx_fixed_delay (e822_vernier link)))
    10000000.

(** A 64-bit port register read as two words, low word first. *)
Definition reads_64b (port low high l h : Z) : list event :=
  [E_rd port low 0 l; E_rd port high 0 h].

Definition val_64b (l h : Z) : Z := Z.lor (Z.shiftl h 32) l.

(** The multi-lane link speeds, which have a second Vernier offset. *)
Definition rx_multi_lane (link : ice_ptp_link_spd) : bool :=
  match link with
  | ICE_PTP_LNK_SPD_40G | ICE_PTP_LNK_SPD_50G
  | ICE_PTP_LNK_SPD_50G_RS | ICE_PTP_LNK_SPD_100G_RS => true
  | _ => false
  end.

Definition par_rx_reads (port : Z) (link : ice_ptp_link_spd) (l h : Z)
    : list event :=
  if rx_multi_lane link
  then reads_64b port P_REG_PAR_RX_TIME_L P_REG_PAR_RX_TIME_U l h
  else [].

(** The Rx offset before the PMD alignment adjustment: the fixed delay plus
    the Vernier offsets read from the port. *)
Definition rx_base_offset (hw : ice_hw) (link : ice_ptp_link_spd)
    (incval pcs par : Z) : Z :=
  let base := u64 (fixed_rx_offset_of hw link incval + pcs) in
  if rx_multi_lane link then u64 (base + par) else base.

(** The Rx cycle count is read for 25G-RS and 50G-RS only, each from its own
    register. *)
Definition rx_cycle_reads (port : Z) (link : ice_ptp_link_spd) (v : Z)
    : list event :=
  match link with
  | ICE_PTP_LNK_SPD_25G_RS => [E_rd port P_REG_RX_40_TO_160_CNT 0 v]
  | ICE_PTP_LNK_SPD_50G_RS => [E_rd port P_REG_RX_80_TO_160_CNT 0 v]
  | _ => []
  end.

(** The term the Rx cycle count [v] contributes: none for a count of zero,
    and none outside of 25G-RS and 50G-RS. *)
Definition rx_cycle_term (link : ice_ptp_link_spd) (tu divisor v : Z) : Z :=
  match link with
  | ICE_PTP_LNK_SPD_25G_RS =>
      let rx_cycle := u8 (Z.land v P_REG_RX_40_TO_160_CNT_RXCYC_M) in
      if rx_cycle =? 0 then 0
      else pmd_scale tu (u64 ((4 - rx_cycle) * 40)) divisor
  | ICE_PTP_LNK_SPD_50G_RS =>
      let rx_cycle := u8 (Z.land v P_REG_RX_80_TO_160_CNT_RXCYC_M) in
      if rx_cycle =? 0 then 0
      else pmd_scale tu (u64 (rx_cycle * 40)) divisor
  | _ => 0
  end.

(** The PMD alignment adjustment for the alignment counter [align] and the
    Rx cycle count [cyc]: the counter gives a multiplier that depends on the
    link speed, a zero multiplier means no adjustment. *)
Definition pmd_adj_of (link : ice_ptp_link_spd) (fec tu align cyc : Z) : Z :=
  let divisor := u32 (pmd_adj_divisor (e822_vernier link)) in
  let mult := pmd_adj_mult link fec align in
  if mult =? 0 then 0
  else u64 (pmd_scale tu mult divisor + rx_cycle_term link tu divisor cyc).

(** A call of ice_phy_cfg_rx_offset_e822 that gets as far as programming:
    it found the ready flag clear and the valid bit set, read the link
    speed, the increment value, the Vernier offsets, the alignment counter
    and, for 25G-RS and 50G-RS, the cycle count, all with success; the
    total it then attempts to program is the base offset plus the PMD
    adjustment for RS-FEC, the base offset minus it for any other mode. *)
Definition rx_offset_programmed (hw : ice_hw) (port status : Z)
    (evs : list event) : Prop :=
  exists ov serdes link lo hi pcs_l pcs_u par_l par_u align lo' hi' cyc writes,
    let fec := P_REG_LINK_SPEED_FEC_MODE serdes in
    let base :=
      rx_base_offset hw link (incval_of lo hi) (val_64b pcs_l pcs_u)
        (val_64b par_l par_u) in
    let pmd :=
      pmd_adj_of link fec (tu_per_sec_of hw (incval_of lo' hi')) (u8 align) cyc in
    let total :=
      if fec =? ICE_PTP_FEC_MODE_RS_FEC then u64 (base + pmd)
      else u64 (base - pmd) in
    Z.land ov P_REG_RX_OV_STATUS_OV_M <> 0 /\
    serdes_link_spd fec (Z.land serdes P_REG_LINK_SPEED_SERDES_M) = Some link /\
    evs = [E_rd port P_REG_RX_OR 0 0; E_rd port P_REG_RX_OV_STATUS 0 ov;
           E_rd port P_REG_LINK_SPEED 0 serdes]
          ++ incval_reads hw lo hi
          ++ reads_64b port P_REG_PAR_PCS_RX_OFFSET_L P_REG_PAR_PCS_RX_OFFSET_U
               pcs_l pcs_u
          ++ par_rx_reads port link par_l par_u
          ++ [E_rd port P_REG_PMD_ALIGNMENT 0 align]
          ++ incval_reads hw lo' hi'
          ++ rx_cycle_reads port link cyc
          ++ writes /\
    program_attempt port P_REG_TOTAL_RX_OFFSET_L P_REG_TOTAL_RX_OFFSET_U
      P_REG_RX_OR total status writes.

(** What a call of ice_phy_cfg_rx_offset_e822 does: either it writes no
    register, and then it succeeds only as the no-op that found the ready
    flag set; or it gets as far as programming. *)
Definition rx_offset_outcome (hw : ice_hw) (port status : Z)
    (evs : list event) : Prop :=
  (Forall not_write evs /\
   (status = 0 -> exists v, v <> 0 /\ evs = [E_rd port P_REG_RX_OR 0 v])) \/
  rx_offset_programmed hw port status evs.

(** The value the call programs, read back from its events: the data of the
    two writes to the total Rx offset. *)
Definition written_total (port : Z) (evs : list event) : option Z :=
  let data_to offset :=
    fold_left
      (fun acc e =>
         match e with
         | EvSbq m _ _ _ =>
             match opcode m with
             | ice_sbq_msg_wr =>
                 if (msg_addr_low m =? msg_addr_low
                       (ice_fill_phy_msg_e822 port offset ice_sbq_msg_wr 0))
                    && (msg_addr_high m =? msg_addr_high
                          (ice_fill_phy_msg_e822 port offset ice_sbq_msg_wr 0))
                 then Some (data m) else acc
             | ice_sbq_msg_rd => acc
             end
         | _ => acc
         end) evs None in
  match data_to P_REG_TOTAL_RX_OFFSET_L, data_to P_REG_TOTAL_RX_OFFSET_U with
  | Some l, Some h => Some (val_64b l h)
  | _, _ => None
  end.

End Shapes.

(** * Statements about the NVM code *)

Section NvmShapes.
Context {nvm_defs : NvmDefs}.

(** The byte offset a read command carries in its two offset fields. *)
Definition cmd_offset (c : ice_aqc_nvm) : Z :=
  offset_low c + 2 ^ 16 * offset_high c.

(** The flags of a command of ice_read_flat_nvm: flash only unless the
    Shadow RAM is read, and the mark of the last command of a series. *)
Definition flat_read_flags (read_shadow_ram last : bool) : Z :=
  let flags :=
    if read_shadow_ram then 0 else u8 (Z.lor 0 ICE_AQC_NVM_FLASH_ONLY) in
  if last then u8 (Z.lor flags ICE_AQC_NVM_LAST_CMD) else flags.

(** The piece read at [from] of a request that ends at [to]: up to the end
    of the sector of [from], or up to [to] if that comes first. *)
Definition chunk_len (from to : Z) : Z :=
  Z.min (ICE_AQ_MAX_BUF_LEN - from mod ICE_AQ_MAX_BUF_LEN) (to - from).

Definition flat_read_cmd (read_shadow_ram : bool) (from to : Z) : ice_aqc_nvm :=
  {| offset_low := from mod 2 ^ 16;
     offset_high := from / 2 ^ 16;
     cmd_flags := flat_read_flags read_shadow_ram (from + chunk_len from to =? to);
     module_typeid := u16 ICE_AQC_NVM_START_POINT;
     nvm_length := chunk_len from to |}.

(** The command of a request that fits into the sector of its first byte:
    one command, marked as the last. *)
Definition single_read_cmd (read_shadow_ram : bool) (offset len : Z)
    : ice_aqc_nvm :=
  {| offset_low := offset mod 2 ^ 16;
     offset_high := offset / 2 ^ 16;
     cmd_flags := flat_read_flags read_shadow_ram true;
     module_typeid := u16 ICE_AQC_NVM_START_POINT;
     nvm_length := len |}.

(** The commands of a read of the bytes [from], ..., [to - 1]: one piece
    after the other, each starting where the one before ended; only the
    last command issued may have failed, and a command follows another only
    if that one did not reach [to]. *)
Fixpoint flat_chunks (read_shadow_ram : bool) (from to : Z)
    (evs : list nvm_event) : Prop :=
  match evs with
  | [] => True
  | e :: rest =>
      exists status rc bytes,
        e = NvAqRead (flat_read_cmd read_shadow_ram from to)
              (chunk_len from to) status rc bytes /\
        length bytes = Z.to_nat (chunk_len from to) /\
        (rest <> [] -> status = 0 /\ from + chunk_len from to < to) /\
        flat_chunks read_shadow_ram (from + chunk_len from to) to rest
  end.

(** The bytes delivered by the commands that succeeded, in order. *)
Definition ok_payload (evs : list nvm_event) : list Z :=
  flat_map (fun e => match e with
                     | NvAqRead _ _ status _ bytes =>
                         if failed status then [] else bytes
                     | _ => []
                     end) evs.

(** A read command that stays inside one sector of the NVM and inside the
    largest buffer of the admin queue. *)
Definition within_sector (e : nvm_event) : Prop :=
  match e with
  | NvAqRead c buf_size _ _ _ =>
      buf_size = nvm_length c /\
      0 <= nvm_length c <= ICE_AQ_MAX_BUF_LEN /\
      cmd_offset c mod ICE_AQ_MAX_BUF_LEN + nvm_length c <= ICE_AQ_MAX_BUF_LEN
  | _ => False
  end.

(** A read command for bytes below [limit]. *)
Definition reads_below (limit : Z) (e : nvm_event) : Prop :=
  match e with
  | NvAqRead c _ _ _ _ => 0 <= cmd_offset c /\ cmd_offset c + nvm_length c <= limit
  | _ => False
  end.

Definition is_nvm_read (e : nvm_event) : bool :=
  match e with NvAqRead _ _ _ _ _ => true | _ => false end.

Definition is_nvm_release (e : nvm_event) : bool :=
  match e with NvReleaseRes _ _ => true | _ => false end.

Definition is_nvm_acquire (e : nvm_event) : bool :=
  match e with NvAcquireRes _ _ _ _ _ => true | _ => false end.

Definition only_reads (evs : list nvm_event) : Prop :=
  forallb is_nvm_read evs = true.

(** Neither the request for a resource nor its release. *)
Definition not_owner_event (e : nvm_event) : bool :=
  negb (is_nvm_acquire e || is_nvm_release e).

(** A flash of [size] bytes: a read command that starts below [size] is
    answered with success, any other with ICE_ERR_AQ_ERROR and the return
    code EINVAL. *)
Definition flash_of_size (d : nvm_device) (size : Z) : Prop :=
  forall t c,
    let '(status, rc, _) := nv_aq_nvm_read d t c in
    (cmd_offset c < size -> status = 0) /\
    (size <= cmd_offset c -> status = ICE_ERR_AQ_ERROR /\ rc = ICE_AQ_RC_EINVAL).

(** The work done while the NVM is owned: it is framed by the request for
    the NVM resource and its release, neither of which occurs inside; when
    the request is refused ([status] is then its status) nothing follows;
    in blank NVM mode there is neither request nor release. *)
Definition nvm_owned_section (hw : nvm_hw) (status : Z) (evs : list nvm_event)
    : Prop :=
  if blank_nvm_mode hw then
    forallb not_owner_event evs = true
  else
    exists acq_status rc,
      (acq_status <> 0 /\ status = acq_status /\
       evs = [NvAcquireRes ICE_NVM_RES_ID ICE_RES_READ ICE_NVM_TIMEOUT acq_status rc]) \/
      (acq_status = 0 /\ exists body rc',
         evs = NvAcquireRes ICE_NVM_RES_ID ICE_RES_READ ICE_NVM_TIMEOUT 0 rc
               :: body ++ [NvReleaseRes ICE_NVM_RES_ID rc'] /\
         forallb not_owner_event body = true).

(** A register an NVM access request may name. *)
Definition nvm_rw_reg_allowed (offset : Z) : Prop :=
  In offset nvm_rw_reg_cases \/
  (exists i, 0 <= i <= ICE_NVM_ACCESS_GL_HIDA_MAX /\ offset = u32 (GL_HIDA i)) \/
  (exists i, 0 <= i <= ICE_NVM_ACCESS_GL_HIBA_MAX /\ offset = u32 (GL_HIBA i)).

End NvmShapes.
(** * Further statements *)

Section MoreShapes.
Context {defs : IceDefs}.

(** The link speeds that use RS-FEC. *)
Definition rs_fec_speed (link : ice_ptp_link_spd) : bool :=
  match link with
  | ICE_PTP_LNK_SPD_25G_RS | ICE_PTP_LNK_SPD_50G_RS | ICE_PTP_LNK_SPD_100G_RS => true
  | _ => false
  end.

(** [k] polls of the low latency read that found the timestamp not ready
    yet, each followed by the delay of 10 us. *)
Fixpoint ll_busy_polls (k : nat) (evs : list event) : Prop :=
  match k with
  | O => evs = []
  | S k' =>
      exists v rest,
        evs = EvRd32 PF_SB_ATQBAL v :: EvSleep 10 10 :: rest /\
        Z.land v TS_LL_READ_TS <> 0 /\
        ll_busy_polls k' rest
  end.

(** The polling of ice_read_phy_tstamp_ll_e810 and its result (status, hi,
    lo): all the retries find the timestamp not ready, and the result is
    -EBUSY; or fewer do, the next poll reads the ready bit clear and the
    low word is read. *)
Definition ll_read_events (retries : nat) (r : Z * Z * Z) (evs : list event)
    : Prop :=
  exists k polls, ll_busy_polls k polls /\
    ((k = retries /\ evs = polls /\ r = (- EBUSY, 0, 0)) \/
     ((k < retries)%nat /\
      exists v lo,
        Z.land v TS_LL_READ_TS = 0 /\
        evs = polls ++ [EvRd32 PF_SB_ATQBAL v; EvRd32 PF_SB_ATQBAH lo] /\
        r = (0, u8 (Z.shiftr v TS_LL_READ_TS_HIGH_S), u32 (Z.lor lo TS_VALID)))).

End MoreShapes.
(** * Statements about the timers *)

Section TimeShapes.
Context {defs : IceDefs} {tdefs : IceTimeDefs}.

(** The shadow registers of the source timer the commands write. *)
Definition src_shadow_regs (hw : ice_hw) : list Z :=
  let tmr_idx := tmr_index_owned hw in
  [GLTSYN_SHTIME_0 tmr_idx; GLTSYN_SHTIME_L tmr_idx; GLTSYN_SHTIME_H tmr_idx;
   GLTSYN_SHADJ_L tmr_idx; GLTSYN_SHADJ_H tmr_idx].

Definition no_pulse (evs : list event) : Prop :=
  count_ev (is_wr32_to GLTSYN_CMD_SYNC) evs = 0%nat.

(** The execute pulse is written when the command succeeds, once, followed
    only by the clearing of the command register; it is not written when
    the command fails. *)
Definition pulse_iff_success (status : Z) (evs : list event) : Prop :=
  (status = 0 -> exists before, evs = before ++ commit_events /\ no_pulse before) /\
  (status <> 0 -> no_pulse evs).

(** The port numbers a loop over [n] ports goes through from [port] on. *)
Fixpoint ports_from (n : nat) (port : Z) : list Z :=
  match n with
  | O => []
  | S n' => port :: ports_from n' (port + 1)
  end.

(** Successful sideband transactions with the messages [msgs], in order. *)
Definition sbq_writes (msgs : list ice_sbq_msg_input) (lock_sbq : bool)
    (evs : list event) : Prop :=
  Forall2 (fun msg e => exists w, e = EvSbq msg lock_sbq 0 w) msgs evs.

(** The write messages that put the words [lo] and [hi] into the Tx and
    then the Rx timer shadow registers of one port. *)
Definition port_time_msgs_e822 (lo hi port : Z) : list ice_sbq_msg_input :=
  [ice_fill_phy_msg_e822 port P_REG_TX_TIMER_INC_PRE_L ice_sbq_msg_wr lo;
   ice_fill_phy_msg_e822 port P_REG_TX_TIMER_INC_PRE_U ice_sbq_msg_wr hi;
   ice_fill_phy_msg_e822 port P_REG_RX_TIMER_INC_PRE_L ice_sbq_msg_wr lo;
   ice_fill_phy_msg_e822 port P_REG_RX_TIMER_INC_PRE_U ice_sbq_msg_wr hi].

Definition port_time_msgs_eth56g (hw : ice_hw) (lo hi port : Z)
    : list ice_sbq_msg_input :=
  [eth56g_reg_msg hw port PHY_REG_TX_TIMER_INC_PRE_L ice_sbq_msg_wr lo;
   eth56g_reg_msg hw port PHY_REG_TX_TIMER_INC_PRE_U ice_sbq_msg_wr hi;
   eth56g_reg_msg hw port PHY_REG_RX_TIMER_INC_PRE_L ice_sbq_msg_wr lo;
   eth56g_reg_msg hw port PHY_REG_RX_TIMER_INC_PRE_U ice_sbq_msg_wr hi].

(** The write messages that stage the 64-bit time [hi]:[lo] in the PHY:
    in both timers of every port, in port order, on the E822 and the 56G
    PHY; in the one shadow time register pair of the E810, which holds the
    nanoseconds only. *)
Definition phy_time_msgs (hw : ice_hw) (lo hi : Z) : list ice_sbq_msg_input :=
  match phy_model hw with
  | ICE_PHY_ETH56G =>
      flat_map (port_time_msgs_eth56g hw lo hi)
               (ports_from (Z.to_nat (max_phy_port hw)) 0)
  | ICE_PHY_E822 =>
      flat_map (port_time_msgs_e822 lo hi) (ports_from (Z.to_nat (phy_ports hw)) 0)
  | ICE_PHY_E810 =>
      [e810_msg (ETH_GLTSYN_SHTIME_0 (tmr_index_owned hw)) ice_sbq_msg_wr lo;
       e810_msg (ETH_GLTSYN_SHTIME_L (tmr_index_owned hw)) ice_sbq_msg_wr hi]
  | ICE_PHY_UNSUP => []
  end.

(** The same for an adjustment; the E810 takes it in its shadow adjust
    register pair. *)
Definition phy_adj_msgs (hw : ice_hw) (lo hi : Z) : list ice_sbq_msg_input :=
  match phy_model hw with
  | ICE_PHY_E810 =>
      [e810_msg (ETH_GLTSYN_SHADJ_L (tmr_index_owned hw)) ice_sbq_msg_wr lo;
       e810_msg (ETH_GLTSYN_SHADJ_H (tmr_index_owned hw)) ice_sbq_msg_wr hi]
  | _ => phy_time_msgs hw lo hi
  end.

(** The write messages that stage the target time of an adjustment: the
    nanoseconds [target] with no sub-nanoseconds, in the Tx and then the Rx
    target register pair of every port; in the shadow time register pair
    of the E810. *)
Definition port_target_msgs_e822 (target port : Z) : list ice_sbq_msg_input :=
  [ice_fill_phy_msg_e822 port P_REG_TX_TIMER_CNT_ADJ_L ice_sbq_msg_wr 0;
   ice_fill_phy_msg_e822 port P_REG_TX_TIMER_CNT_ADJ_U ice_sbq_msg_wr target;
   ice_fill_phy_msg_e822 port P_REG_RX_TIMER_CNT_ADJ_L ice_sbq_msg_wr 0;
   ice_fill_phy_msg_e822 port P_REG_RX_TIMER_CNT_ADJ_U ice_sbq_msg_wr target].

Definition port_target_msgs_eth56g (hw : ice_hw) (target port : Z)
    : list ice_sbq_msg_input :=
  [eth56g_reg_msg hw port PHY_REG_TX_TIMER_CNT_ADJ_L ice_sbq_msg_wr 0;
   eth56g_reg_msg hw port PHY_REG_TX_TIMER_CNT_ADJ_U ice_sbq_msg_wr target;
   eth56g_reg_msg hw port PHY_REG_RX_TIMER_CNT_ADJ_L ice_sbq_msg_wr 0;
   eth56g_reg_msg hw port PHY_REG_RX_TIMER_CNT_ADJ_U ice_sbq_msg_wr target].

Definition phy_target_msgs (hw : ice_hw) (target : Z) : list ice_sbq_msg_input :=
  match phy_model hw with
  | ICE_PHY_ETH56G =>
      flat_map (port_target_msgs_eth56g hw target)
               (ports_from (Z.to_nat (max_phy_port hw)) 0)
  | ICE_PHY_E822 =>
      flat_map (port_target_msgs_e822 target) (ports_from (Z.to_nat (phy_ports hw)) 0)
  | ICE_PHY_E810 =>
      [e810_msg (ETH_GLTSYN_SHTIME_0 (tmr_index_owned hw)) ice_sbq_msg_wr 0;
       e810_msg (ETH_GLTSYN_SHTIME_L (tmr_index_owned hw)) ice_sbq_msg_wr target]
  | ICE_PHY_UNSUP => []
  end.

(** The events of a successful ice_ptp_tmr_cmd. *)
Definition tmr_cmd_issued (hw : ice_hw) (cmd : enum_ice_ptp_tmr_cmd)
    (lock_sbq : bool) (evs : list event) : Prop :=
  exists staging,
    ports_staged hw cmd lock_sbq staging /\
    evs = src_cmd_events hw cmd ++ staging ++ commit_events.

(** What a successful ice_ptp_adj_clock leaves: the adjustment in the
    shadow adjust registers of the source timer, low word 0 and high word
    [adj]; the same two words staged in the PHY; the ADJ_TIME command. *)
Definition adjustment_staged (hw : ice_hw) (adj : Z) (lock_sbq : bool)
    (status : Z) (evs : list event) : Prop :=
  status = 0 ->
  exists prep cmd,
    evs = [EvWr32 (GLTSYN_SHADJ_L (tmr_index_owned hw)) 0;
           EvWr32 (GLTSYN_SHADJ_H (tmr_index_owned hw)) (u32 adj)]
          ++ prep ++ cmd /\
    sbq_writes (phy_adj_msgs hw 0 (u32 adj)) lock_sbq prep /\
    tmr_cmd_issued hw ICE_PTP_ADJ_TIME lock_sbq cmd.

(** What a successful ice_ptp_adj_clock_at_time leaves: the adjustment
    and the whole target time in the shadow registers of the source
    timer; the adjustment and the low 32 bits of the target time staged in
    the PHY; the ADJ_TIME_AT_TIME command. *)
Definition adjustment_at_time_staged (hw : ice_hw) (at_time adj : Z)
    (status : Z) (evs : list event) : Prop :=
  status = 0 ->
  exists prep target cmd,
    evs = [EvWr32 (GLTSYN_SHADJ_L (tmr_index_owned hw)) 0;
           EvWr32 (GLTSYN_SHADJ_H (tmr_index_owned hw)) (u32 adj);
           EvWr32 (GLTSYN_SHTIME_0 (tmr_index_owned hw)) 0;
           EvWr32 (GLTSYN_SHTIME_L (tmr_index_owned hw)) (lower_32_bits at_time);
           EvWr32 (GLTSYN_SHTIME_H (tmr_index_owned hw)) (upper_32_bits at_time)]
          ++ prep ++ target ++ cmd /\
    sbq_writes (phy_adj_msgs hw 0 (u32 adj)) true prep /\
    sbq_writes (phy_target_msgs hw (lower_32_bits at_time)) true target /\
    tmr_cmd_issued hw ICE_PTP_ADJ_TIME_AT_TIME true cmd.

(** What a successful ice_ptp_init_time leaves: the whole time in the
    shadow registers of the source timer, when the main timer is to be
    written; the low 32 bits of the time staged in the PHY as nanoseconds,
    the sub-nanosecond word being 0; the INIT_TIME command. *)
Definition init_time_staged (hw : ice_hw) (time : Z) (wr_main_tmr : bool)
    (status : Z) (evs : list event) : Prop :=
  status = 0 ->
  exists prep cmd,
    evs = (if wr_main_tmr then
             [EvWr32 (GLTSYN_SHTIME_L (tmr_index_owned hw)) (lower_32_bits time);
              EvWr32 (GLTSYN_SHTIME_H (tmr_index_owned hw)) (upper_32_bits time);
              EvWr32 (GLTSYN_SHTIME_0 (tmr_index_owned hw)) 0]
           else [])
          ++ prep ++ cmd /\
    sbq_writes (phy_time_msgs hw 0 (lower_32_bits time)) true prep /\
    tmr_cmd_issued hw ICE_PTP_INIT_TIME true cmd.

(** The case labels of the timer shadow registers select their own high
    registers in ice_is_64b_phy_reg_e822 and ice_is_64b_phy_reg_eth56g. *)
Definition time_regs_known : Prop :=
  ice_is_64b_phy_reg_e822 P_REG_TX_TIMER_INC_PRE_L = Some P_REG_TX_TIMER_INC_PRE_U /\
  ice_is_64b_phy_reg_e822 P_REG_RX_TIMER_INC_PRE_L = Some P_REG_RX_TIMER_INC_PRE_U /\
  ice_is_64b_phy_reg_eth56g PHY_REG_TX_TIMER_INC_PRE_L = Some PHY_REG_TX_TIMER_INC_PRE_U /\
  ice_is_64b_phy_reg_eth56g PHY_REG_RX_TIMER_INC_PRE_L = Some PHY_REG_RX_TIMER_INC_PRE_U.

(** The number of time units per 66 unit intervals the code computes from
    the time units per second, for a line whose 6600 unit intervals last
    [line_ui] nanoseconds. *)
Definition uix_of (tu_per_sec line_ui : Z) : Z :=
  div64_u64 (u64 (Z.shiftr tu_per_sec 8 * line_ui)) 390625000.

(** The write messages that program the two conversion ratios of a port. *)
Definition uix_msgs (port uix_10g uix_25g : Z) : list ice_sbq_msg_input :=
  [ice_fill_phy_msg_e822 port P_REG_UIX66_10G_40G_L ice_sbq_msg_wr (lower_32_bits uix_10g);
   ice_fill_phy_msg_e822 port P_REG_UIX66_10G_40G_U ice_sbq_msg_wr (upper_32_bits uix_10g);
   ice_fill_phy_msg_e822 port P_REG_UIX66_25G_100G_L ice_sbq_msg_wr (lower_32_bits uix_25g);
   ice_fill_phy_msg_e822 port P_REG_UIX66_25G_100G_U ice_sbq_msg_wr (upper_32_bits uix_25g)].

(** The case labels of the conversion ratio registers select their own
    high registers in ice_is_64b_phy_reg_e822. *)
Definition uix_regs_known : Prop :=
  ice_is_64b_phy_reg_e822 P_REG_UIX66_10G_40G_L = Some P_REG_UIX66_10G_40G_U /\
  ice_is_64b_phy_reg_e822 P_REG_UIX66_25G_100G_L = Some P_REG_UIX66_25G_100G_U.

(** What ice_phy_cfg_uix_e822 does on [port]: it reads the increment
    value; when it succeeds it has written the two ratios computed from
    tu = frequency * incval; and while tu is below 2^65 / 5 each ratio is
    tu * line_ui / 10^11 rounded down, or one less. *)
Definition uix_programmed (hw : ice_hw) (port : Z) (status : Z)
    (evs : list event) : Prop :=
  exists lo hi writes,
    evs = incval_reads hw lo hi ++ writes /\
    let tu := u64 (ice_e822_pll_freq (ice_e822_time_ref hw)) * incval_of lo hi in
    let uix_10g := uix_of (tu_per_sec_of hw (incval_of lo hi)) 640 in
    let uix_25g := uix_of (tu_per_sec_of hw (incval_of lo hi)) 256 in
    (status = 0 -> sbq_writes (uix_msgs port uix_10g uix_25g) true writes) /\
    (0 <= tu -> 5 * tu < 2 ^ 65 ->
     tu * 640 / 10 ^ 11 - 1 <= uix_10g <= tu * 640 / 10 ^ 11 /\
     tu * 256 / 10 ^ 11 - 1 <= uix_25g <= tu * 256 / 10 ^ 11).

(** Two messages address the same register. *)
Definition same_register (a b : ice_sbq_msg_input) : bool :=
  (dest_dev a =? dest_dev b) && (msg_addr_low a =? msg_addr_low b)
  && (msg_addr_high a =? msg_addr_high b).

(** The value the history [t] last wrote with success to the register
    [msg] addresses, if it wrote any. *)
Definition last_written (t : trace) (msg : ice_sbq_msg_input) : option Z :=
  fold_left
    (fun acc e =>
       match e with
       | EvSbq m _ status _ =>
           match opcode m with
           | ice_sbq_msg_wr =>
               if (status =? 0) && same_register m msg then Some (data m) else acc
           | ice_sbq_msg_rd => acc
           end
       | _ => acc
       end)
    t None.

(** A device whose sideband registers keep what is written to them: a
    write succeeds, and a read of a register written before succeeds and
    gives the value last written. *)
Definition registers_hold (d : device) : Prop :=
  forall t msg lock_sbq,
    (opcode msg = ice_sbq_msg_wr -> fst (dev_sbq d t msg lock_sbq) = 0) /\
    (opcode msg = ice_sbq_msg_rd ->
     forall v, last_written t msg = Some v -> dev_sbq d t msg lock_sbq = (0, v)).

(** The events of a successful ice_read_phy_and_phc_time_e822 on [port]:
    the READ_TIME command is staged in the source timer and in the port
    and executed; the words [zo] and [lo] of the captured PHC time are
    read from the shadow registers of the source timer, then the captured
    Tx time and the captured Rx time of the port, low word first. *)
Definition time_captured_e822 (hw : ice_hw) (port zo lo txl txh rxl rxh : Z)
    (evs : list event) : Prop :=
  exists cmd_val staging,
    phy_cmd_val hw ICE_PTP_READ_TIME = Some cmd_val /\
    staged_e822 cmd_val true port staging /\
    evs = src_cmd_events hw ICE_PTP_READ_TIME ++ staging ++ commit_events
          ++ [EvRd32 (GLTSYN_SHTIME_0 (ice_get_ptp_src_clock_index hw)) zo;
              EvRd32 (GLTSYN_SHTIME_L (ice_get_ptp_src_clock_index hw)) lo]
          ++ reads_64b port P_REG_TX_CAPTURE_L P_REG_TX_CAPTURE_U txl txh
          ++ reads_64b port P_REG_RX_CAPTURE_L P_REG_RX_CAPTURE_U rxl rxh.

(** The case labels of the capture registers select their own high
    registers in ice_is_64b_phy_reg_e822. *)
Definition capture_regs_known : Prop :=
  ice_is_64b_phy_reg_e822 P_REG_TX_CAPTURE_L = Some P_REG_TX_CAPTURE_U /\
  ice_is_64b_phy_reg_e822 P_REG_RX_CAPTURE_L = Some P_REG_RX_CAPTURE_U.



(** What a successful ice_sync_phy_timer_e822 leaves: the semaphore taken;
    one capture of the PHC time and of the port times; the difference
    between the PHC time and the Tx time of the port, modulo 2^64, staged
    in both timers of the port; the ADJ_TIME command on the port and the
    READ_TIME command on the source timer, executed; a second capture; the
    semaphore released. *)
Definition phy_timer_synced (hw : ice_hw) (port : Z) (status : Z)
    (evs : list event) : Prop :=
  status = 0 ->
  exists lock_evs capture zo lo txl txh rxl rxh adj cmd_val staging recapture,
    lock_events hw true lock_evs /\
    time_captured_e822 hw port zo lo txl txh rxl rxh capture /\
    (let difference := u64 (val_64b zo lo - val_64b txl txh) in
     sbq_writes (port_time_msgs_e822 (lower_32_bits difference)
                                     (upper_32_bits difference) port)
                true adj) /\
    phy_cmd_val hw ICE_PTP_ADJ_TIME = Some cmd_val /\
    staged_e822 cmd_val true port staging /\
    (exists zo' lo' txl' txh' rxl' rxh',
       time_captured_e822 hw port zo' lo' txl' txh' rxl' rxh' recapture) /\
    evs = lock_evs ++ capture ++ adj ++ staging
          ++ src_cmd_events hw ICE_PTP_READ_TIME ++ commit_events
          ++ recapture ++ [EvWr32 (ptp_sem_addr hw) 0].

End TimeShapes.

(** * Statements about the TLVs of the Preserved Field Area *)

Section TlvShapes.
Context {nvm_defs : NvmDefs}.

(** A device whose Shadow RAM holds the 16-bit words [words]: the NVM
    resource is granted, and the read command for the word at [offset] is
    answered with the two bytes of [words offset], low byte first. *)
Definition shadow_ram_of (d : nvm_device) (words : Z -> Z) : Prop :=
  (forall t res access timeout, fst (nv_acquire_res d t res access timeout) = 0) /\
  (forall t offset,
     0 <= offset < 2 ^ 16 ->
     let '(status, rc, payload) :=
       nv_aq_nvm_read d t (single_read_cmd true (offset * 2) 2) in
     status = 0 /\
     u8 (payload 0%nat) = words offset mod 2 ^ 8 /\
     u8 (payload 1%nat) = (words offset / 2 ^ 8) mod 2 ^ 8).

(** The TLVs [tlvs], given as pairs of a type and a length, lie one after
    the other from the word [addr] on, each starting below [limit], and
    the word after the last one is not below [limit]. *)
Fixpoint tlvs_at (words : Z -> Z) (addr limit : Z) (tlvs : list (Z * Z))
    : Prop :=
  match tlvs with
  | [] => limit <= addr
  | (type, len) :: rest =>
      addr < limit /\
      u16 (words addr) = type /\ u16 (words (addr + 1)) = len /\
      tlvs_at words (addr + len + 2) limit rest
  end.

(** The word after the last of the TLVs that start at [addr]. *)
Fixpoint tlvs_end (addr : Z) (tlvs : list (Z * Z)) : Z :=
  match tlvs with
  | [] => addr
  | (_, len) :: rest => tlvs_end (addr + len + 2) rest
  end.

(** The first TLV of type [type] among the TLVs that start at [addr]: its
    address and its length. *)
Fixpoint find_tlv (type addr : Z) (tlvs : list (Z * Z)) : option (Z * Z) :=
  match tlvs with
  | [] => None
  | (ty, len) :: rest =>
      if ty =? type then Some (addr, len)
      else find_tlv type (addr + len + 2) rest
  end.

(** What ice_get_pfa_module_tlv returns for the outcome of the search. *)
Definition tlv_result (found : option (Z * Z)) : Z * Z * Z :=
  match found with
  | Some (addr, len) =>
      if len =? 0 then (ICE_ERR_INVAL_SIZE, 0, 0) else (0, addr, len)
  | None => (ICE_ERR_DOES_NOT_EXIST, 0, 0)
  end.

(** The bounds on the constants of the admin queue the NVM reads rely on. *)
Definition nvm_read_limits : Prop :=
  0 < ICE_AQ_MAX_BUF_LEN < 2 ^ 16 /\ ICE_AQ_MAX_BUF_LEN mod 2 = 0 /\
  2 ^ 17 <= ICE_AQC_NVM_MAX_OFFSET < 2 ^ 24 /\ ICE_ERR_PARAM <> 0.

End TlvShapes.

(** The assignments [stores] to a buffer, as pairs of an index and a value,
    write a string of [n] bytes and its terminating NUL: the indices 0 to
    [n] in this order, the last value being 0. *)
Definition stores_string (stores : list (Z * Z)) (n : nat) : Prop :=
  map fst stores = map Z.of_nat (seq 0 (S n)) /\
  nth n (map snd stores) 1 = 0.

(** Every assignment of [stores] is to an index inside a buffer of [size]
    bytes, of a value that fits a byte. *)
Definition stores_within (size : Z) (stores : list (Z * Z)) : Prop :=
  Forall (fun s => 0 <= fst s < size /\ 0 <= snd s < 2 ^ 8) stores.

(** The assignments ice_read_pba_string makes for a string of [n] words
    that starts at the word [addr]: the high byte of a word before its low
    byte, and the NUL after the last word. *)
Definition pba_string_stores (words : Z -> Z) (addr : Z) (n : nat)
    : list (Z * Z) :=
  flat_map
    (fun i => [(Z.of_nat i * 2, u16 (words (addr + Z.of_nat i)) / 2 ^ 8);
               (Z.of_nat i * 2 + 1, u16 (words (addr + Z.of_nat i)) mod 2 ^ 8)])
    (seq 0 n)
  ++ [(Z.of_nat n * 2, 0)].

(** * Statements about the synchronisation of a 56G port *)

Section SyncShapes56g.
Context {defs : IceDefs}.

(** A 64-bit register of a 56G port read as two words, low word first. *)
Definition reads_64b_eth56g (hw : ice_hw) (port low high l h : Z) : list event :=
  [EvSbq (eth56g_reg_msg hw port low ice_sbq_msg_rd 0) true 0 l;
   EvSbq (eth56g_reg_msg hw port high ice_sbq_msg_rd 0) true 0 h].

(** The events of a successful ice_read_phy_and_phc_time_eth56g on [port]:
    the READ_TIME command is staged in the source timer and in the port
    and executed; the words [zo] and [lo] of the captured PHC time are
    read from the shadow registers of the source timer, then the captured
    Tx time and the captured Rx time of the port, low word first. *)
Definition time_captured_eth56g (hw : ice_hw) (port zo lo txl txh rxl rxh : Z)
    (evs : list event) : Prop :=
  exists cmd_val staging,
    phy_cmd_val hw ICE_PTP_READ_TIME = Some cmd_val /\
    staged_eth56g hw cmd_val true port staging /\
    evs = src_cmd_events hw ICE_PTP_READ_TIME ++ staging ++ commit_events
          ++ [EvRd32 (GLTSYN_SHTIME_0 (ice_get_ptp_src_clock_index hw)) zo;
              EvRd32 (GLTSYN_SHTIME_L (ice_get_ptp_src_clock_index hw)) lo]
          ++ reads_64b_eth56g hw port PHY_REG_TX_CAPTURE_L PHY_REG_TX_CAPTURE_U txl txh
          ++ reads_64b_eth56g hw port PHY_REG_RX_CAPTURE_L PHY_REG_RX_CAPTURE_U rxl rxh.

(** The case labels of the capture registers select their own high
    registers in ice_is_64b_phy_reg_eth56g. *)
Definition capture_regs_known_eth56g : Prop :=
  ice_is_64b_phy_reg_eth56g PHY_REG_TX_CAPTURE_L = Some PHY_REG_TX_CAPTURE_U /\
  ice_is_64b_phy_reg_eth56g PHY_REG_RX_CAPTURE_L = Some PHY_REG_RX_CAPTURE_U.

(** What a successful ice_sync_phy_timer_eth56g leaves: the semaphore
    taken; one capture of the PHC time and of the port times; the NOP
    command written to the source timer; the difference between the PHC
    time and the Tx time of the port, modulo 2^64, staged in both timers
    of the port; the ADJ_TIME command on the port, executed; a second
    capture; the semaphore released. *)
Definition phy_timer_synced_eth56g (hw : ice_hw) (port : Z) (status : Z)
    (evs : list event) : Prop :=
  status = 0 ->
  exists lock_evs capture zo lo txl txh rxl rxh adj cmd_val staging recapture,
    lock_events hw true lock_evs /\
    time_captured_eth56g hw port zo lo txl txh rxl rxh capture /\
    (let difference := u64 (val_64b zo lo - val_64b txl txh) in
     sbq_writes (port_time_msgs_eth56g hw (lower_32_bits difference)
                                       (upper_32_bits difference) port)
                true adj) /\
    phy_cmd_val hw ICE_PTP_ADJ_TIME = Some cmd_val /\
    staged_eth56g hw cmd_val true port staging /\
    (exists zo' lo' txl' txh' rxl' rxh',
       time_captured_eth56g hw port zo' lo' txl' txh' rxl' rxh' recapture) /\
    evs = lock_evs ++ capture ++ src_cmd_events hw ICE_PTP_NOP ++ adj ++ staging
          ++ commit_events ++ recapture ++ [EvWr32 (ptp_sem_addr hw) 0].

End SyncShapes56g.
(** * Exact traces of the calibration and timestamp routines *)

Section ExactShapes.
Context {defs : IceDefs}.

(** *** Clearing a timestamp, family by family *)

(** The read of a timestamp kept as two words behind the sideband queue:
    the low word is read with the message [lo]; if that read fails nothing
    else is read and [status] is its status; otherwise the high word is
    read with [hi], and [status] is the status of that read. *)
Definition tstamp_read (lo hi : ice_sbq_msg_input) (status : Z)
    (evs : list event) : Prop :=
  exists s1 v1,
    (s1 <> 0 /\ status = s1 /\ evs = [EvSbq lo true s1 v1]) \/
    (s1 = 0 /\ exists v2,
       evs = [EvSbq lo true 0 v1; EvSbq hi true status v2]).

(** The reads of the two words of timestamp [idx] in the memory of a 56G
    port. *)
Definition tstamp_low_read_eth56g (hw : ice_hw) (port idx : Z)
    : ice_sbq_msg_input :=
  eth56g_mem_msg hw port (u16 (PHY_TSTAMP_L idx)) ice_sbq_msg_rd 0.

Definition tstamp_high_read_eth56g (hw : ice_hw) (port idx : Z)
    : ice_sbq_msg_input :=
  eth56g_mem_msg hw port (u16 (PHY_TSTAMP_U idx)) ice_sbq_msg_rd 0.

(** The reads of the two words of timestamp [idx] of port [lport] on the
    E810 external PHY. *)
Definition tstamp_low_read_e810 (lport idx : Z) : ice_sbq_msg_input :=
  e810_msg (u32 (TS_EXT LOW_TX_MEMORY_BANK_START lport idx)) ice_sbq_msg_rd 0.

Definition tstamp_high_read_e810 (lport idx : Z) : ice_sbq_msg_input :=
  e810_msg (u32 (TS_EXT HIGH_TX_MEMORY_BANK_START lport idx)) ice_sbq_msg_rd 0.

(** The sideband message for a register of an E822 quad. *)
Definition quad_reg_msg (quad offset : Z) (op : ice_sbq_msg_opcode) (val : Z)
    : ice_sbq_msg_input :=
  let addr :=
    if quad mod ICE_QUADS_PER_PHY_E822 =? 0 then u32 (Q_0_BASE + offset)
    else u32 (Q_1_BASE + offset) in
  {| dest_dev := rmn_0;
     msg_addr_low := ICE_LO_WORD addr;
     msg_addr_high := ICE_HI_WORD addr;
     opcode := op;
     data := val |}.

(** The reads of the two words of timestamp [idx] in the memory bank of an
    E822 quad. *)
Definition tstamp_low_read_e822 (quad idx : Z) : ice_sbq_msg_input :=
  quad_reg_msg quad (u16 (TS_L Q_REG_TX_MEMORY_BANK_START idx)) ice_sbq_msg_rd 0.

Definition tstamp_high_read_e822 (quad idx : Z) : ice_sbq_msg_input :=
  quad_reg_msg quad (u16 (TS_H Q_REG_TX_MEMORY_BANK_START idx)) ice_sbq_msg_rd 0.

(** ice_clear_phy_tstamp_eth56g: the timestamp is read and then, whatever
    the status [rs] of the read, zero is written to its low word; the
    status returned is the status of that write. *)
Definition tstamp_cleared_eth56g (hw : ice_hw) (port idx status : Z)
    (evs : list event) : Prop :=
  exists rs reads w,
    tstamp_read (tstamp_low_read_eth56g hw port idx)
                (tstamp_high_read_eth56g hw port idx) rs reads /\
    evs = reads ++ [EvSbq (tstamp_low_zero_eth56g hw port idx) true status w].

(** The read of a timestamp of the E810: over the sideband queue, or, when
    the low latency read is in use, by writing the index to PF_SB_ATQBAL
    and polling that register. *)
Definition tstamp_read_e810 (hw : ice_hw) (lport idx status : Z)
    (evs : list event) : Prop :=
  if ts_ll_read hw then
    exists r polls,
      evs = EvWr32 PF_SB_ATQBAL (u32 (TS_LL_READ_TS_IDX idx)) :: polls /\
      ll_read_events (Z.to_nat (u8 TS_LL_READ_RETRIES)) r polls /\
      status = fst (fst r)
  else
    tstamp_read (tstamp_low_read_e810 lport idx) (tstamp_high_read_e810 lport idx)
      status evs.

(** ice_clear_phy_tstamp_e810: the timestamp is read; if the read fails
    its status is returned and neither word is written; otherwise zero is
    written to the low word and then, if that write succeeded, to the
    high word, and the status of the last write made is returned. *)
Definition tstamp_cleared_e810 (hw : ice_hw) (lport idx status : Z)
    (evs : list event) : Prop :=
  exists rs reads,
    tstamp_read_e810 hw lport idx rs reads /\
    ((rs <> 0 /\ status = rs /\ evs = reads) \/
     (rs = 0 /\ exists s_lo w_lo,
        (s_lo <> 0 /\ status = s_lo /\
         evs = reads ++ [EvSbq (tstamp_low_zero_e810 lport idx) true s_lo w_lo]) \/
        (s_lo = 0 /\ exists w_hi,
         evs = reads ++ [EvSbq (tstamp_low_zero_e810 lport idx) true 0 w_lo;
                         EvSbq (tstamp_high_zero_e810 lport idx) true status w_hi]))).

(** ice_clear_phy_tstamp_e822: the timestamp is read, and that is all. *)
Definition tstamp_cleared_e822 (quad idx status : Z) (evs : list event) : Prop :=
  tstamp_read (tstamp_low_read_e822 quad idx) (tstamp_high_read_e822 quad idx)
    status evs.

(** *** The offsets of an E822 port whose registers keep what is written *)

(** The data a sideband register holds after the history [t]: that of the
    last write message addressed to it, [init] if there is none. *)
Definition reg_after (init : Z) (t : trace) (msg : ice_sbq_msg_input) : Z :=
  fold_left
    (fun acc e =>
       match e with
       | EvSbq m _ _ _ =>
           match opcode m with
           | ice_sbq_msg_wr => if same_register m msg then data m else acc
           | ice_sbq_msg_rd => acc
           end
       | _ => acc
       end)
    t init.

(** What a read of the register at [offset] of the E822 port [port] gives
    after the history [t], when the register held [regs offset] at first. *)
Definition port_reg (port : Z) (regs : Z -> Z) (t : trace) (offset : Z) : Z :=
  u32 (reg_after (regs offset) t
         (ice_fill_phy_msg_e822 port offset ice_sbq_msg_rd 0)).

(** A device on which the registers of the E822 port [port] keep what is
    written to them: every sideband write succeeds, a read of a register
    of the port succeeds and gives the data last written to it, or its
    first contents [regs offset]; the memory-mapped registers read as
    [mmio] says. *)
Definition port_keeps (hw : ice_hw) (port : Z) (regs mmio : Z -> Z) : Prop :=
  forall t,
    (forall msg lock_sbq,
       opcode msg = ice_sbq_msg_wr -> fst (dev_sbq (dev hw) t msg lock_sbq) = 0) /\
    (forall offset,
       dev_sbq (dev hw) t (ice_fill_phy_msg_e822 port offset ice_sbq_msg_rd 0) true
       = (0, reg_after (regs offset) t
               (ice_fill_phy_msg_e822 port offset ice_sbq_msg_rd 0))) /\
    (forall addr, dev_rd32 (dev hw) t addr = mmio addr).

(** The increment value of the source timer when its registers read as
    [mmio] says, and the two reads that give it. *)
Definition src_incval (hw : ice_hw) (mmio : Z -> Z) : Z :=
  let tmr_idx := ice_get_ptp_src_clock_index hw in
  incval_of (u32 (mmio (GLTSYN_INCVAL_L tmr_idx)))
            (u32 (mmio (GLTSYN_INCVAL_H tmr_idx))).

Definition src_incval_reads (hw : ice_hw) (mmio : Z -> Z) : list event :=
  let tmr_idx := ice_get_ptp_src_clock_index hw in
  incval_reads hw (u32 (mmio (GLTSYN_INCVAL_L tmr_idx)))
                  (u32 (mmio (GLTSYN_INCVAL_H tmr_idx))).

(** The link speed a value of the link speed register stands for. *)
Definition link_of (reg : Z) : option ice_ptp_link_spd :=
  serdes_link_spd (P_REG_LINK_SPEED_FEC_MODE reg)
    (Z.land reg P_REG_LINK_SPEED_SERDES_M).






(** The Rx cycle count of a port whose registers read as [cur] says; it
    matters for 25G-RS and 50G-RS only. *)
Definition rx_cycle_count (link : ice_ptp_link_spd) (cur : Z -> Z) : Z :=
  match link with
  | ICE_PTP_LNK_SPD_25G_RS => cur P_REG_RX_40_TO_160_CNT
  | ICE_PTP_LNK_SPD_50G_RS => cur P_REG_RX_80_TO_160_CNT
  | _ => 0
  end.

(** The base Rx offset and the PMD alignment adjustment of a port whose
    registers read as [cur] says. *)
Definition rx_base_of (hw : ice_hw) (link : ice_ptp_link_spd) (incval : Z)
    (cur : Z -> Z) : Z :=
  rx_base_offset hw link incval
    (val_64b (cur P_REG_PAR_PCS_RX_OFFSET_L) (cur P_REG_PAR_PCS_RX_OFFSET_U))
    (val_64b (cur P_REG_PAR_RX_TIME_L) (cur P_REG_PAR_RX_TIME_U)).

Definition rx_pmd_of (hw : ice_hw) (link : ice_ptp_link_spd) (fec incval : Z)
    (cur : Z -> Z) : Z :=
  pmd_adj_of link fec (tu_per_sec_of hw incval) (u8 (cur P_REG_PMD_ALIGNMENT))
    (rx_cycle_count link cur).

(** The total Rx offset: the adjustment is added for RS-FEC and subtracted
    for every other mode. *)
Definition rx_total_of (hw : ice_hw) (link : ice_ptp_link_spd) (fec incval : Z)
    (cur : Z -> Z) : Z :=
  if fec =? ICE_PTP_FEC_MODE_RS_FEC
  then u64 (rx_base_of hw link incval cur + rx_pmd_of hw link fec incval cur)
  else u64 (rx_base_of hw link incval cur - rx_pmd_of hw link fec incval cur).

(** The reads of a call of ice_phy_cfg_rx_offset_e822 that programs. *)
Definition rx_offset_reads (hw : ice_hw) (port : Z) (link : ice_ptp_link_spd)
    (cur mmio : Z -> Z) : list event :=
  [E_rd port P_REG_RX_OR 0 (cur P_REG_RX_OR);
   E_rd port P_REG_RX_OV_STATUS 0 (cur P_REG_RX_OV_STATUS);
   E_rd port P_REG_LINK_SPEED 0 (cur P_REG_LINK_SPEED)]
  ++ src_incval_reads hw mmio
  ++ reads_64b port P_REG_PAR_PCS_RX_OFFSET_L P_REG_PAR_PCS_RX_OFFSET_U
       (cur P_REG_PAR_PCS_RX_OFFSET_L) (cur P_REG_PAR_PCS_RX_OFFSET_U)
  ++ par_rx_reads port link (cur P_REG_PAR_RX_TIME_L) (cur P_REG_PAR_RX_TIME_U)
  ++ [E_rd port P_REG_PMD_ALIGNMENT 0 (cur P_REG_PMD_ALIGNMENT)]
  ++ src_incval_reads hw mmio
  ++ rx_cycle_reads port link (rx_cycle_count link cur).

(** The three writes that program [total] and raise the ready flag, all
    with success. *)
Definition programmed (port low high ready total w1 w2 w3 : Z) : list event :=
  [E_wr port low (lower_32_bits total) 0 w1;
   E_wr port high (upper_32_bits total) 0 w2;
   E_wr port ready 1 0 w3].



(** *** The offsets of a 56G port *)





End ExactShapes.

(** * Concrete inputs

    A set of header values and a few devices on which the model is
    evaluated. *)

Module Sample.

Definition vernier (spd : ice_ptp_link_spd) : ice_vernier_info_e822 :=
  match spd with
  | ICE_PTP_LNK_SPD_1G => mk_vernier 25140 17372 10000000
  | ICE_PTP_LNK_SPD_10G => mk_vernier 6938 6212 82500000
  | ICE_PTP_LNK_SPD_25G => mk_vernier 2778 2491 206250000
  | ICE_PTP_LNK_SPD_25G_RS => mk_vernier 3928 29535 206250000
  | ICE_PTP_LNK_SPD_40G => mk_vernier 5666 4244 82500000
  | ICE_PTP_LNK_SPD_50G => mk_vernier 3928 3415 206250000
  | ICE_PTP_LNK_SPD_50G_RS => mk_vernier 2825 20966 412500000
  | ICE_PTP_LNK_SPD_100G_RS => mk_vernier 2156 10765 412500000
  end.

Definition cgu_params (freq : Z) : ice_cgu_pll_params_e822 :=
  if freq =? 0 then mk_cgu_params 1 197 2621440 6
  else if freq =? 1 then mk_cgu_params 5 223 524288 7
  else if freq =? 2 then mk_cgu_params 5 223 524288 7
  else if freq =? 3 then mk_cgu_params 5 159 1572864 6
  else if freq =? 4 then mk_cgu_params 5 159 1572864 6
  else mk_cgu_params 10 223 524288 7.

Definition pll_freq (ref : Z) : Z :=
  if ref =? 0 then 823437500
  else if ref =? 1 then 783360000
  else if ref =? 2 then 796875000
  else if ref =? 3 then 816000000
  else if ref =? 4 then 830078125
  else 783360000.

Definition defs : IceDefs := {|
  GLTSYN_CMD := 0x00088810;
  GLTSYN_CMD_SYNC := 0x00088814;
  SYNC_EXEC_CMD := 3;
  SEL_CPK_SRC := 8;
  SEL_PHY_SRC := 3;
  GLTSYN_CMD_INIT_TIME := 1;
  GLTSYN_CMD_INIT_INCVAL := 2;
  GLTSYN_CMD_ADJ_TIME := 4;
  GLTSYN_CMD_ADJ_INIT_TIME := 12;
  GLTSYN_CMD_READ_TIME := 128;
  GLTSYN_INCVAL_L := fun i => 0x00088918 + i * 4;
  GLTSYN_INCVAL_H := fun i => 0x00088920 + i * 4;
  INCVAL_HIGH_M := 0xFF;
  GLTSYN_SHADJ_L := fun i => 0x00088908 + i * 4;
  GLTSYN_SHADJ_H := fun i => 0x00088910 + i * 4;
  GLTSYN_SHTIME_0 := fun i => 0x000888E0 + i * 4;
  GLTSYN_SHTIME_L := fun i => 0x000888E8 + i * 4;
  PFTSYN_SEM := 0x00088880;
  PFTSYN_SEM_BYTES := 4;
  PFTSYN_SEM_BUSY_M := 1;
  PF_SB_ATQBAL := 0x0022FC00;
  PF_SB_ATQBAH := 0x0022FC80;
  PHY_CMD_INIT_TIME := 1;
  PHY_CMD_INIT_INCVAL := 2;
  PHY_CMD_ADJ_TIME := 3;
  PHY_CMD_ADJ_TIME_AT_TIME := 5;
  PHY_CMD_READ_TIME := 7;
  TS_CMD_MASK := 0xF;
  TS_CMD_MASK_E810 := 0xFF;
  rmn_0 := 2;
  rmn_1 := 3;
  rmn_2 := 4;
  cgu := 6;
  ICE_LO_WORD := fun x => Z.land x 0xFFFF;
  ICE_HI_WORD := fun x => Z.land (Z.shiftr x 16) 0xFFFF;
  ICE_PORTS_PER_QUAD := 4;
  ice_eth56g_port_base := fun phy => 0x092000 + phy * 0x002000;
  PHY_PTP_LANE_ADDR_STEP := 0x98;
  PHY_PTP_MEM_START := 0x1000;
  PHY_PTP_MEM_LANE_STEP := 0x04A0;
  PHY_REG_TX_TMR_CMD := 0x40;
  PHY_REG_RX_TMR_CMD := 0x60;
  PHY_REG_TX_TIMER_INC_PRE_L := 0x44;
  PHY_REG_TX_TIMER_INC_PRE_U := 0x48;
  PHY_REG_RX_TIMER_INC_PRE_L := 0x64;
  PHY_REG_RX_TIMER_INC_PRE_U := 0x68;
  PHY_REG_TX_CAPTURE_L := 0x78;
  PHY_REG_TX_CAPTURE_U := 0x7C;
  PHY_REG_RX_CAPTURE_L := 0x8C;
  PHY_REG_RX_CAPTURE_U := 0x90;
  PHY_REG_TOTAL_TX_OFFSET_L := 0x38;
  PHY_REG_TOTAL_TX_OFFSET_U := 0x3C;
  PHY_REG_TOTAL_RX_OFFSET_L := 0x58;
  PHY_REG_TOTAL_RX_OFFSET_U := 0x5C;
  PHY_REG_TX_MEMORY_STATUS_L := 0x80;
  PHY_REG_TX_MEMORY_STATUS_U := 0x84;
  PHY_REG_TIMETUS_L := 0x08;
  PHY_REG_TIMETUS_U := 0x0C;
  PHY_REG_TX_OFFSET_READY := 0x54;
  PHY_REG_RX_OFFSET_READY := 0x74;
  PHY_TSTAMP_L := fun idx => idx * 8;
  PHY_TSTAMP_U := fun idx => idx * 8 + 4;
  ICE_PORTS_PER_PHY_E822 := 8;
  ICE_QUADS_PER_PHY_E822 := 2;
  ICE_MAX_QUAD := 2;
  P_0_BASE := 0x303000;
  P_4_BASE := 0x30B000;
  P_Q0_L := fun a p => Z.land (a + 0x2000 * p) 0xFFFF;
  P_Q0_H := fun a p => Z.shiftr (a + 0x2000 * p) 16;
  P_Q1_L := fun a p => Z.land (a - 0x2000 * (p - 4)) 0xFFFF;
  P_Q1_H := fun a p => Z.shiftr (a - 0x2000 * (p - 4)) 16;
  Q_0_BASE := 0x94000;
  Q_1_BASE := 0x114000;
  Q_REG_TX_MEMORY_BANK_START := 0xA00;
  TS_L := fun a idx => a + idx * 8;
  TS_H := fun a idx => a + idx * 8 + 4;
  TS_PHY_LOW_M := 0xFF;
  TS_PHY_HIGH_S := 8;
  P_REG_40B_LOW_M := 0xFF;
  P_REG_40B_HIGH_S := 8;
  P_REG_TX_TMR_CMD := 0x448;
  P_REG_RX_TMR_CMD := 0x468;
  P_REG_PAR_PCS_TX_OFFSET_L := 0x490;
  P_REG_PAR_PCS_TX_OFFSET_U := 0x494;
  P_REG_PAR_PCS_RX_OFFSET_L := 0x4B8;
  P_REG_PAR_PCS_RX_OFFSET_U := 0x4BC;
  P_REG_PAR_TX_TIME_L := 0x4C0;
  P_REG_PAR_TX_TIME_U := 0x4C4;
  P_REG_PAR_RX_TIME_L := 0x4E4;
  P_REG_PAR_RX_TIME_U := 0x4E8;
  P_REG_TOTAL_TX_OFFSET_L := 0x440;
  P_REG_TOTAL_TX_OFFSET_U := 0x444;
  P_REG_TOTAL_RX_OFFSET_L := 0x460;
  P_REG_TOTAL_RX_OFFSET_U := 0x464;
  P_REG_UIX66_10G_40G_L := 0x480;
  P_REG_UIX66_10G_40G_U := 0x484;
  P_REG_UIX66_25G_100G_L := 0x488;
  P_REG_UIX66_25G_100G_U := 0x48C;
  P_REG_TX_CAPTURE_L := 0x4B0;
  P_REG_TX_CAPTURE_U := 0x4B4;
  P_REG_RX_CAPTURE_L := 0x4D8;
  P_REG_RX_CAPTURE_U := 0x4DC;
  P_REG_TX_TIMER_INC_PRE_L := 0x44C;
  P_REG_TX_TIMER_INC_PRE_U := 0x450;
  P_REG_RX_TIMER_INC_PRE_L := 0x46C;
  P_REG_RX_TIMER_INC_PRE_U := 0x470;
  P_REG_TIMETUS_L := 0x410;
  P_REG_TIMETUS_U := 0x414;
  P_REG_PAR_RX_TUS_L := 0x420;
  P_REG_PAR_RX_TUS_U := 0x424;
  P_REG_PAR_TX_TUS_L := 0x428;
  P_REG_PAR_TX_TUS_U := 0x42C;
  P_REG_PCS_RX_TUS_L := 0x430;
  P_REG_PCS_RX_TUS_U := 0x434;
  P_REG_PCS_TX_TUS_L := 0x438;
  P_REG_PCS_TX_TUS_U := 0x43C;
  P_REG_DESK_PAR_RX_TUS_L := 0x4A0;
  P_REG_DESK_PAR_RX_TUS_U := 0x4A4;
  P_REG_DESK_PAR_TX_TUS_L := 0x4A8;
  P_REG_DESK_PAR_TX_TUS_U := 0x4AC;
  P_REG_DESK_PCS_RX_TUS_L := 0x4C8;
  P_REG_DESK_PCS_RX_TUS_U := 0x4CC;
  P_REG_DESK_PCS_TX_TUS_L := 0x4D0;
  P_REG_DESK_PCS_TX_TUS_U := 0x4D4;
  P_REG_TX_OR := 0x45C;
  P_REG_RX_OR := 0x47C;
  P_REG_TX_OV_STATUS := 0x4F4;
  P_REG_TX_OV_STATUS_OV_M := 1;
  P_REG_RX_OV_STATUS := 0x4F8;
  P_REG_RX_OV_STATUS_OV_M := 1;
  P_REG_LINK_SPEED := 0x4FC;
  P_REG_LINK_SPEED_FEC_MODE := fun reg => Z.shiftr (Z.land reg (3 * 2 ^ 3)) 3;
  P_REG_LINK_SPEED_SERDES_M := 7;
  P_REG_PMD_ALIGNMENT := 0x0FC;
  P_REG_RX_40_TO_160_CNT := 0x8FC;
  P_REG_RX_40_TO_160_CNT_RXCYC_M := 3;
  P_REG_RX_80_TO_160_CNT := 0x10FC;
  P_REG_RX_80_TO_160_CNT_RXCYC_M := 1;
  ICE_PTP_SERDES_1G := 0;
  ICE_PTP_SERDES_10G := 1;
  ICE_PTP_SERDES_25G := 2;
  ICE_PTP_SERDES_40G := 3;
  ICE_PTP_SERDES_50G := 4;
  ICE_PTP_SERDES_100G := 5;
  ICE_PTP_FEC_MODE_CLAUSE74 := 1;
  ICE_PTP_FEC_MODE_RS_FEC := 2;
  e822_vernier := vernier;
  ice_e822_pll_freq := pll_freq;
  E810_ETH_GLTSYN_CMD := 0x03000344;
  ETH_GLTSYN_SHADJ_L := fun i => 0x03000378 + i * 32;
  ETH_GLTSYN_SHADJ_H := fun i => 0x0300037C + i * 32;
  TS_EXT := fun a port idx => a + 0x1000 * port + idx * 8;
  LOW_TX_MEMORY_BANK_START := 0x03090000;
  HIGH_TX_MEMORY_BANK_START := 0x03090004;
  TS_LL_READ_TS_IDX := fun idx => Z.lor (2 ^ 31) (Z.shiftl idx 24);
  TS_LL_READ_RETRIES := 200;
  TS_LL_READ_TS := 2 ^ 31;
  TS_LL_READ_TS_HIGH_S := 16;
  TS_VALID := 1;
  TS_HIGH_S := 32;
  TS_LOW_M := 0xFFFFFFFF;
  NUM_ICE_TIME_REF_FREQ := 6;
  ICE_TIME_REF_FREQ_25_000 := 0;
  NUM_ICE_CLK_SRC := 2;
  ICE_CLK_SRC_TCX0 := 0;
  e822_cgu_params := cgu_params;
  NAC_CGU_DWORD9 := 0x24;
  NAC_CGU_DWORD19 := 0x4C;
  NAC_CGU_DWORD22 := 0x58;
  NAC_CGU_DWORD24 := 0x60;
  NAC_CGU_DWORD23_E825C := 0x5C;
  TSPLL_RO_BWM_LF := 0x370;
  TSPLL_RO_LOCK_E825C := 0x3F0;
  dw9_time_ref_freq_sel := mk_bitfield 0 3;
  dw19_tspll_fbdiv_intgr := mk_bitfield 0 8;
  dw19_tspll_ndivratio := mk_bitfield 16 4;
  dw22_time1588clk_div := mk_bitfield 20 4;
  dw22_time1588clk_sel_div2 := mk_bitfield 30 1;
  dw24_tspll_fbdiv_frac := mk_bitfield 0 22;
  dw24_ts_pll_enable := mk_bitfield 24 1;
  dw24_ref1588_ck_div := mk_bitfield 27 4;
  dw24_time_ref_sel := mk_bitfield 31 1;
  dw23_ts_pll_enable := mk_bitfield 24 1;
  dw23_ref1588_ck_div := mk_bitfield 27 4;
  dw23_time_ref_sel := mk_bitfield 31 1;
  bwm_lf_plllock_true_lock_cri := mk_bitfield 31 1;
  ro_lock_plllock_true_lock_cri := mk_bitfield 31 1;
  ICE_CGU_DPLL_MAX := 2;
  ICE_AQC_GET_CGU_DPLL_STATUS_STATE_LOCK := 1;
  ICE_AQC_GET_CGU_DPLL_STATUS_STATE_HO_READY := 2;
  ICE_AQC_GET_CGU_DPLL_STATUS_STATE_CLK_REF_SEL := 0xF8;
  ICE_AQC_GET_CGU_DPLL_STATUS_STATE_CLK_REF_SHIFT := 3
|}.

Definition no_dpll_status : cgu_dpll_status := mk_dpll_status 0 0 0 0 0.

(** A device whose registers all read zero and whose transactions all
    succeed. *)
Definition quiet_dev : device := {|
  dev_rd32 := fun _ _ => 0;
  dev_sbq := fun _ _ _ => (0, 0);
  dev_aq_get_cgu_dpll_status := fun _ _ => no_dpll_status;
  dev_uninit := fun _ => 0
|}.

(** A device whose sideband queue fails with [status] once [n] events are
    in the history. *)
Definition failing_dev (n : nat) (status : Z) : device := {|
  dev_rd32 := fun _ _ => 0;
  dev_sbq := fun t _ _ => if (n <=? length t)%nat then (status, 0) else (0, 0);
  dev_aq_get_cgu_dpll_status := fun _ _ => no_dpll_status;
  dev_uninit := fun _ => 0
|}.

(** A device whose semaphore is always held by another function. *)
Definition busy_sem_dev : device := {|
  dev_rd32 := fun _ _ => 1;
  dev_sbq := fun _ _ _ => (0, 0);
  dev_aq_get_cgu_dpll_status := fun _ _ => no_dpll_status;
  dev_uninit := fun _ => 0
|}.

Definition same_reg (a b : ice_sbq_msg_input) : bool :=
  (dest_dev a =? dest_dev b) && (msg_addr_low a =? msg_addr_low b)
  && (msg_addr_high a =? msg_addr_high b).

(** The value a sideband register holds after the history [t]: the last
    value written to it, [init] before any write. *)
Definition sbq_reg_value (init : ice_sbq_msg_input -> Z) (t : trace)
    (msg : ice_sbq_msg_input) : Z :=
  fold_left
    (fun acc e =>
       match e with
       | EvSbq m _ _ _ =>
           match opcode m with
           | ice_sbq_msg_wr => if same_reg m msg then data m else acc
           | ice_sbq_msg_rd => acc
           end
       | _ => acc
       end)
    t (init msg).

(** A device whose sideband registers are plain memory with initial contents
    [init], whose transactions all succeed, and whose memory-mapped registers
    read as [mmio] says. *)
Definition memory_dev (init : ice_sbq_msg_input -> Z) (mmio : Z -> Z) : device := {|
  dev_rd32 := fun _ addr => mmio addr;
  dev_sbq := fun t msg _ =>
    match opcode msg with
    | ice_sbq_msg_rd => (0, sbq_reg_value init t msg)
    | ice_sbq_msg_wr => (0, 0)
    end;
  dev_aq_get_cgu_dpll_status := fun _ _ => no_dpll_status;
  dev_uninit := fun _ => 0
|}.

(** Initial register contents of an E822 port 0 whose Vernier offsets are
    valid: the link speed register holds [link], the PMD alignment counter
    [align], both Rx cycle counters [cyc]. *)
Definition offsets_valid_at (link align cyc : Z) (msg : ice_sbq_msg_input) : Z :=
  let reg offset := ice_fill_phy_msg_e822 (defs := defs) 0 offset ice_sbq_msg_rd 0 in
  if same_reg msg (reg 0x4F4) then 1
  else if same_reg msg (reg 0x4F8) then 1
  else if same_reg msg (reg 0x4FC) then link
  else if same_reg msg (reg 0x490) then 1000
  else if same_reg msg (reg 0x4B8) then 2000
  else if same_reg msg (reg 0x4E4) then 300
  else if same_reg msg (reg 0x0FC) then align
  else if same_reg msg (reg 0x8FC) then cyc
  else if same_reg msg (reg 0x10FC) then cyc
  else 0.

(** A 10G link without FEC. *)
Definition offsets_valid : ice_sbq_msg_input -> Z := offsets_valid_at 1 10 0.

(** Source timer registers holding the increment value 0x136e44fab. *)
Definition incval_mmio (addr : Z) : Z :=
  if addr =? 0x00088918 then 0x36e44fab else 1.

Definition hw_of (model : ice_phy_model) (ports : Z) (d : device) : ice_hw := {|
  phy_model := model;
  phy_ports := ports;
  max_phy_port := ports;
  pf_id := 0;
  phy_addr := fun phy => 8 + phy;
  tmr_index_owned := 0;
  tmr_index_assoc := 0;
  time_ref := 0;
  ts_ll_read := false;
  dev := d
|}.

(** The status of a first call of ice_phy_cfg_rx_offset_e822 on port 0 and
    the total it programs, for the link speed register value [link], the
    alignment counter [align] and the cycle count [cyc]. *)
Definition rx_total (link align cyc : Z) : Z * option Z :=
  let hw := hw_of ICE_PHY_E822 2
              (memory_dev (offsets_valid_at link align cyc) incval_mmio) in
  let r := ice_phy_cfg_rx_offset_e822 (defs := defs) hw 0 [] in
  (fst r, written_total (defs := defs) 0 (snd r)).

End Sample.

Module SampleNvm.

Definition defs : NvmDefs := {|
  ICE_ERR_PARAM := -1;
  ICE_ERR_INVAL_SIZE := -6;
  ICE_ERR_DOES_NOT_EXIST := -15;
  ICE_ERR_OUT_OF_RANGE := -13;
  ICE_ERR_NO_MEMORY := -11;
  ICE_ERR_AQ_ERROR := -100;
  ICE_ERR_NVM_CHECKSUM := -51;
  ICE_AQ_RC_EINVAL := 14;
  ICE_AQC_NVM_MAX_OFFSET := 0xFFFFFF;
  ICE_AQ_MAX_BUF_LEN := 4096;
  ICE_AQC_NVM_START_POINT := 0;
  ICE_AQC_NVM_FLASH_ONLY := 0x80;
  ICE_AQC_NVM_LAST_CMD := 1;
  ICE_AQC_NVM_CHECKSUM_VERIFY := 1;
  ICE_AQC_NVM_CHECKSUM_CORRECT := 0xBABA;
  ICE_NVM_RES_ID := 1;
  ICE_NVM_TIMEOUT := 180000;
  ICE_RES_READ := 1;
  ICE_SR_PFA_PTR := 0x40;
  ICE_SR_PBA_BLOCK_PTR := 0x16;
  ICE_NVM_CFG_MODULE_M := 0xFF;
  ICE_NVM_CFG_MODULE_S := 0;
  ICE_NVM_CFG_FLAGS_M := 0xF00;
  ICE_NVM_CFG_FLAGS_S := 8;
  ICE_NVM_CFG_EXT_FLAGS_M := 0xF000;
  ICE_NVM_CFG_ADAPTER_INFO_M := 0xFFFF0000;
  ICE_NVM_CFG_ADAPTER_INFO_S := 16;
  ICE_NVM_CMD_READ := 0xB;
  ICE_NVM_CMD_WRITE := 0xC;
  ICE_NVM_REG_RW_MODULE := 0;
  ICE_NVM_REG_RW_FLAGS := 1;
  ICE_NVM_GET_FEATURES_MODULE := 0xE;
  ICE_NVM_GET_FEATURES_FLAGS := 0xF;
  ICE_NVM_ACCESS_MAJOR_VER := 0;
  ICE_NVM_ACCESS_MINOR_VER := 5;
  ICE_NVM_FEATURES_0_REG_ACCESS := 2;
  sizeof_ice_nvm_features := 16;
  sizeof_regval := 4;
  GL_HICR := 0x00082040;
  GL_HICR_EN := 0x00082044;
  GL_FWSTS := 0x00083048;
  GL_MNG_FWSM := 0x000B6134;
  GLGEN_CSR_DEBUG_C := 0x00075750;
  GLGEN_RSTAT := 0x000B8188;
  GLPCI_LBARCTRL := 0x0009DE74;
  GLNVM_GENS := 0x000B6100;
  GLNVM_FLA := 0x000B6108;
  PF_FUNC_RID := 0x0009E880;
  GL_HIDA := fun i => 0x00082000 + i * 4;
  GL_HIBA := fun i => 0x00081000 + i * 4;
  ICE_NVM_ACCESS_GL_HIDA_MAX := 15;
  ICE_NVM_ACCESS_GL_HIBA_MAX := 1023
|}.

(** A flash of [size] bytes whose byte at offset [i] is [content i]; the
    NVM resource is always granted; registers read as [mmio] says. *)
Definition flash_dev (size : Z) (content : Z -> Z) (mmio : Z -> Z) : nvm_device := {|
  nv_acquire_res := fun _ _ _ _ => (0, 0);
  nv_release_res := fun _ _ => 0;
  nv_aq_nvm_read := fun _ c =>
    if cmd_offset c <? size
    then (0, 0, fun i => content (cmd_offset c + Z.of_nat i))
    else (-100, 14, fun _ => 0);
  nv_aq_nvm_checksum := fun _ _ => (0, 0, 0xBABA);
  nv_rd32 := fun _ addr => mmio addr
|}.

(** A device that refuses the NVM resource. *)
Definition refusing_dev (status : Z) : nvm_device := {|
  nv_acquire_res := fun _ _ _ _ => (status, 2);
  nv_release_res := fun _ _ => 0;
  nv_aq_nvm_read := fun _ _ => (0, 0, fun _ => 0);
  nv_aq_nvm_checksum := fun _ _ => (0, 0, 0);
  nv_rd32 := fun _ _ => 0
|}.

Definition hw_of (words : Z) (d : nvm_device) : nvm_hw := {|
  sr_words := words;
  blank_nvm_mode := false;
  device_id := 0x1593;
  sq_last_status0 := 0;
  nvm_dev := d
|}.

End SampleNvm.
(** * Concrete inputs for the timers *)

Module SampleTime.

Definition tdefs : IceTimeDefs := {|
  GLTSYN_SHTIME_H := fun i => 0x000888F0 + i * 4;
  ETH_GLTSYN_SHTIME_0 := fun i => 0x03000368 + i * 32;
  ETH_GLTSYN_SHTIME_L := fun i => 0x0300036C + i * 32;
  PHY_REG_TX_TIMER_CNT_ADJ_L := 0x4C;
  PHY_REG_TX_TIMER_CNT_ADJ_U := 0x50;
  PHY_REG_RX_TIMER_CNT_ADJ_L := 0x6C;
  PHY_REG_RX_TIMER_CNT_ADJ_U := 0x70;
  PHY_REG_TS_INT_CONFIG := 0x88;
  PHY_TS_INT_CONFIG_ENA_M := 0x100;
  PHY_TS_INT_CONFIG_THRESHOLD_M := 0x3F;
  PHY_TS_INT_CONFIG_THRESHOLD_S := 0;
  P_REG_TX_TIMER_CNT_ADJ_L := 0x454;
  P_REG_TX_TIMER_CNT_ADJ_U := 0x458;
  P_REG_RX_TIMER_CNT_ADJ_L := 0x474;
  P_REG_RX_TIMER_CNT_ADJ_U := 0x478;
  P_REG_PS := 0x408;
  P_REG_PS_START_M := 0x1;
  P_REG_PS_ENA_CLK_M := 0x4;
  P_REG_PS_SFT_RESET_M := 0x800;
  Q_REG_TX_MEM_GBL_CFG := 0xC08;
  Q_REG_TX_MEM_GBL_CFG_INTR_ENA_M := 0x8000;
  Q_REG_TX_MEM_GBL_CFG_INTR_THR_M := 0x7E00;
  Q_REG_TX_MEM_GBL_CFG_INTR_THR_S := 9;
  Q_REG_TX_MEMORY_STATUS_L := 0xCF0;
  Q_REG_TX_MEMORY_STATUS_U := 0xCF4
|}.

(** A device whose sideband registers keep the last value written and read
    zero before, whose transactions all succeed, and whose memory-mapped
    registers read as [mmio] says. *)
Definition holding_dev (mmio : Z -> Z) : device := {|
  dev_rd32 := fun _ addr => mmio addr;
  dev_sbq := fun t msg _ =>
    match opcode msg with
    | ice_sbq_msg_rd =>
        (0, match last_written t msg with Some v => v | None => 0 end)
    | ice_sbq_msg_wr => (0, 0)
    end;
  dev_aq_get_cgu_dpll_status := fun _ _ => Sample.no_dpll_status;
  dev_uninit := fun _ => 0
|}.

End SampleTime.

(** * Concrete inputs for the Preserved Field Area *)

Module SamplePfa.

(** A device whose Shadow RAM of 2^16 words holds [words]. *)
Definition sr_dev (words : Z -> Z) : nvm_device :=
  SampleNvm.flash_dev (2 ^ 17)
    (fun i => if Z.even i then words (i / 2) mod 2 ^ 8
              else (words (i / 2) / 2 ^ 8) mod 2 ^ 8)
    (fun _ => 0).

(** The words from 0x50 on are [area]; the word 0x40 points to them. *)
Definition words_of (area : list Z) (i : Z) : Z :=
  if i <? 0x50 then (if i =? 0x40 then 0x50 else 0)
  else nth (Z.to_nat (i - 0x50)) area 0.

(** A Preserved Field Area of 9 words: a TLV of type 0x11 with two words,
    and the PBA block, whose string has the one word 0x4B31. *)
Definition pfa_words : Z -> Z :=
  words_of [9; 0x11; 2; 0xAAAA; 0xBBBB; 0x16; 2; 2; 0x4B31].

(** The same area with the length 0xFFFE in its first TLV. *)
Definition stuck_words : Z -> Z :=
  words_of [9; 0x11; 0xFFFE; 0xAAAA; 0xBBBB; 0x16; 2; 2; 0x4B31].

End SamplePfa.

(** * Properties *)

Section Calculus.
Context {defs : IceDefs}.

(** ** A small program logic for [shape] *)

Lemma shape_ret {A : Type} (a : A) (S : A -> list event -> Prop) :
  S a [] -> shape (ret a) S.
Proof.
  intros HS t. exists a, []. rewrite app_nil_r. split; [reflexivity | exact HS].
Qed.

Lemma shape_bind {A B : Type} (m : M A) (k : A -> M B)
    (S1 : A -> list event -> Prop) (S : B -> list event -> Prop) :
  shape m S1 ->
  (forall a e1, S1 a e1 -> shape (k a) (fun b e2 => S b (e1 ++ e2))) ->
  shape (bind m k) S.
Proof.
  intros Hm Hk t.
  destruct (Hm t) as (a & e1 & Em & H1).
  destruct (Hk a e1 H1 (t ++ e1)) as (b & e2 & Ek & H2).
  exists b, (e1 ++ e2). unfold bind. rewrite Em, Ek, app_assoc.
  split; [reflexivity | exact H2].
Qed.

Lemma shape_weaken {A : Type} (m : M A) (S S' : A -> list event -> Prop) :
  shape m S -> (forall a evs, S a evs -> S' a evs) -> shape m S'.
Proof.
  intros Hm HS t. destruct (Hm t) as (a & evs & E & H).
  exists a, evs. split; [exact E | apply HS, H].
Qed.

Lemma shape_run {A : Type} (m : M A) (S : A -> list event -> Prop) t a t' :
  shape m S -> m t = (a, t') -> exists evs, t' = t ++ evs /\ S a evs.
Proof.
  intros Hm E. destruct (Hm t) as (a0 & evs & E0 & H).
  rewrite E in E0. inversion E0; subst. eauto.
Qed.

Lemma shape_emit (e : event) (S : unit -> list event -> Prop) :
  S tt [e] -> shape (emit e) S.
Proof. intros HS t. exists tt, [e]. split; [reflexivity | exact HS]. Qed.

Lemma u32_range x : 0 <= u32 x < 2 ^ 32.
Proof. unfold u32. apply Z.mod_pos_bound. lia. Qed.

Lemma u64_range x : 0 <= u64 x < 2 ^ 64.
Proof. unfold u64. apply Z.mod_pos_bound. lia. Qed.

Lemma u8_range x : 0 <= u8 x < 2 ^ 8.
Proof. unfold u8. apply Z.mod_pos_bound. lia. Qed.

Lemma shape_rd32 hw addr (S : Z -> list event -> Prop) :
  (forall v, 0 <= v < 2 ^ 32 -> S v [EvRd32 addr v]) -> shape (rd32 hw addr) S.
Proof.
  intros HS t. eexists _, _. split; [reflexivity | apply HS, u32_range].
Qed.

Lemma shape_wr32 hw addr val (S : unit -> list event -> Prop) :
  S tt [EvWr32 addr (u32 val)] -> shape (wr32 hw addr val) S.
Proof. apply shape_emit. Qed.

Lemma shape_sbq hw msg lock_sbq (S : Z * Z -> list event -> Prop) :
  (forall status v, 0 <= v < 2 ^ 32 ->
     S (status, v) [EvSbq msg lock_sbq status v]) ->
  shape (ice_sbq_rw_reg_lp hw msg lock_sbq) S.
Proof.
  intros HS t. unfold ice_sbq_rw_reg_lp.
  destruct (dev_sbq (dev hw) t msg lock_sbq) as [status v].
  eexists _, _. split; [reflexivity | apply HS, u32_range].
Qed.

Lemma shape_aq hw dpll_idx (S : cgu_dpll_status -> list event -> Prop) :
  (forall r, S r [EvAq dpll_idx (aq_status r)]) ->
  shape (ice_aq_get_cgu_dpll_status hw dpll_idx) S.
Proof. intros HS t. eexists _, _. split; [reflexivity | apply HS]. Qed.

Lemma failed_false status : failed status = false -> status = 0.
Proof. unfold failed. destruct (Z.eqb_spec status 0); [auto | discriminate]. Qed.

Lemma failed_true status : failed status = true -> status <> 0.
Proof. unfold failed. destruct (Z.eqb_spec status 0); [discriminate | auto]. Qed.

Lemma shape_bind_ret {A B : Type} (a : A) (k : A -> M B) S :
  shape (k a) S -> shape (bind (ret a) k) S.
Proof. intros H t. exact (H t). Qed.

Lemma shape_bind_emit {B : Type} (e : event) (k : unit -> M B) S :
  shape (k tt) (fun b e2 => S b (e :: e2)) -> shape (bind (emit e) k) S.
Proof.
  intros H. eapply shape_bind; [apply shape_emit with (S := fun _ evs => evs = [e]); reflexivity|].
  cbv beta. intros [] ? ->. exact H.
Qed.

Lemma shape_bind_rd32 {B : Type} hw addr (k : Z -> M B) S :
  (forall v, 0 <= v < 2 ^ 32 -> shape (k v) (fun b e2 => S b (EvRd32 addr v :: e2))) ->
  shape (bind (rd32 hw addr) k) S.
Proof.
  intros H. eapply shape_bind.
  - apply shape_rd32 with (S := fun v evs => 0 <= v < 2 ^ 32 /\ evs = [EvRd32 addr v]).
    intros v Hv. split; [exact Hv | reflexivity].
  - cbv beta. intros v ? [Hv ->]. apply H, Hv.
Qed.

Lemma shape_bind_sbq {B : Type} hw msg lock_sbq (k : Z * Z -> M B) S :
  (forall status v, 0 <= v < 2 ^ 32 ->
     shape (k (status, v)) (fun b e2 => S b (EvSbq msg lock_sbq status v :: e2))) ->
  shape (bind (ice_sbq_rw_reg_lp hw msg lock_sbq) k) S.
Proof.
  intros H. eapply shape_bind.
  - apply shape_sbq with
      (S := fun r evs => 0 <= snd r < 2 ^ 32 /\ evs = [EvSbq msg lock_sbq (fst r) (snd r)]).
    intros st v Hv. split; [exact Hv | reflexivity].
  - cbv beta. intros [st v] ? [Hv ->]. apply H, Hv.
Qed.

Lemma shape_bind_aq {B : Type} hw dpll_idx (k : cgu_dpll_status -> M B) S :
  (forall r, shape (k r) (fun b e2 => S b (EvAq dpll_idx (aq_status r) :: e2))) ->
  shape (bind (ice_aq_get_cgu_dpll_status hw dpll_idx) k) S.
Proof.
  intros H. eapply shape_bind.
  - apply shape_aq with (S := fun r evs => evs = [EvAq dpll_idx (aq_status r)]).
    intros r. reflexivity.
  - cbv beta. intros r ? ->. apply H.
Qed.

Lemma shape_bind_assoc {A B C : Type} (m : M A) (k1 : A -> M B) (k2 : B -> M C) S :
  shape (bind m (fun a => bind (k1 a) k2)) S -> shape (bind (bind m k1) k2) S.
Proof.
  intros H t. destruct (H t) as (c & evs & E & HS). exists c, evs.
  split; [|exact HS]. rewrite <- E. unfold bind. destruct (m t). reflexivity.
Qed.

End Calculus.

(** One step of symbolic execution of a [shape] goal. *)
Ltac shape_prim :=
  lazymatch goal with
  | |- shape (ret _) _ => apply shape_ret
  | |- shape (emit _) _ => apply shape_emit
  | |- shape (wr32 _ _ _) _ => apply shape_wr32
  | |- shape (ice_flush _) _ => apply shape_emit
  | |- shape (usleep_range _ _) _ => apply shape_emit
  | |- shape (msleep _) _ => apply shape_emit
  | |- shape (udelay _) _ => apply shape_emit
  | |- shape (rd32 _ _) _ => apply shape_rd32; intros ? ?
  | |- shape (ice_sbq_rw_reg_lp _ _ _) _ => apply shape_sbq; intros ? ? ?
  | |- shape (ice_aq_get_cgu_dpll_status _ _) _ => apply shape_aq; intros ?
  end.

Ltac shape_step :=
  lazymatch goal with
  | |- shape (bind (bind _ _) _) _ => apply shape_bind_assoc
  | |- shape (bind (ret _) _) _ => apply shape_bind_ret
  | |- shape (bind (emit _) _) _ => apply shape_bind_emit
  | |- shape (bind (wr32 _ _ _) _) _ => apply shape_bind_emit
  | |- shape (bind (ice_flush _) _) _ => apply shape_bind_emit
  | |- shape (bind (usleep_range _ _) _) _ => apply shape_bind_emit
  | |- shape (bind (msleep _) _) _ => apply shape_bind_emit
  | |- shape (bind (udelay _) _) _ => apply shape_bind_emit
  | |- shape (bind (rd32 _ _) _) _ =>
      let v := fresh "v" in let Hv := fresh "Hv" in
      apply shape_bind_rd32; intros v Hv
  | |- shape (bind (ice_sbq_rw_reg_lp _ _ _) _) _ =>
      let st := fresh "st" in let v := fresh "v" in let Hv := fresh "Hv" in
      apply shape_bind_sbq; intros st v Hv
  | |- shape (bind (ice_aq_get_cgu_dpll_status _ _) _) _ =>
      let r := fresh "r" in apply shape_bind_aq; intros r
  | |- _ => shape_prim
  end.

Ltac case_failed :=
  lazymatch goal with
  | |- context [failed ?s] =>
      let E := fresh "E" in
      destruct (failed s) eqn:E;
      [apply failed_true in E | apply failed_false in E; try subst s]
  end.

Section TimerCommand.
Context {defs : IceDefs}.

Lemma all_sbq_app a b : all_sbq a -> all_sbq b -> all_sbq (a ++ b).
Proof. intros. apply Forall_app. auto. Qed.

Lemma all_sbq_cons msg l s v evs : all_sbq evs -> all_sbq (EvSbq msg l s v :: evs).
Proof. intros. constructor; auto. Qed.

Lemma all_sbq_nil : all_sbq [].
Proof. constructor. Qed.

Hint Resolve all_sbq_app all_sbq_cons all_sbq_nil : core.

(** *** Single register accesses *)

Lemma ice_read_phy_reg_e822_lp_shape hw port offset lock_sbq :
  shape (ice_read_phy_reg_e822_lp hw port offset lock_sbq)
    (fun r evs => exists s v,
       evs = [EvSbq (ice_fill_phy_msg_e822 port offset ice_sbq_msg_rd 0) lock_sbq s v]
       /\ 0 <= v < 2 ^ 32
       /\ ((s <> 0 /\ r = (s, 0)) \/ (s = 0 /\ r = (0, v)))).
Proof.
  unfold ice_read_phy_reg_e822_lp. shape_step. case_failed; shape_step.
  - exists st, v. auto.
  - exists 0, v. auto.
Qed.

Lemma ice_write_phy_reg_e822_lp_shape hw port offset val lock_sbq :
  shape (ice_write_phy_reg_e822_lp hw port offset val lock_sbq)
    (fun status evs => exists w,
       evs = [EvSbq (ice_fill_phy_msg_e822 port offset ice_sbq_msg_wr (u32 val))
                lock_sbq status w]).
Proof.
  unfold ice_write_phy_reg_e822_lp. shape_step. case_failed; shape_step.
  - exists v. auto.
  - exists v. auto.
Qed.

Lemma ice_read_phy_reg_eth56g_lp_shape hw port offset lock_sbq :
  shape (ice_read_phy_reg_eth56g_lp hw port offset lock_sbq)
    (fun r evs =>
       (port >= max_phy_port hw /\ r = (- EIO, 0) /\ evs = []) \/
       (port < max_phy_port hw /\ exists v,
          evs = [EvSbq (eth56g_reg_msg hw port offset ice_sbq_msg_rd 0)
                   lock_sbq (fst r) v] /\ snd r = v /\ 0 <= v < 2 ^ 32)).
Proof.
  unfold ice_read_phy_reg_eth56g_lp, ice_read_phy_port_eth56g_lp.
  destruct (Z.geb_spec port (max_phy_port hw)).
  - shape_step. left. auto with zarith.
  - unfold ice_phy_port_res_address_eth56g, ice_read_phy_eth56g_raw_lp.
    cbn [failed Z.eqb negb]. shape_step. shape_step.
    right. split; [lia|]. exists v. cbn. auto.
Qed.

Lemma ice_write_phy_reg_eth56g_lp_shape hw port offset val lock_sbq :
  shape (ice_write_phy_reg_eth56g_lp hw port offset val lock_sbq)
    (fun status evs =>
       (port >= max_phy_port hw /\ status = - EIO /\ evs = []) \/
       (port < max_phy_port hw /\ exists w,
          evs = [EvSbq (eth56g_reg_msg hw port offset ice_sbq_msg_wr (u32 val))
                   lock_sbq status w])).
Proof.
  unfold ice_write_phy_reg_eth56g_lp, ice_write_phy_port_eth56g_lp.
  destruct (Z.geb_spec port (max_phy_port hw)).
  - shape_step. left. auto with zarith.
  - unfold ice_phy_port_res_address_eth56g, ice_write_phy_eth56g_raw_lp.
    cbn [failed Z.eqb negb]. shape_step. shape_step.
    right. split; [lia|]. exists v. cbn. auto.
Qed.

Lemma ice_read_phy_reg_e810_lp_shape hw addr lock_sbq :
  shape (ice_read_phy_reg_e810_lp hw addr lock_sbq)
    (fun r evs => exists s v,
       evs = [EvSbq (e810_msg addr ice_sbq_msg_rd 0) lock_sbq s v]
       /\ 0 <= v < 2 ^ 32
       /\ ((s <> 0 /\ r = (s, 0)) \/ (s = 0 /\ r = (0, v)))).
Proof.
  unfold ice_read_phy_reg_e810_lp. shape_step. case_failed; shape_step.
  - exists st, v. auto.
  - exists 0, v. auto.
Qed.

Lemma ice_write_phy_reg_e810_lp_shape hw addr val lock_sbq :
  shape (ice_write_phy_reg_e810_lp hw addr val lock_sbq)
    (fun status evs => exists w,
       evs = [EvSbq (e810_msg addr ice_sbq_msg_wr (u32 val)) lock_sbq status w]).
Proof.
  unfold ice_write_phy_reg_e810_lp. shape_step. case_failed; shape_step.
  - exists v. auto.
  - exists v. auto.
Qed.

(** *** Staging one port *)

Lemma ice_ptp_one_port_cmd_e822_shape hw port cmd lock_sbq :
  shape (ice_ptp_one_port_cmd_e822 hw port cmd lock_sbq)
    (fun status evs =>
       all_sbq evs /\
       (status = 0 -> exists cmd_val, phy_cmd_val hw cmd = Some cmd_val /\
                                      staged_e822 cmd_val lock_sbq port evs)).
Proof.
  unfold ice_ptp_one_port_cmd_e822.
  destruct (phy_cmd_val hw cmd) as [cmd_val|].
  2:{ shape_step. split; [auto | discriminate]. }
  eapply shape_bind; [apply ice_read_phy_reg_e822_lp_shape|].
  cbv beta. intros r e1 (s & v & -> & Hv & [[Hs ->] | [-> ->]]).
  { case_failed; [|congruence]. shape_step. split; [auto | tauto]. }
  cbn [failed Z.eqb negb].
  eapply shape_bind; [apply ice_write_phy_reg_e822_lp_shape|].
  cbv beta. intros st2 e2 (w & ->).
  case_failed.
  { shape_step. split; [simpl; auto | tauto]. }
  eapply shape_bind; [apply ice_read_phy_reg_e822_lp_shape|].
  cbv beta. intros r e3 (s3 & v3 & -> & Hv3 & [[Hs3 ->] | [-> ->]]).
  { case_failed; [|congruence]. shape_step. split; [simpl; auto | tauto]. }
  cbn [failed Z.eqb negb].
  eapply shape_bind; [apply ice_write_phy_reg_e822_lp_shape|].
  cbv beta. intros st4 e4 (w4 & ->).
  case_failed.
  { shape_step. split; [simpl; auto | tauto]. }
  shape_step. split; [simpl; auto |]. intros _.
  exists cmd_val. split; [reflexivity|].
  eexists _, _. split; [|split]; [| eexists _, _; reflexivity ..].
  reflexivity.
Qed.

Lemma ice_ptp_one_port_cmd_eth56g_shape hw port cmd lock_sbq :
  shape (ice_ptp_one_port_cmd_eth56g hw port cmd lock_sbq)
    (fun status evs =>
       all_sbq evs /\
       (status = 0 -> exists cmd_val, phy_cmd_val hw cmd = Some cmd_val /\
                                      staged_eth56g hw cmd_val lock_sbq port evs)).
Proof.
  unfold ice_ptp_one_port_cmd_eth56g.
  destruct (phy_cmd_val hw cmd) as [cmd_val|].
  2:{ shape_step. split; [auto | discriminate]. }
  eapply shape_bind; [apply ice_read_phy_reg_eth56g_lp_shape|].
  cbv beta. intros [s v] e1 [(Hp & [= -> ->] & ->) | (Hp & v' & -> & Hv & Hr)].
  { cbn [failed Z.eqb negb EIO Z.opp]. shape_step. split; [auto | discriminate]. }
  cbn [fst snd] in *. subst v'.
  case_failed.
  { shape_step. split; [simpl; auto | tauto]. }
  eapply shape_bind; [apply ice_write_phy_reg_eth56g_lp_shape|].
  cbv beta. intros st2 e2 [(Hp2 & _) | (_ & w & ->)]; [lia|].
  case_failed.
  { shape_step. split; [simpl; auto | tauto]. }
  eapply shape_bind; [apply ice_read_phy_reg_eth56g_lp_shape|].
  cbv beta. intros [s3 v3] e3 [(Hp3 & _) | (_ & v' & -> & Hv3 & Hr3)]; [lia|].
  cbn [fst snd] in *. subst v'.
  case_failed.
  { shape_step. split; [simpl; auto | tauto]. }
  eapply shape_bind; [apply ice_write_phy_reg_eth56g_lp_shape|].
  cbv beta. intros st4 e4 [(Hp4 & _) | (_ & w4 & ->)]; [lia|].
  case_failed.
  { shape_step. split; [simpl; auto | tauto]. }
  shape_step. split; [simpl; auto |]. intros _.
  exists cmd_val. split; [reflexivity|].
  eexists _, _. split; [|split]; [| eexists _, _; reflexivity ..].
  reflexivity.
Qed.

Lemma ice_ptp_port_cmd_e810_shape hw cmd lock_sbq :
  shape (ice_ptp_port_cmd_e810 hw cmd lock_sbq)
    (fun status evs =>
       all_sbq evs /\
       (status = 0 -> exists cmd_val, e810_cmd_val cmd = Some cmd_val /\
          rmw_events (e810_msg E810_ETH_GLTSYN_CMD ice_sbq_msg_rd 0)
                     (e810_msg E810_ETH_GLTSYN_CMD ice_sbq_msg_wr)
                     TS_CMD_MASK_E810 cmd_val lock_sbq evs)).
Proof.
  unfold ice_ptp_port_cmd_e810, ice_ptp_port_cmd.
  destruct (e810_cmd_val cmd) as [cmd_val|].
  2:{ shape_step. split; [auto | discriminate]. }
  eapply shape_bind; [apply ice_read_phy_reg_e810_lp_shape|].
  cbv beta. intros r e1 (s & v & -> & Hv & [[Hs ->] | [-> ->]]).
  { case_failed; [|congruence]. shape_step. split; [auto | tauto]. }
  cbn [failed Z.eqb negb].
  eapply shape_bind; [apply ice_write_phy_reg_e810_lp_shape|].
  cbv beta. intros st2 e2 (w & ->).
  case_failed.
  { shape_step. split; [simpl; auto | tauto]. }
  shape_step. split; [simpl; auto |]. intros _.
  exists cmd_val. split; [reflexivity|]. eexists _, _. reflexivity.
Qed.

(** *** Loops over ports *)

Lemma for_ports_from_shape (One : Z -> Z -> list event -> Prop) body n :
  forall port,
    (forall p, shape (body p) (One p)) ->
    shape (for_ports_from n port body) (loop_spec One n port).
Proof.
  induction n as [|n IH]; intros port Hbody; cbn [for_ports_from loop_spec].
  - shape_step. auto.
  - eapply shape_bind; [apply Hbody|]. cbv beta. intros s1 e1 H1.
    case_failed.
    + shape_step. exists s1, e1. rewrite app_nil_r. auto.
    + eapply shape_weaken; [apply IH, Hbody|]. cbv beta. intros st e2 H2.
      exists 0, e1. split; [exact H1|]. right. split; [reflexivity|]. eauto.
Qed.

Lemma loop_spec_all_sbq (One : Z -> Z -> list event -> Prop) n :
  (forall p s e, One p s e -> all_sbq e) ->
  forall port status evs, loop_spec One n port status evs -> all_sbq evs.
Proof.
  intros HOne. induction n as [|n IH]; cbn [loop_spec]; intros port status evs.
  - intros [_ ->]. auto.
  - intros (s1 & e1 & H1 & [(_ & _ & ->) | (_ & e2 & -> & H2)]).
    + eapply HOne, H1.
    + apply all_sbq_app; [eapply HOne, H1 | eapply IH, H2].
Qed.

Lemma loop_spec_staged (One : Z -> Z -> list event -> Prop)
    (one : Z -> list event -> Prop) n :
  (forall p e, One p 0 e -> one p e) ->
  forall port evs, loop_spec One n port 0 evs -> staged_ports one n port evs.
Proof.
  intros HOne. induction n as [|n IH]; cbn [loop_spec staged_ports]; intros port evs.
  - intros [_ ->]. reflexivity.
  - intros (s1 & e1 & H1 & [(Hs & <- & ->) | (-> & e2 & -> & H2)]).
    + congruence.
    + exists e1, e2. split; [reflexivity|]. split; [apply HOne, H1 | apply IH, H2].
Qed.

(** *** The commit step *)

Lemma ice_ptp_port_cmd_dispatch_shape hw cmd lock_sbq :
  shape (ice_ptp_port_cmd_dispatch hw cmd lock_sbq)
    (fun status evs =>
       all_sbq evs /\ (status = 0 -> ports_staged hw cmd lock_sbq evs)).
Proof.
  unfold ice_ptp_port_cmd_dispatch, ports_staged.
  destruct (phy_model hw).
  - shape_step. split; [auto | discriminate].
  - unfold ice_ptp_port_cmd_eth56g, for_ports.
    eapply shape_weaken.
    { apply for_ports_from_shape. intros p. apply ice_ptp_one_port_cmd_eth56g_shape. }
    cbv beta. intros st evs H. split.
    + eapply loop_spec_all_sbq; [|exact H]. cbv beta. tauto.
    + intros ->. eapply loop_spec_staged; [|exact H]. cbv beta. intros p e [_ He]. auto.
  - apply ice_ptp_port_cmd_e810_shape.
  - unfold ice_ptp_port_cmd_e822, for_ports.
    eapply shape_weaken.
    { apply for_ports_from_shape. intros p. apply ice_ptp_one_port_cmd_e822_shape. }
    cbv beta. intros st evs H. split.
    + eapply loop_spec_all_sbq; [|exact H]. cbv beta. tauto.
    + intros ->. eapply loop_spec_staged; [|exact H]. cbv beta. intros p e [_ He]. auto.
Qed.

Lemma ice_ptp_src_cmd_shape hw cmd :
  shape (ice_ptp_src_cmd hw cmd) (fun _ evs => evs = src_cmd_events hw cmd).
Proof.
  unfold ice_ptp_src_cmd, src_cmd_events.
  destruct (src_cmd_val hw cmd); shape_step; reflexivity.
Qed.

Lemma ice_ptp_tmr_cmd_shape hw cmd lock_sbq :
  shape (ice_ptp_tmr_cmd hw cmd lock_sbq)
    (fun status evs => exists staging,
       all_sbq staging /\
       ((status <> 0 /\ evs = src_cmd_events hw cmd ++ staging) \/
        (status = 0 /\ ports_staged hw cmd lock_sbq staging /\
         evs = src_cmd_events hw cmd ++ staging ++ commit_events))).
Proof.
  unfold ice_ptp_tmr_cmd.
  eapply shape_bind; [apply ice_ptp_src_cmd_shape|].
  cbv beta. intros [] e0 ->.
  eapply shape_bind; [apply ice_ptp_port_cmd_dispatch_shape|].
  cbv beta. intros st staging [Hsbq Hst].
  case_failed.
  - shape_step. exists staging. rewrite app_nil_r. auto.
  - unfold ice_ptp_exec_tmr_cmd, ice_ptp_clean_cmd.
    repeat shape_step. exists staging. split; [exact Hsbq|]. right.
    split; [reflexivity|]. split; [auto|]. reflexivity.
Qed.

Lemma issued_eq {A : Type} (m : M A) t a evs :
  m t = (a, t ++ evs) -> issued m t = evs.
Proof.
  intros E. unfold issued. rewrite E. cbn [snd].
  rewrite skipn_app, skipn_all, Nat.sub_diag. reflexivity.
Qed.

Lemma count_ev_app p a b : count_ev p (a ++ b) = (count_ev p a + count_ev p b)%nat.
Proof. unfold count_ev. rewrite filter_app, length_app. reflexivity. Qed.

Lemma count_ev_all_sbq addr evs :
  all_sbq evs -> count_ev (is_wr32_to addr) evs = 0%nat.
Proof.
  unfold count_ev. induction 1 as [|e evs He _ IH]; [reflexivity|].
  destruct e; try discriminate. cbn. exact IH.
Qed.

Lemma count_src_cmd_events hw cmd addr :
  GLTSYN_CMD <> addr -> count_ev (is_wr32_to addr) (src_cmd_events hw cmd) = 0%nat.
Proof.
  intros Hne. unfold src_cmd_events.
  destruct (src_cmd_val hw cmd); [|reflexivity].
  unfold count_ev. cbn. destruct (Z.eqb_spec GLTSYN_CMD addr); [contradiction | reflexivity].
Qed.

End TimerCommand.

Section CommitStep.
Context {defs : IceDefs}.

(** C1.  Whatever the timer command and the PHY family: when the staging of
    the PHY ports fails inside ice_ptp_tmr_cmd (the switch on the PHY model
    leaves a nonzero status), ice_ptp_tmr_cmd returns exactly that status
    and the execute pulse register GLTSYN_CMD_SYNC is not written during
    the call.  (That no staged value is then committed is the hardware's
    side of the contract: the device copies shadow registers only on the
    pulse.) *)
Theorem ice_ptp_tmr_cmd_staging_failure_no_pulse
    (hw : ice_hw) (cmd : enum_ice_ptp_tmr_cmd) (lock_sbq : bool)
    (t t2 : trace) (status : Z) :
  GLTSYN_CMD <> GLTSYN_CMD_SYNC ->
  ice_ptp_port_cmd_dispatch hw cmd lock_sbq (snd (ice_ptp_src_cmd hw cmd t))
    = (status, t2) ->
  status <> 0 ->
  ice_ptp_tmr_cmd hw cmd lock_sbq t = (status, t2) /\
  count_ev (is_wr32_to GLTSYN_CMD_SYNC)
           (issued (ice_ptp_tmr_cmd hw cmd lock_sbq) t) = 0%nat.
Proof.
  intros Hne Hstage Hst.
  assert (Hrun : ice_ptp_tmr_cmd hw cmd lock_sbq t = (status, t2)).
  { unfold ice_ptp_tmr_cmd, bind.
    destruct (ice_ptp_src_cmd hw cmd t) as [[] t1]. cbn [snd] in Hstage.
    rewrite Hstage. unfold failed.
    destruct (Z.eqb_spec status 0); [contradiction | reflexivity]. }
  split; [exact Hrun|].
  destruct (shape_run _ _ _ _ _ (ice_ptp_tmr_cmd_shape hw cmd lock_sbq) Hrun)
    as (evs & -> & staging & Hsbq & [(_ & ->) | (-> & _)]); [|contradiction].
  rewrite (issued_eq _ _ _ _ Hrun), count_ev_app.
  rewrite count_src_cmd_events by exact Hne.
  rewrite count_ev_all_sbq by exact Hsbq. reflexivity.
Qed.

(** C2.  In every successful execution of ice_ptp_tmr_cmd (for a command of
    the enumeration) the events of the call are, in this order: the write
    of the source timer command to GLTSYN_CMD; the staging of the PHY
    ports, which is made of sideband transactions only and goes through
    the ports in index order; the execute pulse written to
    GLTSYN_CMD_SYNC; the write of zero to GLTSYN_CMD.  GLTSYN_CMD_SYNC is
    written exactly once. *)
Theorem ice_ptp_tmr_cmd_success_order
    (hw : ice_hw) (cmd : enum_ice_ptp_tmr_cmd) (lock_sbq : bool) (t t' : trace) :
  GLTSYN_CMD <> GLTSYN_CMD_SYNC ->
  cmd <> ICE_PTP_TMR_CMD_OTHER ->
  ice_ptp_tmr_cmd hw cmd lock_sbq t = (0, t') ->
  exists cmd_val staging,
    src_cmd_val hw cmd = Some cmd_val /\
    t' = t ++ [EvWr32 GLTSYN_CMD (u32 cmd_val)] ++ staging ++ commit_events /\
    ports_staged hw cmd lock_sbq staging /\
    all_sbq staging /\
    count_ev (is_wr32_to GLTSYN_CMD_SYNC)
             (issued (ice_ptp_tmr_cmd hw cmd lock_sbq) t) = 1%nat.
Proof.
  intros Hne Hcmd Hrun.
  destruct (shape_run _ _ _ _ _ (ice_ptp_tmr_cmd_shape hw cmd lock_sbq) Hrun)
    as (evs & -> & staging & Hsbq & [(Hst & _) | (_ & Hstaged & ->)]);
    [contradiction|].
  assert (Hsrc : exists cmd_val, src_cmd_val hw cmd = Some cmd_val).
  { destruct cmd; cbn; eauto. contradiction. }
  destruct Hsrc as [cmd_val Hsrc].
  exists cmd_val, staging.
  assert (Hev : src_cmd_events hw cmd = [EvWr32 GLTSYN_CMD (u32 cmd_val)]).
  { unfold src_cmd_events. rewrite Hsrc. reflexivity. }
  rewrite Hev in *.
  repeat split; auto.
  rewrite (issued_eq _ _ _ _ Hrun), !count_ev_app.
  rewrite (count_ev_all_sbq _ staging) by exact Hsbq.
  unfold count_ev, commit_events. cbn.
  rewrite Z.eqb_refl.
  destruct (Z.eqb_spec GLTSYN_CMD GLTSYN_CMD_SYNC); [contradiction | reflexivity].
Qed.

End CommitStep.

(** An E822 device with two ports whose sideband queue starts failing
    during the staging of port 0: the call returns the error of the
    sideband queue and issues no pulse. *)
Lemma ice_ptp_tmr_cmd_staging_failure_no_pulse_witness :
  let hw := Sample.hw_of ICE_PHY_E822 2 (Sample.failing_dev 3 (- EIO)) in
  ice_ptp_tmr_cmd (defs := Sample.defs) hw ICE_PTP_INIT_TIME true [] =
    (- EIO,
     snd (ice_ptp_port_cmd_dispatch (defs := Sample.defs) hw ICE_PTP_INIT_TIME true
            [EvWr32 0x00088810 1])) /\
  count_ev (is_wr32_to 0x00088814)
    (issued (ice_ptp_tmr_cmd (defs := Sample.defs) hw ICE_PTP_INIT_TIME true) [])
    = 0%nat.
Proof.
  intros hw.
  apply (ice_ptp_tmr_cmd_staging_failure_no_pulse (defs := Sample.defs)
           hw ICE_PTP_INIT_TIME true []).
  - vm_compute. lia.
  - vm_compute. reflexivity.
  - vm_compute. lia.
Defined.

(** An E822 device with two ports and a quiet sideband queue. *)
Lemma ice_ptp_tmr_cmd_success_order_witness :
  let hw := Sample.hw_of ICE_PHY_E822 2 Sample.quiet_dev in
  exists cmd_val staging,
    src_cmd_val (defs := Sample.defs) hw ICE_PTP_ADJ_TIME = Some cmd_val /\
    snd (ice_ptp_tmr_cmd (defs := Sample.defs) hw ICE_PTP_ADJ_TIME true []) =
      [] ++ [EvWr32 0x00088810 (u32 cmd_val)] ++ staging
         ++ commit_events (defs := Sample.defs) /\
    ports_staged (defs := Sample.defs) hw ICE_PTP_ADJ_TIME true staging /\
    all_sbq staging /\
    count_ev (is_wr32_to 0x00088814)
      (issued (ice_ptp_tmr_cmd (defs := Sample.defs) hw ICE_PTP_ADJ_TIME true) [])
      = 1%nat.
Proof.
  intros hw.
  apply (ice_ptp_tmr_cmd_success_order (defs := Sample.defs)
           hw ICE_PTP_ADJ_TIME true []).
  - vm_compute. lia.
  - discriminate.
  - vm_compute. reflexivity.
Defined.

Section Dispatcher.
Context {defs : IceDefs}.

(** The generic single-port dispatcher does not look at its [cmd] and
    [lock_sbq] arguments. *)
Lemma ice_ptp_one_port_cmd_ignores_cmd
    (hw : ice_hw) (port : Z) (cmd : enum_ice_ptp_tmr_cmd) (lock_sbq : bool) :
  ice_ptp_one_port_cmd hw port cmd lock_sbq =
  ice_ptp_one_port_cmd hw port ICE_PTP_READ_TIME true.
Proof. reflexivity. Qed.

End Dispatcher.

(** C3 (the code departs from the claim).  The caller asks the generic
    dispatcher ice_ptp_one_port_cmd for ICE_PTP_INIT_TIME on port 0 of an
    E822 device, without the sideband lock.  The words written to the Tx
    and Rx command registers carry the opcode of ICE_PTP_READ_TIME (7
    here), not the one of ICE_PTP_INIT_TIME (1 here), and the transactions
    take the sideband lock. *)
Theorem ice_ptp_one_port_cmd_writes_read_time :
  let hw := Sample.hw_of ICE_PHY_E822 2 Sample.quiet_dev in
  let tx_cmd op val :=
    ice_fill_phy_msg_e822 (defs := Sample.defs) 0 0x448 op val in
  let rx_cmd op val :=
    ice_fill_phy_msg_e822 (defs := Sample.defs) 0 0x468 op val in
  phy_cmd_val (defs := Sample.defs) hw ICE_PTP_INIT_TIME = Some 1 /\
  phy_cmd_val (defs := Sample.defs) hw ICE_PTP_READ_TIME = Some 7 /\
  ice_ptp_one_port_cmd (defs := Sample.defs) hw 0 ICE_PTP_INIT_TIME false [] =
    (0, [EvSbq (tx_cmd ice_sbq_msg_rd 0) true 0 0;
         EvSbq (tx_cmd ice_sbq_msg_wr 7) true 0 0;
         EvSbq (rx_cmd ice_sbq_msg_rd 0) true 0 0;
         EvSbq (rx_cmd ice_sbq_msg_wr 7) true 0 0]).
Proof. vm_compute. repeat split. Qed.

Section CguState.
Context {defs : IceDefs}.

(** C5.  When the status query of a valid DPLL succeeds and the reading has
    the lock bit clear, ice_get_cgu_state returns HOLDOVER if the previous
    state is LOCKED_HO_ACQ or HOLDOVER, and FREERUN otherwise; and whatever
    the inputs, FREERUN is returned only when the previous state is
    neither of the two. *)
Theorem ice_get_cgu_state_holdover_latch
    (hw : ice_hw) (dpll_idx : Z) (last_dpll_state : ice_cgu_state) (t : trace) :
  let reading := dev_aq_get_cgu_dpll_status (dev hw) t dpll_idx in
  let state := fst (fst (fst (ice_get_cgu_state hw dpll_idx last_dpll_state t))) in
  (dpll_idx < ICE_CGU_DPLL_MAX ->
   aq_status reading = 0 ->
   Z.land (u16 (aq_dpll_state reading)) ICE_AQC_GET_CGU_DPLL_STATUS_STATE_LOCK = 0 ->
   (last_dpll_state = ICE_CGU_STATE_LOCKED_HO_ACQ \/
    last_dpll_state = ICE_CGU_STATE_HOLDOVER ->
    state = ICE_CGU_STATE_HOLDOVER) /\
   (last_dpll_state <> ICE_CGU_STATE_LOCKED_HO_ACQ ->
    last_dpll_state <> ICE_CGU_STATE_HOLDOVER ->
    state = ICE_CGU_STATE_FREERUN)) /\
  (state = ICE_CGU_STATE_FREERUN ->
   last_dpll_state <> ICE_CGU_STATE_LOCKED_HO_ACQ /\
   last_dpll_state <> ICE_CGU_STATE_HOLDOVER).
Proof.
  cbv zeta. unfold ice_get_cgu_state, ice_aq_get_cgu_dpll_status, bind, ret.
  split.
  - intros Hidx Hst Hlock.
    destruct (Z.geb_spec dpll_idx ICE_CGU_DPLL_MAX); [lia|].
    rewrite Hst, Hlock. cbn [failed Z.eqb negb fst].
    split.
    + intros [-> | ->]; reflexivity.
    + intros H1 H2. destruct last_dpll_state; try reflexivity; contradiction.
  - destruct (dpll_idx >=? ICE_CGU_DPLL_MAX); [discriminate|].
    destruct (failed _); [discriminate|].
    destruct (negb _).
    + destruct (negb _); discriminate.
    + destruct last_dpll_state; cbn [fst]; intros H; try discriminate H;
        split; discriminate.
Qed.

End CguState.

(** A reading "not locked, no holdover-ready" after LOCKED_HO_ACQ. *)
Lemma ice_get_cgu_state_holdover_latch_witness :
  let hw := Sample.hw_of ICE_PHY_E822 2 Sample.quiet_dev in
  fst (fst (fst (ice_get_cgu_state (defs := Sample.defs) hw 0
                   ICE_CGU_STATE_LOCKED_HO_ACQ []))) = ICE_CGU_STATE_HOLDOVER.
Proof.
  intros hw.
  apply (ice_get_cgu_state_holdover_latch (defs := Sample.defs)
           hw 0 ICE_CGU_STATE_LOCKED_HO_ACQ []).
  - vm_compute. reflexivity.
  - vm_compute. reflexivity.
  - vm_compute. reflexivity.
  - left. reflexivity.
Defined.

Section CguPll.
Context {defs : IceDefs}.

(** C6.  With clock source TCX0 and any frequency other than the 25 MHz
    one, and likewise with a frequency or a source outside the
    enumerations, both ice_cfg_cgu_pll_e822 and ice_cfg_cgu_pll_e825c
    return -EINVAL, leave the two in-out parameters as they were, and issue
    no transaction at all: the history is unchanged. *)
Theorem ice_cfg_cgu_pll_rejects_without_access
    (hw : ice_hw) (clk_freq clk_src : Z) (t : trace) :
  (clk_src = ICE_CLK_SRC_TCX0 /\ clk_freq <> ICE_TIME_REF_FREQ_25_000) \/
  clk_freq >= NUM_ICE_TIME_REF_FREQ \/
  clk_src >= NUM_ICE_CLK_SRC ->
  ice_cfg_cgu_pll_e822 hw clk_freq clk_src t = (- EINVAL, clk_freq, clk_src, t) /\
  ice_cfg_cgu_pll_e825c hw clk_freq clk_src t = (- EINVAL, clk_freq, clk_src, t).
Proof.
  intros H. unfold ice_cfg_cgu_pll_e822, ice_cfg_cgu_pll_e825c.
  destruct (Z.geb_spec clk_freq NUM_ICE_TIME_REF_FREQ); [split; reflexivity|].
  destruct (Z.geb_spec clk_src NUM_ICE_CLK_SRC); [split; reflexivity|].
  destruct H as [[-> Hf] | [Hf | Hs]]; [|lia|lia].
  rewrite Z.eqb_refl.
  destruct (Z.eqb_spec clk_freq ICE_TIME_REF_FREQ_25_000); [contradiction|].
  split; reflexivity.
Qed.

End CguPll.

(** TCX0 with the 156.25 MHz frequency. *)
Lemma ice_cfg_cgu_pll_rejects_without_access_witness :
  let hw := Sample.hw_of ICE_PHY_E822 2 Sample.quiet_dev in
  ice_cfg_cgu_pll_e822 (defs := Sample.defs) hw 4 0 [] = (- EINVAL, 4, 0, []) /\
  ice_cfg_cgu_pll_e825c (defs := Sample.defs) hw 4 0 [] = (- EINVAL, 4, 0, []).
Proof.
  intros hw.
  apply (ice_cfg_cgu_pll_rejects_without_access (defs := Sample.defs) hw 4 0 []).
  left. split; [reflexivity | vm_compute; lia].
Defined.

Section FixedOffset.
Context {defs : IceDefs}.





Lemma ice_ptp_read_src_incval_eq hw t :
  let tmr_idx := ice_get_ptp_src_clock_index hw in
  let lo := u32 (dev_rd32 (dev hw) t (GLTSYN_INCVAL_L tmr_idx)) in
  let hi := u32 (dev_rd32 (dev hw) (t ++ [EvRd32 (GLTSYN_INCVAL_L tmr_idx) lo])
                   (GLTSYN_INCVAL_H tmr_idx)) in
  ice_ptp_read_src_incval hw t = (incval_of lo hi, t ++ incval_reads hw lo hi).
Proof.
  cbv zeta. unfold ice_ptp_read_src_incval, incval_of, incval_reads, bind, rd32, ret.
  rewrite <- app_assoc. reflexivity.
Qed.



End FixedOffset.



Section Emits.
Context {defs : IceDefs}.

Lemma emits_ret {A : Type} (P : event -> Prop) (a : A) : emits_only P (ret a).
Proof. apply shape_ret. constructor. Qed.

Lemma emits_bind {A B : Type} (P : event -> Prop) (m : M A) (k : A -> M B) :
  emits_only P m -> (forall a, emits_only P (k a)) -> emits_only P (bind m k).
Proof.
  intros Hm Hk. eapply shape_bind; [exact Hm|].
  cbv beta. intros a e1 H1. eapply shape_weaken; [apply Hk|].
  cbv beta. intros b e2 H2. apply Forall_app. auto.
Qed.

Lemma emits_mono {A : Type} (P Q : event -> Prop) (m : M A) :
  (forall e, P e -> Q e) -> emits_only P m -> emits_only Q m.
Proof.
  intros HPQ Hm. eapply shape_weaken; [exact Hm|].
  cbv beta. intros a evs H. eapply Forall_impl; [exact HPQ | exact H].
Qed.

Lemma emits_emit (P : event -> Prop) (e : event) : P e -> emits_only P (emit e).
Proof. intros H. apply shape_emit. constructor; [exact H | constructor]. Qed.

Lemma emits_rd32 (P : event -> Prop) hw addr :
  (forall v, P (EvRd32 addr v)) -> emits_only P (rd32 hw addr).
Proof. intros H. apply shape_rd32. intros v _. constructor; [apply H | constructor]. Qed.

Lemma emits_sbq (P : event -> Prop) hw msg lock_sbq :
  (forall s v, P (EvSbq msg lock_sbq s v)) ->
  emits_only P (ice_sbq_rw_reg_lp hw msg lock_sbq).
Proof.
  intros H. apply shape_sbq. intros s v _. constructor; [apply H | constructor].
Qed.

Lemma emits_for_ports_from {P : event -> Prop} body n :
  (forall p, emits_only P (body p)) ->
  forall port, emits_only P (for_ports_from n port body).
Proof.
  intros Hbody. induction n as [|n IH]; intros port; cbn [for_ports_from].
  - apply emits_ret.
  - apply emits_bind; [apply Hbody|]. intros status.
    destruct (failed status); [apply emits_ret | apply IH].
Qed.

Lemma emits_for_ports {P : event -> Prop} body n :
  (forall p, emits_only P (body p)) -> emits_only P (for_ports n body).
Proof. intros H. apply emits_for_ports_from, H. Qed.

Lemma emits_of_shape {A : Type} (P : event -> Prop) (m : M A) S :
  shape m S -> (forall a evs, S a evs -> Forall P evs) -> emits_only P m.
Proof. intros Hm HS. eapply shape_weaken; [exact Hm | exact HS]. Qed.

End Emits.

(** Programs that only use the sideband queue. *)
Ltac emits_tac :=
  repeat first
    [ apply emits_ret
    | apply emits_bind; [|intros]
    | apply emits_for_ports; intros
    | apply emits_sbq; intros; reflexivity
    | lazymatch goal with
      | |- emits_only _ (if ?b then _ else _) => destruct b
      | |- emits_only _ (match ?x with _ => _ end) => destruct x
      end ].

Section SidebandOnly.
Context {defs : IceDefs}.

Lemma ice_write_phy_reg_e822_lp_sbq hw port offset val lock_sbq :
  emits_only sbq_event (ice_write_phy_reg_e822_lp hw port offset val lock_sbq).
Proof. unfold ice_write_phy_reg_e822_lp. emits_tac. Qed.

Lemma ice_read_phy_reg_e822_lp_sbq hw port offset lock_sbq :
  emits_only sbq_event (ice_read_phy_reg_e822_lp hw port offset lock_sbq).
Proof. unfold ice_read_phy_reg_e822_lp. emits_tac. Qed.

Lemma ice_read_64b_phy_reg_e822_sbq hw port low_addr :
  emits_only sbq_event (ice_read_64b_phy_reg_e822 hw port low_addr).
Proof.
  unfold ice_read_64b_phy_reg_e822, ice_read_phy_reg_e822.
  destruct (ice_is_64b_phy_reg_e822 low_addr);
    repeat first [apply ice_read_phy_reg_e822_lp_sbq | emits_tac].
Qed.

Lemma ice_write_64b_phy_reg_e822_sbq hw port low_addr val :
  emits_only sbq_event (ice_write_64b_phy_reg_e822 hw port low_addr val).
Proof.
  unfold ice_write_64b_phy_reg_e822, ice_write_phy_reg_e822.
  destruct (ice_is_64b_phy_reg_e822 low_addr);
    repeat first [apply ice_write_phy_reg_e822_lp_sbq | emits_tac].
Qed.

Lemma ice_write_40b_phy_reg_e822_sbq hw port low_addr val :
  emits_only sbq_event (ice_write_40b_phy_reg_e822 hw port low_addr val).
Proof.
  unfold ice_write_40b_phy_reg_e822, ice_write_phy_reg_e822.
  destruct (ice_is_40b_phy_reg_e822 low_addr);
    repeat first [apply ice_write_phy_reg_e822_lp_sbq | emits_tac].
Qed.

Lemma ice_write_phy_reg_eth56g_lp_sbq hw port offset val lock_sbq :
  emits_only sbq_event (ice_write_phy_reg_eth56g_lp hw port offset val lock_sbq).
Proof.
  unfold ice_write_phy_reg_eth56g_lp, ice_write_phy_port_eth56g_lp,
    ice_phy_port_res_address_eth56g, ice_write_phy_eth56g_raw_lp.
  cbn [failed Z.eqb negb]. emits_tac.
Qed.

Lemma ice_write_40b_phy_reg_eth56g_sbq hw port low_addr val :
  emits_only sbq_event (ice_write_40b_phy_reg_eth56g hw port low_addr val).
Proof.
  unfold ice_write_40b_phy_reg_eth56g, ice_write_phy_reg_eth56g.
  destruct (ice_is_40b_phy_reg_eth56g low_addr);
    repeat first [apply ice_write_phy_reg_eth56g_lp_sbq | emits_tac].
Qed.

Lemma ice_write_64b_phy_reg_eth56g_sbq hw port low_addr val :
  emits_only sbq_event (ice_write_64b_phy_reg_eth56g hw port low_addr val).
Proof.
  unfold ice_write_64b_phy_reg_eth56g, ice_write_phy_reg_eth56g.
  destruct (ice_is_64b_phy_reg_eth56g low_addr);
    repeat first [apply ice_write_phy_reg_eth56g_lp_sbq | emits_tac].
Qed.

Lemma ice_write_phy_reg_e810_lp_sbq hw addr val lock_sbq :
  emits_only sbq_event (ice_write_phy_reg_e810_lp hw addr val lock_sbq).
Proof. unfold ice_write_phy_reg_e810_lp. emits_tac. Qed.

Lemma ice_read_phy_reg_e810_lp_sbq hw addr lock_sbq :
  emits_only sbq_event (ice_read_phy_reg_e810_lp hw addr lock_sbq).
Proof. unfold ice_read_phy_reg_e810_lp. emits_tac. Qed.

Lemma ice_ptp_prep_phy_incval_sbq hw incval :
  emits_only sbq_event (ice_ptp_prep_phy_incval_eth56g hw incval) /\
  emits_only sbq_event (ice_ptp_prep_phy_incval_e810 hw incval) /\
  emits_only sbq_event (ice_ptp_prep_phy_incval_e822 hw incval).
Proof.
  unfold ice_ptp_prep_phy_incval_eth56g, ice_ptp_prep_phy_incval_e810,
    ice_ptp_prep_phy_incval_e822, ice_write_phy_reg_e810.
  repeat split;
    repeat first [apply ice_write_40b_phy_reg_eth56g_sbq
                 | apply ice_write_40b_phy_reg_e822_sbq
                 | apply ice_write_phy_reg_e810_lp_sbq
                 | emits_tac].
Qed.

Lemma ice_ptp_prep_port_adj_e822_sbq hw port time lock_sbq :
  emits_only sbq_event (ice_ptp_prep_port_adj_e822 hw port time lock_sbq).
Proof.
  unfold ice_ptp_prep_port_adj_e822.
  repeat first [apply ice_write_phy_reg_e822_lp_sbq | emits_tac].
Qed.

Lemma ice_ptp_read_port_capture_e822_sbq hw port :
  emits_only sbq_event (ice_ptp_read_port_capture_e822 hw port).
Proof.
  unfold ice_ptp_read_port_capture_e822.
  repeat first [apply ice_read_64b_phy_reg_e822_sbq | emits_tac].
Qed.

Lemma ice_ptp_one_port_cmd_e822_sbq hw port cmd lock_sbq :
  emits_only sbq_event (ice_ptp_one_port_cmd_e822 hw port cmd lock_sbq).
Proof.
  eapply emits_of_shape; [apply ice_ptp_one_port_cmd_e822_shape|].
  cbv beta. intros a evs [H _]. exact H.
Qed.

Lemma ice_ptp_port_cmd_dispatch_sbq hw cmd lock_sbq :
  emits_only sbq_event (ice_ptp_port_cmd_dispatch hw cmd lock_sbq).
Proof.
  eapply emits_of_shape; [apply ice_ptp_port_cmd_dispatch_shape|].
  cbv beta. intros a evs [H _]. exact H.
Qed.

End SidebandOnly.

Section Semaphore.
Context {defs : IceDefs}.

Lemma sbq_not_sem_write hw e : sbq_event e -> not_sem_write hw e.
Proof. destruct e; try discriminate. reflexivity. Qed.

Lemma count_not_sem_write hw evs :
  Forall (not_sem_write hw) evs ->
  count_ev (is_wr32_to (ptp_sem_addr hw)) evs = 0%nat.
Proof.
  unfold count_ev. induction 1 as [|e evs He _ IH]; [reflexivity|].
  cbn. unfold not_sem_write in He. rewrite He. exact IH.
Qed.

Lemma busy_polls_quiet hw k :
  forall evs, busy_polls hw k evs ->
    Forall (not_sem_write hw) evs /\ count_ev is_write evs = 0%nat.
Proof.
  induction k as [|k IH]; cbn [busy_polls]; intros evs.
  - intros ->. split; [constructor | reflexivity].
  - intros (v & rest & -> & _ & Hrest). destruct (IH _ Hrest) as [H1 H2].
    split; [repeat constructor; exact H1 | exact H2].
Qed.

Lemma lock_events_quiet hw locked evs :
  lock_events hw locked evs ->
  Forall (not_sem_write hw) evs /\ count_ev is_write evs = 0%nat.
Proof.
  intros (k & polls & Hp & [(_ & _ & ->) | (_ & _ & v & _ & ->)]);
    destruct (busy_polls_quiet _ _ _ Hp) as [H1 H2].
  - auto.
  - split.
    + apply Forall_app. split; [exact H1 | repeat constructor].
    + rewrite count_ev_app, H2. reflexivity.
Qed.

Lemma busy_polls_snoc hw k polls v :
  busy_polls hw k polls -> Z.land v PFTSYN_SEM_BUSY_M <> 0 ->
  busy_polls hw (S k) (EvRd32 (ptp_sem_addr hw) v :: EvSleep 5000 6000 :: polls).
Proof. intros Hp Hv. cbn [busy_polls]. eauto. Qed.

Lemma ice_ptp_lock_loop_shape hw n :
  forall hw_lock0,
    shape (ice_ptp_lock_loop hw n hw_lock0)
      (fun hw_lock evs => exists k polls, busy_polls hw k polls /\
         ((k = n /\ evs = polls /\ (n = O -> hw_lock = hw_lock0) /\
           (n <> O -> hw_lock <> 0)) \/
          ((k < n)%nat /\ hw_lock = 0 /\
           exists v, Z.land v PFTSYN_SEM_BUSY_M = 0 /\
                     evs = polls ++ [EvRd32 (ptp_sem_addr hw) v]))).
Proof.
  induction n as [|n IH]; intros hw_lock0; cbn [ice_ptp_lock_loop].
  - shape_step. exists O, []. split; [reflexivity|]. left. tauto.
  - shape_step.
    destruct (Z.eqb_spec (Z.land v PFTSYN_SEM_BUSY_M) 0) as [Hfree|Hbusy].
    + shape_step. exists O, []. split; [reflexivity|]. right.
      split; [lia|]. split; [exact Hfree|]. exists v. auto.
    + shape_step. eapply shape_weaken; [apply IH|]. cbv beta.
      intros hw_lock evs (k & polls & Hp &
        [(-> & -> & H0 & Hn) | (Hk & -> & v' & Hv' & ->)]).
      * exists (S n), (EvRd32 (ptp_sem_addr hw) v :: EvSleep 5000 6000 :: polls).
        split; [apply busy_polls_snoc; assumption|]. left.
        repeat split; [discriminate|]. intros _.
        destruct n; [rewrite H0 by reflexivity; exact Hbusy | apply Hn; discriminate].
      * exists (S k), (EvRd32 (ptp_sem_addr hw) v :: EvSleep 5000 6000 :: polls).
        split; [apply busy_polls_snoc; assumption|]. right.
        split; [lia|]. split; [reflexivity|]. exists v'. auto.
Qed.

Lemma ice_ptp_lock_shape hw : shape (ice_ptp_lock hw) (lock_events hw).
Proof.
  unfold ice_ptp_lock.
  eapply shape_bind; [apply ice_ptp_lock_loop_shape|]. cbv beta.
  intros hw_lock evs (k & polls & Hp &
    [(-> & -> & _ & Hn) | (Hk & -> & v & Hv & ->)]).
  - shape_step. rewrite app_nil_r. exists MAX_TRIES, polls. split; [exact Hp|].
    left. split; [|auto].
    destruct (Z.eqb_spec hw_lock 0) as [E|]; [|reflexivity].
    exfalso. apply Hn; [discriminate | exact E].
  - shape_step. rewrite app_nil_r. exists k, polls. split; [exact Hp|].
    right. split; [reflexivity|]. split; [exact Hk|]. exists v. auto.
Qed.

(** *** What runs under the semaphore *)

Section Body.
Variable hw : ice_hw.
Hypothesis sem_cmd : ptp_sem_addr hw <> GLTSYN_CMD.
Hypothesis sem_sync : ptp_sem_addr hw <> GLTSYN_CMD_SYNC.
Hypothesis sem_shadj_l : ptp_sem_addr hw <> GLTSYN_SHADJ_L (tmr_index_owned hw).
Hypothesis sem_shadj_h : ptp_sem_addr hw <> GLTSYN_SHADJ_H (tmr_index_owned hw).

Lemma wr32_not_sem addr val :
  ptp_sem_addr hw <> addr -> emits_only (not_sem_write hw) (wr32 hw addr val).
Proof.
  intros Hne. apply emits_emit. unfold not_sem_write. cbn.
  destruct (Z.eqb_spec addr (ptp_sem_addr hw)); [congruence | reflexivity].
Qed.

Lemma sbq_only_not_sem {A : Type} (m : M A) :
  emits_only sbq_event m -> emits_only (not_sem_write hw) m.
Proof. apply emits_mono, sbq_not_sem_write. Qed.

Lemma ice_ptp_src_cmd_not_sem cmd :
  emits_only (not_sem_write hw) (ice_ptp_src_cmd hw cmd).
Proof.
  unfold ice_ptp_src_cmd.
  destruct (src_cmd_val hw cmd); [apply wr32_not_sem, sem_cmd | apply emits_ret].
Qed.

Lemma ice_ptp_exec_tmr_cmd_not_sem :
  emits_only (not_sem_write hw) (ice_ptp_exec_tmr_cmd hw).
Proof.
  unfold ice_ptp_exec_tmr_cmd.
  apply emits_bind; [apply wr32_not_sem, sem_sync|].
  intros _. apply emits_emit. reflexivity.
Qed.

Lemma ice_ptp_clean_cmd_not_sem :
  emits_only (not_sem_write hw) (ice_ptp_clean_cmd hw).
Proof.
  unfold ice_ptp_clean_cmd.
  apply emits_bind; [apply wr32_not_sem, sem_cmd|].
  intros _. apply emits_emit. reflexivity.
Qed.

Lemma ice_ptp_tmr_cmd_not_sem cmd lock_sbq :
  emits_only (not_sem_write hw) (ice_ptp_tmr_cmd hw cmd lock_sbq).
Proof.
  unfold ice_ptp_tmr_cmd.
  apply emits_bind; [apply ice_ptp_src_cmd_not_sem|]. intros _.
  apply emits_bind; [apply sbq_only_not_sem, ice_ptp_port_cmd_dispatch_sbq|].
  intros status. destruct (failed status); [apply emits_ret|].
  apply emits_bind; [apply ice_ptp_exec_tmr_cmd_not_sem|]. intros _.
  apply emits_bind; [apply ice_ptp_clean_cmd_not_sem|]. intros _.
  apply emits_ret.
Qed.

Lemma ice_ptp_write_incval_not_sem incval wr_main_tmr :
  emits_only (not_sem_write hw) (ice_ptp_write_incval hw incval wr_main_tmr).
Proof.
  unfold ice_ptp_write_incval.
  destruct (ice_ptp_prep_phy_incval_sbq hw incval) as (H56 & H810 & H822).
  apply emits_bind.
  { destruct wr_main_tmr; [|apply emits_ret].
    apply emits_bind; [apply wr32_not_sem, sem_shadj_l|].
    intros _. apply wr32_not_sem, sem_shadj_h. }
  intros _. apply emits_bind.
  { destruct (phy_model hw); try (apply sbq_only_not_sem; assumption).
    apply emits_ret. }
  intros status. destruct (failed status); [apply emits_ret|].
  apply ice_ptp_tmr_cmd_not_sem.
Qed.

Lemma ice_read_phy_and_phc_time_e822_not_sem port :
  emits_only (not_sem_write hw) (ice_read_phy_and_phc_time_e822 hw port).
Proof.
  unfold ice_read_phy_and_phc_time_e822.
  apply emits_bind; [apply ice_ptp_src_cmd_not_sem|]. intros _.
  apply emits_bind; [apply sbq_only_not_sem, ice_ptp_one_port_cmd_e822_sbq|].
  intros status. destruct (failed status); [apply emits_ret|].
  apply emits_bind; [apply ice_ptp_exec_tmr_cmd_not_sem|]. intros _.
  apply emits_bind; [apply ice_ptp_clean_cmd_not_sem|]. intros _.
  apply emits_bind; [apply emits_rd32; reflexivity|]. intros zo.
  apply emits_bind; [apply emits_rd32; reflexivity|]. intros lo.
  apply emits_bind; [apply sbq_only_not_sem, ice_ptp_read_port_capture_e822_sbq|].
  intros [[st tx] rx]. destruct (failed st); apply emits_ret.
Qed.

Lemma ends_unlock_base status :
  ends_unlock hw (bind (ice_ptp_unlock hw) (fun _ => ret status)).
Proof.
  unfold ends_unlock, ice_ptp_unlock. repeat shape_step.
  exists []. split; [reflexivity | constructor].
Qed.

Lemma ends_unlock_bind {A : Type} (m : M A) (k : A -> M Z) :
  emits_only (not_sem_write hw) m -> (forall a, ends_unlock hw (k a)) ->
  ends_unlock hw (bind m k).
Proof.
  intros Hm Hk. unfold ends_unlock.
  eapply shape_bind; [exact Hm|]. cbv beta. intros a e1 H1.
  eapply shape_weaken; [apply Hk|]. cbv beta.
  intros st e2 (body & -> & H2).
  exists (e1 ++ body). rewrite app_assoc. split; [reflexivity|].
  apply Forall_app. auto.
Qed.

Lemma locked_section_of_body status lock_evs body :
  lock_events hw true lock_evs -> Forall (not_sem_write hw) body ->
  locked_section hw status
    (lock_evs ++ body ++ [EvWr32 (ptp_sem_addr hw) (u32 0)]).
Proof.
  intros Hlock Hbody. exists true, lock_evs. split; [exact Hlock|]. right.
  split; [reflexivity|]. exists body. split; [reflexivity|].
  destruct (lock_events_quiet _ _ _ Hlock) as [Hq _].
  assert (H0 : count_ev (is_wr32_to (ptp_sem_addr hw)) (lock_evs ++ body) = 0%nat).
  { apply count_not_sem_write, Forall_app. auto. }
  split; [exact H0|].
  rewrite app_assoc, count_ev_app, H0. unfold count_ev. cbn.
  rewrite Z.eqb_refl. reflexivity.
Qed.

Lemma locked_section_busy lock_evs :
  lock_events hw false lock_evs -> locked_section hw (- EBUSY) lock_evs.
Proof.
  intros Hlock. exists false, lock_evs. split; [exact Hlock|]. left.
  destruct (lock_events_quiet _ _ _ Hlock) as [_ Hq]. auto.
Qed.

Lemma ice_ptp_write_incval_locked_shape incval wr_main_tmr :
  shape (ice_ptp_write_incval_locked hw incval wr_main_tmr) (locked_section hw).
Proof.
  unfold ice_ptp_write_incval_locked.
  eapply shape_bind; [apply ice_ptp_lock_shape|]. cbv beta.
  intros [] lock_evs Hlock; cbn [negb].
  - eapply shape_weaken.
    { apply (ends_unlock_bind (ice_ptp_write_incval hw incval wr_main_tmr)).
      - apply ice_ptp_write_incval_not_sem.
      - intros status. apply ends_unlock_base. }
    cbv beta. intros status evs (body & -> & Hbody).
    apply locked_section_of_body; assumption.
  - shape_step. rewrite app_nil_r. apply locked_section_busy, Hlock.
Qed.

Lemma ice_sync_phy_timer_e822_shape port :
  shape (ice_sync_phy_timer_e822 hw port) (locked_section hw).
Proof.
  unfold ice_sync_phy_timer_e822.
  eapply shape_bind; [apply ice_ptp_lock_shape|]. cbv beta.
  intros [] lock_evs Hlock; cbn [negb].
  - eapply shape_weaken.
    { apply ends_unlock_bind; [apply ice_read_phy_and_phc_time_e822_not_sem|].
      intros [[st phy_time] phc_time].
      destruct (failed st); [apply ends_unlock_base|].
      apply ends_unlock_bind;
        [apply sbq_only_not_sem, ice_ptp_prep_port_adj_e822_sbq|].
      intros st2. destruct (failed st2); [apply ends_unlock_base|].
      apply ends_unlock_bind;
        [apply sbq_only_not_sem, ice_ptp_one_port_cmd_e822_sbq|].
      intros st3. destruct (failed st3); [apply ends_unlock_base|].
      apply ends_unlock_bind; [apply ice_ptp_src_cmd_not_sem|]. intros _.
      apply ends_unlock_bind; [apply ice_ptp_exec_tmr_cmd_not_sem|]. intros _.
      apply ends_unlock_bind; [apply ice_ptp_clean_cmd_not_sem|]. intros _.
      apply ends_unlock_bind; [apply ice_read_phy_and_phc_time_e822_not_sem|].
      intros [[st4 phy_time'] phc_time'].
      destruct (failed st4); apply ends_unlock_base. }
    cbv beta. intros status evs (body & -> & Hbody).
    apply locked_section_of_body; assumption.
  - shape_step. rewrite app_nil_r. apply locked_section_busy, Hlock.
Qed.

End Body.

(** C7.  ice_ptp_lock reads the semaphore register at most MAX_TRIES = 15
    times; each read that finds the busy bit set is followed by a sleep of
    5000 to 6000 microseconds; it returns false exactly when all 15 reads
    found the bit set.  ice_ptp_write_incval_locked and
    ice_sync_phy_timer_e822 return -EBUSY without having written any
    register when the semaphore is not acquired; when it is acquired, on
    every path, failing or not, the releasing write to the semaphore
    register is issued exactly once, as the last event of the call. *)
Theorem ptp_semaphore_discipline
    (hw : ice_hw) (incval : Z) (wr_main_tmr : bool) (port : Z) :
  ptp_sem_addr hw <> GLTSYN_CMD ->
  ptp_sem_addr hw <> GLTSYN_CMD_SYNC ->
  ptp_sem_addr hw <> GLTSYN_SHADJ_L (tmr_index_owned hw) ->
  ptp_sem_addr hw <> GLTSYN_SHADJ_H (tmr_index_owned hw) ->
  shape (ice_ptp_lock hw) (lock_events hw) /\
  shape (ice_ptp_write_incval_locked hw incval wr_main_tmr) (locked_section hw) /\
  shape (ice_sync_phy_timer_e822 hw port) (locked_section hw).
Proof.
  intros H1 H2 H3 H4. split; [apply ice_ptp_lock_shape|]. split.
  - apply ice_ptp_write_incval_locked_shape; assumption.
  - apply ice_sync_phy_timer_e822_shape; assumption.
Qed.

End Semaphore.

(** An E822 device whose semaphore is free at the first poll. *)
Lemma ptp_semaphore_discipline_witness :
  let hw := Sample.hw_of ICE_PHY_E822 2 Sample.quiet_dev in
  shape (ice_ptp_lock (defs := Sample.defs) hw)
        (lock_events (defs := Sample.defs) hw) /\
  shape (ice_ptp_write_incval_locked (defs := Sample.defs) hw 0x136e44fab true)
        (locked_section (defs := Sample.defs) hw) /\
  shape (ice_sync_phy_timer_e822 (defs := Sample.defs) hw 1)
        (locked_section (defs := Sample.defs) hw).
Proof.
  intros hw.
  apply (ptp_semaphore_discipline (defs := Sample.defs) hw 0x136e44fab true 1).
  - vm_compute. lia.
  - vm_compute. lia.
  - vm_compute. lia.
  - vm_compute. lia.
Defined.

(** The semaphore held by another function for good: 15 polls, 15 sleeps,
    -EBUSY, and no register written. *)
Example ice_sync_phy_timer_e822_busy :
  let hw := Sample.hw_of ICE_PHY_E822 2 Sample.busy_sem_dev in
  ice_sync_phy_timer_e822 (defs := Sample.defs) hw 0 [] =
    (- EBUSY,
     concat (repeat [EvRd32 0x00088880 1; EvSleep 5000 6000] 15)).
Proof. vm_compute. reflexivity. Qed.

(** The semaphore free: the release is the last event, on the failing path
    as on the successful one. *)
Example ice_ptp_write_incval_locked_releases :
  let ok := Sample.hw_of ICE_PHY_E822 1 Sample.quiet_dev in
  let ko := Sample.hw_of ICE_PHY_E822 1 (Sample.failing_dev 4 (- EIO)) in
  let run hw := ice_ptp_write_incval_locked (defs := Sample.defs) hw 5 true [] in
  fst (run ok) = 0 /\ last (snd (run ok)) EvFlush = EvWr32 0x00088880 0 /\
  count_ev (is_wr32_to 0x00088880) (snd (run ok)) = 1%nat /\
  fst (run ko) = - EIO /\ last (snd (run ko)) EvFlush = EvWr32 0x00088880 0 /\
  count_ev (is_wr32_to 0x00088880) (snd (run ko)) = 1%nat.
Proof. vm_compute. repeat split. Qed.

Section ClearTimestamp.
Context {defs : IceDefs}.

Lemma ice_phy_port_mem_read_eth56g_shape hw port offset :
  port < max_phy_port hw ->
  shape (ice_phy_port_mem_read_eth56g hw port offset)
    (fun r evs => exists v,
       evs = [EvSbq (eth56g_mem_msg hw port offset ice_sbq_msg_rd 0) true (fst r) v]).
Proof.
  intros Hp.
  unfold ice_phy_port_mem_read_eth56g, ice_phy_port_mem_read_eth56g_lp,
    ice_read_phy_port_eth56g_lp.
  destruct (Z.geb_spec port (max_phy_port hw)); [lia|].
  unfold ice_phy_port_res_address_eth56g, ice_read_phy_eth56g_raw_lp.
  cbn [failed Z.eqb negb]. repeat shape_step. exists v. reflexivity.
Qed.

Lemma ice_phy_port_mem_write_eth56g_shape hw port offset val :
  port < max_phy_port hw ->
  shape (ice_phy_port_mem_write_eth56g hw port offset val)
    (fun status evs => exists w,
       evs = [EvSbq (eth56g_mem_msg hw port offset ice_sbq_msg_wr (u32 val))
                true status w]).
Proof.
  intros Hp.
  unfold ice_phy_port_mem_write_eth56g, ice_phy_port_mem_write_eth56g_lp,
    ice_write_phy_port_eth56g_lp.
  destruct (Z.geb_spec port (max_phy_port hw)); [lia|].
  unfold ice_phy_port_res_address_eth56g, ice_write_phy_eth56g_raw_lp.
  cbn [failed Z.eqb negb]. repeat shape_step. exists v. reflexivity.
Qed.

Lemma ice_write_phy_reg_e810_shape hw addr val :
  shape (ice_write_phy_reg_e810 hw addr val)
    (fun status evs => exists w,
       evs = [EvSbq (e810_msg addr ice_sbq_msg_wr (u32 val)) true status w]).
Proof. apply ice_write_phy_reg_e810_lp_shape. Qed.

End ClearTimestamp.

(** C10 as stated fails on the E822: clearing timestamp 3 of quad 1 of a
    quiet device returns success after two sideband reads and no write,
    so no zero is written to the low word after the read. *)
Lemma ice_clear_phy_tstamp_e822_no_write :
  let hw := Sample.hw_of ICE_PHY_E822 2 Sample.quiet_dev in
  let run := ice_clear_phy_tstamp (defs := Sample.defs) hw 1 3 [] in
  fst run = 0 /\
  length (snd run) = 2%nat /\
  count_ev is_write (snd run) = 0%nat /\
  ~ read_then_zero (snd run).
Proof.
  intros hw run. repeat split.
  intros (low & Hop & _ & reads & l & s & w & rest & E & _).
  vm_compute in E.
  destruct reads as [|e1 [|e2 [|e3 reads]]]; cbn in E;
    try discriminate E; inversion E; subst; cbn in Hop; discriminate Hop.
Qed.

Section OffsetConfig.
Context {defs : IceDefs}.

(** *** The programming step *)

Lemma ice_write_phy_reg_e822_shape hw port offset val :
  shape (ice_write_phy_reg_e822 hw port offset val)
    (fun status evs => exists w, evs = [E_wr port offset val status w]).
Proof. apply ice_write_phy_reg_e822_lp_shape. Qed.

Lemma offset_labels_64b :
  offset_case_labels_distinct ->
  ice_is_64b_phy_reg_e822 P_REG_PAR_PCS_RX_OFFSET_L = Some P_REG_PAR_PCS_RX_OFFSET_U /\
  ice_is_64b_phy_reg_e822 P_REG_PAR_RX_TIME_L = Some P_REG_PAR_RX_TIME_U /\
  ice_is_64b_phy_reg_e822 P_REG_TOTAL_TX_OFFSET_L = Some P_REG_TOTAL_TX_OFFSET_U /\
  ice_is_64b_phy_reg_e822 P_REG_TOTAL_RX_OFFSET_L = Some P_REG_TOTAL_RX_OFFSET_U.
Proof.
  unfold offset_case_labels_distinct. intros H.
  repeat match goal with
         | H : NoDup (_ :: _) |- _ => apply NoDup_cons_iff in H; destruct H as [? H]
         end.
  cbn [In] in *.
  unfold ice_is_64b_phy_reg_e822.
  repeat split;
    repeat match goal with
           | |- context [?a =? ?b] =>
               destruct (Z.eqb_spec a b);
               [first [reflexivity | exfalso; intuition congruence]|]
           end; try reflexivity; try congruence.
Qed.

Lemma program_total_shape hw port low high ready total :
  ice_is_64b_phy_reg_e822 low = Some high ->
  shape (status <- ice_write_64b_phy_reg_e822 hw port low total ;;
         if failed status then ret status
         else
           status <- ice_write_phy_reg_e822 hw port ready 1 ;;
           if failed status then ret status
           else ret 0)
    (program_attempt port low high ready total).
Proof.
  intros H64. unfold ice_write_64b_phy_reg_e822. rewrite H64.
  apply shape_bind_assoc.
  eapply shape_bind; [apply ice_write_phy_reg_e822_shape|].
  cbv beta. intros s1 e1 [w1 ->].
  case_failed.
  { shape_step. case_failed; [|contradiction]. shape_step.
    exists s1, w1. left. auto. }
  apply shape_bind_assoc.
  eapply shape_bind; [apply ice_write_phy_reg_e822_shape|].
  cbv beta. intros s2 e2 [w2 ->].
  case_failed.
  { shape_step. case_failed; [|contradiction]. shape_step.
    exists 0, w1. right. split; [reflexivity|]. exists s2, w2. left. auto. }
  shape_step. cbn [failed Z.eqb negb].
  eapply shape_bind; [apply ice_write_phy_reg_e822_shape|].
  cbv beta. intros s3 e3 [w3 ->].
  case_failed; shape_step;
    exists 0, w1; right; (split; [reflexivity|]); exists 0, w2; right;
    (split; [reflexivity|]); exists w3; reflexivity.
Qed.

End OffsetConfig.

Lemma sample_offset_case_labels_distinct :
  offset_case_labels_distinct (defs := Sample.defs).
Proof.
  unfold offset_case_labels_distinct.
  repeat (apply NoDup_cons; [cbn; intuition discriminate|]). apply NoDup_nil.
Qed.

(** While the hardware reports "not valid", three calls in a row return
    -EBUSY and write nothing, for Tx and for Rx. *)
Example e822_offset_config_busy_every_time :
  let hw := Sample.hw_of ICE_PHY_E822 2 Sample.quiet_dev in
  let tx := repeat_call 3 (ice_phy_cfg_tx_offset_e822 (defs := Sample.defs) hw 0) [] in
  let rx := repeat_call 3 (ice_phy_cfg_rx_offset_e822 (defs := Sample.defs) hw 0) [] in
  fst tx = [- EBUSY; - EBUSY; - EBUSY] /\ count_ev is_write (snd tx) = 0%nat /\
  fst rx = [- EBUSY; - EBUSY; - EBUSY] /\ count_ev is_write (snd rx) = 0%nat.
Proof. vm_compute. repeat split. Qed.

(** Once the hardware reports "valid", on registers that keep what is
    written to them: of three calls in a row the first programs the total
    offset (two words) and sets the ready flag, the next two return success
    and write nothing. *)
Example e822_offset_config_programs_once :
  let hw := Sample.hw_of ICE_PHY_E822 2
              (Sample.memory_dev Sample.offsets_valid Sample.incval_mmio) in
  let tx := ice_phy_cfg_tx_offset_e822 (defs := Sample.defs) hw 0 in
  let rx := ice_phy_cfg_rx_offset_e822 (defs := Sample.defs) hw 0 in
  fst (repeat_call 3 tx []) = [0; 0; 0] /\
  count_ev is_write (snd (tx [])) = 3%nat /\
  count_ev is_write (snd (repeat_call 3 tx [])) = 3%nat /\
  fst (repeat_call 3 rx []) = [0; 0; 0] /\
  count_ev is_write (snd (rx [])) = 3%nat /\
  count_ev is_write (snd (repeat_call 3 rx [])) = 3%nat.
Proof. vm_compute. repeat split. Qed.


(** ** The PMD alignment adjustment of the Rx offset *)

Ltac reads_only :=
  repeat first
    [ assumption
    | apply Forall_nil
    | apply Forall_cons; [reflexivity|]
    | apply Forall_app; split ].

Section RxOffset.
Context {defs : IceDefs}.

Lemma ice_read_phy_reg_e822_shape hw port offset :
  shape (ice_read_phy_reg_e822 hw port offset)
    (fun r evs => exists s v,
       evs = [E_rd port offset s v] /\ 0 <= v < 2 ^ 32 /\
       ((s <> 0 /\ r = (s, 0)) \/ (s = 0 /\ r = (0, v)))).
Proof. apply ice_read_phy_reg_e822_lp_shape. Qed.

Lemma ice_read_64b_phy_reg_e822_shape hw port low high :
  ice_is_64b_phy_reg_e822 low = Some high ->
  shape (ice_read_64b_phy_reg_e822 hw port low)
    (fun r evs =>
       (fst r <> 0 /\ Forall not_write evs) \/
       (exists l h, evs = reads_64b port low high l h /\ r = (0, val_64b l h))).
Proof.
  intros H64. unfold ice_read_64b_phy_reg_e822. rewrite H64.
  eapply shape_bind; [apply ice_read_phy_reg_e822_shape|].
  cbv beta. intros r e1 (s & l & -> & Hl & [[Hs ->] | [-> ->]]).
  { case_failed; [|contradiction]. shape_step. left. split; [exact Hs | reads_only]. }
  cbn [failed Z.eqb negb].
  eapply shape_bind; [apply ice_read_phy_reg_e822_shape|].
  cbv beta. intros r e2 (s & h & -> & Hh & [[Hs ->] | [-> ->]]).
  { case_failed; [|contradiction]. shape_step. left. split; [exact Hs | reads_only]. }
  cbn [failed Z.eqb negb]. shape_step. right. exists l, h. split; reflexivity.
Qed.

Lemma ice_ptp_read_src_incval_shape hw :
  shape (ice_ptp_read_src_incval hw)
    (fun v evs => exists lo hi, evs = incval_reads hw lo hi /\ v = incval_of lo hi).
Proof.
  unfold ice_ptp_read_src_incval. shape_step. shape_step. shape_step.
  exists v, v0. split; reflexivity.
Qed.

Lemma ice_phy_get_speed_and_fec_e822_shape hw port :
  shape (ice_phy_get_speed_and_fec_e822 hw port)
    (fun r evs =>
       (fst (fst r) <> 0 /\ Forall not_write evs) \/
       (exists serdes link,
          evs = [E_rd port P_REG_LINK_SPEED 0 serdes] /\
          serdes_link_spd (P_REG_LINK_SPEED_FEC_MODE serdes)
            (Z.land serdes P_REG_LINK_SPEED_SERDES_M) = Some link /\
          r = (0, link, P_REG_LINK_SPEED_FEC_MODE serdes))).
Proof.
  unfold ice_phy_get_speed_and_fec_e822.
  eapply shape_bind; [apply ice_read_phy_reg_e822_shape|].
  cbv beta. intros r e1 (s & v & -> & Hv & [[Hs ->] | [-> ->]]).
  { case_failed; [|contradiction]. shape_step. left. split; [exact Hs | reads_only]. }
  cbn [failed Z.eqb negb].
  destruct (serdes_link_spd _ _) as [link|] eqn:Elink; shape_step.
  - right. exists v, link. auto.
  - left. split; [discriminate | reads_only].
Qed.

Lemma ice_calc_fixed_rx_offset_e822_shape hw link :
  shape (ice_calc_fixed_rx_offset_e822 hw link)
    (fun v evs => exists lo hi,
       evs = incval_reads hw lo hi /\
       v = fixed_rx_offset_of hw link (incval_of lo hi)).
Proof.
  unfold ice_calc_fixed_rx_offset_e822.
  eapply shape_bind; [apply ice_ptp_read_src_incval_shape|].
  cbv beta. intros v e (lo & hi & -> & ->). shape_step.
  exists lo, hi. split; [apply app_nil_r | reflexivity].
Qed.

Lemma div64_u64_range a b : 0 <= div64_u64 a b < 2 ^ 64.
Proof.
  unfold div64_u64. pose proof (u64_range a) as Ha. pose proof (u64_range b) as Hb.
  destruct (Z.eq_dec (u64 b) 0) as [E|E].
  - rewrite E, Z.div_0_r. lia.
  - split; [apply Z.div_pos; lia|].
    apply Z.div_lt_upper_bound; [lia|]. nia.
Qed.

Lemma pmd_scale_u64 tu mult divisor :
  u64 (pmd_scale tu mult divisor + 0) = pmd_scale tu mult divisor.
Proof.
  rewrite Z.add_0_r. unfold u64 at 1. apply Z.mod_small.
  unfold pmd_scale. apply div64_u64_range.
Qed.

(** With RS-FEC the multiplier is never zero. *)
Lemma pmd_adj_mult_rs link fec v :
  link = ICE_PTP_LNK_SPD_25G_RS \/ link = ICE_PTP_LNK_SPD_50G_RS ->
  (pmd_adj_mult link fec (u8 v) =? 0) = false.
Proof.
  pose proof (u8_range v) as Hv.
  intros [-> | ->]; unfold pmd_adj_mult; cbn [link_spd_eqb orb];
    destruct (Z.ltb_spec (u8 v) 17); apply Z.eqb_neq; lia.
Qed.

Lemma ice_phy_calc_pmd_adj_e822_shape hw port link fec :
  shape (ice_phy_calc_pmd_adj_e822 hw port link fec)
    (fun r evs =>
       (fst r <> 0 /\ Forall not_write evs) \/
       (exists align lo hi cyc,
          evs = [E_rd port P_REG_PMD_ALIGNMENT 0 align]
                ++ incval_reads hw lo hi ++ rx_cycle_reads port link cyc /\
          r = (0, pmd_adj_of link fec (tu_per_sec_of hw (incval_of lo hi))
                    (u8 align) cyc))).
Proof.
  unfold ice_phy_calc_pmd_adj_e822.
  eapply shape_bind; [apply ice_read_phy_reg_e822_shape|].
  cbv beta. intros r e1 (s & align & -> & Ha & [[Hs ->] | [-> ->]]).
  { case_failed; [|contradiction]. shape_step. left. split; [exact Hs | reads_only]. }
  cbn [failed Z.eqb negb].
  eapply shape_bind; [apply ice_ptp_read_src_incval_shape|].
  cbv beta. intros v e2 (lo & hi & -> & ->).
  fold (tu_per_sec_of hw (incval_of lo hi)).
  assert (Hplain :
    rx_cycle_reads port link 0 = [] ->
    (forall tu divisor, rx_cycle_term link tu divisor 0 = 0) ->
    shape
      (if pmd_adj_mult link fec (u8 align) =? 0 then ret (0, 0)
       else ret (0, pmd_scale (tu_per_sec_of hw (incval_of lo hi))
                      (pmd_adj_mult link fec (u8 align))
                      (u32 (pmd_adj_divisor (e822_vernier link)))))
      (fun b e3 =>
         (fst b <> 0 /\
          Forall not_write ([E_rd port P_REG_PMD_ALIGNMENT 0 align]
                            ++ incval_reads hw lo hi ++ e3)) \/
         (exists align0 lo0 hi0 cyc,
            [E_rd port P_REG_PMD_ALIGNMENT 0 align] ++ incval_reads hw lo hi ++ e3
            = [E_rd port P_REG_PMD_ALIGNMENT 0 align0]
              ++ incval_reads hw lo0 hi0 ++ rx_cycle_reads port link cyc /\
            b = (0, pmd_adj_of link fec (tu_per_sec_of hw (incval_of lo0 hi0))
                      (u8 align0) cyc)))).
  { intros Hreads Hterm.
    destruct (pmd_adj_mult link fec (u8 align) =? 0) eqn:Emult; shape_step;
      right; exists align, lo, hi, 0; rewrite Hreads; (split; [reflexivity|]);
      unfold pmd_adj_of; rewrite Emult; [reflexivity|].
    rewrite Hterm, pmd_scale_u64. reflexivity. }
  destruct link; cbn [link_spd_eqb];
    try (apply Hplain; [reflexivity | intros; reflexivity]); clear Hplain.
  - (* 25G-RS *)
    rewrite pmd_adj_mult_rs by auto.
    eapply shape_bind; [apply ice_read_phy_reg_e822_shape|].
    cbv beta. intros r e3 (s & cyc & -> & Hc & [[Hs ->] | [-> ->]]).
    { case_failed; [|contradiction]. shape_step. left.
      split; [exact Hs | unfold incval_reads; reads_only]. }
    cbn [failed Z.eqb negb].
    destruct (u8 (Z.land cyc P_REG_RX_40_TO_160_CNT_RXCYC_M) =? 0) eqn:Ecyc;
      cbn [negb]; shape_step; right; exists align, lo, hi, cyc;
      (split; [reflexivity|]); unfold pmd_adj_of, rx_cycle_term;
      rewrite pmd_adj_mult_rs by auto; rewrite Ecyc; [|reflexivity].
    rewrite pmd_scale_u64. reflexivity.
  - (* 50G-RS *)
    rewrite pmd_adj_mult_rs by auto.
    eapply shape_bind; [apply ice_read_phy_reg_e822_shape|].
    cbv beta. intros r e3 (s & cyc & -> & Hc & [[Hs ->] | [-> ->]]).
    { case_failed; [|contradiction]. shape_step. left.
      split; [exact Hs | unfold incval_reads; reads_only]. }
    cbn [failed Z.eqb negb].
    destruct (u8 (Z.land cyc P_REG_RX_80_TO_160_CNT_RXCYC_M) =? 0) eqn:Ecyc;
      cbn [negb]; shape_step; right; exists align, lo, hi, cyc;
      (split; [reflexivity|]); unfold pmd_adj_of, rx_cycle_term;
      rewrite pmd_adj_mult_rs by auto; rewrite Ecyc; [|reflexivity].
    rewrite pmd_scale_u64. reflexivity.
Qed.


Lemma rx_multi_lane_eq link :
  link_spd_eqb link ICE_PTP_LNK_SPD_40G
  || link_spd_eqb link ICE_PTP_LNK_SPD_50G
  || link_spd_eqb link ICE_PTP_LNK_SPD_50G_RS
  || link_spd_eqb link ICE_PTP_LNK_SPD_100G_RS = rx_multi_lane link.
Proof. destruct link; reflexivity. Qed.

Lemma incval_reads_not_write hw lo hi : Forall not_write (incval_reads hw lo hi).
Proof. unfold incval_reads. reads_only. Qed.

Lemma reads_64b_not_write port low high l h :
  Forall not_write (reads_64b port low high l h).
Proof. unfold reads_64b. reads_only. Qed.

Lemma par_rx_reads_not_write port link l h :
  Forall not_write (par_rx_reads port link l h).
Proof.
  unfold par_rx_reads. destruct (rx_multi_lane link);
    [apply reads_64b_not_write | constructor].
Qed.

(** The paths of a call of ice_phy_cfg_rx_offset_e822, on any device:
    either it writes no register, or it found the valid bit set, read the
    values the total depends on, and attempts to program the base offset
    plus or minus the PMD alignment adjustment. *)
Lemma ice_phy_cfg_rx_offset_e822_paths (hw : ice_hw) (port : Z) :
  offset_case_labels_distinct ->
  shape (ice_phy_cfg_rx_offset_e822 hw port) (rx_offset_outcome hw port).
Proof.
  intros Hlabels.
  destruct (offset_labels_64b Hlabels) as (Hpcs & Hpar & _ & Htot).
  unfold ice_phy_cfg_rx_offset_e822.
  eapply shape_bind; [apply ice_read_phy_reg_e822_shape|].
  cbv beta. intros r e (s & v & -> & Hv & [[Hs ->] | [-> ->]]).
  { case_failed; [|contradiction]. shape_step. left.
    split; [reads_only | intros; contradiction]. }
  cbn [failed Z.eqb negb].
  destruct (Z.eqb_spec v 0) as [->|Hv0]; cbn [negb].
  2:{ shape_step. left. split; [reads_only|]. intros _. exists v. auto. }
  eapply shape_bind; [apply ice_read_phy_reg_e822_shape|].
  cbv beta. intros r e (s & ov & -> & Hov & [[Hs ->] | [-> ->]]).
  { case_failed; [|contradiction]. shape_step. left.
    split; [reads_only | intros; contradiction]. }
  cbn [failed Z.eqb negb].
  destruct (Z.eqb_spec (Z.land ov P_REG_RX_OV_STATUS_OV_M) 0) as [|Hvalid].
  { shape_step. left. split; [reads_only | discriminate]. }
  eapply shape_bind; [apply ice_phy_get_speed_and_fec_e822_shape|].
  cbv beta.
  intros [[st link] fec] e [[Hs Hr] | (serdes & link0 & -> & Hlink & E)];
    cbn [fst] in *.
  { case_failed; [|contradiction]. shape_step. left.
    split; [reads_only | intros; contradiction]. }
  inversion E; subst st link fec; clear E.
  cbn [failed Z.eqb negb].
  eapply shape_bind; [apply ice_calc_fixed_rx_offset_e822_shape|].
  cbv beta. intros fixed e (lo & hi & -> & ->).
  pose proof (incval_reads_not_write hw lo hi) as Hinc.
  eapply shape_bind; [apply (ice_read_64b_phy_reg_e822_shape hw port _ _ Hpcs)|].
  cbv beta.
  intros [st pcs] e [[Hs Hr] | (pcs_l & pcs_u & -> & E)]; cbn [fst] in *.
  { case_failed; [|contradiction]. shape_step. left.
    split; [reads_only | intros; contradiction]. }
  inversion E; subst st pcs; clear E.
  pose proof (reads_64b_not_write port P_REG_PAR_PCS_RX_OFFSET_L
                P_REG_PAR_PCS_RX_OFFSET_U pcs_l pcs_u) as Hpcsr.
  cbn [failed Z.eqb negb].
  rewrite rx_multi_lane_eq.
  eapply shape_bind with
    (S1 := fun r evs =>
       (fst r <> 0 /\ Forall not_write evs) \/
       (exists par_l par_u,
          evs = par_rx_reads port link0 par_l par_u /\
          r = (0, rx_base_offset hw link0 (incval_of lo hi)
                    (val_64b pcs_l pcs_u) (val_64b par_l par_u)))).
  { unfold par_rx_reads, rx_base_offset.
    destruct (rx_multi_lane link0).
    - eapply shape_bind;
        [apply (ice_read_64b_phy_reg_e822_shape hw port _ _ Hpar)|].
      cbv beta.
      intros [st par] e [[Hs Hr] | (par_l & par_u & -> & E)]; cbn [fst] in *.
      + case_failed; [|contradiction]. shape_step. left.
        split; [exact Hs | rewrite app_nil_r; exact Hr].
      + inversion E; subst st par; clear E. cbn [failed Z.eqb negb].
        shape_step. right. exists par_l, par_u.
        split; [apply app_nil_r | reflexivity].
    - shape_step. right. exists 0, 0. split; reflexivity. }
  cbv beta.
  intros [st base] e [[Hs Hr] | (par_l & par_u & -> & E)]; cbn [fst] in *.
  { case_failed; [|contradiction]. shape_step. left.
    split; [reads_only | intros; contradiction]. }
  inversion E; subst st base; clear E.
  pose proof (par_rx_reads_not_write port link0 par_l par_u) as Hparr.
  cbn [failed Z.eqb negb].
  eapply shape_bind; [apply ice_phy_calc_pmd_adj_e822_shape|].
  cbv beta.
  intros [st pmd] e [[Hs Hr] | (align & lo' & hi' & cyc & -> & E)];
    cbn [fst] in *.
  { case_failed; [|contradiction]. shape_step. left.
    split; [reads_only | intros; contradiction]. }
  inversion E; subst st pmd; clear E.
  cbn [failed Z.eqb negb].
  eapply shape_weaken; [apply program_total_shape, Htot|].
  cbv beta. intros status writes Hprog. right.
  exists ov, serdes, link0, lo, hi, pcs_l, pcs_u, par_l, par_u, align, lo', hi',
    cyc, writes.
  cbv zeta. split; [exact Hvalid|]. split; [exact Hlink|].
  split; [|exact Hprog].
  cbn [app]. rewrite <- !app_assoc. reflexivity.
Qed.

End RxOffset.

(** 10G: the base offset is 266803370452 time units. Without FEC the
    adjustment for an alignment counter of 10 is subtracted, and a counter
    of 65 gives no adjustment; with Clause 74 FEC the counter 65 is
    subtracted as well. *)
Example rx_offset_10g_subtracts :
  Sample.rx_total 1 10 0 = (0, Some (266803370452 - 4164816772)) /\
  Sample.rx_total 1 65 0 = (0, Some 266803370452) /\
  Sample.rx_total 9 65 0 = (0, Some (266803370452 - 27071309019)).
Proof. vm_compute. repeat split. Qed.

(** 25G-RS: the base offset is 1268518592994. The adjustment is added; the
    counter 5 is below 17 and counts as 45; a cycle count of 0 adds nothing,
    a cycle count of 1 adds the term for (4 - 1) * 40. *)
Example rx_offset_25g_rs_adds :
  Sample.rx_total 0x12 5 0 = (0, Some (1268518592994 + 7496670190)) /\
  Sample.rx_total 0x12 5 1 = (0, Some (1268518592994 + 7496670190 + 19991120506)) /\
  Sample.rx_total 0x12 20 3 = (0, Some (1268518592994 + 3331853417 + 6663706835)).
Proof. vm_compute. repeat split. Qed.

(** 50G-RS: the base offset is 900482845664, the cycle count of 1 adds the
    term for 1 * 40. *)
Example rx_offset_50g_rs_adds :
  Sample.rx_total 0x14 20 0 = (0, Some (900482845664 + 1665926708)) /\
  Sample.rx_total 0x14 20 1 = (0, Some (900482845664 + 1665926708 + 3331853417)).
Proof. vm_compute. repeat split. Qed.

(** ** Reading the flat NVM *)

Section FlatNvm.
Context {nvm_defs : NvmDefs}.

Lemma nvm_bind_some {A B : Type} (m : Nvm A) (k : A -> Nvm B) t a t' :
  m t = Some (a, t') -> nvm_bind m k t = k a t'.
Proof. intros E. unfold nvm_bind. rewrite E. reflexivity. Qed.

Lemma u16_range x : 0 <= u16 x < 2 ^ 16.
Proof. unfold u16. apply Z.mod_pos_bound. lia. Qed.

Lemma u16_small x : 0 <= x < 2 ^ 16 -> u16 x = x.
Proof. intros H. unfold u16. apply Z.mod_small, H. Qed.

Lemma u32_small x : 0 <= x < 2 ^ 32 -> u32 x = x.
Proof. intros H. unfold u32. apply Z.mod_small, H. Qed.

Lemma u8_small x : 0 <= x < 2 ^ 8 -> u8 x = x.
Proof. intros H. unfold u8. apply Z.mod_small, H. Qed.

(** The admin queue is asked for the bytes [from], ..., [from + len - 1]
    with the offset split over the two fields of the command. *)
Lemma ice_aq_read_nvm_eq hw from len last shadow t :
  0 <= from <= ICE_AQC_NVM_MAX_OFFSET -> ICE_AQC_NVM_MAX_OFFSET < 2 ^ 24 ->
  0 <= len < 2 ^ 16 ->
  ice_aq_read_nvm hw ICE_AQC_NVM_START_POINT from len last shadow t =
    ice_aq_send_cmd_nvm_read hw
      {| offset_low := from mod 2 ^ 16;
         offset_high := from / 2 ^ 16;
         cmd_flags := flat_read_flags shadow last;
         module_typeid := u16 ICE_AQC_NVM_START_POINT;
         nvm_length := len |} len t.
Proof.
  intros Hfrom Hmax Hlen. unfold ice_aq_read_nvm.
  destruct (Z.gtb_spec from ICE_AQC_NVM_MAX_OFFSET) as [|_]; [lia|].
  rewrite Z.eqb_refl, andb_true_r.
  rewrite !(u16_small len) by exact Hlen.
  change 65535 with (Z.ones 16). rewrite Z.land_ones by lia.
  change 255 with (Z.ones 8). rewrite Z.land_ones, Z.shiftr_div_pow2 by lia.
  assert (H16 : 0 <= from mod 2 ^ 16 < 2 ^ 16) by (apply Z.mod_pos_bound; lia).
  rewrite (u16_small _ H16).
  assert (Hhi : 0 <= from / 2 ^ 16 < 2 ^ 8).
  { split; [apply Z.div_pos; lia|]. apply Z.div_lt_upper_bound; lia. }
  rewrite (Z.mod_small _ _ Hhi), (u8_small _ Hhi).
  replace (flat_read_flags shadow last) with
    (if last
     then u8 (Z.lor (if negb shadow then u8 (Z.lor 0 ICE_AQC_NVM_FLASH_ONLY) else 0)
                    ICE_AQC_NVM_LAST_CMD)
     else if negb shadow then u8 (Z.lor 0 ICE_AQC_NVM_FLASH_ONLY) else 0)
    by (unfold flat_read_flags; destruct shadow, last; reflexivity).
  reflexivity.
Qed.

Lemma ice_aq_read_nvm_sent hw from len last shadow t :
  0 <= from <= ICE_AQC_NVM_MAX_OFFSET -> ICE_AQC_NVM_MAX_OFFSET < 2 ^ 24 ->
  0 <= len < 2 ^ 16 ->
  exists status rc bytes,
    ice_aq_read_nvm hw ICE_AQC_NVM_START_POINT from len last shadow t =
      Some ((status, bytes),
            t ++ [NvAqRead {| offset_low := from mod 2 ^ 16;
                              offset_high := from / 2 ^ 16;
                              cmd_flags := flat_read_flags shadow last;
                              module_typeid := u16 ICE_AQC_NVM_START_POINT;
                              nvm_length := len |} len status rc bytes]) /\
    length bytes = Z.to_nat len.
Proof.
  intros Hfrom Hmax Hlen. rewrite ice_aq_read_nvm_eq by assumption.
  unfold ice_aq_send_cmd_nvm_read.
  destruct (nv_aq_nvm_read (nvm_dev hw) t _) as [[status rc] payload] eqn:E.
  exists status, rc, (map (fun i => u8 (payload i)) (seq 0 (Z.to_nat len))).
  split; [reflexivity|]. rewrite length_map, length_seq. reflexivity.
Qed.

Lemma chunk_len_bounds from to :
  0 < ICE_AQ_MAX_BUF_LEN -> from <= to ->
  0 <= chunk_len from to <= ICE_AQ_MAX_BUF_LEN /\
  from + chunk_len from to <= to /\
  from mod ICE_AQ_MAX_BUF_LEN + chunk_len from to <= ICE_AQ_MAX_BUF_LEN /\
  (from < to -> 1 <= chunk_len from to).
Proof.
  intros Hbuf Hle. unfold chunk_len.
  pose proof (Z.mod_pos_bound from ICE_AQ_MAX_BUF_LEN Hbuf). lia.
Qed.

Lemma store_at_firstn data pos chunk :
  0 <= pos -> (Z.to_nat pos <= length data)%nat ->
  firstn (Z.to_nat pos + length chunk) (store_at data pos chunk) =
    firstn (Z.to_nat pos) data ++ chunk.
Proof.
  intros Hpos Hlen. unfold store_at.
  rewrite firstn_app, length_firstn, Nat.min_l by exact Hlen.
  rewrite firstn_all2 by (rewrite length_firstn; lia).
  replace (Z.to_nat pos + length chunk - Z.to_nat pos)%nat with (length chunk) by lia.
  rewrite firstn_app, Nat.sub_diag, firstn_O, app_nil_r.
  rewrite firstn_all. reflexivity.
Qed.

Lemma store_at_length data pos chunk :
  0 <= pos -> (Z.to_nat pos + length chunk <= length data)%nat ->
  length (store_at data pos chunk) = length data.
Proof.
  intros Hpos Hlen. unfold store_at.
  rewrite !length_app, length_firstn, length_skipn. lia.
Qed.

Lemma store_at_prefix data pos chunk k :
  (k <= Z.to_nat pos)%nat -> (Z.to_nat pos <= length data)%nat ->
  firstn k (store_at data pos chunk) = firstn k data.
Proof.
  intros Hk Hlen. unfold store_at.
  rewrite firstn_app, length_firstn, Nat.min_l by exact Hlen.
  replace (k - Z.to_nat pos)%nat with 0%nat by lia.
  rewrite firstn_O, app_nil_r, firstn_firstn, Nat.min_l by exact Hk. reflexivity.
Qed.

(** The loop of ice_read_flat_nvm with [bytes_read] bytes behind it. *)
Lemma ice_read_flat_nvm_loop_shape rounds :
  forall hw from inlen bytes_read data shadow t,
  0 < ICE_AQ_MAX_BUF_LEN < 2 ^ 16 -> ICE_AQC_NVM_MAX_OFFSET < 2 ^ 24 ->
  ICE_ERR_PARAM <> 0 ->
  0 <= bytes_read <= inlen -> inlen < 2 ^ 32 ->
  0 <= from ->
  (Z.to_nat (inlen - bytes_read) < rounds)%nat ->
  (Z.to_nat inlen <= length data)%nat ->
  exists status n data' evs,
    ice_read_flat_nvm_loop rounds hw from inlen bytes_read data shadow t =
      Some ((status, n, data'), t ++ evs) /\
    flat_chunks shadow from (from + (inlen - bytes_read)) evs /\
    n = bytes_read + Z.of_nat (length (ok_payload evs)) /\
    (status = 0 -> n = inlen /\ evs <> []) /\
    firstn (Z.to_nat n) data' = firstn (Z.to_nat bytes_read) data ++ ok_payload evs /\
    length data' = length data.
Proof.
  induction rounds as [|rounds IH];
    intros hw from inlen br data shadow t Hbuf Hmax Hparam Hbr Hin Hfrom
      Hrounds Hdata; [lia|].
  cbn [ice_read_flat_nvm_loop].
  set (to := from + (inlen - br)).
  assert (Hto : from <= to) by (unfold to; lia).
  destruct (chunk_len_bounds from to (proj1 Hbuf) Hto) as (Hlen & Hlento & _ & Hpos).
  assert (Hsize :
    Z.min (u32 (ICE_AQ_MAX_BUF_LEN - from mod ICE_AQ_MAX_BUF_LEN)) (u32 (inlen - br))
    = chunk_len from to).
  { pose proof (Z.mod_pos_bound from ICE_AQ_MAX_BUF_LEN (proj1 Hbuf)).
    rewrite !u32_small by lia. unfold chunk_len, to. f_equal. lia. }
  rewrite Hsize. set (len := chunk_len from to) in *.
  rewrite (u32_small (br + len)) by (unfold to in *; lia).
  assert (Hlast : negb (br + len <? inlen) = (from + len =? to)).
  { unfold to in *. destruct (Z.ltb_spec (br + len) inlen), (Z.eqb_spec (from + len) (from + (inlen - br)));
      cbn; try reflexivity; lia. }
  rewrite Hlast.
  rewrite (u16_small len) by lia.
  destruct (Z_le_gt_dec from ICE_AQC_NVM_MAX_OFFSET) as [Hok|Hbeyond].
  2:{ (* the admin queue is not asked *)
    unfold ice_aq_read_nvm at 1.
    destruct (Z.gtb_spec from ICE_AQC_NVM_MAX_OFFSET) as [_|]; [|lia].
    unfold nvm_bind, nvm_ret.
    assert (Hf : failed ICE_ERR_PARAM = true).
    { unfold failed. destruct (Z.eqb_spec ICE_ERR_PARAM 0); [contradiction | reflexivity]. }
    rewrite Hf.
    exists ICE_ERR_PARAM, br, (store_at data br []), [].
    rewrite app_nil_r. split; [reflexivity|]. split; [exact I|].
    split; [cbn; lia|]. split; [intros; contradiction|].
    cbn [ok_payload flat_map]. rewrite app_nil_r.
    split; [apply store_at_prefix; lia | apply store_at_length; cbn; lia]. }
  destruct (ice_aq_read_nvm_sent hw from len (from + len =? to) shadow t)
    as (status & rc & bytes & Esend & Hbytes); [lia | exact Hmax | lia |].
  rewrite (nvm_bind_some _ _ _ _ _ Esend).
  set (e := NvAqRead _ len status rc bytes) in *.
  assert (He : e = NvAqRead (flat_read_cmd shadow from to) (chunk_len from to)
                     status rc bytes) by reflexivity.
  assert (Hstore : length (store_at data br bytes) = length data).
  { apply store_at_length; lia. }
  destruct (failed status) eqn:Ef.
  { apply failed_true in Ef.
    exists status, br, (store_at data br bytes), [e].
    split; [reflexivity|]. split.
    { cbn [flat_chunks]. exists status, rc, bytes. repeat split; auto; contradiction. }
    assert (Hpay : ok_payload [e] = []).
    { unfold ok_payload, e. cbn [flat_map]. unfold failed.
      destruct (Z.eqb_spec status 0); [contradiction | reflexivity]. }
    rewrite Hpay, app_nil_r. split; [cbn; lia|]. split; [intros; contradiction|].
    split; [apply store_at_prefix; lia | exact Hstore]. }
  apply failed_false in Ef. subst status.
  assert (Hpay1 : ok_payload [e] = bytes).
  { unfold ok_payload, e. cbn [flat_map failed Z.eqb negb]. apply app_nil_r. }
  assert (Hfirst : firstn (Z.to_nat (br + len)) (store_at data br bytes)
                   = firstn (Z.to_nat br) data ++ bytes).
  { replace (Z.to_nat (br + len)) with (Z.to_nat br + length bytes)%nat by lia.
    apply store_at_firstn; lia. }
  rewrite (u32_small (from + len)) by (unfold to in *; lia).
  destruct (Z.eqb_spec (from + len) to) as [Elast|Emore].
  { exists 0, (br + len), (store_at data br bytes), [e].
    split; [reflexivity|]. split.
    { cbn [flat_chunks]. exists 0, rc, bytes. repeat split; auto; contradiction. }
    rewrite Hpay1. split; [lia|]. split; [|split; [exact Hfirst | exact Hstore]].
    intros _. split; [unfold to in *; lia | discriminate]. }
  destruct (IH hw (from + len) inlen (br + len) (store_at data br bytes) shadow
              (t ++ [e]))
    as (status & n & data' & evs & Erun & Hchunks & Hn & Hsucc & Hdata' & Hlen');
    try assumption; try (unfold to in *; lia).
  exists status, n, data', (e :: evs).
  rewrite <- app_assoc in Erun. split; [exact Erun|].
  replace (from + len + (inlen - (br + len))) with to in Hchunks
    by (unfold to; lia).
  split.
  { cbn [flat_chunks]. exists 0, rc, bytes. repeat split; auto.
    unfold to in *; lia. }
  assert (Hpay : ok_payload (e :: evs) = bytes ++ ok_payload evs).
  { change (e :: evs) with ([e] ++ evs). unfold ok_payload.
    rewrite flat_map_app. fold (ok_payload [e]). rewrite Hpay1. reflexivity. }
  rewrite Hpay, length_app. split; [lia|].
  split; [intros Hs; split; [apply Hsucc, Hs | discriminate]|].
  split; [|congruence].
  rewrite Hdata', Hfirst, app_assoc. reflexivity.
Qed.


Lemma cmd_offset_flat_read_cmd shadow from to :
  cmd_offset (flat_read_cmd shadow from to) = from.
Proof.
  unfold cmd_offset, flat_read_cmd. cbn [offset_low offset_high].
  pose proof (Z.div_mod from (2 ^ 16)). lia.
Qed.

Lemma flat_chunks_within shadow evs :
  0 < ICE_AQ_MAX_BUF_LEN ->
  forall from to, 0 <= from <= to ->
  flat_chunks shadow from to evs ->
  Forall within_sector evs /\ Forall (reads_below to) evs.
Proof.
  intros Hbuf. induction evs as [|e evs IH]; intros from to Hfrom H.
  { split; constructor. }
  cbn [flat_chunks] in H.
  destruct H as (status & rc & bytes & -> & _ & _ & Hrest).
  destruct (chunk_len_bounds from to Hbuf (proj2 Hfrom)) as (Hlen & Hto & Hsec & _).
  destruct (IH (from + chunk_len from to) to) as [IH1 IH2]; [lia | exact Hrest |].
  split; constructor; auto.
  - cbn [within_sector]. rewrite cmd_offset_flat_read_cmd.
    cbn [flat_read_cmd nvm_length]. repeat split; lia.
  - cbn [reads_below]. rewrite cmd_offset_flat_read_cmd.
    cbn [flat_read_cmd nvm_length]. lia.
Qed.

(** X1: for every u32 offset and length, ice_read_flat_nvm always returns.
    It asks the admin queue for the requested bytes piece by piece: the
    first command starts at [offset], each further one where the one
    before ended; a piece ends at the end of its sector or at the end of
    the request; the command that reaches the end of the request, and no
    other, carries the mark of the last command; a command is issued only
    after all earlier ones succeeded.  The length returned is the number of
    bytes the successful commands delivered, the buffer starts with these
    bytes in order, and on success the length returned is the length
    requested. *)
Theorem ice_read_flat_nvm_pieces
    (hw : nvm_hw) (offset length : Z) (data : list Z) (read_shadow_ram : bool)
    (t : nvm_trace) :
  0 < ICE_AQ_MAX_BUF_LEN < 2 ^ 16 -> ICE_AQC_NVM_MAX_OFFSET < 2 ^ 24 ->
  ICE_ERR_PARAM <> 0 ->
  0 <= offset < 2 ^ 32 -> 0 <= length < 2 ^ 32 ->
  (Z.to_nat length <= List.length data)%nat ->
  exists status bytes_read data' evs,
    ice_read_flat_nvm hw offset length data read_shadow_ram t =
      Some ((status, bytes_read, data'), t ++ evs) /\
    flat_chunks read_shadow_ram offset (offset + length) evs /\
    bytes_read = Z.of_nat (List.length (ok_payload evs)) /\
    firstn (Z.to_nat bytes_read) data' = ok_payload evs /\
    List.length data' = List.length data /\
    (status = 0 -> bytes_read = length).
Proof.
  intros Hbuf Hmax Hparam Hoff Hlen Hdata. unfold ice_read_flat_nvm.
  destruct (read_shadow_ram && _).
  { exists ICE_ERR_PARAM, 0, data, []. rewrite app_nil_r.
    split; [reflexivity|]. split; [exact I|]. split; [reflexivity|].
    split; [reflexivity|]. split; [reflexivity|]. intros; contradiction. }
  destruct (ice_read_flat_nvm_loop_shape (S (Z.to_nat length)) hw offset length 0
              data read_shadow_ram t)
    as (status & n & data' & evs & Erun & Hchunks & Hn & Hsucc & Hdata' & Hlen');
    try assumption; try lia.
  exists status, n, data', evs. rewrite Z.sub_0_r in Hchunks.
  cbn [Z.to_nat firstn app] in Hdata'.
  split; [exact Erun|]. split; [exact Hchunks|]. split; [lia|].
  split; [exact Hdata'|]. split; [exact Hlen'|]. intros Hs. apply Hsucc, Hs.
Qed.

(** X2: for every u32 offset and length, no command of ice_read_flat_nvm
    crosses a sector boundary of the NVM or asks for more than the largest
    buffer of the admin queue, and each has a buffer of exactly the length
    it asks for.  A read of the Shadow RAM whose end [offset + length] is
    itself a u32 issues no command that reaches beyond the sr_words words
    of the Shadow RAM. *)
Theorem ice_read_flat_nvm_within_sector
    (hw : nvm_hw) (offset length : Z) (data : list Z) (read_shadow_ram : bool)
    (t : nvm_trace) :
  0 < ICE_AQ_MAX_BUF_LEN < 2 ^ 16 -> ICE_AQC_NVM_MAX_OFFSET < 2 ^ 24 ->
  ICE_ERR_PARAM <> 0 ->
  0 <= offset < 2 ^ 32 -> 0 <= length < 2 ^ 32 ->
  0 <= sr_words hw < 2 ^ 31 ->
  (Z.to_nat length <= List.length data)%nat ->
  exists r evs,
    ice_read_flat_nvm hw offset length data read_shadow_ram t = Some (r, t ++ evs) /\
    Forall within_sector evs /\
    (read_shadow_ram = true -> offset + length < 2 ^ 32 ->
     Forall (reads_below (sr_words hw * 2)) evs).
Proof.
  intros Hbuf Hmax Hparam Hoff Hlen Hsr Hdata. unfold ice_read_flat_nvm.
  destruct (read_shadow_ram && _) eqn:Echeck.
  { eexists _, []. rewrite app_nil_r. repeat split; constructor. }
  destruct (ice_read_flat_nvm_loop_shape (S (Z.to_nat length)) hw offset length 0
              data read_shadow_ram t)
    as (status & n & data' & evs & Erun & Hchunks & _);
    try assumption; try lia.
  rewrite Z.sub_0_r in Hchunks.
  destruct (flat_chunks_within read_shadow_ram evs (proj1 Hbuf) offset
              (offset + length)) as [Hsec Hbelow]; [lia | exact Hchunks |].
  exists (status, n, data'), evs. split; [exact Erun|]. split; [exact Hsec|].
  intros -> Hend. cbn [andb] in Echeck.
  rewrite !u32_small in Echeck by lia.
  destruct (Z.gtb_spec (offset + length) (sr_words hw * 2)); [discriminate|].
  eapply Forall_impl; [|exact Hbelow].
  intros [] He; cbn [reads_below] in *; try contradiction. lia.
Qed.

(** X27: the length check of a Shadow RAM read is made on the u32 sum of
    offset and length.  When the sum wraps and the wrapped value is not
    beyond the Shadow RAM, the check passes, and, as soon as the offset is
    one a command can carry, the first command is sent: it starts at
    [offset], whether or not that is inside the Shadow RAM, and is marked
    as a Shadow RAM read. *)
Theorem ice_read_flat_nvm_wrapped_sum
    (hw : nvm_hw) (offset length : Z) (data : list Z) (t : nvm_trace) :
  0 < ICE_AQ_MAX_BUF_LEN < 2 ^ 16 -> ICE_AQC_NVM_MAX_OFFSET < 2 ^ 24 ->
  ICE_ERR_PARAM <> 0 ->
  0 <= offset <= ICE_AQC_NVM_MAX_OFFSET -> 0 <= length < 2 ^ 32 ->
  0 <= sr_words hw < 2 ^ 31 ->
  (Z.to_nat length <= List.length data)%nat ->
  2 ^ 32 <= offset + length ->
  offset + length - 2 ^ 32 <= sr_words hw * 2 ->
  exists r status rc bytes evs,
    ice_read_flat_nvm hw offset length data true t =
      Some (r, t ++ NvAqRead (flat_read_cmd true offset (offset + length))
                      (chunk_len offset (offset + length)) status rc bytes :: evs).
Proof.
  intros Hbuf Hmax Hparam Hoff Hlen Hsr Hdata Hwrap Hpass. unfold ice_read_flat_nvm.
  assert (Hsum : u32 (offset + length) = offset + length - 2 ^ 32).
  { unfold u32. symmetry. apply (Z.mod_unique _ _ 1); lia. }
  rewrite Hsum, (u32_small (sr_words hw * 2)) by lia.
  destruct (Z.gtb_spec (offset + length - 2 ^ 32) (sr_words hw * 2)); [lia|].
  cbn [andb ice_read_flat_nvm_loop].
  set (to := offset + length).
  assert (Hto : offset <= to) by (unfold to; lia).
  destruct (chunk_len_bounds offset to (proj1 Hbuf) Hto) as (Hclen & Hlento & _ & Hpos).
  assert (Hsize :
    Z.min (u32 (ICE_AQ_MAX_BUF_LEN - offset mod ICE_AQ_MAX_BUF_LEN)) (u32 (length - 0))
    = chunk_len offset to).
  { pose proof (Z.mod_pos_bound offset ICE_AQ_MAX_BUF_LEN (proj1 Hbuf)).
    rewrite !u32_small by lia. unfold chunk_len, to. f_equal. lia. }
  rewrite Hsize. set (len := chunk_len offset to) in *.
  rewrite (u32_small (0 + len)) by (unfold to in *; lia).
  assert (Hlast : negb (0 + len <? length) = (offset + len =? to)).
  { unfold to in *.
    destruct (Z.ltb_spec (0 + len) length), (Z.eqb_spec (offset + len) (offset + length));
      cbn; try reflexivity; lia. }
  rewrite Hlast, (u16_small len) by lia.
  destruct (ice_aq_read_nvm_sent hw offset len (offset + len =? to) true t)
    as (status & rc & bytes & Esend & Hbytes); [lia | exact Hmax | lia |].
  rewrite (nvm_bind_some _ _ _ _ _ Esend).
  set (e := NvAqRead _ len status rc bytes) in *.
  assert (He : e = NvAqRead (flat_read_cmd true offset to) len status rc bytes)
    by reflexivity.
  clearbody e.
  destruct (failed status).
  { eexists _, status, rc, bytes, []. rewrite He. reflexivity. }
  destruct (offset + len =? to).
  { eexists _, status, rc, bytes, []. rewrite He. reflexivity. }
  rewrite (u32_small (offset + len)) by lia.
  destruct (ice_read_flat_nvm_loop_shape (Z.to_nat length) hw (offset + len) length
              (0 + len) (store_at data 0 bytes) true (t ++ [e]))
    as (st & n & data' & evs & Erun & _);
    try assumption; try (unfold to in *; lia).
  { rewrite store_at_length; [exact Hdata | lia | cbn; lia]. }
  rewrite Erun, <- app_assoc. eexists _, status, rc, bytes, evs.
  rewrite He. reflexivity.
Qed.

Lemma ice_read_flat_nvm_single hw offset inlen data shadow t :
  0 < ICE_AQ_MAX_BUF_LEN < 2 ^ 16 -> ICE_AQC_NVM_MAX_OFFSET < 2 ^ 24 ->
  0 <= offset <= ICE_AQC_NVM_MAX_OFFSET -> 0 <= inlen ->
  offset mod ICE_AQ_MAX_BUF_LEN + inlen <= ICE_AQ_MAX_BUF_LEN ->
  shadow && (u32 (offset + inlen) >? u32 (sr_words hw * 2)) = false ->
  ice_read_flat_nvm hw offset inlen data shadow t =
    let '(status, rc, payload) :=
      nv_aq_nvm_read (nvm_dev hw) t (single_read_cmd shadow offset inlen) in
    let bytes := map (fun i => u8 (payload i)) (seq 0 (Z.to_nat inlen)) in
    Some ((status, (if failed status then 0 else inlen), store_at data 0 bytes),
          t ++ [NvAqRead (single_read_cmd shadow offset inlen) inlen status rc bytes]).
Proof.
  intros Hbuf Hmax Hoff Hin Hfit Hcheck. unfold ice_read_flat_nvm.
  rewrite Hcheck. cbn [ice_read_flat_nvm_loop].
  pose proof (Z.mod_pos_bound offset ICE_AQ_MAX_BUF_LEN (proj1 Hbuf)) as Hmod.
  rewrite Z.sub_0_r, Z.add_0_l.
  rewrite (u32_small (ICE_AQ_MAX_BUF_LEN - _)), (u32_small inlen) by lia.
  rewrite Z.min_r by lia. rewrite (u32_small inlen) by lia.
  rewrite Z.ltb_irrefl. cbn [negb].
  rewrite (u16_small inlen) by lia.
  unfold nvm_bind at 1. rewrite ice_aq_read_nvm_eq by (try assumption; lia).
  unfold ice_aq_send_cmd_nvm_read. fold (single_read_cmd shadow offset inlen).
  destruct (nv_aq_nvm_read (nvm_dev hw) t _) as [[status rc] payload].
  destruct (failed status); reflexivity.
Qed.


Lemma failed_param : ICE_ERR_PARAM <> 0 -> failed ICE_ERR_PARAM = true.
Proof.
  intros H. unfold failed. destruct (Z.eqb_spec ICE_ERR_PARAM 0); [contradiction | reflexivity].
Qed.

(** The one command of a word read inside the Shadow RAM. *)
Lemma ice_read_sr_word_aq_inside hw offset t :
  0 < ICE_AQ_MAX_BUF_LEN < 2 ^ 16 -> ICE_AQ_MAX_BUF_LEN mod 2 = 0 ->
  2 ^ 17 <= ICE_AQC_NVM_MAX_OFFSET < 2 ^ 24 ->
  0 <= offset < 2 ^ 16 -> 0 <= sr_words hw < 2 ^ 31 ->
  offset < sr_words hw ->
  ice_read_sr_word_aq hw offset t =
    let cmd := single_read_cmd true (offset * 2) 2 in
    let '(status, rc, payload) := nv_aq_nvm_read (nvm_dev hw) t cmd in
    let b0 := u8 (payload 0%nat) in
    let b1 := u8 (payload 1%nat) in
    Some ((if failed status then (status, 0) else (0, u16 (b0 + 256 * b1))),
          t ++ [NvAqRead cmd 2 status rc [b0; b1]]).
Proof.
  intros Hbuf Heven Hmax Hoff Hsr Hin. unfold ice_read_sr_word_aq.
  rewrite (u16_small offset), (u32_small (offset * 2)) by lia.
  unfold nvm_bind.
  rewrite ice_read_flat_nvm_single; try assumption; try lia.
  - destruct (nv_aq_nvm_read (nvm_dev hw) t _) as [[status rc] payload].
    cbn [Z.to_nat Pos.to_nat Pos.iter_op Nat.add seq map].
    destruct (failed status); reflexivity.
  - pose proof (Z.mod_pos_bound (offset * 2) ICE_AQ_MAX_BUF_LEN (proj1 Hbuf)) as Hm.
    pose proof (Z.div_mod ICE_AQ_MAX_BUF_LEN 2) as Hk. rewrite Heven in Hk.
    set (k := ICE_AQ_MAX_BUF_LEN / 2) in *.
    pose proof (Z.div_mod (offset * 2) ICE_AQ_MAX_BUF_LEN) as Hq.
    set (q := offset * 2 / ICE_AQ_MAX_BUF_LEN) in *.
    set (r := (offset * 2) mod ICE_AQ_MAX_BUF_LEN) in *.
    assert (Hr : r = 2 * (offset - k * q)) by nia.
    lia.
  - rewrite !u32_small by lia. cbn [andb].
    destruct (Z.gtb_spec (offset * 2 + 2) (sr_words hw * 2)); [lia | reflexivity].
Qed.

(** X3: a word of the Shadow RAM is read with exactly one command of the
    admin queue, for the two bytes at twice the word offset, marked as the
    last command; the word is not split over two commands, since a sector
    holds an even number of bytes.  The word returned is the little-endian
    value of the two bytes delivered.  A word outside the Shadow RAM is
    refused with ICE_ERR_PARAM before any command is sent. *)
Theorem ice_read_sr_word_aq_one_command (hw : nvm_hw) (offset : Z) (t : nvm_trace) :
  0 < ICE_AQ_MAX_BUF_LEN < 2 ^ 16 -> ICE_AQ_MAX_BUF_LEN mod 2 = 0 ->
  2 ^ 17 <= ICE_AQC_NVM_MAX_OFFSET < 2 ^ 24 -> ICE_ERR_PARAM <> 0 ->
  0 <= offset < 2 ^ 16 -> 0 <= sr_words hw < 2 ^ 31 ->
  (offset < sr_words hw ->
   ice_read_sr_word_aq hw offset t =
     let cmd := single_read_cmd true (offset * 2) 2 in
     let '(status, rc, payload) := nv_aq_nvm_read (nvm_dev hw) t cmd in
     let b0 := u8 (payload 0%nat) in
     let b1 := u8 (payload 1%nat) in
     Some ((if failed status then (status, 0) else (0, u16 (b0 + 256 * b1))),
           t ++ [NvAqRead cmd 2 status rc [b0; b1]])) /\
  (sr_words hw <= offset ->
   ice_read_sr_word_aq hw offset t = Some ((ICE_ERR_PARAM, 0), t)).
Proof.
  intros Hbuf Heven Hmax Hparam Hoff Hsr.
  split; intros Hin.
  - apply ice_read_sr_word_aq_inside; assumption.
  - unfold ice_read_sr_word_aq. rewrite (u16_small offset), (u32_small (offset * 2)) by lia.
    unfold ice_read_flat_nvm, nvm_bind.
    rewrite !u32_small by lia. cbn [andb].
    destruct (Z.gtb_spec (offset * 2 + 2) (sr_words hw * 2)); [|lia].
    cbn [nvm_ret]. rewrite failed_param by exact Hparam. reflexivity.
Qed.

End FlatNvm.

(** ** The size of the flash *)

Section FlashSize.
Context {nvm_defs : NvmDefs}.

Lemma sq_last_status_read hw t c buf_size status rc bytes :
  sq_last_status hw (t ++ [NvAqRead c buf_size status rc bytes]) = rc.
Proof. unfold sq_last_status. rewrite fold_left_app. reflexivity. Qed.

Lemma only_reads_cons e evs :
  is_nvm_read e = true -> only_reads evs -> only_reads (e :: evs).
Proof. intros He H. unfold only_reads. cbn [forallb]. rewrite He. exact H. Qed.

Lemma pow2_half (k : nat) x :
  0 <= x <= 2 ^ Z.of_nat (S k) -> (x + 1) / 2 <= 2 ^ Z.of_nat k.
Proof.
  intros Hx. rewrite Nat2Z.inj_succ, Z.pow_succ_r in Hx by lia.
  pose proof (Z.div_mod (x + 1) 2). pose proof (Z.mod_pos_bound (x + 1) 2). lia.
Qed.

(** The bisection keeps the size of the flash between its bounds, and its
    interval is halved in each round. *)
Lemma ice_discover_flash_size_loop_shape (rounds : nat) :
  forall hw min_size max_size status t,
  0 < ICE_AQ_MAX_BUF_LEN < 2 ^ 16 -> 0 <= ICE_AQC_NVM_MAX_OFFSET < 2 ^ 24 ->
  0 <= min_size < max_size -> max_size <= ICE_AQC_NVM_MAX_OFFSET + 1 ->
  max_size - min_size <= 2 ^ Z.of_nat rounds ->
  exists r evs,
    ice_discover_flash_size_loop (S rounds) hw min_size max_size status t =
      Some (r, t ++ evs) /\
    only_reads evs /\ (length evs <= rounds)%nat /\
    (forall size, flash_of_size (nvm_dev hw) size -> ICE_ERR_AQ_ERROR <> 0 ->
       min_size < size <= max_size -> status = 0 -> r = (0, Some size)).
Proof.
  induction rounds as [|rounds IH];
    intros hw lo hi status t Hbuf Hmax Hlo Hhi Hwidth.
  { cbn [ice_discover_flash_size_loop]. rewrite u32_small by lia.
    cbn in Hwidth. destruct (Z.gtb_spec (hi - lo) 1); [lia|].
    exists (status, Some hi), []. rewrite app_nil_r.
    repeat split; auto. intros size _ _ Hsize ->. f_equal. f_equal. lia. }
  remember (S rounds) as n eqn:En. cbn [ice_discover_flash_size_loop].
  rewrite u32_small by lia.
  destruct (Z.gtb_spec (hi - lo) 1) as [Hwide|Hnarrow].
  2:{ exists (status, Some hi), []. rewrite app_nil_r.
      repeat split; auto; [cbn; lia|].
      intros size _ _ Hsize ->. f_equal. f_equal. lia. }
  rewrite (u32_small (hi + lo)) by lia.
  set (offset := (hi + lo) / 2).
  assert (Hoffset : lo < offset < hi).
  { unfold offset. pose proof (Z.div_mod (hi + lo) 2).
    pose proof (Z.mod_pos_bound (hi + lo) 2). lia. }
  unfold nvm_bind at 1.
  rewrite ice_read_flat_nvm_single; try assumption; try lia; try reflexivity.
  2:{ pose proof (Z.mod_pos_bound offset ICE_AQ_MAX_BUF_LEN (proj1 Hbuf)). lia. }
  destruct (nv_aq_nvm_read (nvm_dev hw) t (single_read_cmd false offset 1))
    as [[st rc] payload] eqn:Eread.
  cbv zeta. set (e := NvAqRead _ 1 st rc _).
  unfold nvm_bind at 1, read_sq_last_status at 1.
  unfold e at 1. rewrite sq_last_status_read. fold e.
  assert (Hwlo : offset - lo <= 2 ^ Z.of_nat rounds).
  { subst n. apply Z.le_trans with ((hi - lo + 1) / 2); [|apply pow2_half; lia].
    unfold offset. pose proof (Z.div_mod (hi + lo) 2).
    pose proof (Z.mod_pos_bound (hi + lo) 2).
    pose proof (Z.div_mod (hi - lo + 1) 2).
    pose proof (Z.mod_pos_bound (hi - lo + 1) 2). lia. }
  assert (Hwhi : hi - offset <= 2 ^ Z.of_nat rounds).
  { subst n. apply Z.le_trans with ((hi - lo + 1) / 2); [|apply pow2_half; lia].
    unfold offset. pose proof (Z.div_mod (hi + lo) 2).
    pose proof (Z.mod_pos_bound (hi + lo) 2).
    pose proof (Z.div_mod (hi - lo + 1) 2).
    pose proof (Z.mod_pos_bound (hi - lo + 1) 2). lia. }
  assert (Hflash : forall size, flash_of_size (nvm_dev hw) size ->
            (offset < size -> st = 0) /\
            (size <= offset -> st = ICE_ERR_AQ_ERROR /\ rc = ICE_AQ_RC_EINVAL)).
  { intros size Hf. specialize (Hf t (single_read_cmd false offset 1)).
    rewrite Eread in Hf.
    replace (cmd_offset (single_read_cmd false offset 1)) with offset in Hf; [exact Hf|].
    unfold cmd_offset, single_read_cmd. cbn [offset_low offset_high].
    pose proof (Z.div_mod offset (2 ^ 16)). lia. }
  destruct ((st =? ICE_ERR_AQ_ERROR) && (rc =? ICE_AQ_RC_EINVAL)) eqn:Eup.
  { apply andb_prop in Eup. destruct Eup as [Est Erc].
    apply Z.eqb_eq in Est, Erc.
    subst n.
    destruct (IH hw lo offset 0 (t ++ [e])) as (r & evs & Erun & Hreads & Hcount & Hsize);
      try assumption; try lia.
    exists r, (e :: evs). rewrite <- app_assoc in Erun.
    split; [exact Erun|]. split; [apply only_reads_cons; [reflexivity | exact Hreads]|].
    split; [cbn [length]; lia|].
    intros size Hf Herr Hin Hs. apply Hsize; auto.
    destruct (Hflash size Hf) as [Hbelow _].
    destruct (Z_lt_le_dec offset size) as [Hlt|Hge]; [|lia].
    specialize (Hbelow Hlt). congruence. }
  destruct (failed st) eqn:Ef; cbn [negb].
  { apply failed_true in Ef.
    exists (st, None), [e]. split; [reflexivity|].
    split; [reflexivity|]. split; [cbn [length]; lia|].
    intros size Hf Herr Hin Hs. exfalso.
    destruct (Hflash size Hf) as [Hbelow Habove].
    destruct (Z_lt_le_dec offset size) as [Hlt|Hge].
    - apply Ef, Hbelow, Hlt.
    - destruct (Habove Hge) as [-> ->]. rewrite !Z.eqb_refl in Eup. discriminate. }
  apply failed_false in Ef. subst st. subst n.
  destruct (IH hw offset hi 0 (t ++ [e])) as (r & evs & Erun & Hreads & Hcount & Hsize);
    try assumption; try lia.
  exists r, (e :: evs). rewrite <- app_assoc in Erun.
  split; [exact Erun|]. split; [apply only_reads_cons; [reflexivity | exact Hreads]|].
  split; [cbn [length]; lia|].
  intros size Hf Herr Hin Hs. apply Hsize; auto.
  destruct (Hflash size Hf) as [_ Habove].
  destruct (Z_lt_le_dec offset size) as [Hlt|Hge]; [lia|].
  destruct (Habove Hge) as [E _]. congruence.
Qed.

End FlashSize.

(** ** Ownership of the NVM, and the size of the flash *)

Section NvmOwnership.
Context {nvm_defs : NvmDefs}.

Lemma only_reads_not_owner evs :
  only_reads evs -> forallb not_owner_event evs = true.
Proof.
  unfold only_reads. induction evs as [|e evs IH]; [reflexivity|].
  cbn [forallb]. intros H. apply andb_prop in H. destruct H as [He H].
  rewrite (IH H), andb_true_r. destruct e; try discriminate He. reflexivity.
Qed.

Lemma flat_chunks_only_reads shadow evs :
  forall from to, flat_chunks shadow from to evs -> only_reads evs.
Proof.
  induction evs as [|e evs IH]; intros from to H; [reflexivity|].
  cbn [flat_chunks] in H. destruct H as (status & rc & bytes & -> & _ & _ & H).
  apply only_reads_cons; [reflexivity | eapply IH, H].
Qed.

(** ice_read_sr_word_aq always returns, and sends read commands only. *)
Lemma ice_read_sr_word_aq_reads hw offset t :
  0 < ICE_AQ_MAX_BUF_LEN < 2 ^ 16 -> ICE_AQC_NVM_MAX_OFFSET < 2 ^ 24 ->
  ICE_ERR_PARAM <> 0 ->
  exists r evs,
    ice_read_sr_word_aq hw offset t = Some (r, t ++ evs) /\ only_reads evs.
Proof.
  intros Hbuf Hmax Hparam. unfold ice_read_sr_word_aq, ice_read_flat_nvm.
  destruct (true && _).
  { unfold nvm_bind, nvm_ret. rewrite failed_param by exact Hparam.
    eexists _, []. rewrite app_nil_r. split; reflexivity. }
  pose proof (u16_range offset) as H16.
  assert (Hoff : 0 <= u32 (u16 offset * 2) < 2 ^ 18).
  { rewrite u32_small by lia. lia. }
  destruct (ice_read_flat_nvm_loop_shape (S (Z.to_nat 2)) hw (u32 (u16 offset * 2))
              2 0 [0; 0] true t)
    as (status & n & data' & evs & Erun & Hchunks & _);
    try assumption; try lia; [cbn; lia|].
  unfold nvm_bind. rewrite Erun.
  destruct (failed status); eexists _, evs;
    (split; [reflexivity | eapply flat_chunks_only_reads, Hchunks]).
Qed.

Lemma only_reads_app a b : only_reads a -> only_reads b -> only_reads (a ++ b).
Proof. unfold only_reads. intros Ha Hb. rewrite forallb_app, Ha, Hb. reflexivity. Qed.

(** X4: the NVM is requested before and released after the work of
    ice_read_sr_word, ice_nvm_validate_checksum and ice_discover_flash_size,
    and neither happens in between; when the request is refused they return
    its status and send nothing else; in blank NVM mode they neither
    request nor release.  All three always return. *)
Theorem nvm_ownership_discipline (hw : nvm_hw) (t : nvm_trace) :
  0 < ICE_AQ_MAX_BUF_LEN < 2 ^ 16 -> 0 <= ICE_AQC_NVM_MAX_OFFSET < 2 ^ 24 ->
  ICE_ERR_PARAM <> 0 ->
  (forall offset, exists status word evs,
     ice_read_sr_word hw offset t = Some ((status, word), t ++ evs) /\
     nvm_owned_section hw status evs) /\
  (exists status evs,
     ice_nvm_validate_checksum hw t = Some (status, t ++ evs) /\
     nvm_owned_section hw status evs) /\
  (exists status flash_size evs,
     ice_discover_flash_size hw t = Some ((status, flash_size), t ++ evs) /\
     nvm_owned_section hw status evs).
Proof.
  intros Hbuf Hmax Hparam.
  unfold nvm_owned_section, ice_read_sr_word, ice_nvm_validate_checksum,
    ice_discover_flash_size, ice_acquire_nvm, ice_release_nvm.
  destruct (blank_nvm_mode hw).
  - (* blank NVM mode *)
    split; [intros offset | split].
    + unfold nvm_bind at 1. cbn [nvm_ret failed Z.eqb negb].
      destruct (ice_read_sr_word_aq_reads hw offset t) as ([st w] & evs & E & Hr);
        try assumption; try lia.
      unfold nvm_bind. rewrite E. cbn [nvm_ret].
      exists st, w, evs. split; [reflexivity | apply only_reads_not_owner, Hr].
    + unfold nvm_bind at 1. cbn [nvm_ret failed Z.eqb negb].
      unfold nvm_bind, ice_aq_send_cmd_nvm_checksum.
      destruct (nv_aq_nvm_checksum (nvm_dev hw) t _) as [[st rc] sum].
      cbn [nvm_ret].
      destruct (failed st); cbn [negb];
        [|destruct (_ =? _); cbn [negb]]; eexists _, [_];
        (split; [reflexivity | reflexivity]).
    + unfold nvm_bind at 1. cbn [nvm_ret failed Z.eqb negb].
      rewrite u32_small by lia.
      destruct (ice_discover_flash_size_loop_shape 32 hw 0
                  (ICE_AQC_NVM_MAX_OFFSET + 1) 0 t)
        as ([st sz] & evs & E & Hr & _); try assumption; try lia.
      unfold nvm_bind. rewrite E. cbn [nvm_ret].
      exists st, sz, evs. split; [reflexivity | apply only_reads_not_owner, Hr].
  - unfold ice_acquire_res, ice_release_res.
    destruct (nv_acquire_res (nvm_dev hw) t ICE_NVM_RES_ID ICE_RES_READ ICE_NVM_TIMEOUT)
      as [acq rc] eqn:Eacq.
    set (e := NvAcquireRes ICE_NVM_RES_ID ICE_RES_READ ICE_NVM_TIMEOUT acq rc).
    split; [intros offset | split].
    + unfold nvm_bind at 1. rewrite Eacq. fold e.
      destruct (failed acq) eqn:Ef; cbn [negb].
      { apply failed_true in Ef. exists acq, 0, [e]. split; [reflexivity|].
        exists acq, rc. left. auto. }
      apply failed_false in Ef. subst acq.
      destruct (ice_read_sr_word_aq_reads hw offset (t ++ [e])) as ([st w] & evs & E & Hr);
        try assumption; try lia.
      unfold nvm_bind. rewrite E. cbn [nvm_ret].
      eexists st, w, (e :: evs ++ [_]). rewrite <- !app_assoc.
      split; [reflexivity|]. exists 0, rc. right. split; [reflexivity|].
      eexists evs, _. split; [reflexivity | apply only_reads_not_owner, Hr].
    + unfold nvm_bind at 1. rewrite Eacq. fold e.
      destruct (failed acq) eqn:Ef.
      { apply failed_true in Ef. exists acq, [e]. split; [reflexivity|].
        exists acq, rc. left. auto. }
      apply failed_false in Ef. subst acq.
      unfold nvm_bind, ice_aq_send_cmd_nvm_checksum.
      destruct (nv_aq_nvm_checksum (nvm_dev hw) (t ++ [e]) _) as [[st rc2] sum].
      cbn [nvm_ret].
      destruct (failed st); cbn [negb];
        [|destruct (_ =? _); cbn [negb]]; eexists _, (e :: [_] ++ [_]);
        rewrite <- !app_assoc;
        (split; [reflexivity|]); exists 0, rc; right; (split; [reflexivity|]);
        eexists [_], _; (split; [reflexivity | reflexivity]).
    + unfold nvm_bind at 1. rewrite Eacq. fold e.
      destruct (failed acq) eqn:Ef.
      { apply failed_true in Ef. exists acq, None, [e]. split; [reflexivity|].
        exists acq, rc. left. auto. }
      apply failed_false in Ef. subst acq.
      rewrite u32_small by lia.
      destruct (ice_discover_flash_size_loop_shape 32 hw 0
                  (ICE_AQC_NVM_MAX_OFFSET + 1) 0 (t ++ [e]))
        as ([st sz] & evs & E & Hr & _); try assumption; try lia.
      unfold nvm_bind. rewrite E. cbn [nvm_ret].
      eexists st, sz, (e :: evs ++ [_]). rewrite <- !app_assoc.
      split; [reflexivity|]. exists 0, rc. right. split; [reflexivity|].
      eexists evs, _. split; [reflexivity | apply only_reads_not_owner, Hr].
Qed.

(** X5: on a flash of [size] bytes, that is on a device that answers the
    reads that start below [size] and rejects the others with EINVAL, the
    bisection of ice_discover_flash_size finds [size]: it returns success
    and stores [size] in hw->nvm.flash_size, after at most 32 reads of one
    byte.  If the NVM cannot be acquired the status of the request is
    returned, nothing is read and no size is stored. *)
Theorem ice_discover_flash_size_bisection (hw : nvm_hw) (size : Z) (t : nvm_trace) :
  0 < ICE_AQ_MAX_BUF_LEN < 2 ^ 16 -> 0 <= ICE_AQC_NVM_MAX_OFFSET < 2 ^ 24 ->
  ICE_ERR_AQ_ERROR <> 0 ->
  flash_of_size (nvm_dev hw) size -> 1 <= size <= ICE_AQC_NVM_MAX_OFFSET + 1 ->
  exists status flash_size evs,
    ice_discover_flash_size hw t = Some ((status, flash_size), t ++ evs) /\
    (length (filter is_nvm_read evs) <= 32)%nat /\
    ((status = 0 /\ flash_size = Some size) \/
     (status <> 0 /\ flash_size = None /\ filter is_nvm_read evs = [] /\
      blank_nvm_mode hw = false /\
      fst (nv_acquire_res (nvm_dev hw) t ICE_NVM_RES_ID ICE_RES_READ ICE_NVM_TIMEOUT)
        = status)).
Proof.
  intros Hbuf Hmax Herr Hflash Hsize.
  assert (Hfilter : forall evs, only_reads evs -> filter is_nvm_read evs = evs).
  { intros evs H. apply forallb_filter_id, H. }
  unfold ice_discover_flash_size, ice_acquire_nvm, ice_release_nvm.
  rewrite u32_small by lia.
  destruct (blank_nvm_mode hw) eqn:Eblank.
  - unfold nvm_bind at 1. cbn [nvm_ret failed Z.eqb negb].
    destruct (ice_discover_flash_size_loop_shape 32 hw 0
                (ICE_AQC_NVM_MAX_OFFSET + 1) 0 t)
      as (r & evs & E & Hr & Hcount & Hfound); try assumption; try lia.
    rewrite (Hfound size) in E by (auto; lia).
    unfold nvm_bind. rewrite E. cbn [nvm_ret].
    exists 0, (Some size), evs. split; [reflexivity|].
    rewrite (Hfilter _ Hr). split; [exact Hcount | left; auto].
  - unfold ice_acquire_res, ice_release_res.
    destruct (nv_acquire_res (nvm_dev hw) t ICE_NVM_RES_ID ICE_RES_READ ICE_NVM_TIMEOUT)
      as [acq rc] eqn:Eacq.
    unfold nvm_bind at 1. rewrite Eacq.
    destruct (failed acq) eqn:Ef.
    { apply failed_true in Ef. eexists acq, None, [_]. split; [reflexivity|].
      cbn. split; [lia|]. right. auto. }
    apply failed_false in Ef. subst acq.
    set (e := NvAcquireRes _ _ _ 0 rc).
    destruct (ice_discover_flash_size_loop_shape 32 hw 0
                (ICE_AQC_NVM_MAX_OFFSET + 1) 0 (t ++ [e]))
      as (r & evs & E & Hr & Hcount & Hfound); try assumption; try lia.
    rewrite (Hfound size) in E by (auto; lia).
    unfold nvm_bind. rewrite E. cbn [nvm_ret].
    eexists 0, (Some size), (e :: evs ++ [_]). rewrite <- !app_assoc.
    split; [reflexivity|].
    cbn [filter is_nvm_read e]. rewrite filter_app, (Hfilter _ Hr).
    cbn [filter is_nvm_read]. rewrite app_nil_r. split; [exact Hcount | left; auto].
Qed.

End NvmOwnership.

(** ** NVM access requests *)

Section NvmAccess.
Context {nvm_defs : NvmDefs}.

Lemma offset_in_array_spec offset reg max :
  offset_in_array offset reg max = true ->
  exists i, 0 <= i <= max /\ offset = u32 (reg i).
Proof.
  unfold offset_in_array. intros H. apply existsb_exists in H.
  destruct H as (i & Hin & Heq). apply in_seq in Hin. apply Z.eqb_eq in Heq.
  exists (Z.of_nat i). split; [lia | exact Heq].
Qed.

Lemma ice_validate_nvm_rw_reg_ok cmd :
  ICE_ERR_PARAM <> 0 -> ICE_ERR_OUT_OF_RANGE <> 0 ->
  ice_validate_nvm_rw_reg cmd = 0 ->
  nvm_rw_reg_allowed (acc_offset cmd) /\
  ice_nvm_access_get_module cmd = ICE_NVM_REG_RW_MODULE /\
  ice_nvm_access_get_flags cmd = ICE_NVM_REG_RW_FLAGS /\
  data_size cmd = sizeof_regval.
Proof.
  intros Hparam Hrange. unfold ice_validate_nvm_rw_reg.
  destruct (Z.eqb_spec (ice_nvm_access_get_module cmd) ICE_NVM_REG_RW_MODULE) as [Em|];
    cbn [negb orb]; [|contradiction].
  destruct (Z.eqb_spec (ice_nvm_access_get_flags cmd) ICE_NVM_REG_RW_FLAGS) as [Efl|];
    cbn [negb orb]; [|contradiction].
  destruct (Z.eqb_spec (data_size cmd) sizeof_regval) as [Esz|];
    cbn [negb orb]; [|contradiction].
  unfold nvm_rw_reg_allowed.
  destruct (existsb (Z.eqb (acc_offset cmd)) nvm_rw_reg_cases) eqn:Ecase.
  { intros _. split; [|auto]. left. apply existsb_exists in Ecase.
    destruct Ecase as (x & Hin & Heq). apply Z.eqb_eq in Heq. subst x. exact Hin. }
  destruct (offset_in_array _ GL_HIDA _) eqn:Ehida.
  { intros _. split; [|auto]. right. left. apply offset_in_array_spec, Ehida. }
  destruct (offset_in_array _ GL_HIBA _) eqn:Ehiba.
  { intros _. split; [|auto]. right. right. apply offset_in_array_spec, Ehiba. }
  contradiction.
Qed.

(** X6: a request handled by ice_handle_nvm_access touches at most one
    register, and only one of the registers an NVM access may name: the
    ten listed ones and the GL_HIDA and GL_HIBA arrays.  A register is
    read only for a read command, and written only for a write command,
    with the value supplied, and never GL_HICR_EN or GLGEN_RSTAT; in both
    cases the request names the register module and flags, a data size of
    one register, no extended flags and the device id of the adapter.
    Every other request touches no register. *)
Theorem ice_handle_nvm_access_registers
    (hw : nvm_hw) (cmd : ice_nvm_access_cmd) (regval : Z) (t : nvm_trace) :
  ICE_ERR_PARAM <> 0 -> ICE_ERR_OUT_OF_RANGE <> 0 ->
  exists status out evs,
    ice_handle_nvm_access hw cmd regval t = Some ((status, out), t ++ evs) /\
    (evs = [] \/
     ((exists v, evs = [NvRd32 (acc_offset cmd) v] /\
                 out = DataRegval (data_size cmd) v /\
                 command cmd = ICE_NVM_CMD_READ) \/
      (evs = [NvWr32 (acc_offset cmd) (u32 regval)] /\
       out = DataUntouched /\
       command cmd = ICE_NVM_CMD_WRITE /\
       acc_offset cmd <> GL_HICR_EN /\ acc_offset cmd <> GLGEN_RSTAT)) /\
     status = 0 /\
     nvm_rw_reg_allowed (acc_offset cmd) /\
     ice_nvm_access_get_module cmd = ICE_NVM_REG_RW_MODULE /\
     ice_nvm_access_get_flags cmd = ICE_NVM_REG_RW_FLAGS /\
     data_size cmd = sizeof_regval /\
     Z.land (config cmd) ICE_NVM_CFG_EXT_FLAGS_M = 0 /\
     ice_nvm_access_get_adapter cmd = device_id hw).
Proof.
  intros Hparam Hrange. unfold ice_handle_nvm_access.
  destruct (Z.eqb_spec (Z.land (config cmd) ICE_NVM_CFG_EXT_FLAGS_M) 0) as [Eext|];
    cbn [negb].
  2:{ eexists _, _, []. rewrite app_nil_r. split; [reflexivity | left; reflexivity]. }
  destruct (Z.eqb_spec (ice_nvm_access_get_adapter cmd) (device_id hw)) as [Ead|];
    cbn [negb].
  2:{ eexists _, _, []. rewrite app_nil_r. split; [reflexivity | left; reflexivity]. }
  destruct (Z.eqb_spec (command cmd) ICE_NVM_CMD_READ) as [Erd|_].
  { destruct (_ && _ && _).
    { destruct (ice_nvm_access_get_features cmd) as [st out].
      exists st, out, []. rewrite app_nil_r. split; [reflexivity | left; reflexivity]. }
    unfold ice_nvm_access_read.
    destruct (failed (ice_validate_nvm_rw_reg cmd)) eqn:Ef.
    { eexists _, _, []. rewrite app_nil_r. split; [reflexivity | left; reflexivity]. }
    apply failed_false in Ef.
    destruct (ice_validate_nvm_rw_reg_ok cmd Hparam Hrange Ef) as (Hal & Hm & Hf & Hs).
    unfold nvm_bind, nvm_rd32, nvm_ret.
    eexists 0, _, [_]. split; [reflexivity|]. right.
    split; [left; eexists; repeat split; auto|]. repeat split; auto. }
  destruct (Z.eqb_spec (command cmd) ICE_NVM_CMD_WRITE) as [Ewr|_].
  2:{ eexists _, _, []. rewrite app_nil_r. split; [reflexivity | left; reflexivity]. }
  unfold ice_nvm_access_write.
  destruct (failed (ice_validate_nvm_rw_reg cmd)) eqn:Ef.
  { eexists _, _, []. rewrite app_nil_r. split; [reflexivity | left; reflexivity]. }
  apply failed_false in Ef.
  destruct (ice_validate_nvm_rw_reg_ok cmd Hparam Hrange Ef) as (Hal & Hm & Hf & Hs).
  cbn [existsb].
  destruct (Z.eqb_spec (acc_offset cmd) GL_HICR_EN) as [|Hne1]; cbn [orb].
  { eexists _, _, []. rewrite app_nil_r. split; [reflexivity | left; reflexivity]. }
  destruct (Z.eqb_spec (acc_offset cmd) GLGEN_RSTAT) as [|Hne2]; cbn [orb].
  { eexists _, _, []. rewrite app_nil_r. split; [reflexivity | left; reflexivity]. }
  unfold nvm_bind, nvm_wr32, nvm_ret.
  eexists 0, _, [_]. split; [reflexivity|]. right.
  split; [right; repeat split; auto|]. repeat split; auto.
Qed.

End NvmAccess.

(** ** The NVM theorems on a flash of one megabyte *)

(** The byte at offset [i] of the sample flash is [i mod 251]. *)
Lemma ice_read_flat_nvm_pieces_witness :
  let hw := SampleNvm.hw_of 0x8000
              (SampleNvm.flash_dev 0x100000 (fun i => i mod 251) (fun _ => 0)) in
  exists status bytes_read data' evs,
    ice_read_flat_nvm (nvm_defs := SampleNvm.defs) hw 4090 10 (repeat 0 10) true [] =
      Some ((status, bytes_read, data'), [] ++ evs) /\
    flat_chunks (nvm_defs := SampleNvm.defs) true 4090 (4090 + 10) evs /\
    bytes_read = Z.of_nat (length (ok_payload evs)) /\
    firstn (Z.to_nat bytes_read) data' = ok_payload evs /\
    length data' = length (repeat 0 10) /\
    (status = 0 -> bytes_read = 10).
Proof.
  intros hw.
  apply (ice_read_flat_nvm_pieces (nvm_defs := SampleNvm.defs) hw 4090 10
           (repeat 0 10) true []); cbn; lia.
Defined.

(** Ten bytes from offset 4090 on: six bytes up to the end of the first
    sector, then four bytes with the mark of the last command. *)
Example ice_read_flat_nvm_two_pieces :
  let hw := SampleNvm.hw_of 0x8000
              (SampleNvm.flash_dev 0x100000 (fun i => i mod 251) (fun _ => 0)) in
  ice_read_flat_nvm (nvm_defs := SampleNvm.defs) hw 4090 10 (repeat 0 10) true [] =
    Some ((0, 10, [74; 75; 76; 77; 78; 79; 80; 81; 82; 83]),
          [NvAqRead (mk_aqc_nvm 4090 0 0 0 6) 6 0 0 [74; 75; 76; 77; 78; 79];
           NvAqRead (mk_aqc_nvm 4096 0 1 0 4) 4 0 0 [80; 81; 82; 83]]).
Proof. vm_compute. reflexivity. Qed.

Lemma ice_read_flat_nvm_within_sector_witness :
  let hw := SampleNvm.hw_of 0x8000
              (SampleNvm.flash_dev 0x100000 (fun i => i mod 251) (fun _ => 0)) in
  exists r evs,
    ice_read_flat_nvm (nvm_defs := SampleNvm.defs) hw 4090 10 (repeat 0 10) true [] =
      Some (r, [] ++ evs) /\
    Forall (within_sector (nvm_defs := SampleNvm.defs)) evs /\
    (true = true -> 4090 + 10 < 2 ^ 32 -> Forall (reads_below (0x8000 * 2)) evs).
Proof.
  intros hw.
  apply (ice_read_flat_nvm_within_sector (nvm_defs := SampleNvm.defs) hw 4090 10
           (repeat 0 10) true []); cbn; lia.
Defined.

(** A Shadow RAM of 0x8000 words ends at byte 0x10000.  A read of
    0xFFFF0001 bytes from there on passes the length check, the u32 sum
    being 1, and its first command asks for the sector that starts at
    0x10000. *)
Lemma ice_read_flat_nvm_wrapped_sum_witness :
  let hw := SampleNvm.hw_of 0x8000
              (SampleNvm.flash_dev 0x100000 (fun i => i mod 251) (fun _ => 0)) in
  let data := repeat 0 (Z.to_nat 0xFFFF0001) in
  exists r status rc bytes evs,
    ice_read_flat_nvm (nvm_defs := SampleNvm.defs) hw 0x10000 0xFFFF0001 data true [] =
      Some (r, [] ++ NvAqRead (flat_read_cmd (nvm_defs := SampleNvm.defs) true 0x10000
                                 (0x10000 + 0xFFFF0001))
                       (chunk_len (nvm_defs := SampleNvm.defs) 0x10000
                          (0x10000 + 0xFFFF0001)) status rc bytes :: evs).
Proof.
  intros hw data.
  apply (ice_read_flat_nvm_wrapped_sum (nvm_defs := SampleNvm.defs) hw 0x10000
           0xFFFF0001 data []).
  - change (0 < 4096 < 2 ^ 16). lia.
  - change (0xFFFFFF < 2 ^ 24). lia.
  - change (-1 <> 0). lia.
  - change (0 <= 0x10000 <= 0xFFFFFF). lia.
  - lia.
  - change (0 <= 0x8000 < 2 ^ 31). lia.
  - unfold data. rewrite repeat_length. apply Nat.le_refl.
  - lia.
  - change (0x10000 + 0xFFFF0001 - 2 ^ 32 <= 0x8000 * 2). lia.
Defined.

(** The command is the read of 4096 bytes at offset 0x10000, the first
    byte beyond the Shadow RAM. *)
Example ice_read_flat_nvm_wrapped_sum_command :
  flat_read_cmd (nvm_defs := SampleNvm.defs) true 0x10000 (0x10000 + 0xFFFF0001)
    = mk_aqc_nvm 0 1 0 0 4096 /\
  chunk_len (nvm_defs := SampleNvm.defs) 0x10000 (0x10000 + 0xFFFF0001) = 4096.
Proof. vm_compute. split; reflexivity. Qed.

Lemma ice_read_sr_word_aq_one_command_witness :
  let hw := SampleNvm.hw_of 0x8000
              (SampleNvm.flash_dev 0x100000 (fun i => i mod 251) (fun _ => 0)) in
  ice_read_sr_word_aq (nvm_defs := SampleNvm.defs) hw 0x7FF [] =
    Some ((0, 0x4F4E),
          [NvAqRead (mk_aqc_nvm 0xFFE 0 1 0 2) 2 0 0 [78; 79]]) /\
  ice_read_sr_word_aq (nvm_defs := SampleNvm.defs) hw 0x8000 [] = Some ((-1, 0), []).
Proof.
  intros hw.
  destruct (ice_read_sr_word_aq_one_command (nvm_defs := SampleNvm.defs) hw 0x7FF [])
    as [Hin _]; try (cbn; lia).
  destruct (ice_read_sr_word_aq_one_command (nvm_defs := SampleNvm.defs) hw 0x8000 [])
    as [_ Hout]; try (cbn; lia).
  split; [rewrite Hin by (cbn; lia) | rewrite Hout by (cbn; lia)]; reflexivity.
Defined.

Lemma nvm_ownership_discipline_witness :
  let hw := SampleNvm.hw_of 0x8000 (SampleNvm.refusing_dev (-7)) in
  (forall offset, exists status word evs,
     ice_read_sr_word (nvm_defs := SampleNvm.defs) hw offset [] =
       Some ((status, word), [] ++ evs) /\
     nvm_owned_section (nvm_defs := SampleNvm.defs) hw status evs) /\
  (exists status evs,
     ice_nvm_validate_checksum (nvm_defs := SampleNvm.defs) hw [] = Some (status, [] ++ evs) /\
     nvm_owned_section (nvm_defs := SampleNvm.defs) hw status evs) /\
  (exists status flash_size evs,
     ice_discover_flash_size (nvm_defs := SampleNvm.defs) hw [] =
       Some ((status, flash_size), [] ++ evs) /\
     nvm_owned_section (nvm_defs := SampleNvm.defs) hw status evs).
Proof.
  intros hw.
  apply (nvm_ownership_discipline (nvm_defs := SampleNvm.defs) hw []); cbn; lia.
Defined.

(** A word read frames its one command by the request and the release;
    a refused request is all that happens. *)
Example ice_read_sr_word_owned :
  ice_read_sr_word (nvm_defs := SampleNvm.defs)
    (SampleNvm.hw_of 0x8000
       (SampleNvm.flash_dev 0x100000 (fun i => i mod 251) (fun _ => 0))) 0x7FF [] =
    Some ((0, 0x4F4E),
          [NvAcquireRes 1 1 180000 0 0;
           NvAqRead (mk_aqc_nvm 0xFFE 0 1 0 2) 2 0 0 [78; 79];
           NvReleaseRes 1 0]) /\
  ice_read_sr_word (nvm_defs := SampleNvm.defs)
    (SampleNvm.hw_of 0x8000 (SampleNvm.refusing_dev (-7))) 0x7FF [] =
    Some ((-7, 0), [NvAcquireRes 1 1 180000 (-7) 2]).
Proof. vm_compute. split; reflexivity. Qed.

Lemma sample_flash_of_size size content mmio :
  flash_of_size (nvm_defs := SampleNvm.defs) (SampleNvm.flash_dev size content mmio) size.
Proof.
  intros t c. cbn [SampleNvm.flash_dev nv_aq_nvm_read].
  destruct (Z.ltb_spec (cmd_offset c) size); split; intros; try lia; auto.
Qed.

Lemma ice_discover_flash_size_bisection_witness :
  let hw := SampleNvm.hw_of 0x8000
              (SampleNvm.flash_dev 0x100000 (fun i => i mod 251) (fun _ => 0)) in
  exists status flash_size evs,
    ice_discover_flash_size (nvm_defs := SampleNvm.defs) hw [] =
      Some ((status, flash_size), [] ++ evs) /\
    (length (filter is_nvm_read evs) <= 32)%nat /\
    ((status = 0 /\ flash_size = Some 0x100000) \/
     (status <> 0 /\ flash_size = None /\ filter is_nvm_read evs = [] /\
      blank_nvm_mode hw = false /\
      fst (nv_acquire_res (nvm_dev hw) [] 1 1 180000) = status)).
Proof.
  intros hw.
  apply (ice_discover_flash_size_bisection (nvm_defs := SampleNvm.defs) hw 0x100000 []);
    try (cbn; lia).
  apply sample_flash_of_size.
Defined.

(** Flashes of one megabyte, of 16 megabytes and of a single byte. *)
Example ice_discover_flash_size_samples :
  let run size :=
    match ice_discover_flash_size (nvm_defs := SampleNvm.defs)
            (SampleNvm.hw_of 0x8000
               (SampleNvm.flash_dev size (fun i => i mod 251) (fun _ => 0))) [] with
    | Some (r, evs) => Some (r, length (filter is_nvm_read evs))
    | None => None
    end in
  run 0x100000 = Some ((0, Some 0x100000), 24%nat) /\
  run 0x1000000 = Some ((0, Some 0x1000000), 24%nat) /\
  run 1 = Some ((0, Some 1), 24%nat) /\
  run 0xABCDE = Some ((0, Some 0xABCDE), 24%nat).
Proof. vm_compute. repeat split. Qed.

Lemma ice_handle_nvm_access_registers_witness :
  let hw := SampleNvm.hw_of 0x8000
              (SampleNvm.flash_dev 0x100000 (fun i => i mod 251) (fun _ => 7)) in
  let cmd := mk_nvm_access_cmd 0xC 0x15930100 0x00082040 4 in
  exists status out evs,
    ice_handle_nvm_access (nvm_defs := SampleNvm.defs) hw cmd 0xFFFFFFFF1 [] =
      Some ((status, out), [] ++ evs) /\
    (evs = [] \/
     ((exists v, evs = [NvRd32 0x00082040 v] /\ out = DataRegval 4 v /\ 0xC = 0xB) \/
      (evs = [NvWr32 0x00082040 (u32 0xFFFFFFFF1)] /\ out = DataUntouched /\
       0xC = 0xC /\ 0x00082040 <> 0x00082044 /\ 0x00082040 <> 0x000B8188)) /\
     status = 0 /\
     nvm_rw_reg_allowed (nvm_defs := SampleNvm.defs) 0x00082040 /\
     ice_nvm_access_get_module (nvm_defs := SampleNvm.defs) cmd = 0 /\
     ice_nvm_access_get_flags (nvm_defs := SampleNvm.defs) cmd = 1 /\
     4 = 4 /\ Z.land 0x15930100 0xF000 = 0 /\
     ice_nvm_access_get_adapter (nvm_defs := SampleNvm.defs) cmd = 0x1593).
Proof.
  intros hw cmd.
  apply (ice_handle_nvm_access_registers (nvm_defs := SampleNvm.defs) hw cmd
           0xFFFFFFFF1 []); cbn; lia.
Defined.

(** A write to GL_HICR goes through; writes to the read-only GL_HICR_EN and
    to a register outside the list are refused; a read of GLNVM_GENS
    returns the register; a request for another adapter is refused.  None
    of the refused requests touches a register. *)
Example ice_handle_nvm_access_samples :
  let hw := SampleNvm.hw_of 0x8000
              (SampleNvm.flash_dev 0x100000 (fun i => i mod 251) (fun _ => 7)) in
  let run command config offset :=
    ice_handle_nvm_access (nvm_defs := SampleNvm.defs) hw
      (mk_nvm_access_cmd command config offset 4) 0x55 [] in
  run 0xC 0x15930100 0x00082040 = Some ((0, DataUntouched), [NvWr32 0x00082040 0x55]) /\
  run 0xC 0x15930100 0x00082044 = Some ((-13, DataUntouched), []) /\
  run 0xC 0x15930100 0x00088810 = Some ((-13, DataUntouched), []) /\
  run 0xB 0x15930100 0x000B6100 = Some ((0, DataRegval 4 7), [NvRd32 0x000B6100 7]) /\
  run 0xB 0x15930100 0x00088810 = Some ((-13, DataCleared 4), []) /\
  run 0xC 0x15920100 0x00082040 = Some ((-1, DataUntouched), []).
Proof. vm_compute. repeat split. Qed.

(** * Further properties of the PTP hardware layer *)

Section LinkSpeed.
Context {defs : IceDefs}.

(** X7: ice_phy_get_speed_and_fec_e822 reads the link speed register once.
    When it succeeds, the speed it reports is one of the RS-FEC speeds
    exactly when the FEC mode it reports is RS-FEC, so the two outputs are
    never inconsistent; the FEC mode is the field of the register, the
    speed the one the serdes field selects.  It fails with the status of
    the read, or with -EIO for a serdes value that does not occur with the
    FEC mode. *)
Theorem ice_phy_get_speed_and_fec_e822_consistent (hw : ice_hw) (port : Z) :
  shape (ice_phy_get_speed_and_fec_e822 hw port)
    (fun r evs =>
       let '(status, link, fec) := r in
       exists s serdes,
         evs = [E_rd port P_REG_LINK_SPEED s serdes] /\
         (status = 0 ->
          s = 0 /\
          fec = P_REG_LINK_SPEED_FEC_MODE serdes /\
          serdes_link_spd fec (Z.land serdes P_REG_LINK_SPEED_SERDES_M) = Some link /\
          (rs_fec_speed link = true <-> fec = ICE_PTP_FEC_MODE_RS_FEC)) /\
         (status <> 0 ->
          (s <> 0 /\ status = s) \/
          (s = 0 /\ status = - EIO /\
           serdes_link_spd (P_REG_LINK_SPEED_FEC_MODE serdes)
             (Z.land serdes P_REG_LINK_SPEED_SERDES_M) = None))).
Proof.
  unfold ice_phy_get_speed_and_fec_e822.
  eapply shape_bind; [apply ice_read_phy_reg_e822_shape|].
  cbv beta. intros r e1 (s & v & -> & Hv & [[Hs ->] | [-> ->]]).
  { case_failed; [|contradiction]. shape_step. exists s, v.
    split; [reflexivity|]. split; [intros; contradiction | intros _; left; auto]. }
  cbn [failed Z.eqb negb].
  destruct (serdes_link_spd _ _) as [link|] eqn:Elink; shape_step; exists 0, v;
    (split; [reflexivity|]).
  - split; [|intros H; contradiction]. intros _.
    split; [reflexivity|]. split; [reflexivity|]. split; [exact Elink|].
    unfold serdes_link_spd in Elink.
    destruct (Z.eqb_spec (P_REG_LINK_SPEED_FEC_MODE v) ICE_PTP_FEC_MODE_RS_FEC) as [E|E];
      repeat match type of Elink with
             | (if ?b then _ else _) = _ => destruct b
             end;
      inversion Elink; subst link; cbn [rs_fec_speed];
      split; intros H; auto; try discriminate; contradiction.
  - split; [discriminate|]. intros _. right. auto.
Qed.

End LinkSpeed.

Section CguStateCases.
Context {defs : IceDefs}.

(** X8: ice_get_cgu_state asks the firmware at most once.  For a DPLL index
    out of range it returns INVALID without asking; if the query fails it
    returns INVALID; otherwise a reading with the lock bit set gives
    LOCKED_HO_ACQ when the holdover-ready bit is set and LOCKED when it is
    not, whatever the previous state was.  UNKNOWN is never returned. *)
Theorem ice_get_cgu_state_cases
    (hw : ice_hw) (dpll_idx : Z) (last_dpll_state : ice_cgu_state) (t : trace) :
  let reading := dev_aq_get_cgu_dpll_status (dev hw) t dpll_idx in
  let dpll_state := u16 (aq_dpll_state reading) in
  let run := ice_get_cgu_state hw dpll_idx last_dpll_state t in
  let state := fst (fst (fst run)) in
  state <> ICE_CGU_STATE_UNKNOWN /\
  (ICE_CGU_DPLL_MAX <= dpll_idx ->
   state = ICE_CGU_STATE_INVALID /\ snd run = t) /\
  (dpll_idx < ICE_CGU_DPLL_MAX ->
   snd run = t ++ [EvAq dpll_idx (aq_status reading)] /\
   (aq_status reading <> 0 -> state = ICE_CGU_STATE_INVALID) /\
   (aq_status reading = 0 ->
    state <> ICE_CGU_STATE_INVALID /\
    (Z.land dpll_state ICE_AQC_GET_CGU_DPLL_STATUS_STATE_LOCK <> 0 ->
     (Z.land dpll_state ICE_AQC_GET_CGU_DPLL_STATUS_STATE_HO_READY <> 0 ->
      state = ICE_CGU_STATE_LOCKED_HO_ACQ) /\
     (Z.land dpll_state ICE_AQC_GET_CGU_DPLL_STATUS_STATE_HO_READY = 0 ->
      state = ICE_CGU_STATE_LOCKED)))).
Proof.
  cbv zeta. unfold ice_get_cgu_state, ice_aq_get_cgu_dpll_status, bind, ret.
  destruct (Z.geb_spec dpll_idx ICE_CGU_DPLL_MAX) as [Hout|Hin].
  { cbn [fst snd]. split; [discriminate|]. split; [auto | lia]. }
  set (reading := dev_aq_get_cgu_dpll_status (dev hw) t dpll_idx).
  split; [|split; [lia|intros _]].
  - destruct (failed _); [cbn; discriminate|].
    repeat match goal with
           | |- context [negb ?b] => destruct b; cbn [negb]
           end; try (cbn; discriminate).
    destruct last_dpll_state; cbn; discriminate.
  - destruct (failed (aq_status reading)) eqn:Ef.
    { apply failed_true in Ef. cbn [fst snd].
      split; [reflexivity|]. split; [auto | contradiction]. }
    apply failed_false in Ef.
    assert (Hsnd : forall (a b : ice_cgu_state * Z * Z) (c : bool) (u : trace),
              snd (if c then (a, u) else (b, u)) = u) by (intros; destruct c; reflexivity).
    split.
    { repeat match goal with
             | |- context [negb ?b] => destruct b; cbn [negb]
             end; try reflexivity.
      destruct last_dpll_state; reflexivity. }
    split; [intros H; contradiction|]. intros _.
    split.
    { repeat match goal with
             | |- context [negb ?b] => destruct b; cbn [negb]
             end; try (cbn; discriminate).
      destruct last_dpll_state; cbn; discriminate. }
    intros Hlock.
    destruct (Z.eqb_spec (Z.land (u16 (aq_dpll_state reading))
                ICE_AQC_GET_CGU_DPLL_STATUS_STATE_LOCK) 0) as [|_]; [contradiction|].
    cbn [negb].
    destruct (Z.eqb_spec (Z.land (u16 (aq_dpll_state reading))
                ICE_AQC_GET_CGU_DPLL_STATUS_STATE_HO_READY) 0) as [E|E]; cbn [negb fst];
      split; intros H; try reflexivity; contradiction.
Qed.

End CguStateCases.

Section LowLatencyRead.
Context {defs : IceDefs}.

Lemma ll_busy_polls_snoc k polls v :
  ll_busy_polls k polls -> Z.land v TS_LL_READ_TS <> 0 ->
  ll_busy_polls (S k) (polls ++ [EvRd32 PF_SB_ATQBAL v; EvSleep 10 10]).
Proof.
  revert polls. induction k as [|k IH]; intros polls Hp Hv.
  - cbn in Hp. subst polls. cbn. exists v, []. auto.
  - cbn [ll_busy_polls] in Hp. destruct Hp as (v0 & rest & -> & Hv0 & Hrest).
    cbn [ll_busy_polls]. exists v0, (rest ++ [EvRd32 PF_SB_ATQBAL v; EvSleep 10 10]).
    split; [reflexivity|]. split; [exact Hv0 | apply IH; assumption].
Qed.

Lemma ice_read_phy_tstamp_ll_e810_loop_shape hw n :
  forall k polls, ll_busy_polls k polls ->
  shape (ice_read_phy_tstamp_ll_e810_loop hw n)
    (fun r evs => ll_read_events (k + n) r (polls ++ evs)).
Proof.
  induction n as [|n IH]; intros k polls Hp.
  - cbn [ice_read_phy_tstamp_ll_e810_loop]. shape_step.
    rewrite app_nil_r. exists k, polls. split; [exact Hp|]. left.
    rewrite Nat.add_0_r. auto.
  - cbn [ice_read_phy_tstamp_ll_e810_loop]. shape_step.
    destruct (Z.eqb_spec (Z.land v TS_LL_READ_TS) 0) as [Eready|Ebusy].
    + shape_step. shape_step.
      exists k, polls. split; [exact Hp|]. right. split; [lia|].
      exists v, v0. auto.
    + unfold udelay. shape_step.
      eapply shape_weaken;
        [apply (IH (S k) (polls ++ [EvRd32 PF_SB_ATQBAL v; EvSleep 10 10])),
           ll_busy_polls_snoc; assumption|].
      cbv beta. intros r evs H.
      replace (k + S n)%nat with (S k + n)%nat by lia.
      rewrite <- app_assoc in H. exact H.
Qed.

(** X9: the low latency read of an E810 timestamp first writes the index of
    the timestamp to PF_SB_ATQBAL and then polls that register at most
    TS_LL_READ_RETRIES times, waiting 10 us after each poll that finds the
    timestamp not ready.  If no poll finds it ready the read fails with
    -EBUSY; otherwise the high byte comes from that poll, the low word is
    read from PF_SB_ATQBAH once, and it is returned with the valid bit
    set. *)
Theorem ice_read_phy_tstamp_ll_e810_bounded (hw : ice_hw) (idx : Z) :
  shape (ice_read_phy_tstamp_ll_e810 hw idx)
    (fun r evs =>
       exists polls,
         evs = EvWr32 PF_SB_ATQBAL (u32 (TS_LL_READ_TS_IDX idx)) :: polls /\
         ll_read_events (Z.to_nat (u8 TS_LL_READ_RETRIES)) r polls /\
         (fst (fst r) = 0 ->
          Z.land (snd r) (u32 TS_VALID) = u32 TS_VALID)).
Proof.
  unfold ice_read_phy_tstamp_ll_e810. shape_step.
  eapply shape_weaken;
    [apply (ice_read_phy_tstamp_ll_e810_loop_shape hw _ 0%nat []); reflexivity|].
  cbv beta. intros r evs H. exists evs. split; [reflexivity|].
  cbn [app Nat.add] in H. split; [exact H|].
  destruct H as (k & polls & _ & [(_ & _ & ->) | (_ & v & lo & _ & _ & ->)]);
    cbn [fst snd].
  - unfold EBUSY. discriminate.
  - intros _. unfold u32. rewrite <- !Z.land_ones by lia.
    apply Z.bits_inj'. intros i Hi.
    rewrite !Z.land_spec, Z.lor_spec.
    destruct (Z.testbit lo i), (Z.testbit TS_VALID i), (Z.testbit (Z.ones 32) i);
      reflexivity.
Qed.

End LowLatencyRead.


Section Rejected.
Context {defs : IceDefs}.

Lemma failed_neg_errno e : 0 < e -> failed (- e) = true.
Proof. intros H. unfold failed. destruct (Z.eqb_spec (- e) 0); [lia | reflexivity]. Qed.

Lemma ice_read_phy_port_eth56g_lp_range hw port offs res lock t :
  max_phy_port hw <= port ->
  ice_read_phy_port_eth56g_lp hw port offs res lock t = ((- EIO, 0), t).
Proof.
  intros H. unfold ice_read_phy_port_eth56g_lp.
  destruct (Z.geb_spec port (max_phy_port hw)); [reflexivity | lia].
Qed.

Lemma ice_write_phy_port_eth56g_lp_range hw port offs val res lock t :
  max_phy_port hw <= port ->
  ice_write_phy_port_eth56g_lp hw port offs val res lock t = (- EIO, t).
Proof.
  intros H. unfold ice_write_phy_port_eth56g_lp.
  destruct (Z.geb_spec port (max_phy_port hw)); [reflexivity | lia].
Qed.

(** X10: on a 56G PHY with hw->phy_ports not 0, so that the division of
    the port number the accesses start with is defined, a port number
    that is not below hw->max_phy_port is refused with -EIO before any
    sideband message is sent, and the refusal comes through every
    operation on the port: register and memory accesses, the 40-bit and
    64-bit writes to a known register pair, the staging of a timer
    command, the programming of the Tx and Rx offsets, the reading and the
    clearing of a timestamp. *)
Theorem eth56g_port_out_of_range (hw : ice_hw) (port : Z) (t : trace) :
  phy_ports hw <> 0 ->
  max_phy_port hw <= port ->
  (forall offset lock_sbq,
     ice_read_phy_reg_eth56g_lp hw port offset lock_sbq t = ((- EIO, 0), t) /\
     ice_phy_port_mem_read_eth56g_lp hw port offset lock_sbq t = ((- EIO, 0), t)) /\
  (forall offset val lock_sbq,
     ice_write_phy_reg_eth56g_lp hw port offset val lock_sbq t = (- EIO, t) /\
     ice_phy_port_mem_write_eth56g_lp hw port offset val lock_sbq t = (- EIO, t)) /\
  (forall low_addr val,
     (ice_is_40b_phy_reg_eth56g low_addr <> None ->
      ice_write_40b_phy_reg_eth56g hw port low_addr val t = (- EIO, t)) /\
     (ice_is_64b_phy_reg_eth56g low_addr <> None ->
      ice_write_64b_phy_reg_eth56g hw port low_addr val t = (- EIO, t))) /\
  (forall cmd lock_sbq,
     phy_cmd_val hw cmd <> None ->
     ice_ptp_one_port_cmd_eth56g hw port cmd lock_sbq t = (- EIO, t)) /\
  (ice_is_64b_phy_reg_eth56g PHY_REG_TOTAL_TX_OFFSET_L <> None ->
   ice_phy_cfg_tx_offset_eth56g hw port t = (- EIO, t)) /\
  (ice_is_64b_phy_reg_eth56g PHY_REG_TOTAL_RX_OFFSET_L <> None ->
   ice_phy_cfg_rx_offset_eth56g hw port t = (- EIO, t)) /\
  (forall idx,
     ice_read_phy_tstamp_eth56g hw port idx t = ((- EIO, 0), t) /\
     ice_clear_phy_tstamp_eth56g hw port idx t = (- EIO, t)).
Proof.
  intros _ Hport.
  assert (Hrd : forall offs res lock u,
            ice_read_phy_port_eth56g_lp hw port offs res lock u = ((- EIO, 0), u))
    by (intros; apply ice_read_phy_port_eth56g_lp_range, Hport).
  assert (Hwr : forall offs val res lock u,
            ice_write_phy_port_eth56g_lp hw port offs val res lock u = (- EIO, u))
    by (intros; apply ice_write_phy_port_eth56g_lp_range, Hport).
  assert (Hf : failed (- EIO) = true) by (apply failed_neg_errno; reflexivity).
  assert (H64 : forall low_addr val u,
            ice_is_64b_phy_reg_eth56g low_addr <> None ->
            ice_write_64b_phy_reg_eth56g hw port low_addr val u = (- EIO, u)).
  { intros low val u Hreg. unfold ice_write_64b_phy_reg_eth56g.
    destruct (ice_is_64b_phy_reg_eth56g low); [|contradiction].
    unfold bind, ice_write_phy_reg_eth56g, ice_write_phy_reg_eth56g_lp.
    rewrite Hwr, Hf. reflexivity. }
  split; [|split; [|split; [|split; [|split; [|split]]]]].
  - intros offset lock.
    unfold ice_read_phy_reg_eth56g_lp, ice_phy_port_mem_read_eth56g_lp.
    rewrite !Hrd. auto.
  - intros offset val lock.
    unfold ice_write_phy_reg_eth56g_lp, ice_phy_port_mem_write_eth56g_lp.
    rewrite !Hwr. auto.
  - intros low val. split; [|apply H64].
    intros Hreg. unfold ice_write_40b_phy_reg_eth56g.
    destruct (ice_is_40b_phy_reg_eth56g low); [|contradiction].
    unfold bind, ice_write_phy_reg_eth56g, ice_write_phy_reg_eth56g_lp.
    rewrite Hwr, Hf. reflexivity.
  - intros cmd lock Hcmd. unfold ice_ptp_one_port_cmd_eth56g.
    destruct (phy_cmd_val hw cmd); [|contradiction].
    unfold bind, ice_read_phy_reg_eth56g_lp. rewrite Hrd, Hf. reflexivity.
  - intros Hreg. unfold ice_phy_cfg_tx_offset_eth56g, bind.
    rewrite H64 by exact Hreg. rewrite Hf. reflexivity.
  - intros Hreg. unfold ice_phy_cfg_rx_offset_eth56g, bind.
    rewrite H64 by exact Hreg. rewrite Hf. reflexivity.
  - intros idx.
    assert (Hts : ice_read_phy_tstamp_eth56g hw port idx t = ((- EIO, 0), t)).
    { unfold ice_read_phy_tstamp_eth56g, bind, ice_phy_port_mem_read_eth56g,
        ice_phy_port_mem_read_eth56g_lp. rewrite Hrd, Hf. reflexivity. }
    split; [exact Hts|].
    unfold ice_clear_phy_tstamp_eth56g, bind. rewrite Hts.
    unfold ice_phy_port_mem_write_eth56g, ice_phy_port_mem_write_eth56g_lp.
    rewrite Hwr, Hf. reflexivity.
Qed.

(** X11: on the E822 a quad number that is not below ICE_MAX_QUAD is
    refused with -EINVAL before any sideband message is sent, by the quad
    register accesses and by the reading and the clearing of a timestamp;
    so is a 40-bit or 64-bit access to a register that is not the low half
    of a known pair. *)
Theorem e822_invalid_access_rejected (hw : ice_hw) (t : trace) :
  (forall quad, ICE_MAX_QUAD <= quad ->
     (forall offset lock_sbq,
        ice_read_quad_reg_e822_lp hw quad offset lock_sbq t = ((- EINVAL, 0), t)) /\
     (forall offset val lock_sbq,
        ice_write_quad_reg_e822_lp hw quad offset val lock_sbq t = (- EINVAL, t)) /\
     (forall idx,
        ice_read_phy_tstamp_e822 hw quad idx t = ((- EINVAL, 0), t) /\
        ice_clear_phy_tstamp_e822 hw quad idx t = (- EINVAL, t) /\
        (phy_model hw = ICE_PHY_E822 ->
         ice_clear_phy_tstamp hw quad idx t = (- EINVAL, t)))) /\
  (forall port low_addr val,
     (ice_is_64b_phy_reg_e822 low_addr = None ->
      ice_read_64b_phy_reg_e822 hw port low_addr t = ((- EINVAL, 0), t) /\
      ice_write_64b_phy_reg_e822 hw port low_addr val t = (- EINVAL, t)) /\
     (ice_is_40b_phy_reg_e822 low_addr = None ->
      ice_write_40b_phy_reg_e822 hw port low_addr val t = (- EINVAL, t))).
Proof.
  assert (Hf : failed (- EINVAL) = true) by (apply failed_neg_errno; reflexivity).
  split.
  - intros quad Hquad.
    assert (Hmsg : forall offset op val, ice_fill_quad_msg_e822 quad offset op val = None).
    { intros. unfold ice_fill_quad_msg_e822.
      destruct (Z.geb_spec quad ICE_MAX_QUAD); [reflexivity | lia]. }
    assert (Hrd : forall offset lock u,
              ice_read_quad_reg_e822_lp hw quad offset lock u = ((- EINVAL, 0), u)).
    { intros. unfold ice_read_quad_reg_e822_lp. rewrite Hmsg. reflexivity. }
    split; [intros; apply Hrd|]. split.
    { intros. unfold ice_write_quad_reg_e822_lp. rewrite Hmsg. reflexivity. }
    intros idx.
    assert (Hts : ice_read_phy_tstamp_e822 hw quad idx t = ((- EINVAL, 0), t)).
    { unfold ice_read_phy_tstamp_e822, bind, ice_read_quad_reg_e822.
      rewrite Hrd, Hf. reflexivity. }
    assert (Hclr : ice_clear_phy_tstamp_e822 hw quad idx t = (- EINVAL, t)).
    { unfold ice_clear_phy_tstamp_e822, bind. rewrite Hts, Hf. reflexivity. }
    split; [exact Hts|]. split; [exact Hclr|].
    intros Hmodel. unfold ice_clear_phy_tstamp. rewrite Hmodel. exact Hclr.
  - intros port low val. split.
    + intros Hreg. unfold ice_read_64b_phy_reg_e822, ice_write_64b_phy_reg_e822.
      rewrite Hreg. auto.
    + intros Hreg. unfold ice_write_40b_phy_reg_e822. rewrite Hreg. reflexivity.
Qed.

(** X12: ice_ptp_tmr_cmd cannot issue the NOP command, nor a command
    outside the enumeration, as soon as there is a PHY port to stage: the
    staging of the first port refuses it with -EINVAL before any sideband
    message.  For NOP the source command register has been written by
    then; the execute pulse is not issued and the register is not
    cleared. *)
Theorem ice_ptp_tmr_cmd_rejects_nop
    (hw : ice_hw) (cmd : enum_ice_ptp_tmr_cmd) (lock_sbq : bool) (t : trace) :
  cmd = ICE_PTP_NOP \/ cmd = ICE_PTP_TMR_CMD_OTHER ->
  match phy_model hw with
  | ICE_PHY_E810 => True
  | ICE_PHY_E822 => 0 < phy_ports hw
  | ICE_PHY_ETH56G => 0 < max_phy_port hw
  | ICE_PHY_UNSUP => False
  end ->
  ice_ptp_tmr_cmd hw cmd lock_sbq t = (- EINVAL, t ++ src_cmd_events hw cmd) /\
  (cmd = ICE_PTP_NOP ->
   src_cmd_events hw cmd =
     [EvWr32 GLTSYN_CMD (u32 (u32 (Z.shiftl (ice_get_ptp_src_clock_index hw) SEL_CPK_SRC)))]) /\
  (cmd = ICE_PTP_TMR_CMD_OTHER -> src_cmd_events hw cmd = []).
Proof.
  intros Hcmd Hports.
  assert (Hf : failed (- EINVAL) = true) by (apply failed_neg_errno; reflexivity).
  assert (Hphy : phy_cmd_val hw cmd = None) by (destruct Hcmd; subst; reflexivity).
  assert (He810 : e810_cmd_val cmd = None) by (destruct Hcmd; subst; reflexivity).
  assert (Hloop : forall n (body : Z -> M Z) u,
            (0 < n)%nat -> body 0 u = (- EINVAL, u) ->
            for_ports_from n 0 body u = (- EINVAL, u)).
  { intros n body u Hn Hb. destruct n; [lia|].
    cbn [for_ports_from]. unfold bind. rewrite Hb, Hf. reflexivity. }
  assert (Hstage : forall u, ice_ptp_port_cmd_dispatch hw cmd lock_sbq u = (- EINVAL, u)).
  { intros u. unfold ice_ptp_port_cmd_dispatch.
    destruct (phy_model hw); [contradiction| | |].
    - unfold ice_ptp_port_cmd_eth56g, for_ports. apply Hloop; [lia|].
      unfold ice_ptp_one_port_cmd_eth56g. rewrite Hphy. reflexivity.
    - unfold ice_ptp_port_cmd_e810, ice_ptp_port_cmd. rewrite He810. reflexivity.
    - unfold ice_ptp_port_cmd_e822, for_ports. apply Hloop; [lia|].
      unfold ice_ptp_one_port_cmd_e822. rewrite Hphy. reflexivity. }
  split; [|split].
  - unfold ice_ptp_tmr_cmd, bind, ice_ptp_src_cmd, src_cmd_events.
    destruct (src_cmd_val hw cmd) as [cmd_val|].
    + unfold wr32, emit. rewrite Hstage, Hf. reflexivity.
    + unfold ret. rewrite Hstage, Hf, app_nil_r. reflexivity.
  - intros ->. reflexivity.
  - intros ->. reflexivity.
Qed.

End Rejected.

(** A 56G device with two ports: port 2 does not exist. *)
Lemma eth56g_port_out_of_range_witness :
  let hw := Sample.hw_of ICE_PHY_ETH56G 2 Sample.quiet_dev in
  phy_ports hw <> 0 /\
  ice_read_phy_tstamp_eth56g (defs := Sample.defs) hw 2 5 [] = ((- EIO, 0), []) /\
  ice_clear_phy_tstamp_eth56g (defs := Sample.defs) hw 2 5 [] = (- EIO, []).
Proof.
  intros hw.
  assert (Hports : phy_ports hw <> 0) by (cbn; lia).
  assert (Hport : max_phy_port hw <= 2) by (cbn; lia).
  split; [exact Hports|].
  destruct (eth56g_port_out_of_range (defs := Sample.defs) hw 2 [] Hports Hport)
    as (_ & _ & _ & _ & _ & _ & Hts).
  exact (Hts 5).
Defined.

(** An E822 device with two ports asked to issue the NOP command. *)
Lemma ice_ptp_tmr_cmd_rejects_nop_witness :
  let hw := Sample.hw_of ICE_PHY_E822 2 Sample.quiet_dev in
  ice_ptp_tmr_cmd (defs := Sample.defs) hw ICE_PTP_NOP true [] =
    (- EINVAL, [] ++ src_cmd_events (defs := Sample.defs) hw ICE_PTP_NOP).
Proof.
  intros hw.
  assert (Hports : match phy_model hw with
                   | ICE_PHY_E810 => True
                   | ICE_PHY_E822 => 0 < phy_ports hw
                   | ICE_PHY_ETH56G => 0 < max_phy_port hw
                   | ICE_PHY_UNSUP => False
                   end) by (cbn; lia).
  destruct (ice_ptp_tmr_cmd_rejects_nop (defs := Sample.defs)
              hw ICE_PTP_NOP true [] (or_introl eq_refl) Hports) as [Hrun _].
  exact Hrun.
Defined.

(** The commands ice_ptp_tmr_cmd refuses, run on the sample devices. *)
Example ice_ptp_tmr_cmd_nop_samples :
  let e822 := Sample.hw_of ICE_PHY_E822 2 Sample.quiet_dev in
  let e810 := Sample.hw_of ICE_PHY_E810 1 Sample.quiet_dev in
  ice_ptp_tmr_cmd (defs := Sample.defs) e822 ICE_PTP_NOP true [] =
    (- 22, [EvWr32 0x00088810 0]) /\
  ice_ptp_tmr_cmd (defs := Sample.defs) e810 ICE_PTP_TMR_CMD_OTHER true [] =
    (- 22, []).
Proof. vm_compute. split; reflexivity. Qed.
(** * Commands on the timers, conversion ratios and register pairs *)

Section Commands.
Context {defs : IceDefs} {tdefs : IceTimeDefs}.

Lemma no_pulse_app a b : no_pulse a -> no_pulse b -> no_pulse (a ++ b).
Proof. unfold no_pulse. intros Ha Hb. rewrite count_ev_app, Ha, Hb. reflexivity. Qed.

Lemma no_pulse_all_sbq evs : all_sbq evs -> no_pulse evs.
Proof. apply count_ev_all_sbq. Qed.

Lemma no_pulse_wr32 addr val : addr <> GLTSYN_CMD_SYNC -> no_pulse [EvWr32 addr val].
Proof.
  intros H. unfold no_pulse, count_ev. cbn.
  destruct (Z.eqb_spec addr GLTSYN_CMD_SYNC); [contradiction | reflexivity].
Qed.

Lemma pulse_iff_success_prefix status a b :
  no_pulse a -> pulse_iff_success status b -> pulse_iff_success status (a ++ b).
Proof.
  intros Ha [Hok Hko]. split.
  - intros Hs. destruct (Hok Hs) as (before & -> & Hb).
    exists (a ++ before). rewrite app_assoc. split; [reflexivity|].
    apply no_pulse_app; assumption.
  - intros Hs. apply no_pulse_app; auto.
Qed.

Lemma ice_ptp_tmr_cmd_pulse hw cmd lock_sbq :
  GLTSYN_CMD <> GLTSYN_CMD_SYNC ->
  shape (ice_ptp_tmr_cmd hw cmd lock_sbq) pulse_iff_success.
Proof.
  intros Hne. eapply shape_weaken; [apply ice_ptp_tmr_cmd_shape|].
  cbv beta. intros status evs (staging & Hsbq & [(Hs & ->) | (-> & _ & ->)]).
  - split; [contradiction|]. intros _.
    apply no_pulse_app; [|apply no_pulse_all_sbq, Hsbq].
    apply count_src_cmd_events, Hne.
  - split; [|contradiction]. intros _.
    exists (src_cmd_events hw cmd ++ staging). rewrite app_assoc.
    split; [reflexivity|].
    apply no_pulse_app; [|apply no_pulse_all_sbq, Hsbq].
    apply count_src_cmd_events, Hne.
Qed.

(** A command guarded by a preparation step that uses the sideband queue
    only. *)
Lemma guarded_pulse (prep k : M Z) :
  emits_only sbq_event prep ->
  shape k pulse_iff_success ->
  shape (status <- prep ;; if failed status then ret status else k)
        pulse_iff_success.
Proof.
  intros Hprep Hk. eapply shape_bind; [exact Hprep|].
  cbv beta. intros status e1 He1.
  case_failed.
  - shape_step. rewrite app_nil_r. split; [contradiction|].
    intros _. apply no_pulse_all_sbq, He1.
  - eapply shape_weaken; [exact Hk|]. cbv beta. intros st e2 H2.
    apply pulse_iff_success_prefix; [apply no_pulse_all_sbq, He1 | exact H2].
Qed.

Lemma wr32_pulse hw addr val (k : M Z) :
  addr <> GLTSYN_CMD_SYNC ->
  shape k pulse_iff_success ->
  shape (wr32 hw addr val ;;; k) pulse_iff_success.
Proof.
  intros Hne Hk. shape_step.
  eapply shape_weaken; [exact Hk|]. cbv beta. intros st e2 H2.
  apply (pulse_iff_success_prefix st [_] e2); [apply no_pulse_wr32, Hne | exact H2].
Qed.

Lemma ice_write_phy_reg_e810_sbq hw addr val :
  emits_only sbq_event (ice_write_phy_reg_e810 hw addr val).
Proof. apply ice_write_phy_reg_e810_lp_sbq. Qed.

Lemma ice_ptp_prep_phy_time_sbq hw time :
  emits_only sbq_event
    match phy_model hw with
    | ICE_PHY_ETH56G => ice_ptp_prep_phy_time_eth56g hw time
    | ICE_PHY_E810 => ice_ptp_prep_phy_time_e810 hw time
    | ICE_PHY_E822 => ice_ptp_prep_phy_time_e822 hw time
    | ICE_PHY_UNSUP => ret (- EOPNOTSUPP)
    end.
Proof.
  unfold ice_ptp_prep_phy_time_eth56g, ice_ptp_prep_port_phy_time_eth56g,
    ice_ptp_prep_phy_time_e810, ice_ptp_prep_phy_time_e822.
  destruct (phy_model hw);
    repeat first [apply ice_write_64b_phy_reg_eth56g_sbq
                 | apply ice_write_64b_phy_reg_e822_sbq
                 | apply ice_write_phy_reg_e810_sbq
                 | emits_tac].
Qed.

Lemma ice_ptp_prep_phy_adj_sbq hw adj lock_sbq :
  emits_only sbq_event
    match phy_model hw with
    | ICE_PHY_ETH56G => ice_ptp_prep_phy_adj_eth56g hw adj lock_sbq
    | ICE_PHY_E810 => ice_ptp_prep_phy_adj_e810 hw adj lock_sbq
    | ICE_PHY_E822 => ice_ptp_prep_phy_adj_e822 hw adj lock_sbq
    | ICE_PHY_UNSUP => ret (- EOPNOTSUPP)
    end.
Proof.
  unfold ice_ptp_prep_phy_adj_eth56g, ice_ptp_prep_phy_adj_e810,
    ice_ptp_prep_phy_adj_e822.
  destruct (phy_model hw);
    repeat first [apply ice_write_phy_reg_eth56g_lp_sbq
                 | apply ice_write_phy_reg_e822_lp_sbq
                 | apply ice_write_phy_reg_e810_lp_sbq
                 | emits_tac].
Qed.

Lemma ice_ptp_prep_phy_adj_target_sbq hw target_time :
  emits_only sbq_event
    match phy_model hw with
    | ICE_PHY_ETH56G => ice_ptp_prep_phy_adj_target_eth56g hw target_time
    | ICE_PHY_E810 => ice_ptp_prep_phy_adj_target_e810 hw target_time
    | ICE_PHY_E822 => ice_ptp_prep_phy_adj_target_e822 hw target_time
    | ICE_PHY_UNSUP => ret (- EOPNOTSUPP)
    end.
Proof.
  unfold ice_ptp_prep_phy_adj_target_eth56g, ice_ptp_prep_phy_adj_target_e810,
    ice_ptp_prep_phy_adj_target_e822.
  destruct (phy_model hw);
    repeat first [apply ice_write_phy_reg_eth56g_lp_sbq
                 | apply ice_write_phy_reg_e822_lp_sbq
                 | apply ice_write_phy_reg_e810_sbq
                 | emits_tac].
Qed.

Lemma ice_ptp_prep_phy_incval_switch_sbq hw incval :
  emits_only sbq_event
    match phy_model hw with
    | ICE_PHY_ETH56G => ice_ptp_prep_phy_incval_eth56g hw incval
    | ICE_PHY_E810 => ice_ptp_prep_phy_incval_e810 hw incval
    | ICE_PHY_E822 => ice_ptp_prep_phy_incval_e822 hw incval
    | ICE_PHY_UNSUP => ret (- EOPNOTSUPP)
    end.
Proof.
  destruct (ice_ptp_prep_phy_incval_sbq hw incval) as (H56 & H810 & H822).
  destruct (phy_model hw); [apply emits_ret | assumption ..].
Qed.

(** X13: the four commands that change the timers (ice_ptp_init_time,
    ice_ptp_write_incval, ice_ptp_adj_clock, ice_ptp_adj_clock_at_time)
    write the execute pulse GLTSYN_CMD_SYNC exactly when they succeed:
    a successful call ends with the pulse and the clearing of the command
    register, and writes no other pulse before; a failed call, whichever
    of its steps failed, writes none, so that the values left in the
    shadow registers are not applied. *)
Theorem timer_commands_pulse_iff_success (hw : ice_hw) :
  GLTSYN_CMD <> GLTSYN_CMD_SYNC ->
  ~ In GLTSYN_CMD_SYNC (src_shadow_regs hw) ->
  (forall time wr_main_tmr,
     shape (ice_ptp_init_time hw time wr_main_tmr) pulse_iff_success) /\
  (forall incval wr_main_tmr,
     shape (ice_ptp_write_incval hw incval wr_main_tmr) pulse_iff_success) /\
  (forall adj lock_sbq,
     shape (ice_ptp_adj_clock hw adj lock_sbq) pulse_iff_success) /\
  (forall at_time adj,
     shape (ice_ptp_adj_clock_at_time hw at_time adj) pulse_iff_success).
Proof.
  intros Hcmd Hregs. unfold src_shadow_regs in Hregs. cbn [In] in Hregs.
  assert (H0 : GLTSYN_SHTIME_0 (tmr_index_owned hw) <> GLTSYN_CMD_SYNC) by tauto.
  assert (HL : GLTSYN_SHTIME_L (tmr_index_owned hw) <> GLTSYN_CMD_SYNC) by tauto.
  assert (HH : GLTSYN_SHTIME_H (tmr_index_owned hw) <> GLTSYN_CMD_SYNC) by tauto.
  assert (HaL : GLTSYN_SHADJ_L (tmr_index_owned hw) <> GLTSYN_CMD_SYNC) by tauto.
  assert (HaH : GLTSYN_SHADJ_H (tmr_index_owned hw) <> GLTSYN_CMD_SYNC) by tauto.
  clear Hregs.
  split; [|split; [|split]].
  - intros time wr. unfold ice_ptp_init_time. destruct wr.
    + apply shape_bind_assoc. apply wr32_pulse; [exact HL|].
      apply shape_bind_assoc. apply wr32_pulse; [exact HH|].
      apply wr32_pulse; [exact H0|].
      apply guarded_pulse;
        [apply ice_ptp_prep_phy_time_sbq | apply ice_ptp_tmr_cmd_pulse, Hcmd].
    + shape_step.
      apply guarded_pulse;
        [apply ice_ptp_prep_phy_time_sbq | apply ice_ptp_tmr_cmd_pulse, Hcmd].
  - intros incval wr. unfold ice_ptp_write_incval. destruct wr.
    + apply shape_bind_assoc. apply wr32_pulse; [exact HaL|].
      apply wr32_pulse; [exact HaH|].
      apply guarded_pulse;
        [apply ice_ptp_prep_phy_incval_switch_sbq | apply ice_ptp_tmr_cmd_pulse, Hcmd].
    + shape_step.
      apply guarded_pulse;
        [apply ice_ptp_prep_phy_incval_switch_sbq | apply ice_ptp_tmr_cmd_pulse, Hcmd].
  - intros adj lock. unfold ice_ptp_adj_clock.
    apply wr32_pulse; [exact HaL|]. apply wr32_pulse; [exact HaH|].
    apply guarded_pulse;
      [apply ice_ptp_prep_phy_adj_sbq | apply ice_ptp_tmr_cmd_pulse, Hcmd].
  - intros at_time adj. unfold ice_ptp_adj_clock_at_time.
    apply wr32_pulse; [exact HaL|]. apply wr32_pulse; [exact HaH|].
    apply wr32_pulse; [exact H0|]. apply wr32_pulse; [exact HL|].
    apply wr32_pulse; [exact HH|].
    apply guarded_pulse; [apply ice_ptp_prep_phy_adj_sbq|].
    apply guarded_pulse;
      [apply ice_ptp_prep_phy_adj_target_sbq | apply ice_ptp_tmr_cmd_pulse, Hcmd].
Qed.

End Commands.

Section ShadowValues.
Context {defs : IceDefs} {tdefs : IceTimeDefs}.

Lemma sbq_writes_nil lock_sbq : sbq_writes [] lock_sbq [].
Proof. constructor. Qed.

Lemma sbq_writes_app a b lock_sbq ea eb :
  sbq_writes a lock_sbq ea -> sbq_writes b lock_sbq eb ->
  sbq_writes (a ++ b) lock_sbq (ea ++ eb).
Proof. apply Forall2_app. Qed.

Lemma sbq_writes_one msg lock_sbq w : sbq_writes [msg] lock_sbq [EvSbq msg lock_sbq 0 w].
Proof. constructor; [eauto | constructor]. Qed.

(** A loop whose iterations leave the messages [msgs port] when they
    succeed leaves them for all its ports when it succeeds. *)
Lemma for_ports_from_writes (msgs : Z -> list ice_sbq_msg_input) lock_sbq body n :
  (forall p, shape (body p) (fun status evs =>
                              status = 0 -> sbq_writes (msgs p) lock_sbq evs)) ->
  forall port,
    shape (for_ports_from n port body)
      (fun status evs =>
         status = 0 -> sbq_writes (flat_map msgs (ports_from n port)) lock_sbq evs).
Proof.
  intros Hbody. induction n as [|n IH]; intros port; cbn [for_ports_from ports_from flat_map].
  - shape_step. intros _. apply sbq_writes_nil.
  - eapply shape_bind; [apply Hbody|]. cbv beta. intros st e1 H1.
    case_failed.
    + shape_step. intros ->. contradiction.
    + eapply shape_weaken; [apply IH|]. cbv beta. intros st2 e2 H2 Hst.
      apply sbq_writes_app; auto.
Qed.

Lemma ice_write_phy_reg_e822_lp_writes hw port offset val lock_sbq :
  shape (ice_write_phy_reg_e822_lp hw port offset val lock_sbq)
    (fun status evs =>
       status = 0 ->
       sbq_writes [ice_fill_phy_msg_e822 port offset ice_sbq_msg_wr (u32 val)]
                  lock_sbq evs).
Proof.
  eapply shape_weaken; [apply ice_write_phy_reg_e822_lp_shape|].
  cbv beta. intros st evs (w & ->) ->. apply sbq_writes_one.
Qed.

Lemma ice_write_phy_reg_eth56g_lp_writes hw port offset val lock_sbq :
  shape (ice_write_phy_reg_eth56g_lp hw port offset val lock_sbq)
    (fun status evs =>
       status = 0 ->
       sbq_writes [eth56g_reg_msg hw port offset ice_sbq_msg_wr (u32 val)]
                  lock_sbq evs).
Proof.
  eapply shape_weaken; [apply ice_write_phy_reg_eth56g_lp_shape|].
  cbv beta. intros st evs [(_ & -> & _) | (_ & w & ->)].
  - discriminate.
  - intros ->. apply sbq_writes_one.
Qed.

Lemma ice_write_phy_reg_e810_lp_writes hw addr val lock_sbq :
  shape (ice_write_phy_reg_e810_lp hw addr val lock_sbq)
    (fun status evs =>
       status = 0 ->
       sbq_writes [e810_msg addr ice_sbq_msg_wr (u32 val)] lock_sbq evs).
Proof.
  eapply shape_weaken; [apply ice_write_phy_reg_e810_lp_shape|].
  cbv beta. intros st evs (w & ->) ->. apply sbq_writes_one.
Qed.

(** Two steps in sequence, the second only after the first succeeded. *)
Lemma seq_writes (m : M Z) (k : M Z) a b lock_sbq :
  shape m (fun status evs => status = 0 -> sbq_writes a lock_sbq evs) ->
  shape k (fun status evs => status = 0 -> sbq_writes b lock_sbq evs) ->
  shape (status <- m ;; if failed status then ret status else k)
    (fun status evs => status = 0 -> sbq_writes (a ++ b) lock_sbq evs).
Proof.
  intros Hm Hk. eapply shape_bind; [exact Hm|]. cbv beta. intros st e1 H1.
  case_failed.
  - shape_step. intros ->. contradiction.
  - eapply shape_weaken; [exact Hk|]. cbv beta. intros st2 e2 H2 Hst.
    apply sbq_writes_app; auto.
Qed.

Lemma ret0_writes lock_sbq :
  shape (ret 0) (fun status evs => status = 0 -> sbq_writes [] lock_sbq evs).
Proof. shape_step. intros _. apply sbq_writes_nil. Qed.

Lemma ice_ptp_prep_port_adj_e822_writes hw port time lock_sbq :
  shape (ice_ptp_prep_port_adj_e822 hw port time lock_sbq)
    (fun status evs =>
       status = 0 ->
       sbq_writes (port_time_msgs_e822 (u32 (lower_32_bits time))
                                       (u32 (upper_32_bits time)) port)
                  lock_sbq evs).
Proof.
  unfold ice_ptp_prep_port_adj_e822, port_time_msgs_e822.
  apply (seq_writes _ _ [_] [_; _; _]); [apply ice_write_phy_reg_e822_lp_writes|].
  apply (seq_writes _ _ [_] [_; _]); [apply ice_write_phy_reg_e822_lp_writes|].
  apply (seq_writes _ _ [_] [_]); [apply ice_write_phy_reg_e822_lp_writes|].
  apply (seq_writes _ _ [_] []); [apply ice_write_phy_reg_e822_lp_writes|].
  apply ret0_writes.
Qed.

Lemma ice_ptp_prep_port_adj_eth56g_writes hw port time lock_sbq :
  shape (ice_ptp_prep_port_adj_eth56g hw port time lock_sbq)
    (fun status evs =>
       status = 0 ->
       sbq_writes (port_time_msgs_eth56g hw (u32 (lower_32_bits time))
                                         (u32 (upper_32_bits time)) port)
                  lock_sbq evs).
Proof.
  unfold ice_ptp_prep_port_adj_eth56g, port_time_msgs_eth56g.
  apply (seq_writes _ _ [_] [_; _; _]); [apply ice_write_phy_reg_eth56g_lp_writes|].
  apply (seq_writes _ _ [_] [_; _]); [apply ice_write_phy_reg_eth56g_lp_writes|].
  apply (seq_writes _ _ [_] [_]); [apply ice_write_phy_reg_eth56g_lp_writes|].
  apply (seq_writes _ _ [_] []); [apply ice_write_phy_reg_eth56g_lp_writes|].
  apply ret0_writes.
Qed.

(** *** The adjustment as a 64-bit two's complement value *)

Lemma s64_small x : - 2 ^ 63 <= x < 2 ^ 63 -> s64 x = x.
Proof. intros H. unfold s64. rewrite Z.mod_small by lia. lia. Qed.

Lemma s32_small x : - 2 ^ 31 <= x < 2 ^ 31 -> s32 x = x.
Proof. intros H. unfold s32. rewrite Z.mod_small by lia. lia. Qed.

(** Both branches of ice_ptp_prep_phy_adj_e822 compute adj * 2^32, as the
    single shift of ice_ptp_prep_phy_adj_eth56g does. *)
Lemma adj_cycles adj :
  - 2 ^ 31 < adj < 2 ^ 31 ->
  (if adj >? 0 then s64 (Z.shiftl adj 32)
   else s64 (- s64 (Z.shiftl (s32 (- adj)) 32))) = adj * 2 ^ 32 /\
  s64 (Z.shiftl adj 32) = adj * 2 ^ 32.
Proof.
  intros H.
  assert (E : s64 (Z.shiftl adj 32) = adj * 2 ^ 32).
  { rewrite Z.shiftl_mul_pow2 by lia. apply s64_small. lia. }
  split; [|exact E].
  destruct (Z.gtb_spec adj 0); [exact E|].
  rewrite s32_small by lia.
  rewrite Z.shiftl_mul_pow2 by lia.
  rewrite (s64_small (- adj * 2 ^ 32)) by lia.
  rewrite s64_small by lia. lia.
Qed.

Lemma adj_words adj :
  lower_32_bits (adj * 2 ^ 32) = 0 /\ upper_32_bits (adj * 2 ^ 32) = u32 adj.
Proof.
  unfold lower_32_bits, upper_32_bits, u32. split.
  - apply Z.mod_mul. lia.
  - rewrite Z.shiftr_div_pow2 by lia. rewrite Z.div_mul by lia. reflexivity.
Qed.

Lemma u32_idem x : u32 (u32 x) = u32 x.
Proof. unfold u32. apply Z.mod_mod. lia. Qed.

Lemma ice_ptp_prep_phy_adj_writes hw adj lock_sbq :
  - 2 ^ 31 < adj < 2 ^ 31 ->
  shape
    match phy_model hw with
    | ICE_PHY_ETH56G => ice_ptp_prep_phy_adj_eth56g hw adj lock_sbq
    | ICE_PHY_E810 => ice_ptp_prep_phy_adj_e810 hw adj lock_sbq
    | ICE_PHY_E822 => ice_ptp_prep_phy_adj_e822 hw adj lock_sbq
    | ICE_PHY_UNSUP => ret (- EOPNOTSUPP)
    end
    (fun status evs =>
       status = 0 -> sbq_writes (phy_adj_msgs hw 0 (u32 adj)) lock_sbq evs).
Proof.
  intros Hadj. destruct (adj_cycles adj Hadj) as [E822 E56].
  destruct (adj_words adj) as [Elo Ehi].
  unfold phy_adj_msgs, phy_time_msgs. destruct (phy_model hw).
  - shape_step. discriminate.
  - unfold ice_ptp_prep_phy_adj_eth56g, for_ports. rewrite E56.
    eapply shape_weaken.
    { apply (for_ports_from_writes
               (port_time_msgs_eth56g hw (u32 (lower_32_bits (adj * 2 ^ 32)))
                                      (u32 (upper_32_bits (adj * 2 ^ 32))))).
      intros p. apply ice_ptp_prep_port_adj_eth56g_writes. }
    cbv beta. rewrite Elo, Ehi, u32_idem. auto.
  - unfold ice_ptp_prep_phy_adj_e810.
    apply (seq_writes _ _ [_] [_]); [apply ice_write_phy_reg_e810_lp_writes|].
    apply (seq_writes _ _ [_] []); [apply ice_write_phy_reg_e810_lp_writes|].
    apply ret0_writes.
  - unfold ice_ptp_prep_phy_adj_e822, for_ports. rewrite E822.
    eapply shape_weaken.
    { apply (for_ports_from_writes
               (port_time_msgs_e822 (u32 (lower_32_bits (adj * 2 ^ 32)))
                                    (u32 (upper_32_bits (adj * 2 ^ 32))))).
      intros p. apply ice_ptp_prep_port_adj_e822_writes. }
    cbv beta. rewrite Elo, Ehi, u32_idem. auto.
Qed.

Lemma ice_ptp_tmr_cmd_issued hw cmd lock_sbq :
  shape (ice_ptp_tmr_cmd hw cmd lock_sbq)
    (fun status evs => status = 0 -> tmr_cmd_issued hw cmd lock_sbq evs).
Proof.
  eapply shape_weaken; [apply ice_ptp_tmr_cmd_shape|].
  cbv beta. intros status evs (staging & _ & [(Hs & _) | (_ & Hst & ->)]).
  - intros ->. contradiction.
  - intros _. exists staging. auto.
Qed.

Lemma ice_ptp_prep_phy_adj_target_writes hw target_time :
  shape
    match phy_model hw with
    | ICE_PHY_ETH56G => ice_ptp_prep_phy_adj_target_eth56g hw target_time
    | ICE_PHY_E810 => ice_ptp_prep_phy_adj_target_e810 hw target_time
    | ICE_PHY_E822 => ice_ptp_prep_phy_adj_target_e822 hw target_time
    | ICE_PHY_UNSUP => ret (- EOPNOTSUPP)
    end
    (fun status evs =>
       status = 0 -> sbq_writes (phy_target_msgs hw (u32 target_time)) true evs).
Proof.
  unfold phy_target_msgs. destruct (phy_model hw).
  - shape_step. discriminate.
  - unfold ice_ptp_prep_phy_adj_target_eth56g, for_ports.
    apply (for_ports_from_writes (port_target_msgs_eth56g hw (u32 target_time))).
    intros p. unfold port_target_msgs_eth56g.
    apply (seq_writes _ _ [_] [_; _; _]); [apply ice_write_phy_reg_eth56g_lp_writes|].
    apply (seq_writes _ _ [_] [_; _]); [apply ice_write_phy_reg_eth56g_lp_writes|].
    apply (seq_writes _ _ [_] [_]); [apply ice_write_phy_reg_eth56g_lp_writes|].
    apply (seq_writes _ _ [_] []); [apply ice_write_phy_reg_eth56g_lp_writes|].
    apply ret0_writes.
  - unfold ice_ptp_prep_phy_adj_target_e810, ice_write_phy_reg_e810.
    apply (seq_writes _ _ [_] [_]); [apply ice_write_phy_reg_e810_lp_writes|].
    apply (seq_writes _ _ [_] []); [apply ice_write_phy_reg_e810_lp_writes|].
    apply ret0_writes.
  - unfold ice_ptp_prep_phy_adj_target_e822, for_ports.
    apply (for_ports_from_writes (port_target_msgs_e822 (u32 target_time))).
    intros p. unfold port_target_msgs_e822.
    apply (seq_writes _ _ [_] [_; _; _]); [apply ice_write_phy_reg_e822_lp_writes|].
    apply (seq_writes _ _ [_] [_; _]); [apply ice_write_phy_reg_e822_lp_writes|].
    apply (seq_writes _ _ [_] [_]); [apply ice_write_phy_reg_e822_lp_writes|].
    apply (seq_writes _ _ [_] []); [apply ice_write_phy_reg_e822_lp_writes|].
    apply ret0_writes.
Qed.

Lemma ice_write_64b_phy_reg_e822_writes hw port low high val :
  ice_is_64b_phy_reg_e822 low = Some high ->
  shape (ice_write_64b_phy_reg_e822 hw port low val)
    (fun status evs =>
       status = 0 ->
       sbq_writes [ice_fill_phy_msg_e822 port low ice_sbq_msg_wr (lower_32_bits val);
                   ice_fill_phy_msg_e822 port high ice_sbq_msg_wr (upper_32_bits val)]
                  true evs).
Proof.
  intros Hreg. unfold ice_write_64b_phy_reg_e822, ice_write_phy_reg_e822.
  rewrite Hreg.
  eapply shape_weaken.
  { eapply (seq_writes _ _ [_] [_]); [apply ice_write_phy_reg_e822_lp_writes|].
    eapply (seq_writes _ _ [_] []); [apply ice_write_phy_reg_e822_lp_writes|].
    apply ret0_writes. }
  cbv beta. unfold lower_32_bits, upper_32_bits. rewrite !u32_idem. auto.
Qed.

Lemma ice_write_64b_phy_reg_eth56g_writes hw port low high val :
  ice_is_64b_phy_reg_eth56g low = Some high ->
  shape (ice_write_64b_phy_reg_eth56g hw port low val)
    (fun status evs =>
       status = 0 ->
       sbq_writes [eth56g_reg_msg hw port low ice_sbq_msg_wr (lower_32_bits val);
                   eth56g_reg_msg hw port high ice_sbq_msg_wr (upper_32_bits val)]
                  true evs).
Proof.
  intros Hreg. unfold ice_write_64b_phy_reg_eth56g, ice_write_phy_reg_eth56g.
  rewrite Hreg.
  eapply shape_weaken.
  { eapply (seq_writes _ _ [_] [_]); [apply ice_write_phy_reg_eth56g_lp_writes|].
    eapply (seq_writes _ _ [_] []); [apply ice_write_phy_reg_eth56g_lp_writes|].
    apply ret0_writes. }
  cbv beta. unfold lower_32_bits, upper_32_bits. rewrite !u32_idem. auto.
Qed.

(** The 64-bit PHY time made of the nanoseconds [time]. *)
Lemma phy_time_words time :
  lower_32_bits (u64 (Z.shiftl (u32 time) 32)) = 0 /\
  upper_32_bits (u64 (Z.shiftl (u32 time) 32)) = u32 time.
Proof.
  pose proof (u32_range time) as Ht.
  assert (E : u64 (Z.shiftl (u32 time) 32) = u32 time * 2 ^ 32).
  { rewrite Z.shiftl_mul_pow2 by lia. unfold u64. apply Z.mod_small. lia. }
  rewrite E. destruct (adj_words (u32 time)) as [Elo Ehi].
  split; [exact Elo|]. rewrite Ehi. apply u32_idem.
Qed.

Lemma land_low_32 time : Z.land time 0xFFFFFFFF = u32 time.
Proof. change 0xFFFFFFFF with (Z.ones 32). apply Z.land_ones. lia. Qed.

Lemma ice_ptp_prep_phy_time_writes hw time :
  time_regs_known ->
  shape
    match phy_model hw with
    | ICE_PHY_ETH56G => ice_ptp_prep_phy_time_eth56g hw time
    | ICE_PHY_E810 => ice_ptp_prep_phy_time_e810 hw time
    | ICE_PHY_E822 => ice_ptp_prep_phy_time_e822 hw time
    | ICE_PHY_UNSUP => ret (- EOPNOTSUPP)
    end
    (fun status evs =>
       status = 0 -> sbq_writes (phy_time_msgs hw 0 (u32 time)) true evs).
Proof.
  intros (Htx822 & Hrx822 & Htx56 & Hrx56).
  destruct (phy_time_words time) as [Elo Ehi].
  unfold phy_time_msgs. destruct (phy_model hw).
  - shape_step. discriminate.
  - unfold ice_ptp_prep_phy_time_eth56g, for_ports.
    apply (for_ports_from_writes (port_time_msgs_eth56g hw 0 (u32 time))).
    intros p. unfold ice_ptp_prep_port_phy_time_eth56g, port_time_msgs_eth56g.
    eapply shape_weaken.
    { eapply (seq_writes _ _ [_; _] [_; _]);
        [apply ice_write_64b_phy_reg_eth56g_writes, Htx56|].
      eapply shape_weaken;
        [apply (ice_write_64b_phy_reg_eth56g_writes _ _ _ _ _ Hrx56)|].
      cbv beta. intros st evs H. exact H. }
    cbv beta. rewrite Elo, Ehi. auto.
  - unfold ice_ptp_prep_phy_time_e810, ice_write_phy_reg_e810.
    apply (seq_writes _ _ [_] [_]); [apply ice_write_phy_reg_e810_lp_writes|].
    apply (seq_writes _ _ [_] []); [apply ice_write_phy_reg_e810_lp_writes|].
    apply ret0_writes.
  - unfold ice_ptp_prep_phy_time_e822, for_ports.
    apply (for_ports_from_writes (port_time_msgs_e822 0 (u32 time))).
    intros p. unfold port_time_msgs_e822.
    eapply shape_weaken.
    { eapply (seq_writes _ _ [_; _] [_; _]);
        [apply ice_write_64b_phy_reg_e822_writes, Htx822|].
      eapply (seq_writes _ _ [_; _] []);
        [apply ice_write_64b_phy_reg_e822_writes, Hrx822|].
      apply ret0_writes. }
    cbv beta. rewrite Elo, Ehi. auto.
Qed.

(** X14: a successful adjustment stages one and the same 64-bit two's
    complement value, adj * 2^32, everywhere before it issues its command:
    low word 0 and high word adj in the shadow adjust registers of the
    source timer, and in the Tx and the Rx timer of every port of the E822
    and the 56G PHY (in the shadow adjust pair of the E810).  The two
    branches by which the E822 code computes a positive and a non-positive
    adjustment agree with the plain shift of the 56G code.  For
    ice_ptp_adj_clock_at_time the source timer receives the whole 64-bit
    target time, the PHY its low 32 bits, as nanoseconds without a
    sub-nanosecond part. *)
Theorem adjustment_staged_as_twos_complement (hw : ice_hw) (adj : Z) :
  - 2 ^ 31 < adj < 2 ^ 31 ->
  (forall lock_sbq,
     shape (ice_ptp_adj_clock hw adj lock_sbq) (adjustment_staged hw adj lock_sbq)) /\
  (forall at_time,
     shape (ice_ptp_adj_clock_at_time hw at_time adj)
           (adjustment_at_time_staged hw at_time adj)).
Proof.
  intros Hadj. unfold adjustment_staged, adjustment_at_time_staged. split.
  - intros lock_sbq. unfold ice_ptp_adj_clock.
    shape_step. shape_step.
    eapply shape_bind; [apply (ice_ptp_prep_phy_adj_writes hw adj lock_sbq Hadj)|].
    cbv beta. intros st prep Hprep.
    case_failed.
    + shape_step. intros ->. contradiction.
    + eapply shape_weaken; [apply ice_ptp_tmr_cmd_issued|].
      cbv beta. intros st cmd Hcmd Hst.
      exists prep, cmd. split; [reflexivity|]. auto.
  - intros at_time. unfold ice_ptp_adj_clock_at_time.
    do 5 shape_step.
    eapply shape_bind; [apply (ice_ptp_prep_phy_adj_writes hw adj true Hadj)|].
    cbv beta. intros st prep Hprep.
    case_failed.
    { shape_step. intros ->. contradiction. }
    eapply shape_bind; [apply ice_ptp_prep_phy_adj_target_writes|].
    cbv beta. intros st target Htarget.
    case_failed.
    { shape_step. intros ->. contradiction. }
    eapply shape_weaken; [apply ice_ptp_tmr_cmd_issued|].
    cbv beta. intros st cmd Hcmd Hst.
    exists prep, target, cmd.
    unfold lower_32_bits, upper_32_bits in *. rewrite !u32_idem in *.
    split; [reflexivity|]. auto.
Qed.

(** X15: a successful ice_ptp_init_time gives the source timer the whole
    64-bit time (when asked to write the main timer) and every PHY timer
    the low 32 bits of it as nanoseconds, with a zero sub-nanosecond word:
    the upper 32 bits of the time do not reach the PHY.  The values are
    staged before the INIT_TIME command is issued. *)
Theorem ice_ptp_init_time_stages_time
    (hw : ice_hw) (time : Z) (wr_main_tmr : bool) :
  time_regs_known ->
  shape (ice_ptp_init_time hw time wr_main_tmr) (init_time_staged hw time wr_main_tmr).
Proof.
  intros Hregs. unfold init_time_staged, ice_ptp_init_time.
  rewrite land_low_32.
  assert (Hrest :
    shape
      (status <- match phy_model hw with
                 | ICE_PHY_ETH56G => ice_ptp_prep_phy_time_eth56g hw (u32 time)
                 | ICE_PHY_E810 => ice_ptp_prep_phy_time_e810 hw (u32 time)
                 | ICE_PHY_E822 => ice_ptp_prep_phy_time_e822 hw (u32 time)
                 | ICE_PHY_UNSUP => ret (- EOPNOTSUPP)
                 end ;;
       if failed status then ret status
       else ice_ptp_tmr_cmd hw ICE_PTP_INIT_TIME true)
      (fun status evs =>
         status = 0 ->
         exists prep cmd, evs = prep ++ cmd /\
           sbq_writes (phy_time_msgs hw 0 (lower_32_bits time)) true prep /\
           tmr_cmd_issued hw ICE_PTP_INIT_TIME true cmd)).
  { eapply shape_bind; [apply (ice_ptp_prep_phy_time_writes hw (u32 time) Hregs)|].
    cbv beta. intros st prep Hprep. rewrite u32_idem in Hprep.
    case_failed.
    - shape_step. intros ->. contradiction.
    - eapply shape_weaken; [apply ice_ptp_tmr_cmd_issued|].
      cbv beta. intros st cmd Hcmd Hst. exists prep, cmd. auto. }
  destruct wr_main_tmr.
  - do 5 shape_step.
    eapply shape_weaken; [exact Hrest|]. cbv beta.
    intros st evs H Hst. destruct (H Hst) as (prep & cmd & -> & Hp & Hc).
    exists prep, cmd.
    unfold lower_32_bits, upper_32_bits in *. rewrite !u32_idem.
    split; [reflexivity|]. auto.
  - shape_step.
    eapply shape_weaken; [exact Hrest|]. cbv beta.
    intros st evs H Hst. destruct (H Hst) as (prep & cmd & -> & Hp & Hc).
    exists prep, cmd. auto.
Qed.

End ShadowValues.

Section UnitIntervals.
Context {defs : IceDefs} {tdefs : IceTimeDefs}.

(** Dividing by 256 first and by 390625000 afterwards loses at most one
    unit against the division by 10^11. *)
Lemma split_division p l :
  0 <= p -> 0 < l <= 390625000 ->
  p * l / 100000000000 - 1 <= (p / 256 * l) / 390625000 <= p * l / 100000000000.
Proof.
  intros Hp Hl.
  pose proof (Z.div_mod p 256 ltac:(lia)) as Hdm.
  pose proof (Z.mod_pos_bound p 256 ltac:(lia)) as Hr.
  set (q := p / 256) in *. set (r := p mod 256) in *.
  change 100000000000 with (256 * 390625000).
  assert (Hq : 0 <= q) by (apply Z.div_pos; lia).
  split.
  - assert (H1 : p * l / (256 * 390625000) <= (256 * (q * l + 390625000)) / (256 * 390625000)).
    { apply Z.div_le_mono; [lia | nia]. }
    rewrite Z.div_mul_cancel_l in H1 by lia.
    replace (q * l + 390625000) with (q * l + 1 * 390625000) in H1 by lia.
    rewrite Z.div_add in H1 by lia. lia.
  - assert (H1 : (256 * (q * l)) / (256 * 390625000) <= p * l / (256 * 390625000)).
    { apply Z.div_le_mono; [lia | nia]. }
    rewrite Z.div_mul_cancel_l in H1 by lia. exact H1.
Qed.

Lemma uix_of_exact tu line_ui :
  0 <= tu < 2 ^ 64 -> 0 < line_ui -> (tu / 256) * line_ui < 2 ^ 64 ->
  uix_of tu line_ui = (tu / 256 * line_ui) / 390625000.
Proof.
  intros Htu Hl Hfit. unfold uix_of, div64_u64.
  rewrite Z.shiftr_div_pow2 by lia. change (2 ^ 8) with 256.
  assert (Hq : 0 <= tu / 256) by (apply Z.div_pos; lia).
  unfold u64. rewrite (Z.mod_small (tu / 256 * line_ui)) by nia.
  rewrite (Z.mod_small (tu / 256 * line_ui)) by nia.
  reflexivity.
Qed.

(** X16: ice_phy_cfg_uix_e822 reads the increment value of the source
    timer and programs, for the two serdes clock rates, the number of time
    units per 66 unit intervals: the 64-bit values uix_of(tu, 640) and
    uix_of(tu, 256) for tu = frequency * incval, low word first, the
    25G/100G ratio only after the 10G/40G ratio was written.  As long as
    the product tu stays below 2^65 / 5 nothing wraps around, and each
    programmed ratio is the exact one, tu * line_ui / 10^11 rounded down,
    or one less: the split of the division into a shift by 8 bits and a
    division by 390625000 costs at most one unit. *)
Theorem ice_phy_cfg_uix_e822_ratio (hw : ice_hw) (port : Z) :
  uix_regs_known ->
  shape (ice_phy_cfg_uix_e822 hw port) (uix_programmed hw port).
Proof.
  intros [H10 H25]. unfold uix_programmed, ice_phy_cfg_uix_e822.
  eapply shape_bind; [apply ice_ptp_read_src_incval_shape|].
  cbv beta. intros incval e0 (lo & hi & -> & ->).
  fold (tu_per_sec_of hw (incval_of lo hi)).
  unfold LINE_UI_10G_40G, LINE_UI_25G_100G.
  fold (uix_of (tu_per_sec_of hw (incval_of lo hi)) 640).
  fold (uix_of (tu_per_sec_of hw (incval_of lo hi)) 256).
  eapply shape_weaken.
  { eapply (seq_writes _ _ [_; _] [_; _]);
      [apply ice_write_64b_phy_reg_e822_writes, H10|].
    eapply (seq_writes _ _ [_; _] []);
      [apply ice_write_64b_phy_reg_e822_writes, H25|].
    apply ret0_writes. }
  cbv beta. intros status writes Hw.
  exists lo, hi, writes. split; [reflexivity|]. cbv zeta. split; [exact Hw|].
  intros Hpos Hfit.
  set (tu := u64 (ice_e822_pll_freq (ice_e822_time_ref hw)) * incval_of lo hi) in *.
  assert (Etu : tu_per_sec_of hw (incval_of lo hi) = tu).
  { unfold tu_per_sec_of. fold tu. unfold u64 at 1. apply Z.mod_small. lia. }
  rewrite Etu.
  assert (Hq : 0 <= tu / 256) by (apply Z.div_pos; lia).
  assert (Hq2 : tu / 256 * 256 <= tu).
  { pose proof (Z.div_mod tu 256 ltac:(lia)).
    pose proof (Z.mod_pos_bound tu 256 ltac:(lia)). lia. }
  rewrite !uix_of_exact by lia.
  change (10 ^ 11) with 100000000000.
  split; apply split_division; lia.
Qed.

End UnitIntervals.

Section RoundTrips.
Context {defs : IceDefs} {tdefs : IceTimeDefs}.

Lemma last_written_snoc t e msg :
  last_written (t ++ [e]) msg =
  match e with
  | EvSbq m _ status _ =>
      match opcode m with
      | ice_sbq_msg_wr =>
          if (status =? 0) && same_register m msg then Some (data m)
          else last_written t msg
      | ice_sbq_msg_rd => last_written t msg
      end
  | _ => last_written t msg
  end.
Proof. unfold last_written. rewrite fold_left_app. reflexivity. Qed.

Lemma same_register_refl m : same_register m m = true.
Proof. unfold same_register. rewrite !Z.eqb_refl. reflexivity. Qed.

Lemma same_register_sym a b : same_register a b = same_register b a.
Proof.
  unfold same_register.
  rewrite (Z.eqb_sym (dest_dev a)), (Z.eqb_sym (msg_addr_low a)),
    (Z.eqb_sym (msg_addr_high a)). reflexivity.
Qed.

(** A write to a register that holds. *)
Lemma sbq_write_holds hw msg lock_sbq t :
  registers_hold (dev hw) -> opcode msg = ice_sbq_msg_wr ->
  exists w,
    ice_sbq_rw_reg_lp hw msg lock_sbq t = ((0, w), t ++ [EvSbq msg lock_sbq 0 w]).
Proof.
  intros Hd Hop. unfold ice_sbq_rw_reg_lp.
  destruct (Hd t msg lock_sbq) as [Hw _]. specialize (Hw Hop).
  destruct (dev_sbq (dev hw) t msg lock_sbq) as [s v]. cbn [fst] in Hw. subst s.
  eauto.
Qed.

(** A read of a register written before. *)
Lemma sbq_read_holds hw msg lock_sbq t v :
  registers_hold (dev hw) -> opcode msg = ice_sbq_msg_rd ->
  last_written t msg = Some v ->
  ice_sbq_rw_reg_lp hw msg lock_sbq t =
    ((0, u32 v), t ++ [EvSbq msg lock_sbq 0 (u32 v)]).
Proof.
  intros Hd Hop Hv. unfold ice_sbq_rw_reg_lp.
  destruct (Hd t msg lock_sbq) as [_ Hr]. rewrite (Hr Hop v Hv). reflexivity.
Qed.

(** Writing two distinct registers, then reading them back in the same
    order, through any access functions that send the given messages. *)
Lemma pair_round_trip hw t (wl wh rl rh : ice_sbq_msg_input) :
  registers_hold (dev hw) ->
  opcode wl = ice_sbq_msg_wr -> opcode wh = ice_sbq_msg_wr ->
  opcode rl = ice_sbq_msg_rd -> opcode rh = ice_sbq_msg_rd ->
  same_register wl rl = true -> same_register wh rh = true ->
  same_register wh rl = false ->
  exists w1 w2,
    let t1 := t ++ [EvSbq wl true 0 w1] in
    let t2 := t1 ++ [EvSbq wh true 0 w2] in
    let t3 := t2 ++ [EvSbq rl true 0 (u32 (data wl))] in
    ice_sbq_rw_reg_lp hw wl true t = ((0, w1), t1) /\
    ice_sbq_rw_reg_lp hw wh true t1 = ((0, w2), t2) /\
    ice_sbq_rw_reg_lp hw rl true t2 = ((0, u32 (data wl)), t3) /\
    fst (ice_sbq_rw_reg_lp hw rh true t3) = (0, u32 (data wh)).
Proof.
  intros Hd Hwl Hwh Hrl Hrh Hll Hhh Hhl.
  destruct (sbq_write_holds hw wl true t Hd Hwl) as [w1 E1].
  destruct (sbq_write_holds hw wh true (t ++ [EvSbq wl true 0 w1]) Hd Hwh) as [w2 E2].
  exists w1, w2. cbv zeta.
  split; [exact E1|]. split; [exact E2|].
  assert (Hl : last_written ((t ++ [EvSbq wl true 0 w1]) ++ [EvSbq wh true 0 w2]) rl
               = Some (data wl)).
  { rewrite last_written_snoc, Hwh. cbn [Z.eqb andb]. rewrite Hhl.
    rewrite last_written_snoc, Hwl. cbn [Z.eqb andb]. rewrite Hll. reflexivity. }
  split; [apply sbq_read_holds; assumption|].
  rewrite (sbq_read_holds hw rh true _ (data wh) Hd Hrh); [reflexivity|].
  rewrite last_written_snoc, Hrl.
  rewrite last_written_snoc, Hwh. cbn [Z.eqb andb]. rewrite Hhh. reflexivity.
Qed.

(** *** Words and values *)

Lemma words_64b v :
  Z.lor (Z.shiftl (u32 (Z.shiftr v 32)) 32) (u32 v) = u64 v.
Proof.
  unfold u32, u64. apply Z.bits_inj'. intros n Hn.
  rewrite Z.lor_spec, Z.shiftl_spec by lia.
  destruct (Z.ltb_spec n 32).
  - rewrite (Z.testbit_neg_r _ (n - 32)) by lia.
    rewrite !Z.mod_pow2_bits_low by lia. reflexivity.
  - rewrite (Z.mod_pow2_bits_high (v) 32 n) by lia. rewrite orb_false_r.
    destruct (Z.ltb_spec n 64).
    + rewrite !Z.mod_pow2_bits_low by lia. rewrite Z.shiftr_spec by lia.
      f_equal. lia.
    + rewrite !Z.mod_pow2_bits_high by lia. reflexivity.
Qed.

Lemma words_40b v :
  u64 (Z.lor (Z.shiftl (u32 (Z.shiftr v 8)) 8)
             (Z.land (u32 (Z.land v 0xFF)) 0xFF)) = v mod 2 ^ 40.
Proof.
  unfold u32, u64. apply Z.bits_inj'. intros n Hn.
  change 0xFF with (Z.ones 8).
  destruct (Z.ltb_spec n 64).
  - rewrite Z.mod_pow2_bits_low by lia.
    rewrite Z.lor_spec, Z.shiftl_spec, Z.land_spec by lia.
    rewrite Z.testbit_ones_nonneg by lia.
    destruct (Z.ltb_spec n 8).
    + rewrite (Z.testbit_neg_r _ (n - 8)) by lia.
      rewrite !Z.mod_pow2_bits_low by lia.
      rewrite Z.land_spec, Z.testbit_ones_nonneg by lia.
      replace (n <? 8) with true by (symmetry; apply Z.ltb_lt; lia).
      cbn [orb]. rewrite !andb_true_r. reflexivity.
    + replace (n <? 8) with false by (symmetry; apply Z.ltb_ge; lia).
      rewrite andb_false_r, orb_false_r.
      destruct (Z.ltb_spec n 40).
      * rewrite !Z.mod_pow2_bits_low by lia. rewrite Z.shiftr_spec by lia.
        f_equal. lia.
      * rewrite !Z.mod_pow2_bits_high by lia. reflexivity.
  - rewrite !Z.mod_pow2_bits_high by lia. reflexivity.
Qed.

(** *** The access functions on a register that holds *)

Ltac same_reg_tac :=
  unfold same_register, eth56g_reg_msg; cbn [dest_dev msg_addr_low msg_addr_high
    ice_fill_phy_msg_e822];
  rewrite !Z.eqb_refl; reflexivity.

Ltac run_pair :=
  unfold ice_write_phy_reg_e822, ice_write_phy_reg_e822_lp,
    ice_read_phy_reg_e822, ice_read_phy_reg_e822_lp,
    ice_write_phy_reg_eth56g, ice_write_phy_reg_eth56g_lp,
    ice_write_phy_port_eth56g_lp, ice_write_phy_eth56g_raw_lp,
    ice_read_phy_reg_eth56g, ice_read_phy_reg_eth56g_lp,
    ice_read_phy_port_eth56g_lp, ice_read_phy_eth56g_raw_lp;
  unfold bind, ret; cbv beta zeta.

Ltac last_read E4 :=
  match goal with
  | |- context [ice_sbq_rw_reg_lp ?h ?m ?l ?u] =>
      destruct (ice_sbq_rw_reg_lp h m l u) as [[? ?] ?];
      cbn [fst] in E4; injection E4 as -> ->; cbn [failed Z.eqb negb fst]
  end.

(** X17: on a device whose sideband registers keep what is written to them,
    a value written with one of the 64-bit or 40-bit write functions is
    read back by the matching read function: all 64 bits of it from a
    64-bit register pair, its low 40 bits from a 40-bit one (with the
    8-bit low part of the headers).  The two registers of the pair must be
    different registers.  On the 56G PHY the 40-bit read takes the high
    word from the register 4 bytes above the low one, so it reads back
    what was written only for a pair laid out like this. *)
Theorem phy_register_round_trips (hw : ice_hw) (port val : Z) (t : trace) :
  registers_hold (dev hw) ->
  (forall low high,
     ice_is_64b_phy_reg_e822 low = Some high ->
     same_register (ice_fill_phy_msg_e822 port high ice_sbq_msg_wr 0)
                   (ice_fill_phy_msg_e822 port low ice_sbq_msg_rd 0) = false ->
     exists t1,
       ice_write_64b_phy_reg_e822 hw port low val t = (0, t1) /\
       fst (ice_read_64b_phy_reg_e822 hw port low t1) = (0, u64 val)) /\
  (forall low high,
     P_REG_40B_LOW_M = 0xFF -> P_REG_40B_HIGH_S = 8 ->
     ice_is_40b_phy_reg_e822 low = Some high ->
     same_register (ice_fill_phy_msg_e822 port high ice_sbq_msg_wr 0)
                   (ice_fill_phy_msg_e822 port low ice_sbq_msg_rd 0) = false ->
     exists t1,
       ice_write_40b_phy_reg_e822 hw port low val t = (0, t1) /\
       fst (ice_read_40b_phy_reg_e822 hw port low t1) = (0, val mod 2 ^ 40)) /\
  (forall low high,
     port < max_phy_port hw ->
     ice_is_64b_phy_reg_eth56g low = Some high ->
     same_register (eth56g_reg_msg hw port high ice_sbq_msg_wr 0)
                   (eth56g_reg_msg hw port low ice_sbq_msg_rd 0) = false ->
     exists t1,
       ice_write_64b_phy_reg_eth56g hw port low val t = (0, t1) /\
       fst (ice_read_64b_phy_reg_eth56g hw port low t1) = (0, u64 val)) /\
  (forall low high,
     port < max_phy_port hw ->
     P_REG_40B_LOW_M = 0xFF -> P_REG_40B_HIGH_S = 8 ->
     ice_is_40b_phy_reg_eth56g low = Some high ->
     u16 (low + 4) = u16 high ->
     same_register (eth56g_reg_msg hw port high ice_sbq_msg_wr 0)
                   (eth56g_reg_msg hw port low ice_sbq_msg_rd 0) = false ->
     exists t1,
       ice_write_40b_phy_reg_eth56g hw port low val t = (0, t1) /\
       fst (ice_read_40b_phy_reg_eth56g hw port low t1) = (0, val mod 2 ^ 40)).
Proof.
  intros Hd.
  assert (Hport : forall p, p < max_phy_port hw -> (p >=? max_phy_port hw) = false).
  { intros p Hp. destruct (Z.geb_spec p (max_phy_port hw)); [lia | reflexivity]. }
  split; [|split; [|split]].
  - intros low high Hreg Hdist.
    destruct (pair_round_trip hw t
                (ice_fill_phy_msg_e822 port low ice_sbq_msg_wr (u32 (lower_32_bits val)))
                (ice_fill_phy_msg_e822 port high ice_sbq_msg_wr (u32 (upper_32_bits val)))
                (ice_fill_phy_msg_e822 port low ice_sbq_msg_rd 0)
                (ice_fill_phy_msg_e822 port high ice_sbq_msg_rd 0) Hd)
      as (w1 & w2 & E1 & E2 & E3 & E4);
      try reflexivity; try same_reg_tac; try exact Hdist.
    cbv zeta in *. eexists.
    unfold ice_write_64b_phy_reg_e822, ice_read_64b_phy_reg_e822. rewrite Hreg.
    run_pair.
    rewrite E1. cbn [failed Z.eqb negb]. rewrite E2. cbn [failed Z.eqb negb].
    split; [reflexivity|].
    rewrite E3. cbn [failed Z.eqb negb].
    last_read E4.
    cbn [data ice_fill_phy_msg_e822]. unfold upper_32_bits, lower_32_bits.
    rewrite !u32_idem, words_64b. reflexivity.
  - intros low high Hm Hs Hreg Hdist.
    destruct (pair_round_trip hw t
                (ice_fill_phy_msg_e822 port low ice_sbq_msg_wr
                   (u32 (u32 (Z.land val P_REG_40B_LOW_M))))
                (ice_fill_phy_msg_e822 port high ice_sbq_msg_wr
                   (u32 (u32 (Z.shiftr val P_REG_40B_HIGH_S))))
                (ice_fill_phy_msg_e822 port low ice_sbq_msg_rd 0)
                (ice_fill_phy_msg_e822 port high ice_sbq_msg_rd 0) Hd)
      as (w1 & w2 & E1 & E2 & E3 & E4);
      try reflexivity; try same_reg_tac; try exact Hdist.
    cbv zeta in *. eexists.
    unfold ice_write_40b_phy_reg_e822, ice_read_40b_phy_reg_e822. rewrite Hreg.
    run_pair.
    rewrite E1. cbn [failed Z.eqb negb]. rewrite E2. cbn [failed Z.eqb negb].
    split; [reflexivity|].
    rewrite E3. cbn [failed Z.eqb negb].
    last_read E4.
    cbn [data ice_fill_phy_msg_e822]. rewrite Hm, Hs, !u32_idem, words_40b. reflexivity.
  - intros low high Hp Hreg Hdist.
    destruct (pair_round_trip hw t
                (eth56g_reg_msg hw port low ice_sbq_msg_wr (u32 (lower_32_bits val)))
                (eth56g_reg_msg hw port high ice_sbq_msg_wr (u32 (upper_32_bits val)))
                (eth56g_reg_msg hw port low ice_sbq_msg_rd 0)
                (eth56g_reg_msg hw port high ice_sbq_msg_rd 0) Hd)
      as (w1 & w2 & E1 & E2 & E3 & E4);
      try reflexivity; try same_reg_tac; try exact Hdist.
    cbv zeta in *. eexists.
    unfold ice_write_64b_phy_reg_eth56g, ice_read_64b_phy_reg_eth56g. rewrite Hreg.
    run_pair. rewrite (Hport port Hp).
    unfold ice_phy_port_res_address_eth56g. cbn [failed Z.eqb negb].
    unfold eth56g_reg_msg, ice_phy_port_res_address_eth56g in E1, E2, E3, E4.
    cbn [snd] in E1, E2, E3, E4.
    rewrite E1. cbn [failed Z.eqb negb]. rewrite E2. cbn [failed Z.eqb negb].
    split; [reflexivity|].
    rewrite E3. cbn [failed Z.eqb negb].
    last_read E4.
    cbn [data]. unfold upper_32_bits, lower_32_bits.
    rewrite !u32_idem, words_64b. reflexivity.
  - intros low high Hp Hm Hs Hreg Hlay Hdist.
    destruct (pair_round_trip hw t
                (eth56g_reg_msg hw port low ice_sbq_msg_wr
                   (u32 (u32 (Z.land val P_REG_40B_LOW_M))))
                (eth56g_reg_msg hw port high ice_sbq_msg_wr
                   (u32 (u32 (Z.shiftr val P_REG_40B_HIGH_S))))
                (eth56g_reg_msg hw port low ice_sbq_msg_rd 0)
                (eth56g_reg_msg hw port high ice_sbq_msg_rd 0) Hd)
      as (w1 & w2 & E1 & E2 & E3 & E4);
      try reflexivity; try same_reg_tac; try exact Hdist.
    cbv zeta in *. eexists.
    unfold ice_write_40b_phy_reg_eth56g, ice_read_40b_phy_reg_eth56g. rewrite Hreg.
    run_pair. rewrite (Hport port Hp).
    unfold ice_phy_port_res_address_eth56g. cbn [failed Z.eqb negb].
    unfold eth56g_reg_msg, ice_phy_port_res_address_eth56g in E1, E2, E3, E4.
    cbn [snd] in E1, E2, E3, E4.
    rewrite E1. cbn [failed Z.eqb negb]. rewrite E2. cbn [failed Z.eqb negb].
    split; [reflexivity|].
    rewrite E3. cbn [failed Z.eqb negb].
    assert (Eu : u16 (u16 (low + 4)) = u16 high).
    { rewrite <- Hlay. unfold u16. apply Z.mod_mod. lia. }
    rewrite Eu.
    last_read E4.
    cbn [data]. rewrite Hm, Hs, !u32_idem, words_40b. reflexivity.
Qed.

End RoundTrips.

Section Synchronise.
Context {defs : IceDefs} {tdefs : IceTimeDefs}.

Lemma ice_ptp_one_port_cmd_e822_staged hw port cmd lock_sbq :
  shape (ice_ptp_one_port_cmd_e822 hw port cmd lock_sbq)
    (fun status evs =>
       status = 0 -> exists cmd_val, phy_cmd_val hw cmd = Some cmd_val /\
                                     staged_e822 cmd_val lock_sbq port evs).
Proof.
  eapply shape_weaken; [apply ice_ptp_one_port_cmd_e822_shape|].
  cbv beta. intros st evs [_ H]. exact H.
Qed.

Lemma ice_read_64b_phy_reg_e822_value hw port low high :
  ice_is_64b_phy_reg_e822 low = Some high ->
  shape (ice_read_64b_phy_reg_e822 hw port low)
    (fun r evs =>
       fst r = 0 ->
       exists l h, evs = reads_64b port low high l h /\ r = (0, val_64b l h)).
Proof.
  intros Hreg. eapply shape_weaken; [apply ice_read_64b_phy_reg_e822_shape, Hreg|].
  cbv beta. intros r evs [[Hs _] | H]; [contradiction | auto].
Qed.

Lemma ice_ptp_read_port_capture_e822_value hw port :
  capture_regs_known ->
  shape (ice_ptp_read_port_capture_e822 hw port)
    (fun r evs =>
       fst (fst r) = 0 ->
       exists txl txh rxl rxh,
         evs = reads_64b port P_REG_TX_CAPTURE_L P_REG_TX_CAPTURE_U txl txh
               ++ reads_64b port P_REG_RX_CAPTURE_L P_REG_RX_CAPTURE_U rxl rxh /\
         r = (0, val_64b txl txh, val_64b rxl rxh)).
Proof.
  intros [Htx Hrx]. unfold ice_ptp_read_port_capture_e822.
  eapply shape_bind; [apply (ice_read_64b_phy_reg_e822_value hw port _ _ Htx)|].
  cbv beta. intros [st tx_ts] e1 H1. cbn [fst] in H1.
  case_failed.
  { shape_step. cbn [fst]. intros ->. contradiction. }
  destruct (H1 eq_refl) as (txl & txh & -> & [= ->]).
  eapply shape_bind; [apply (ice_read_64b_phy_reg_e822_value hw port _ _ Hrx)|].
  cbv beta. intros [st rx_ts] e2 H2. cbn [fst] in H2.
  case_failed.
  { shape_step. cbn [fst]. intros ->. contradiction. }
  destruct (H2 eq_refl) as (rxl & rxh & -> & [= ->]).
  shape_step. intros _. exists txl, txh, rxl, rxh. rewrite app_nil_r. auto.
Qed.

Lemma ice_read_phy_and_phc_time_e822_captured hw port :
  capture_regs_known ->
  shape (ice_read_phy_and_phc_time_e822 hw port)
    (fun r evs =>
       fst (fst r) = 0 ->
       exists zo lo txl txh rxl rxh,
         time_captured_e822 hw port zo lo txl txh rxl rxh evs /\
         r = (0, val_64b txl txh, val_64b zo lo)).
Proof.
  intros Hregs. unfold ice_read_phy_and_phc_time_e822.
  eapply shape_bind; [apply ice_ptp_src_cmd_shape|].
  cbv beta. intros [] e0 ->.
  eapply shape_bind; [apply ice_ptp_one_port_cmd_e822_staged|].
  cbv beta. intros st staging Hst.
  case_failed.
  { shape_step. cbn [fst]. intros ->. contradiction. }
  destruct (Hst eq_refl) as (cmd_val & Hcmd & Hstaged).
  unfold ice_ptp_exec_tmr_cmd, ice_ptp_clean_cmd.
  do 6 shape_step. shape_step. shape_step.
  eapply shape_bind; [apply (ice_ptp_read_port_capture_e822_value hw port Hregs)|].
  cbv beta. intros [[st tx_time] rx_time] e3 H3. cbn [fst] in H3.
  case_failed.
  { shape_step. cbn [fst]. intros ->. contradiction. }
  destruct (H3 eq_refl) as (txl & txh & rxl & rxh & -> & [= -> ->]).
  shape_step. intros _.
  exists v, v0, txl, txh, rxl, rxh. split; [|reflexivity].
  exists cmd_val, staging. split; [exact Hcmd|]. split; [exact Hstaged|].
  unfold commit_events. rewrite ?app_nil_r, <- ?app_assoc. reflexivity.
Qed.

Lemma err_unlock_vacuous hw status (P : list event -> Prop) :
  status <> 0 ->
  shape (ice_ptp_unlock hw ;;; ret status) (fun st evs => st = 0 -> P evs).
Proof.
  intros Hs. unfold ice_ptp_unlock. shape_step. shape_step.
  intros ->. contradiction.
Qed.

(** X18: a successful ice_sync_phy_timer_e822 adds to both timers of the
    port the difference between the PHC time and the Tx time of the port
    that one READ_TIME command captured together, in 64-bit two's
    complement arithmetic: the PHC time is SHTIME_L:SHTIME_0 of the source
    timer, the Rx time captured is read but does not enter.  The
    difference is staged after the capture, committed by an ADJ_TIME
    command on the port, and the times are captured once more before the
    semaphore is released. *)
Theorem ice_sync_phy_timer_e822_difference (hw : ice_hw) (port : Z) :
  capture_regs_known ->
  shape (ice_sync_phy_timer_e822 hw port) (phy_timer_synced hw port).
Proof.
  intros Hregs. unfold phy_timer_synced, ice_sync_phy_timer_e822.
  eapply shape_bind; [apply ice_ptp_lock_shape|]. cbv beta.
  intros [] lock_evs Hlock; cbn [negb].
  2:{ shape_step. discriminate. }
  eapply shape_bind; [apply (ice_read_phy_and_phc_time_e822_captured hw port Hregs)|].
  cbv beta. intros [[st phy_time] phc_time] capture Hcap. cbn [fst] in Hcap.
  case_failed.
  { apply err_unlock_vacuous. exact E. }
  destruct (Hcap eq_refl) as (zo & lo & txl & txh & rxl & rxh & Hcaptured & [= -> ->]).
  eapply shape_bind; [apply ice_ptp_prep_port_adj_e822_writes|].
  cbv beta. intros st adj Hadj.
  case_failed.
  { apply err_unlock_vacuous. exact E. }
  specialize (Hadj eq_refl).
  eapply shape_bind; [apply ice_ptp_one_port_cmd_e822_staged|].
  cbv beta. intros st staging Hst.
  case_failed.
  { apply err_unlock_vacuous. exact E. }
  destruct (Hst eq_refl) as (cmd_val & Hcmd & Hstaged).
  eapply shape_bind; [apply ice_ptp_src_cmd_shape|].
  cbv beta. intros [] e0 ->.
  unfold ice_ptp_exec_tmr_cmd, ice_ptp_clean_cmd.
  do 6 shape_step.
  eapply shape_bind; [apply (ice_read_phy_and_phc_time_e822_captured hw port Hregs)|].
  cbv beta. intros [[st phy_time'] phc_time'] recapture Hrecap. cbn [fst] in Hrecap.
  case_failed.
  { apply err_unlock_vacuous. exact E. }
  destruct (Hrecap eq_refl) as (zo' & lo' & txl' & txh' & rxl' & rxh' & Hrecaptured & _).
  unfold ice_ptp_unlock. shape_step. shape_step. intros _.
  exists lock_evs, capture, zo, lo, txl, txh, rxl, rxh, adj, cmd_val, staging, recapture.
  split; [exact Hlock|]. split; [exact Hcaptured|].
  split.
  { cbv zeta. unfold lower_32_bits, upper_32_bits in *.
    rewrite !u32_idem in Hadj. exact Hadj. }
  split; [exact Hcmd|]. split; [exact Hstaged|].
  split; [eauto 8|].
  unfold commit_events. rewrite ?app_nil_r, <- ?app_assoc. reflexivity.
Qed.

End Synchronise.

Section Unsupported.
Context {defs : IceDefs} {tdefs : IceTimeDefs}.

(** X19: what the entry points do for a PHY model they have no case for.
    With an unknown PHY model every one of them fails with -EOPNOTSUPP:
    the accessors before any transaction; ice_ptp_tmr_cmd after it has
    written the command to the source timer, which is then neither
    executed nor cleared; the commands on all timers after they have
    written the shadow registers of the source timer, without writing any
    command.  With the E810, which has no port capture and no port
    increment value, ice_ptp_read_port_capture, ice_ptp_read_phy_incval
    and ice_ptp_one_port_cmd fail with -EOPNOTSUPP as well, while
    ice_ptp_clear_phy_offset_ready succeeds and
    ice_get_phy_tx_tstamp_ready reports all 64 timestamps ready, both
    without any transaction. *)
Theorem phy_model_without_case (hw : ice_hw) (t : trace) :
  (phy_model hw = ICE_PHY_UNSUP ->
   let tmr_idx := tmr_index_owned hw in
   (forall block idx,
      ice_read_phy_tstamp hw block idx t = ((- EOPNOTSUPP, 0), t) /\
      ice_clear_phy_tstamp hw block idx t = (- EOPNOTSUPP, t) /\
      ice_get_phy_tx_tstamp_ready hw block t = ((- EOPNOTSUPP, 0), t)) /\
   ice_ptp_clear_phy_offset_ready hw t = (- EOPNOTSUPP, t) /\
   (forall cmd lock_sbq,
      ice_ptp_tmr_cmd hw cmd lock_sbq t = (- EOPNOTSUPP, t ++ src_cmd_events hw cmd)) /\
   (forall time wr_main_tmr,
      ice_ptp_init_time hw time wr_main_tmr t =
        (- EOPNOTSUPP,
         t ++ if wr_main_tmr then
                [EvWr32 (GLTSYN_SHTIME_L tmr_idx) (lower_32_bits time);
                 EvWr32 (GLTSYN_SHTIME_H tmr_idx) (upper_32_bits time);
                 EvWr32 (GLTSYN_SHTIME_0 tmr_idx) 0]
              else [])) /\
   (forall incval wr_main_tmr,
      ice_ptp_write_incval hw incval wr_main_tmr t =
        (- EOPNOTSUPP,
         t ++ if wr_main_tmr then
                [EvWr32 (GLTSYN_SHADJ_L tmr_idx) (lower_32_bits incval);
                 EvWr32 (GLTSYN_SHADJ_H tmr_idx) (upper_32_bits incval)]
              else [])) /\
   (forall adj lock_sbq,
      ice_ptp_adj_clock hw adj lock_sbq t =
        (- EOPNOTSUPP,
         t ++ [EvWr32 (GLTSYN_SHADJ_L tmr_idx) 0;
               EvWr32 (GLTSYN_SHADJ_H tmr_idx) (u32 adj)])) /\
   (forall at_time adj,
      ice_ptp_adj_clock_at_time hw at_time adj t =
        (- EOPNOTSUPP,
         t ++ [EvWr32 (GLTSYN_SHADJ_L tmr_idx) 0;
               EvWr32 (GLTSYN_SHADJ_H tmr_idx) (u32 adj);
               EvWr32 (GLTSYN_SHTIME_0 tmr_idx) 0;
               EvWr32 (GLTSYN_SHTIME_L tmr_idx) (lower_32_bits at_time);
               EvWr32 (GLTSYN_SHTIME_H tmr_idx) (upper_32_bits at_time)]))) /\
  (phy_model hw = ICE_PHY_UNSUP \/ phy_model hw = ICE_PHY_E810 ->
   forall port,
     ice_ptp_read_port_capture hw port t = ((- EOPNOTSUPP, 0, 0), t) /\
     ice_ptp_read_phy_incval hw port t = ((- EOPNOTSUPP, 0), t) /\
     (forall cmd lock_sbq,
        ice_ptp_one_port_cmd hw port cmd lock_sbq t = (- EOPNOTSUPP, t))) /\
  (phy_model hw = ICE_PHY_E810 ->
   ice_ptp_clear_phy_offset_ready hw t = (0, t) /\
   (forall block,
      ice_get_phy_tx_tstamp_ready hw block t = ((0, 2 ^ 64 - 1), t))).
Proof.
  split; [|split].
  - intros Hmodel tmr_idx.
    assert (Hw : forall addr val u, wr32 hw addr val u = (tt, u ++ [EvWr32 addr (u32 val)]))
      by reflexivity.
    split; [|split; [|split; [|split; [|split; [|split]]]]].
    + intros block idx.
      unfold ice_read_phy_tstamp, ice_clear_phy_tstamp, ice_get_phy_tx_tstamp_ready.
      rewrite Hmodel. auto.
    + unfold ice_ptp_clear_phy_offset_ready. rewrite Hmodel. reflexivity.
    + intros cmd lock_sbq.
      unfold ice_ptp_tmr_cmd, ice_ptp_port_cmd_dispatch, ice_ptp_src_cmd,
        src_cmd_events, bind.
      rewrite Hmodel. destruct (src_cmd_val hw cmd).
      * rewrite Hw. reflexivity.
      * unfold ret. rewrite app_nil_r. reflexivity.
    + intros time wr. unfold ice_ptp_init_time, bind. rewrite Hmodel.
      destruct wr.
      * rewrite !Hw. unfold ret. cbn [failed Z.eqb negb EOPNOTSUPP Z.opp].
        rewrite <- !app_assoc. unfold lower_32_bits, upper_32_bits.
        rewrite !u32_idem. reflexivity.
      * unfold ret. cbn [failed Z.eqb negb EOPNOTSUPP Z.opp].
        rewrite app_nil_r. reflexivity.
    + intros incval wr. unfold ice_ptp_write_incval, bind. rewrite Hmodel.
      destruct wr.
      * rewrite !Hw. unfold ret. cbn [failed Z.eqb negb EOPNOTSUPP Z.opp].
        rewrite <- !app_assoc. unfold lower_32_bits, upper_32_bits.
        rewrite !u32_idem. reflexivity.
      * unfold ret. cbn [failed Z.eqb negb EOPNOTSUPP Z.opp].
        rewrite app_nil_r. reflexivity.
    + intros adj lock_sbq. unfold ice_ptp_adj_clock, bind. rewrite Hmodel.
      rewrite !Hw. unfold ret. cbn [failed Z.eqb negb EOPNOTSUPP Z.opp].
      rewrite <- !app_assoc. reflexivity.
    + intros at_time adj. unfold ice_ptp_adj_clock_at_time, bind. rewrite Hmodel.
      rewrite !Hw. unfold ret. cbn [failed Z.eqb negb EOPNOTSUPP Z.opp].
      rewrite <- !app_assoc. unfold lower_32_bits, upper_32_bits.
      rewrite !u32_idem. reflexivity.
  - intros Hmodel port.
    unfold ice_ptp_read_port_capture, ice_ptp_read_phy_incval, ice_ptp_one_port_cmd.
    destruct Hmodel as [-> | ->]; auto.
  - intros Hmodel.
    unfold ice_ptp_clear_phy_offset_ready, ice_get_phy_tx_tstamp_ready,
      ice_get_phy_tx_tstamp_ready_e810.
    rewrite Hmodel. auto.
Qed.

End Unsupported.

Section Interrupt.
Context {defs : IceDefs} {tdefs : IceTimeDefs}.




End Interrupt.

(** * The timers on concrete inputs *)

(** An E822 device with two ports and a quiet sideband queue. *)
Lemma timer_commands_pulse_iff_success_witness :
  let hw := Sample.hw_of ICE_PHY_E822 2 Sample.quiet_dev in
  let P := pulse_iff_success (defs := Sample.defs) in
  (forall time wr_main_tmr,
     shape (ice_ptp_init_time (defs := Sample.defs) (tdefs := SampleTime.tdefs)
              hw time wr_main_tmr) P) /\
  (forall incval wr_main_tmr,
     shape (ice_ptp_write_incval (defs := Sample.defs) hw incval wr_main_tmr) P) /\
  (forall adj lock_sbq,
     shape (ice_ptp_adj_clock (defs := Sample.defs)
              hw adj lock_sbq) P) /\
  (forall at_time adj,
     shape (ice_ptp_adj_clock_at_time (defs := Sample.defs) (tdefs := SampleTime.tdefs)
              hw at_time adj) P).
Proof.
  intros hw P.
  apply (timer_commands_pulse_iff_success
           (defs := Sample.defs) (tdefs := SampleTime.tdefs) hw).
  - vm_compute. lia.
  - vm_compute. intuition lia.
Defined.

(** A command that fails at the second register of port 0 and one that
    succeeds, counted. *)
Example ice_ptp_adj_clock_pulses :
  let ok := Sample.hw_of ICE_PHY_E822 2 Sample.quiet_dev in
  let ko := Sample.hw_of ICE_PHY_E822 2 (Sample.failing_dev 3 (- EIO)) in
  let run hw := ice_ptp_adj_clock (defs := Sample.defs)
                  hw (-5) true [] in
  fst (run ok) = 0 /\
  count_ev (is_wr32_to 0x00088814) (snd (run ok)) = 1%nat /\
  fst (run ko) = - EIO /\
  count_ev (is_wr32_to 0x00088814) (snd (run ko)) = 0%nat.
Proof. vm_compute. repeat split. Qed.

(** An adjustment by -5 ns. *)
Lemma adjustment_staged_as_twos_complement_witness :
  let hw := Sample.hw_of ICE_PHY_E822 2 Sample.quiet_dev in
  (forall lock_sbq,
     shape (ice_ptp_adj_clock (defs := Sample.defs)
              hw (-5) lock_sbq)
           (adjustment_staged (defs := Sample.defs) (tdefs := SampleTime.tdefs)
              hw (-5) lock_sbq)) /\
  (forall at_time,
     shape (ice_ptp_adj_clock_at_time (defs := Sample.defs) (tdefs := SampleTime.tdefs)
              hw at_time (-5))
           (adjustment_at_time_staged (defs := Sample.defs) (tdefs := SampleTime.tdefs)
              hw at_time (-5))).
Proof.
  intros hw.
  apply (adjustment_staged_as_twos_complement
           (defs := Sample.defs) (tdefs := SampleTime.tdefs) hw (-5)).
  lia.
Defined.

(** The words of -5 * 2^32 on port 0 of an E822 device with one port. *)
Example ice_ptp_adj_clock_words :
  let hw := Sample.hw_of ICE_PHY_E822 1 Sample.quiet_dev in
  let wr offset val :=
    EvSbq (ice_fill_phy_msg_e822 (defs := Sample.defs) 0 offset ice_sbq_msg_wr val)
          true 0 0 in
  firstn 6 (snd (ice_ptp_adj_clock (defs := Sample.defs)
                   hw (-5) true [])) =
    [EvWr32 0x00088908 0; EvWr32 0x00088910 0xFFFFFFFB;
     wr 0x44C 0; wr 0x450 0xFFFFFFFB; wr 0x46C 0; wr 0x470 0xFFFFFFFB].
Proof. vm_compute. reflexivity. Qed.

Lemma sample_time_regs_known : time_regs_known (defs := Sample.defs).
Proof. repeat split. Qed.

(** The time 0x1_0000_0007 ns. *)
Lemma ice_ptp_init_time_stages_time_witness :
  let hw := Sample.hw_of ICE_PHY_E822 2 Sample.quiet_dev in
  time_regs_known (defs := Sample.defs) /\
  shape (ice_ptp_init_time (defs := Sample.defs) (tdefs := SampleTime.tdefs)
           hw 0x100000007 true)
        (init_time_staged (defs := Sample.defs) (tdefs := SampleTime.tdefs)
           hw 0x100000007 true).
Proof.
  intros hw. split; [exact sample_time_regs_known|].
  apply (ice_ptp_init_time_stages_time
           (defs := Sample.defs) (tdefs := SampleTime.tdefs) hw 0x100000007 true).
  exact sample_time_regs_known.
Defined.

(** The upper word of the time reaches the source timer only. *)
Example ice_ptp_init_time_words :
  let hw := Sample.hw_of ICE_PHY_E822 1 Sample.quiet_dev in
  let wr offset val :=
    EvSbq (ice_fill_phy_msg_e822 (defs := Sample.defs) 0 offset ice_sbq_msg_wr val)
          true 0 0 in
  firstn 7 (snd (ice_ptp_init_time (defs := Sample.defs) (tdefs := SampleTime.tdefs)
                   hw 0x100000007 true [])) =
    [EvWr32 0x000888E8 7; EvWr32 0x000888F0 1; EvWr32 0x000888E0 0;
     wr 0x44C 0; wr 0x450 7; wr 0x46C 0; wr 0x470 7].
Proof. vm_compute. reflexivity. Qed.

Lemma sample_uix_regs_known : uix_regs_known (defs := Sample.defs).
Proof. split; reflexivity. Qed.

(** Port 1 of an E822 device whose source timer holds the nominal increment
    value. *)
Lemma ice_phy_cfg_uix_e822_ratio_witness :
  let hw := Sample.hw_of ICE_PHY_E822 2
              (Sample.memory_dev (fun _ => 0) Sample.incval_mmio) in
  uix_regs_known (defs := Sample.defs) /\
  shape (ice_phy_cfg_uix_e822 (defs := Sample.defs) hw 1)
        (uix_programmed (defs := Sample.defs) hw 1).
Proof.
  intros hw. split; [exact sample_uix_regs_known|].
  apply (ice_phy_cfg_uix_e822_ratio
           (defs := Sample.defs) hw 1).
  exact sample_uix_regs_known.
Defined.

(** At 823.4375 MHz and the nominal increment value 0x136e44fab both
    ratios are the exact ones rounded down; at the increment value
    0x136e44fd0 the 10G/40G ratio is one less. *)
Example ice_phy_cfg_uix_e822_values :
  let hw := Sample.hw_of ICE_PHY_E822 2 Sample.quiet_dev in
  let uix incval line_ui := uix_of (tu_per_sec_of (defs := Sample.defs) hw incval) line_ui in
  let exact incval line_ui := 823437500 * incval * line_ui / 10 ^ 11 in
  uix 0x136e44fab 640 = 27487790697 /\ exact 0x136e44fab 640 = 27487790697 /\
  uix 0x136e44fab 256 = 10995116278 /\ exact 0x136e44fab 256 = 10995116278 /\
  uix 0x136e44fd0 640 = 27487790891 /\ exact 0x136e44fd0 640 = 27487790892.
Proof. vm_compute. repeat split. Qed.

Lemma holding_dev_holds mmio : registers_hold (SampleTime.holding_dev mmio).
Proof.
  intros t msg lock_sbq. cbn [SampleTime.holding_dev dev_sbq]. split.
  - intros ->. reflexivity.
  - intros -> v ->. reflexivity.
Qed.

(** The Tx timer shadow registers of port 1 of an E822 device. *)
Lemma phy_register_round_trips_witness :
  let hw := Sample.hw_of ICE_PHY_E822 2 (SampleTime.holding_dev (fun _ => 0)) in
  exists t1,
    ice_write_64b_phy_reg_e822 (defs := Sample.defs) hw 1 0x44C 0x1122334455667788 []
      = (0, t1) /\
    fst (ice_read_64b_phy_reg_e822 (defs := Sample.defs) hw 1 0x44C t1)
      = (0, u64 0x1122334455667788).
Proof.
  intros hw.
  destruct (phy_register_round_trips (defs := Sample.defs)
              hw 1 0x1122334455667788 [] (holding_dev_holds (fun _ => 0)))
    as (H64 & _).
  apply (H64 0x44C 0x450); reflexivity.
Defined.

(** The increment value of a port written and read back on both PHY
    families. *)
Example phy_incval_round_trips :
  let e822 := Sample.hw_of ICE_PHY_E822 2 (SampleTime.holding_dev (fun _ => 0)) in
  let e56g := Sample.hw_of ICE_PHY_ETH56G 2 (SampleTime.holding_dev (fun _ => 0)) in
  fst (ice_ptp_read_phy_incval_e822 (defs := Sample.defs) e822 1
         (snd (ice_write_40b_phy_reg_e822 (defs := Sample.defs) e822 1 0x410
                 0x136e44fab []))) = (0, 0x136e44fab) /\
  fst (ice_ptp_read_phy_incval_eth56g (defs := Sample.defs) e56g 1
         (snd (ice_write_40b_phy_reg_eth56g (defs := Sample.defs) e56g 1 0x08
                 0x136e44fab []))) = (0, 0x136e44fab).
Proof. vm_compute. split; reflexivity. Qed.

Lemma sample_capture_regs_known : capture_regs_known (defs := Sample.defs).
Proof. split; reflexivity. Qed.

(** Port 1 of an E822 device with a quiet sideband queue. *)
Lemma ice_sync_phy_timer_e822_difference_witness :
  let hw := Sample.hw_of ICE_PHY_E822 2 Sample.quiet_dev in
  capture_regs_known (defs := Sample.defs) /\
  shape (ice_sync_phy_timer_e822 (defs := Sample.defs) hw 1)
        (phy_timer_synced (defs := Sample.defs) hw 1).
Proof.
  intros hw. split; [exact sample_capture_regs_known|].
  apply (ice_sync_phy_timer_e822_difference
           (defs := Sample.defs) hw 1).
  exact sample_capture_regs_known.
Defined.

(** The entry points on a device of an unknown PHY model, and on an E810. *)
Example phy_model_without_case_samples :
  let unsup := Sample.hw_of ICE_PHY_UNSUP 2 Sample.quiet_dev in
  let e810 := Sample.hw_of ICE_PHY_E810 1 Sample.quiet_dev in
  ice_ptp_adj_clock (defs := Sample.defs) unsup 7 true [] =
    (- 95, [EvWr32 0x00088908 0; EvWr32 0x00088910 7]) /\
  ice_ptp_tmr_cmd (defs := Sample.defs) unsup ICE_PTP_ADJ_TIME true [] =
    (- 95, [EvWr32 0x00088810 4]) /\
  ice_ptp_read_phy_incval (defs := Sample.defs) e810 0 [] =
    ((- 95, 0), []) /\
  ice_get_phy_tx_tstamp_ready (defs := Sample.defs) (tdefs := SampleTime.tdefs) e810 0 [] =
    ((0, 0xFFFFFFFFFFFFFFFF), []).
Proof. vm_compute. repeat split. Qed.

(** Enabling the interrupt of quad 0 with threshold 5 over a register that
    holds 0xFFFF, then disabling it. *)
Example ice_phy_cfg_intr_e822_values :
  let hw := Sample.hw_of ICE_PHY_E822 2 (SampleTime.holding_dev (fun _ => 0)) in
  let cfg := ice_fill_quad_msg_e822 (defs := Sample.defs) 0 0xC08 in
  let t0 := snd (ice_write_quad_reg_e822 (defs := Sample.defs) hw 0 0xC08 0xFFFF []) in
  let t1 := snd (ice_phy_cfg_intr_e822 (defs := Sample.defs) (tdefs := SampleTime.tdefs)
                   hw 0 true 5 t0) in
  let t2 := snd (ice_phy_cfg_intr_e822 (defs := Sample.defs) (tdefs := SampleTime.tdefs)
                   hw 0 false 0 t1) in
  fst (ice_read_quad_reg_e822 (defs := Sample.defs) hw 0 0xC08 t1) = (0, 0x8BFF) /\
  fst (ice_read_quad_reg_e822 (defs := Sample.defs) hw 0 0xC08 t2) = (0, 0x0BFF).
Proof. vm_compute. split; reflexivity. Qed.

(** * The TLVs of the Preserved Field Area and the part number string *)

Section Tlv.
Context {nvm_defs : NvmDefs}.
Local Open Scope nvm_scope.

Lemma u16_bytes w : u16 (w mod 2 ^ 8 + 256 * ((w / 2 ^ 8) mod 2 ^ 8)) = u16 w.
Proof.
  unfold u16.
  change (2 ^ 16) with (2 ^ 8 * 2 ^ 8).
  rewrite (Z.rem_mul_r w (2 ^ 8) (2 ^ 8)) by lia.
  change (2 ^ 8) with 256.
  pose proof (Z.mod_pos_bound w 256 ltac:(lia)).
  pose proof (Z.mod_pos_bound (w / 256) 256 ltac:(lia)).
  apply Z.mod_small. nia.
Qed.

(** A word read from a Shadow RAM that holds [words]. *)
Lemma ice_read_sr_word_of hw words offset t :
  nvm_read_limits ->
  shadow_ram_of (nvm_dev hw) words ->
  0 <= offset < sr_words hw -> sr_words hw <= 2 ^ 16 ->
  exists evs,
    ice_read_sr_word hw offset t = Some ((0, u16 (words offset)), t ++ evs).
Proof.
  intros (Hbuf & Heven & Hmax & Hparam) [Hacq Hrd] Hoff Hsr.
  unfold ice_read_sr_word, ice_acquire_nvm, ice_release_nvm.
  assert (Hword : forall u, exists evs,
            ice_read_sr_word_aq hw offset u = Some ((0, u16 (words offset)), u ++ evs)).
  { intros u. rewrite ice_read_sr_word_aq_inside by (try assumption; lia).
    cbv zeta. specialize (Hrd u offset ltac:(lia)).
    destruct (nv_aq_nvm_read (nvm_dev hw) u _) as [[status rc] payload].
    destruct Hrd as (-> & -> & ->). cbn [failed Z.eqb negb].
    rewrite u16_bytes. eauto. }
  destruct (blank_nvm_mode hw).
  - unfold nvm_bind, nvm_ret. cbn [failed Z.eqb negb].
    destruct (Hword t) as [evs ->]. eauto.
  - unfold nvm_bind at 1. unfold ice_acquire_res.
    specialize (Hacq t ICE_NVM_RES_ID ICE_RES_READ ICE_NVM_TIMEOUT).
    destruct (nv_acquire_res (nvm_dev hw) t _ _ _) as [status rc].
    cbn [fst] in Hacq. subst status. cbn [failed Z.eqb negb].
    unfold nvm_bind, nvm_ret, ice_release_res.
    destruct (Hword (t ++ [NvAcquireRes ICE_NVM_RES_ID ICE_RES_READ ICE_NVM_TIMEOUT 0 rc]))
      as [evs ->].
    rewrite <- !app_assoc. eauto.
Qed.

Lemma tlvs_end_length addr tlvs :
  Forall (fun tlv => 0 <= snd tlv) tlvs ->
  addr + 2 * Z.of_nat (length tlvs) <= tlvs_end addr tlvs.
Proof.
  revert addr. induction tlvs as [|[ty len] rest IH]; intros addr Hlen;
    cbn [tlvs_end length].
  - lia.
  - inversion Hlen as [|? ? H0 Hrest]; subst. cbn [snd] in H0.
    specialize (IH (addr + len + 2) Hrest). lia.
Qed.

Lemma tlvs_at_lengths words addr limit tlvs :
  tlvs_at words addr limit tlvs -> Forall (fun tlv => 0 <= snd tlv) tlvs.
Proof.
  revert addr. induction tlvs as [|[ty len] rest IH]; intros addr H;
    cbn [tlvs_at] in H.
  - constructor.
  - destruct H as (_ & _ & Hl & Hrest). constructor; [|eapply IH, Hrest].
    cbn [snd]. rewrite <- Hl. apply u16_range.
Qed.

Lemma tlvs_end_mono addr tlvs :
  Forall (fun tlv => 0 <= snd tlv) tlvs -> addr <= tlvs_end addr tlvs.
Proof.
  intros H. pose proof (tlvs_end_length addr tlvs H). lia.
Qed.

(** The walk over well-formed TLVs. *)
Lemma ice_get_pfa_module_tlv_loop_finds hw words pfa_ptr pfa_len module_type tlvs :
  nvm_read_limits ->
  shadow_ram_of (nvm_dev hw) words ->
  pfa_ptr + pfa_len < sr_words hw -> sr_words hw <= 2 ^ 16 ->
  forall rounds addr t,
    (length tlvs < rounds)%nat ->
    0 <= addr ->
    tlvs_at words addr (pfa_ptr + pfa_len) tlvs ->
    tlvs_end addr tlvs < 2 ^ 16 ->
    exists evs,
      ice_get_pfa_module_tlv_loop rounds hw pfa_ptr pfa_len addr module_type t =
        Some (tlv_result (find_tlv (u16 module_type) addr tlvs), t ++ evs).
Proof.
  intros Hlim Hdev Hpfa Hsr.
  induction tlvs as [|[ty len] rest IH]; intros rounds addr t Hrounds Haddr Hat Hend;
    (destruct rounds as [|rounds]; [cbn in Hrounds; lia|]);
    cbn [ice_get_pfa_module_tlv_loop tlvs_at find_tlv tlvs_end] in *.
  - destruct (Z.ltb_spec addr (pfa_ptr + pfa_len)); [lia|].
    exists []. rewrite app_nil_r. reflexivity.
  - destruct Hat as (Hlt & Hty & Hlen & Hrest).
    pose proof (tlvs_at_lengths _ _ _ _ Hrest) as Hlens.
    pose proof (tlvs_end_mono (addr + len + 2) rest Hlens) as Hmono.
    assert (Hlen0 : 0 <= len) by (rewrite <- Hlen; apply u16_range).
    destruct (Z.ltb_spec addr (pfa_ptr + pfa_len)); [|lia].
    destruct (ice_read_sr_word_of hw words addr t Hlim Hdev ltac:(lia) Hsr) as [e1 E1].
    unfold nvm_bind at 1. rewrite E1. cbn [failed Z.eqb negb].
    rewrite (u16_small (addr + 1)) by lia.
    destruct (ice_read_sr_word_of hw words (addr + 1) (t ++ e1) Hlim Hdev ltac:(lia) Hsr)
      as [e2 E2].
    unfold nvm_bind at 1. rewrite E2. cbn [failed Z.eqb negb].
    rewrite Hty, Hlen.
    destruct (Z.eqb_spec ty (u16 module_type)).
    + unfold tlv_result. destruct (Z.eqb_spec len 0); cbn [negb];
        exists (e1 ++ e2); rewrite app_assoc; reflexivity.
    + rewrite (u16_small (addr + len + 2)) by lia.
      destruct (IH rounds (addr + len + 2) ((t ++ e1) ++ e2)) as [e3 E3];
        [cbn in Hrounds; lia | lia | exact Hrest | exact Hend |].
      rewrite E3. exists (e1 ++ e2 ++ e3). rewrite !app_assoc. reflexivity.
Qed.

(** The search on a well-formed Preserved Field Area. *)
Lemma ice_get_pfa_module_tlv_walk hw words tlvs module_type t :
  nvm_read_limits ->
  shadow_ram_of (nvm_dev hw) words ->
  let pfa_ptr := u16 (words ICE_SR_PFA_PTR) in
  let pfa_len := u16 (words pfa_ptr) in
  0 <= ICE_SR_PFA_PTR < sr_words hw ->
  pfa_ptr + pfa_len < sr_words hw -> sr_words hw <= 2 ^ 16 ->
  tlvs_at words (pfa_ptr + 1) (pfa_ptr + pfa_len) tlvs ->
  tlvs_end (pfa_ptr + 1) tlvs < 2 ^ 16 ->
  exists evs,
    ice_get_pfa_module_tlv hw module_type t =
      Some (tlv_result (find_tlv (u16 module_type) (pfa_ptr + 1) tlvs), t ++ evs).
Proof.
  intros Hlim Hdev pfa_ptr pfa_len Hptr Hpfa Hsr Hat Hend.
  pose proof (u16_range (words ICE_SR_PFA_PTR)) as Hp. fold pfa_ptr in Hp.
  pose proof (u16_range (words pfa_ptr)) as Hl. fold pfa_len in Hl.
  unfold ice_get_pfa_module_tlv.
  destruct (ice_read_sr_word_of hw words ICE_SR_PFA_PTR t Hlim Hdev Hptr Hsr) as [e1 E1].
  unfold nvm_bind at 1. rewrite E1. cbn [failed Z.eqb negb]. fold pfa_ptr.
  destruct (ice_read_sr_word_of hw words pfa_ptr (t ++ e1) Hlim Hdev ltac:(lia) Hsr)
    as [e2 E2].
  unfold nvm_bind at 1. rewrite E2. cbn [failed Z.eqb negb]. fold pfa_len.
  pose proof (tlvs_at_lengths _ _ _ _ Hat) as Hlens.
  pose proof (tlvs_end_length (pfa_ptr + 1) tlvs Hlens) as Hcount.
  rewrite (u16_small (pfa_ptr + 1)) by lia.
  destruct (ice_get_pfa_module_tlv_loop_finds hw words pfa_ptr pfa_len module_type tlvs
              Hlim Hdev Hpfa Hsr (S (Z.to_nat (2 ^ 16))) (pfa_ptr + 1) ((t ++ e1) ++ e2))
    as [e3 E3]; [| lia | exact Hat | exact Hend |].
  { assert (Z.of_nat (length tlvs) < 2 ^ 16) by lia. lia. }
  rewrite E3. exists (e1 ++ e2 ++ e3). rewrite !app_assoc. reflexivity.
Qed.

(** X21: on a Shadow RAM whose Preserved Field Area is a well-formed list
    of TLVs (the area lies inside the Shadow RAM, the TLVs follow one
    another from the word after the length of the area and end below
    2^16), ice_get_pfa_module_tlv returns the address and the length of
    the first TLV of the type asked for; ICE_ERR_INVAL_SIZE if that TLV has
    length 0, whatever comes after it; and ICE_ERR_DOES_NOT_EXIST if no TLV
    has the type. *)
Theorem ice_get_pfa_module_tlv_finds_first
    (hw : nvm_hw) (words : Z -> Z) (tlvs : list (Z * Z)) (module_type : Z)
    (t : nvm_trace) :
  nvm_read_limits ->
  shadow_ram_of (nvm_dev hw) words ->
  let pfa_ptr := u16 (words ICE_SR_PFA_PTR) in
  let pfa_len := u16 (words pfa_ptr) in
  0 <= ICE_SR_PFA_PTR < sr_words hw ->
  pfa_ptr + pfa_len < sr_words hw -> sr_words hw <= 2 ^ 16 ->
  tlvs_at words (pfa_ptr + 1) (pfa_ptr + pfa_len) tlvs ->
  tlvs_end (pfa_ptr + 1) tlvs < 2 ^ 16 ->
  exists evs,
    ice_get_pfa_module_tlv hw module_type t =
      Some (tlv_result (find_tlv (u16 module_type) (pfa_ptr + 1) tlvs), t ++ evs).
Proof.
  intros Hlim Hdev pfa_ptr pfa_len Hptr Hpfa Hsr Hat Hend.
  apply ice_get_pfa_module_tlv_walk; assumption.
Qed.

(** X22: a TLV of another type whose length word is 0xFFFE stops the walk
    of ice_get_pfa_module_tlv: the next TLV is looked for at the same
    word again, since next_tlv + 0xFFFE + 2 wraps around in 16 bits, and
    the loop is not left after any number of rounds. *)
Theorem ice_get_pfa_module_tlv_loop_stuck
    (hw : nvm_hw) (words : Z -> Z) (pfa_ptr pfa_len next_tlv module_type : Z) :
  nvm_read_limits ->
  shadow_ram_of (nvm_dev hw) words ->
  0 <= next_tlv < pfa_ptr + pfa_len ->
  next_tlv + 1 < sr_words hw -> sr_words hw <= 2 ^ 16 ->
  u16 (words next_tlv) <> u16 module_type ->
  u16 (words (next_tlv + 1)) = 0xFFFE ->
  forall rounds t,
    ice_get_pfa_module_tlv_loop rounds hw pfa_ptr pfa_len next_tlv module_type t = None.
Proof.
  intros Hlim Hdev Hnext Hin Hsr Hty Hlen.
  induction rounds as [|rounds IH]; intros t; cbn [ice_get_pfa_module_tlv_loop].
  - reflexivity.
  - destruct (Z.ltb_spec next_tlv (pfa_ptr + pfa_len)); [|lia].
    destruct (ice_read_sr_word_of hw words next_tlv t Hlim Hdev ltac:(lia) Hsr) as [e1 E1].
    unfold nvm_bind at 1. rewrite E1. cbn [failed Z.eqb negb].
    rewrite (u16_small (next_tlv + 1)) by lia.
    destruct (ice_read_sr_word_of hw words (next_tlv + 1) (t ++ e1) Hlim Hdev
                ltac:(lia) Hsr) as [e2 E2].
    unfold nvm_bind at 1. rewrite E2. cbn [failed Z.eqb negb].
    destruct (Z.eqb_spec (u16 (words next_tlv)) (u16 module_type)); [contradiction|].
    rewrite Hlen.
    replace (u16 (next_tlv + 65534 + 2)) with next_tlv.
    + apply IH.
    + unfold u16. replace (next_tlv + 65534 + 2) with (next_tlv + 1 * 2 ^ 16) by lia.
      rewrite Z.mod_add by lia. symmetry. apply Z.mod_small. lia.
Qed.

End Tlv.

Section Pba.
Context {nvm_defs : NvmDefs}.
Local Open Scope nvm_scope.

(** ice_read_sr_word always returns. *)
Lemma ice_read_sr_word_returns hw offset t :
  0 < ICE_AQ_MAX_BUF_LEN < 2 ^ 16 -> ICE_AQC_NVM_MAX_OFFSET < 2 ^ 24 ->
  ICE_ERR_PARAM <> 0 ->
  exists status word evs,
    ice_read_sr_word hw offset t = Some ((status, word), t ++ evs).
Proof.
  intros Hbuf Hmax Hparam.
  unfold ice_read_sr_word, ice_acquire_nvm, ice_release_nvm, ice_acquire_res,
    ice_release_res.
  destruct (blank_nvm_mode hw).
  - unfold nvm_bind, nvm_ret. cbn [failed Z.eqb negb].
    destruct (ice_read_sr_word_aq_reads hw offset t Hbuf Hmax Hparam)
      as ([status word] & evs & -> & _).
    eauto.
  - unfold nvm_bind at 1.
    destruct (nv_acquire_res (nvm_dev hw) t _ _ _) as [status rc].
    destruct (failed status); cbn [negb].
    + unfold nvm_ret. eauto.
    + unfold nvm_bind, nvm_ret.
      destruct (ice_read_sr_word_aq_reads hw offset
                  (t ++ [NvAcquireRes ICE_NVM_RES_ID ICE_RES_READ ICE_NVM_TIMEOUT status rc])
                  Hbuf Hmax Hparam)
        as ([status' word] & evs & -> & _).
      rewrite <- !app_assoc. eauto.
Qed.

Lemma byte_of_land x : 0 <= Z.land x 0xFF < 2 ^ 8.
Proof.
  change 0xFF with (Z.ones 8). rewrite Z.land_ones by lia.
  apply Z.mod_pos_bound. lia.
Qed.

Lemma seq_snoc2 k :
  map Z.of_nat (seq 0 (2 * S k)) =
  map Z.of_nat (seq 0 (2 * k)) ++ [Z.of_nat k * 2; Z.of_nat k * 2 + 1].
Proof.
  replace (2 * S k)%nat with (2 * k + 2)%nat by lia.
  rewrite seq_app, map_app. cbn [seq map Nat.add]. repeat f_equal; lia.
Qed.

(** The for loop of ice_read_pba_string and the termination of the
    string: every assignment is inside the buffer; when the loop ends the
    string is complete. *)
Lemma ice_read_pba_string_loop_stores hw pba_tlv pba_size pba_num_size :
  0 < ICE_AQ_MAX_BUF_LEN < 2 ^ 16 -> ICE_AQC_NVM_MAX_OFFSET < 2 ^ 24 ->
  ICE_ERR_PARAM <> 0 ->
  0 <= pba_size -> pba_size * 2 + 1 <= pba_num_size ->
  forall n i status stores t,
    Z.of_nat i + Z.of_nat n = pba_size ->
    stores_within pba_num_size stores ->
    map fst stores = map Z.of_nat (seq 0 (2 * i)) ->
    exists status' stores' evs,
      ice_read_pba_string_loop n hw pba_tlv pba_size (Z.of_nat i) status stores t =
        Some ((status', stores'), t ++ evs) /\
      stores_within pba_num_size stores' /\
      (failed status' = false \/ n = O ->
       stores_string stores' (2 * Z.to_nat pba_size)).
Proof.
  intros Hbuf Hmax Hparam Hsize Hroom.
  induction n as [|n IH]; intros i status stores t Hi Hin Hidx;
    cbn [ice_read_pba_string_loop].
  - exists status, (stores ++ [(pba_size * 2, 0)]), []. rewrite app_nil_r.
    split; [reflexivity|]. split.
    + apply Forall_app. split; [exact Hin|].
      constructor; [|constructor]. cbn [fst snd]. lia.
    + intros _. replace (Z.to_nat pba_size) with i by lia.
      unfold stores_string. rewrite !map_app, Hidx. cbn [map fst snd]. split.
      * replace (S (2 * i)) with (2 * i + 1)%nat by lia.
        rewrite seq_app, map_app. cbn [seq map Nat.add]. repeat f_equal. lia.
      * rewrite app_nth2; rewrite length_map;
          assert (Hl : length stores = (2 * i)%nat)
            by (rewrite <- (length_map fst), Hidx, length_map, length_seq; reflexivity);
          rewrite Hl; [|lia].
        rewrite Nat.sub_diag. reflexivity.
  - destruct (ice_read_sr_word_returns hw (u16 (pba_tlv + 2 + 1 + Z.of_nat i)) t
                Hbuf Hmax Hparam) as (st & word & e1 & E1).
    unfold nvm_bind at 1. rewrite E1.
    destruct (failed st) eqn:Hst.
    + exists st, stores, e1. split; [reflexivity|]. split; [exact Hin|].
      intros [H|H]; congruence.
    + destruct (IH (S i) st
                  (stores ++ [(Z.of_nat i * 2, Z.land (Z.shiftr word 8) 0xFF);
                              (Z.of_nat i * 2 + 1, Z.land word 0xFF)]) (t ++ e1))
        as (st' & stores' & e2 & E2 & Hin' & Hdone).
      * lia.
      * apply Forall_app. split; [exact Hin|].
        constructor; [|constructor; [|constructor]]; cbn [fst snd];
          (split; [lia | apply byte_of_land]).
      * rewrite map_app, Hidx, seq_snoc2. reflexivity.
      * replace (Z.of_nat i + 1) with (Z.of_nat (S i)) by lia.
        rewrite E2. exists st', stores', (e1 ++ e2). rewrite app_assoc.
        split; [reflexivity|]. split; [exact Hin'|].
        intros [H|H]; [|discriminate]. apply Hdone. left. exact H.
Qed.

(** X23: ice_read_pba_string never writes outside the buffer it is given:
    every assignment it makes to pba_num, on success and on each of its
    error paths, is to an index below pba_num_size and of a byte.  When it
    returns 0 it has written the indices 0 to 2n in this order, for a
    string of n words, and the last byte written is the NUL that ends the
    string.  It returns whenever the search for the TLV of the PBA block
    does. *)
Theorem ice_read_pba_string_within_buffer
    (hw : nvm_hw) (pba_num_size : Z) (t : nvm_trace) :
  0 < ICE_AQ_MAX_BUF_LEN < 2 ^ 16 -> ICE_AQC_NVM_MAX_OFFSET < 2 ^ 24 ->
  ICE_ERR_PARAM <> 0 -> ICE_ERR_INVAL_SIZE <> 0 ->
  0 <= pba_num_size < 2 ^ 32 ->
  match ice_read_pba_string hw pba_num_size t with
  | Some ((status, stores), _) =>
      stores_within pba_num_size stores /\
      (status = 0 -> exists n, stores_string stores (2 * n))
  | None => ice_get_pfa_module_tlv hw ICE_SR_PBA_BLOCK_PTR t = None
  end.
Proof.
  intros Hbuf Hmax Hparam Hinval Hnum.
  assert (Hnil : stores_within pba_num_size []) by constructor.
  assert (Hfail : forall s, s <> 0 -> failed s = true).
  { intros s Hs. unfold failed. destruct (Z.eqb_spec s 0); [contradiction|reflexivity]. }
  assert (Hzero : forall s, failed s = true -> s <> 0).
  { intros s Hs ->. discriminate. }
  unfold ice_read_pba_string. unfold nvm_bind at 1.
  destruct (ice_get_pfa_module_tlv hw ICE_SR_PBA_BLOCK_PTR t)
    as [[[[status pba_tlv] pba_tlv_len] t1]|]; [|reflexivity].
  destruct (failed status) eqn:Hst.
  { cbn [nvm_ret]. split; [exact Hnil|]. intros ->. discriminate. }
  destruct (ice_read_sr_word_returns hw (u16 (pba_tlv + 2)) t1 Hbuf Hmax Hparam)
    as (st & pba_size & e1 & E1).
  unfold nvm_bind at 1. rewrite E1.
  destruct (failed st) eqn:Hst1.
  { cbn [nvm_ret]. split; [exact Hnil|]. intros ->. discriminate. }
  destruct (pba_tlv_len <? pba_size).
  { cbn [nvm_ret]. split; [exact Hnil|]. intros H. contradiction. }
  pose proof (u16_range (pba_size - 1)) as Hsz.
  rewrite (u32_small (u16 (pba_size - 1))) by lia.
  rewrite (u32_small (u16 (pba_size - 1) * 2 + 1)) by lia.
  destruct (Z.ltb_spec pba_num_size (u16 (pba_size - 1) * 2 + 1)).
  { cbn [nvm_ret]. split; [exact Hnil|]. intros H'. contradiction. }
  destruct (ice_read_pba_string_loop_stores hw pba_tlv (u16 (pba_size - 1)) pba_num_size
              Hbuf Hmax Hparam ltac:(lia) ltac:(lia)
              (Z.to_nat (u16 (pba_size - 1))) O st [] (t1 ++ e1))
    as (st' & stores' & e2 & E2 & Hin & Hdone);
    [lia | exact Hnil | reflexivity |].
  change (Z.of_nat 0) with 0 in E2. rewrite E2.
  split; [exact Hin|].
  intros ->. eexists. apply Hdone. left. reflexivity.
Qed.

End Pba.

Section PbaString.
Context {nvm_defs : NvmDefs}.
Local Open Scope nvm_scope.

Lemma find_tlv_inside words limit type :
  forall tlvs addr found len,
    tlvs_at words addr limit tlvs ->
    find_tlv type addr tlvs = Some (found, len) ->
    addr <= found /\ found + len + 2 <= tlvs_end addr tlvs /\ found < limit.
Proof.
  induction tlvs as [|[ty l] rest IH]; intros addr found len Hat Hfind;
    cbn [tlvs_at find_tlv tlvs_end] in *; [discriminate|].
  destruct Hat as (Hlt & Hty & Hlen & Hrest).
  pose proof (tlvs_at_lengths _ _ _ _ Hrest) as Hlens.
  pose proof (tlvs_end_mono (addr + l + 2) rest Hlens).
  assert (0 <= l) by (rewrite <- Hlen; apply u16_range).
  destruct (ty =? type).
  - injection Hfind as <- <-. lia.
  - specialize (IH _ _ _ Hrest Hfind). lia.
Qed.

Lemma high_byte w : 0 <= w < 2 ^ 16 -> Z.land (Z.shiftr w 8) 0xFF = w / 2 ^ 8.
Proof.
  intros H. change 0xFF with (Z.ones 8).
  rewrite Z.land_ones, Z.shiftr_div_pow2 by lia.
  apply Z.mod_small. split; [apply Z.div_pos; lia|].
  apply Z.div_lt_upper_bound; lia.
Qed.

Lemma low_byte w : Z.land w 0xFF = w mod 2 ^ 8.
Proof. change 0xFF with (Z.ones 8). apply Z.land_ones. lia. Qed.

(** The for loop of ice_read_pba_string on a Shadow RAM that holds
    [words]. *)
Lemma ice_read_pba_string_loop_reads hw words pba_tlv pba_size :
  nvm_read_limits ->
  shadow_ram_of (nvm_dev hw) words ->
  0 <= pba_tlv -> pba_tlv + 3 + pba_size <= sr_words hw -> sr_words hw <= 2 ^ 16 ->
  forall n i stores t,
    Z.of_nat i + Z.of_nat n = pba_size ->
    exists evs,
      ice_read_pba_string_loop n hw pba_tlv pba_size (Z.of_nat i) 0 stores t =
        Some ((0,
               stores ++
               flat_map
                 (fun i => [(Z.of_nat i * 2, u16 (words (pba_tlv + 3 + Z.of_nat i)) / 2 ^ 8);
                            (Z.of_nat i * 2 + 1,
                             u16 (words (pba_tlv + 3 + Z.of_nat i)) mod 2 ^ 8)])
                 (seq i n)
               ++ [(pba_size * 2, 0)]), t ++ evs).
Proof.
  intros Hlim Hdev Htlv Hin Hsr.
  induction n as [|n IH]; intros i stores t Hi; cbn [ice_read_pba_string_loop seq flat_map].
  - exists []. rewrite app_nil_r. reflexivity.
  - replace (pba_tlv + 2 + 1 + Z.of_nat i) with (pba_tlv + 3 + Z.of_nat i) by lia.
    rewrite (u16_small (pba_tlv + 3 + Z.of_nat i)) by lia.
    destruct (ice_read_sr_word_of hw words (pba_tlv + 3 + Z.of_nat i) t Hlim Hdev
                ltac:(lia) Hsr) as [e1 E1].
    unfold nvm_bind at 1. rewrite E1. cbn [failed Z.eqb negb].
    replace (Z.of_nat i + 1) with (Z.of_nat (S i)) by lia.
    destruct (IH (S i)
                (stores ++
                 [(Z.of_nat i * 2,
                   Z.land (Z.shiftr (u16 (words (pba_tlv + 3 + Z.of_nat i))) 8) 0xFF);
                  (Z.of_nat i * 2 + 1,
                   Z.land (u16 (words (pba_tlv + 3 + Z.of_nat i))) 0xFF)])
                (t ++ e1) ltac:(lia)) as [e2 E2].
    rewrite E2. exists (e1 ++ e2).
    rewrite high_byte by apply u16_range. rewrite low_byte.
    rewrite <- !app_assoc. reflexivity.
Qed.

(** X24: on a Shadow RAM whose Preserved Field Area is well formed and
    holds a PBA block, ice_read_pba_string returns 0 and writes the part
    number string: the size word after the head of the TLV counts itself
    and the words of the string, each word gives two characters, the high
    byte first, and a NUL follows the last one.  The buffer has to hold
    two bytes for each word and the NUL; the size may not exceed the
    length of the TLV. *)
Theorem ice_read_pba_string_reads
    (hw : nvm_hw) (words : Z -> Z) (tlvs : list (Z * Z))
    (pba_tlv pba_tlv_len pba_num_size : Z) (t : nvm_trace) :
  nvm_read_limits ->
  shadow_ram_of (nvm_dev hw) words ->
  let pfa_ptr := u16 (words ICE_SR_PFA_PTR) in
  let pfa_len := u16 (words pfa_ptr) in
  let pba_size := u16 (words (pba_tlv + 2)) in
  0 <= ICE_SR_PFA_PTR < sr_words hw ->
  pfa_ptr + pfa_len < sr_words hw -> sr_words hw <= 2 ^ 16 ->
  tlvs_at words (pfa_ptr + 1) (pfa_ptr + pfa_len) tlvs ->
  tlvs_end (pfa_ptr + 1) tlvs < 2 ^ 16 ->
  find_tlv (u16 ICE_SR_PBA_BLOCK_PTR) (pfa_ptr + 1) tlvs = Some (pba_tlv, pba_tlv_len) ->
  1 <= pba_size <= pba_tlv_len ->
  pba_tlv + 2 + pba_size <= sr_words hw ->
  (pba_size - 1) * 2 + 1 <= pba_num_size < 2 ^ 32 ->
  exists evs,
    ice_read_pba_string hw pba_num_size t =
      Some ((0, pba_string_stores words (pba_tlv + 3) (Z.to_nat (pba_size - 1))),
            t ++ evs).
Proof.
  intros Hlim Hdev pfa_ptr pfa_len pba_size Hptr Hpfa Hsr Hat Hend Hfind Hsize Hin Hnum.
  pose proof (u16_range (words ICE_SR_PFA_PTR)) as Hp. fold pfa_ptr in Hp.
  destruct (find_tlv_inside _ _ _ _ _ _ _ Hat Hfind) as (Hlo & Hhi & Hlt).
  pose proof (u16_range (words (pba_tlv + 2))) as Hps. fold pba_size in Hps.
  unfold ice_read_pba_string.
  destruct (ice_get_pfa_module_tlv_walk hw words tlvs ICE_SR_PBA_BLOCK_PTR t
              Hlim Hdev Hptr Hpfa Hsr Hat Hend) as [e1 E1].
  fold pfa_ptr in E1. rewrite Hfind in E1. unfold tlv_result in E1.
  destruct (Z.eqb_spec pba_tlv_len 0); [lia|].
  unfold nvm_bind at 1. rewrite E1. cbn [failed Z.eqb negb].
  rewrite (u16_small (pba_tlv + 2)) by lia.
  destruct (ice_read_sr_word_of hw words (pba_tlv + 2) (t ++ e1) Hlim Hdev
              ltac:(lia) Hsr) as [e2 E2].
  unfold nvm_bind at 1. rewrite E2. cbn [failed Z.eqb negb]. fold pba_size.
  destruct (Z.ltb_spec pba_tlv_len pba_size); [lia|].
  rewrite (u16_small (pba_size - 1)) by lia.
  rewrite (u32_small (pba_size - 1)) by lia.
  rewrite (u32_small ((pba_size - 1) * 2 + 1)) by lia.
  destruct (Z.ltb_spec pba_num_size ((pba_size - 1) * 2 + 1)); [lia|].
  destruct (ice_read_pba_string_loop_reads hw words pba_tlv (pba_size - 1)
              Hlim Hdev ltac:(lia) ltac:(lia) Hsr
              (Z.to_nat (pba_size - 1)) O [] ((t ++ e1) ++ e2) ltac:(lia)) as [e3 E3].
  change (Z.of_nat 0) with 0 in E3. rewrite E3.
  exists (e1 ++ e2 ++ e3). rewrite !app_assoc. cbn [app].
  unfold pba_string_stores. rewrite Z2Nat.id by lia.
  reflexivity.
Qed.

End PbaString.

(** * The Preserved Field Area on concrete inputs *)

Lemma sample_nvm_read_limits : nvm_read_limits (nvm_defs := SampleNvm.defs).
Proof. unfold nvm_read_limits. cbn. lia. Qed.

Lemma sample_shadow_ram words :
  shadow_ram_of (nvm_defs := SampleNvm.defs) (SamplePfa.sr_dev words) words.
Proof.
  split; [reflexivity|].
  intros t offset Hoff.
  unfold SamplePfa.sr_dev, SampleNvm.flash_dev. cbn [nv_aq_nvm_read].
  assert (Hc : cmd_offset (single_read_cmd (nvm_defs := SampleNvm.defs) true (offset * 2) 2)
               = offset * 2).
  { unfold cmd_offset, single_read_cmd. cbn [offset_low offset_high].
    pose proof (Z.div_mod (offset * 2) (2 ^ 16)). lia. }
  rewrite Hc.
  destruct (Z.ltb_spec (offset * 2) (2 ^ 17)); [|lia].
  split; [reflexivity|].
  cbn [Z.of_nat]. rewrite Z.add_0_r.
  replace (Z.even (offset * 2)) with true
    by (symmetry; rewrite Z.even_mul; apply orb_true_r).
  replace (Z.even (offset * 2 + Z.pos (Pos.of_succ_nat 0))) with false
    by (symmetry; change (Z.pos (Pos.of_succ_nat 0)) with 1;
        rewrite Z.even_add, Z.even_mul; cbn; rewrite orb_true_r; reflexivity).
  change (Z.pos (Pos.of_succ_nat 0)) with 1.
  rewrite Z.div_mul by lia.
  replace ((offset * 2 + 1) / 2) with offset
    by (apply (Z.div_unique (offset * 2 + 1) 2 offset 1); lia).
  split; apply u8_small, Z.mod_pos_bound; lia.
Qed.

Lemma ice_get_pfa_module_tlv_finds_first_witness :
  let hw := SampleNvm.hw_of 0x8000 (SamplePfa.sr_dev SamplePfa.pfa_words) in
  (exists evs,
     ice_get_pfa_module_tlv (nvm_defs := SampleNvm.defs) hw 0x16 [] =
       Some ((0, 0x55, 2), evs)) /\
  (exists evs,
     ice_get_pfa_module_tlv (nvm_defs := SampleNvm.defs) hw 0x17 [] =
       Some ((-15, 0, 0), evs)).
Proof.
  intros hw. split.
  - destruct (ice_get_pfa_module_tlv_finds_first (nvm_defs := SampleNvm.defs) hw
                SamplePfa.pfa_words [(0x11, 2); (0x16, 2)] 0x16 []
                sample_nvm_read_limits (sample_shadow_ram _)) as [evs E];
      try (cbn; lia); [vm_compute; repeat split; first [reflexivity | discriminate]|].
    exists evs. exact E.
  - destruct (ice_get_pfa_module_tlv_finds_first (nvm_defs := SampleNvm.defs) hw
                SamplePfa.pfa_words [(0x11, 2); (0x16, 2)] 0x17 []
                sample_nvm_read_limits (sample_shadow_ram _)) as [evs E];
      try (cbn; lia); [vm_compute; repeat split; first [reflexivity | discriminate]|].
    exists evs. exact E.
Defined.

Lemma ice_get_pfa_module_tlv_loop_stuck_witness :
  let hw := SampleNvm.hw_of 0x8000 (SamplePfa.sr_dev SamplePfa.stuck_words) in
  u16 (SamplePfa.stuck_words 0x52) = 0xFFFE /\
  (forall rounds t,
     ice_get_pfa_module_tlv_loop (nvm_defs := SampleNvm.defs) rounds hw 0x50 9 0x51 0x16 t =
       None).
Proof.
  intros hw. split; [reflexivity|].
  apply (ice_get_pfa_module_tlv_loop_stuck (nvm_defs := SampleNvm.defs) hw
           SamplePfa.stuck_words 0x50 9 0x51 0x16
           sample_nvm_read_limits (sample_shadow_ram _));
    first [cbn; lia | reflexivity | vm_compute; discriminate].
Defined.

Example ice_get_pfa_module_tlv_samples :
  let hw := SampleNvm.hw_of 0x8000 (SamplePfa.sr_dev SamplePfa.pfa_words) in
  let stuck := SampleNvm.hw_of 0x8000 (SamplePfa.sr_dev SamplePfa.stuck_words) in
  option_map fst (ice_get_pfa_module_tlv (nvm_defs := SampleNvm.defs) hw 0x16 []) =
    Some (0, 0x55, 2) /\
  option_map fst (ice_get_pfa_module_tlv (nvm_defs := SampleNvm.defs) hw 0x11 []) =
    Some (0, 0x51, 2) /\
  option_map fst (ice_get_pfa_module_tlv (nvm_defs := SampleNvm.defs) hw 0x17 []) =
    Some (-15, 0, 0) /\
  option_map fst (ice_get_pfa_module_tlv (nvm_defs := SampleNvm.defs) stuck 0x11 []) =
    Some (0, 0x51, 0xFFFE) /\
  option_map fst
    (ice_get_pfa_module_tlv_loop (nvm_defs := SampleNvm.defs) 100 stuck 0x50 9 0x51 0x16 []) =
    None.
Proof. vm_compute. repeat split. Qed.

Lemma ice_read_pba_string_within_buffer_witness :
  let hw := SampleNvm.hw_of 0x8000 (SamplePfa.sr_dev SamplePfa.pfa_words) in
  match ice_read_pba_string (nvm_defs := SampleNvm.defs) hw 2 [] with
  | Some ((status, stores), _) =>
      stores_within 2 stores /\ (status = 0 -> exists n, stores_string stores (2 * n))
  | None => ice_get_pfa_module_tlv (nvm_defs := SampleNvm.defs) hw 0x16 [] = None
  end.
Proof.
  intros hw.
  apply (ice_read_pba_string_within_buffer (nvm_defs := SampleNvm.defs) hw 2 []);
    cbn; lia.
Defined.

Lemma ice_read_pba_string_reads_witness :
  let hw := SampleNvm.hw_of 0x8000 (SamplePfa.sr_dev SamplePfa.pfa_words) in
  exists evs,
    ice_read_pba_string (nvm_defs := SampleNvm.defs) hw 3 [] =
      Some ((0, [(0, 0x4B); (1, 0x31); (2, 0)]), evs).
Proof.
  intros hw.
  destruct (ice_read_pba_string_reads (nvm_defs := SampleNvm.defs) hw
              SamplePfa.pfa_words [(0x11, 2); (0x16, 2)] 0x55 2 3 []
              sample_nvm_read_limits (sample_shadow_ram _)) as [evs E];
    first [cbn; lia | exists evs; exact E
          | vm_compute; repeat split; first [reflexivity | discriminate]].
Defined.

Example ice_read_pba_string_samples :
  let hw := SampleNvm.hw_of 0x8000 (SamplePfa.sr_dev SamplePfa.pfa_words) in
  option_map fst (ice_read_pba_string (nvm_defs := SampleNvm.defs) hw 3 []) =
    Some (0, [(0, 0x4B); (1, 0x31); (2, 0)]) /\
  option_map fst (ice_read_pba_string (nvm_defs := SampleNvm.defs) hw 2 []) =
    Some (-1, []).
Proof. vm_compute. repeat split. Qed.

(** * Synchronising the timers of a 56G port *)

Section Synchronise56g.
Context {defs : IceDefs} {tdefs : IceTimeDefs}.

Lemma ice_ptp_one_port_cmd_eth56g_staged hw port cmd lock_sbq :
  shape (ice_ptp_one_port_cmd_eth56g hw port cmd lock_sbq)
    (fun status evs =>
       status = 0 -> exists cmd_val, phy_cmd_val hw cmd = Some cmd_val /\
                                     staged_eth56g hw cmd_val lock_sbq port evs).
Proof.
  eapply shape_weaken; [apply ice_ptp_one_port_cmd_eth56g_shape|].
  cbv beta. intros st evs [_ H]. exact H.
Qed.

Lemma ice_read_phy_reg_eth56g_value hw port offset :
  shape (ice_read_phy_reg_eth56g hw port offset)
    (fun r evs =>
       fst r = 0 ->
       exists v, evs = [EvSbq (eth56g_reg_msg hw port offset ice_sbq_msg_rd 0) true 0 v] /\
                 r = (0, v) /\ 0 <= v < 2 ^ 32).
Proof.
  unfold ice_read_phy_reg_eth56g.
  eapply shape_weaken; [apply ice_read_phy_reg_eth56g_lp_shape|].
  cbv beta. intros [s v] evs [(_ & [= -> ->] & _) | (_ & v' & -> & Hv & Hr)];
    cbn [fst snd] in *.
  - discriminate.
  - intros ->. subst v'. eauto.
Qed.

Lemma ice_read_64b_phy_reg_eth56g_value hw port low high :
  ice_is_64b_phy_reg_eth56g low = Some high ->
  shape (ice_read_64b_phy_reg_eth56g hw port low)
    (fun r evs =>
       fst r = 0 ->
       exists l h, evs = reads_64b_eth56g hw port low high l h /\
                   r = (0, val_64b l h)).
Proof.
  intros Hreg. unfold ice_read_64b_phy_reg_eth56g. rewrite Hreg.
  eapply shape_bind; [apply ice_read_phy_reg_eth56g_value|].
  cbv beta. intros [st lo] e1 H1. cbn [fst] in H1.
  case_failed.
  { shape_step. cbn [fst]. intros ->. contradiction. }
  destruct (H1 eq_refl) as (l & -> & [= ->] & Hl).
  eapply shape_bind; [apply ice_read_phy_reg_eth56g_value|].
  cbv beta. intros [st hi] e2 H2. cbn [fst] in H2.
  case_failed.
  { shape_step. cbn [fst]. intros ->. contradiction. }
  destruct (H2 eq_refl) as (h & -> & [= ->] & Hh).
  shape_step. intros _. exists l, h. rewrite app_nil_r. split; reflexivity.
Qed.

Lemma ice_ptp_read_port_capture_eth56g_value hw port :
  capture_regs_known_eth56g ->
  shape (ice_ptp_read_port_capture_eth56g hw port)
    (fun r evs =>
       fst (fst r) = 0 ->
       exists txl txh rxl rxh,
         evs = reads_64b_eth56g hw port PHY_REG_TX_CAPTURE_L PHY_REG_TX_CAPTURE_U txl txh
               ++ reads_64b_eth56g hw port PHY_REG_RX_CAPTURE_L PHY_REG_RX_CAPTURE_U
                    rxl rxh /\
         r = (0, val_64b txl txh, val_64b rxl rxh)).
Proof.
  intros [Htx Hrx]. unfold ice_ptp_read_port_capture_eth56g.
  eapply shape_bind; [apply (ice_read_64b_phy_reg_eth56g_value hw port _ _ Htx)|].
  cbv beta. intros [st tx_ts] e1 H1. cbn [fst] in H1.
  case_failed.
  { shape_step. cbn [fst]. intros ->. contradiction. }
  destruct (H1 eq_refl) as (txl & txh & -> & [= ->]).
  eapply shape_bind; [apply (ice_read_64b_phy_reg_eth56g_value hw port _ _ Hrx)|].
  cbv beta. intros [st rx_ts] e2 H2. cbn [fst] in H2.
  case_failed.
  { shape_step. cbn [fst]. intros ->. contradiction. }
  destruct (H2 eq_refl) as (rxl & rxh & -> & [= ->]).
  shape_step. intros _. exists txl, txh, rxl, rxh. rewrite app_nil_r. auto.
Qed.

Lemma ice_read_phy_and_phc_time_eth56g_captured hw port :
  capture_regs_known_eth56g ->
  shape (ice_read_phy_and_phc_time_eth56g hw port)
    (fun r evs =>
       fst (fst r) = 0 ->
       exists zo lo txl txh rxl rxh,
         time_captured_eth56g hw port zo lo txl txh rxl rxh evs /\
         r = (0, val_64b txl txh, val_64b zo lo)).
Proof.
  intros Hregs. unfold ice_read_phy_and_phc_time_eth56g.
  eapply shape_bind; [apply ice_ptp_src_cmd_shape|].
  cbv beta. intros [] e0 ->.
  eapply shape_bind; [apply ice_ptp_one_port_cmd_eth56g_staged|].
  cbv beta. intros st staging Hst.
  case_failed.
  { shape_step. cbn [fst]. intros ->. contradiction. }
  destruct (Hst eq_refl) as (cmd_val & Hcmd & Hstaged).
  unfold ice_ptp_exec_tmr_cmd, ice_ptp_clean_cmd.
  do 6 shape_step. shape_step. shape_step.
  eapply shape_bind; [apply (ice_ptp_read_port_capture_eth56g_value hw port Hregs)|].
  cbv beta. intros [[st tx_time] rx_time] e3 H3. cbn [fst] in H3.
  case_failed.
  { shape_step. cbn [fst]. intros ->. contradiction. }
  destruct (H3 eq_refl) as (txl & txh & rxl & rxh & -> & [= -> ->]).
  shape_step. intros _.
  exists v, v0, txl, txh, rxl, rxh. split; [|reflexivity].
  exists cmd_val, staging. split; [exact Hcmd|]. split; [exact Hstaged|].
  unfold commit_events. rewrite ?app_nil_r, <- ?app_assoc. reflexivity.
Qed.

(** The words of a 64-bit value do not change when it is taken as an
    s64. *)
Lemma words_s64 d :
  lower_32_bits (s64 (u64 d)) = lower_32_bits (u64 d) /\
  upper_32_bits (s64 (u64 d)) = upper_32_bits (u64 d).
Proof.
  unfold lower_32_bits, upper_32_bits, s64, u32.
  set (x := u64 d).
  assert (Hx : 0 <= x < 2 ^ 64) by (apply Z.mod_pos_bound; lia).
  assert (Hs : (x + 2 ^ 63) mod 2 ^ 64 - 2 ^ 63 = x \/
               (x + 2 ^ 63) mod 2 ^ 64 - 2 ^ 63 = x - 1 * 2 ^ 64).
  { destruct (Z.lt_ge_cases x (2 ^ 63)).
    - left. rewrite Z.mod_small by lia. lia.
    - right. replace (x + 2 ^ 63) with (x - 2 ^ 63 + 1 * 2 ^ 64) by lia.
      rewrite Z.mod_add, Z.mod_small by lia. lia. }
  destruct Hs as [-> | ->]; [split; reflexivity|].
  rewrite !Z.shiftr_div_pow2 by lia.
  change (2 ^ 64) with (2 ^ 32 * 2 ^ 32).
  split.
  - replace (x - 1 * (2 ^ 32 * 2 ^ 32)) with (x + (- 2 ^ 32) * 2 ^ 32) by lia.
    apply Z.mod_add. lia.
  - replace (x - 1 * (2 ^ 32 * 2 ^ 32)) with (x + (- 2 ^ 32) * 2 ^ 32) by lia.
    rewrite Z.div_add by lia.
    replace (x / 2 ^ 32 + - 2 ^ 32) with (x / 2 ^ 32 + (- 1) * 2 ^ 32) by lia.
    apply Z.mod_add. lia.
Qed.

(** X25: a successful ice_sync_phy_timer_eth56g adds to both timers of
    the port the difference between the PHC time and the Tx time of the
    port that one READ_TIME command captured together, in 64-bit two's
    complement arithmetic; the Rx time captured is read but does not
    enter.  Before the difference is staged the source timer is given the
    NOP command, so that the ADJ_TIME command executed afterwards acts on
    the port only; the times are captured once more before the semaphore
    is released. *)
Theorem ice_sync_phy_timer_eth56g_difference (hw : ice_hw) (port : Z) :
  capture_regs_known_eth56g ->
  shape (ice_sync_phy_timer_eth56g hw port) (phy_timer_synced_eth56g hw port).
Proof.
  intros Hregs. unfold phy_timer_synced_eth56g, ice_sync_phy_timer_eth56g.
  eapply shape_bind; [apply ice_ptp_lock_shape|]. cbv beta.
  intros [] lock_evs Hlock; cbn [negb].
  2:{ shape_step. discriminate. }
  eapply shape_bind; [apply (ice_read_phy_and_phc_time_eth56g_captured hw port Hregs)|].
  cbv beta. intros [[st phy_time] phc_time] capture Hcap. cbn [fst] in Hcap.
  case_failed.
  { apply err_unlock_vacuous. exact E. }
  destruct (Hcap eq_refl) as (zo & lo & txl & txh & rxl & rxh & Hcaptured & [= -> ->]).
  eapply shape_bind; [apply ice_ptp_src_cmd_shape|].
  cbv beta. intros [] e0 ->.
  eapply shape_bind; [apply ice_ptp_prep_port_adj_eth56g_writes|].
  cbv beta. intros st adj Hadj.
  case_failed.
  { apply err_unlock_vacuous. exact E. }
  specialize (Hadj eq_refl).
  eapply shape_bind; [apply ice_ptp_one_port_cmd_eth56g_staged|].
  cbv beta. intros st staging Hst.
  case_failed.
  { apply err_unlock_vacuous. exact E. }
  destruct (Hst eq_refl) as (cmd_val & Hcmd & Hstaged).
  unfold ice_ptp_exec_tmr_cmd, ice_ptp_clean_cmd.
  do 6 shape_step.
  eapply shape_bind; [apply (ice_read_phy_and_phc_time_eth56g_captured hw port Hregs)|].
  cbv beta. intros [[st phy_time'] phc_time'] recapture Hrecap. cbn [fst] in Hrecap.
  unfold ice_ptp_unlock. shape_step. shape_step. intros ->.
  destruct (Hrecap eq_refl) as (zo' & lo' & txl' & txh' & rxl' & rxh' & Hrecaptured & _).
  exists lock_evs, capture, zo, lo, txl, txh, rxl, rxh, adj, cmd_val, staging, recapture.
  split; [exact Hlock|]. split; [exact Hcaptured|].
  split.
  { cbv zeta. destruct (words_s64 (val_64b zo lo - val_64b txl txh)) as [El Eh].
    rewrite El, Eh in Hadj. unfold lower_32_bits, upper_32_bits in *.
    rewrite !u32_idem in Hadj. exact Hadj. }
  split; [exact Hcmd|]. split; [exact Hstaged|].
  split; [eauto 8|].
  unfold commit_events. rewrite ?app_nil_r, <- ?app_assoc. reflexivity.
Qed.

Lemma ice_read_phy_reg_eth56g_lp_sbq hw port offset lock_sbq :
  emits_only sbq_event (ice_read_phy_reg_eth56g_lp hw port offset lock_sbq).
Proof.
  unfold ice_read_phy_reg_eth56g_lp, ice_read_phy_port_eth56g_lp,
    ice_phy_port_res_address_eth56g, ice_read_phy_eth56g_raw_lp.
  cbn [failed Z.eqb negb]. emits_tac.
Qed.

Lemma ice_read_64b_phy_reg_eth56g_sbq hw port low_addr :
  emits_only sbq_event (ice_read_64b_phy_reg_eth56g hw port low_addr).
Proof.
  unfold ice_read_64b_phy_reg_eth56g, ice_read_phy_reg_eth56g.
  destruct (ice_is_64b_phy_reg_eth56g low_addr); [|apply emits_ret].
  apply emits_bind; [apply ice_read_phy_reg_eth56g_lp_sbq|]. intros [st lo].
  destruct (failed st); [apply emits_ret|].
  apply emits_bind; [apply ice_read_phy_reg_eth56g_lp_sbq|]. intros [st2 hi].
  destruct (failed st2); apply emits_ret.
Qed.

Lemma ice_ptp_read_port_capture_eth56g_sbq hw port :
  emits_only sbq_event (ice_ptp_read_port_capture_eth56g hw port).
Proof.
  unfold ice_ptp_read_port_capture_eth56g.
  apply emits_bind; [apply ice_read_64b_phy_reg_eth56g_sbq|]. intros [st tx].
  destruct (failed st); [apply emits_ret|].
  apply emits_bind; [apply ice_read_64b_phy_reg_eth56g_sbq|]. intros [st2 rx].
  destruct (failed st2); apply emits_ret.
Qed.

Lemma ice_ptp_one_port_cmd_eth56g_sbq hw port cmd lock_sbq :
  emits_only sbq_event (ice_ptp_one_port_cmd_eth56g hw port cmd lock_sbq).
Proof.
  eapply shape_weaken; [apply ice_ptp_one_port_cmd_eth56g_shape|].
  cbv beta. intros st evs [H _]. exact H.
Qed.

Lemma ice_ptp_prep_port_adj_eth56g_sbq hw port time lock_sbq :
  emits_only sbq_event (ice_ptp_prep_port_adj_eth56g hw port time lock_sbq).
Proof.
  unfold ice_ptp_prep_port_adj_eth56g.
  repeat first [apply emits_ret
               | apply emits_bind; [apply ice_write_phy_reg_eth56g_lp_sbq | intros ?st]
               | lazymatch goal with
                 | |- emits_only _ (if ?b then _ else _) => destruct b
                 end].
Qed.

Section Body56g.
Variable hw : ice_hw.
Hypothesis sem_cmd : ptp_sem_addr hw <> GLTSYN_CMD.
Hypothesis sem_sync : ptp_sem_addr hw <> GLTSYN_CMD_SYNC.

Lemma ice_read_phy_and_phc_time_eth56g_not_sem port :
  emits_only (not_sem_write hw) (ice_read_phy_and_phc_time_eth56g hw port).
Proof.
  unfold ice_read_phy_and_phc_time_eth56g.
  apply emits_bind; [apply ice_ptp_src_cmd_not_sem, sem_cmd|]. intros _.
  apply emits_bind; [apply sbq_only_not_sem, ice_ptp_one_port_cmd_eth56g_sbq|].
  intros status. destruct (failed status); [apply emits_ret|].
  apply emits_bind; [apply ice_ptp_exec_tmr_cmd_not_sem, sem_sync|]. intros _.
  apply emits_bind; [apply ice_ptp_clean_cmd_not_sem, sem_cmd|]. intros _.
  apply emits_bind; [apply emits_rd32; reflexivity|]. intros zo.
  apply emits_bind; [apply emits_rd32; reflexivity|]. intros lo.
  apply emits_bind; [apply sbq_only_not_sem, ice_ptp_read_port_capture_eth56g_sbq|].
  intros [[st tx] rx]. destruct (failed st); apply emits_ret.
Qed.

End Body56g.

(** X26: ice_sync_phy_timer_eth56g returns -EBUSY without having written
    any register when the semaphore is not acquired; when it is acquired,
    on every path, failing or not, the releasing write to the semaphore
    register is issued exactly once, as the last event of the call. *)
Theorem ice_sync_phy_timer_eth56g_locked (hw : ice_hw) (port : Z) :
  ptp_sem_addr hw <> GLTSYN_CMD ->
  ptp_sem_addr hw <> GLTSYN_CMD_SYNC ->
  shape (ice_sync_phy_timer_eth56g hw port) (locked_section hw).
Proof.
  intros sem_cmd sem_sync. unfold ice_sync_phy_timer_eth56g.
  eapply shape_bind; [apply ice_ptp_lock_shape|]. cbv beta.
  intros [] lock_evs Hlock; cbn [negb].
  - eapply shape_weaken.
    { apply ends_unlock_bind;
        [apply ice_read_phy_and_phc_time_eth56g_not_sem; assumption|].
      intros [[st phy_time] phc_time].
      destruct (failed st); [apply ends_unlock_base|].
      apply ends_unlock_bind; [apply ice_ptp_src_cmd_not_sem, sem_cmd|]. intros _.
      apply ends_unlock_bind;
        [apply sbq_only_not_sem, ice_ptp_prep_port_adj_eth56g_sbq|].
      intros st2. destruct (failed st2); [apply ends_unlock_base|].
      apply ends_unlock_bind;
        [apply sbq_only_not_sem, ice_ptp_one_port_cmd_eth56g_sbq|].
      intros st3. destruct (failed st3); [apply ends_unlock_base|].
      apply ends_unlock_bind; [apply ice_ptp_exec_tmr_cmd_not_sem, sem_sync|]. intros _.
      apply ends_unlock_bind; [apply ice_ptp_clean_cmd_not_sem, sem_cmd|]. intros _.
      apply ends_unlock_bind;
        [apply ice_read_phy_and_phc_time_eth56g_not_sem; assumption|].
      intros [[st4 phy_time'] phc_time']. apply ends_unlock_base. }
    cbv beta. intros status evs (body & -> & Hbody).
    apply locked_section_of_body; assumption.
  - shape_step. rewrite app_nil_r. apply locked_section_busy, Hlock.
Qed.

End Synchronise56g.

(** * The synchronisation of a 56G port on concrete inputs *)

Lemma sample_capture_regs_known_eth56g : capture_regs_known_eth56g (defs := Sample.defs).
Proof. split; reflexivity. Qed.

(** Port 1 of a 56G device with a quiet sideband queue. *)
Lemma ice_sync_phy_timer_eth56g_difference_witness :
  let hw := Sample.hw_of ICE_PHY_ETH56G 2 Sample.quiet_dev in
  capture_regs_known_eth56g (defs := Sample.defs) /\
  shape (ice_sync_phy_timer_eth56g (defs := Sample.defs) hw 1)
        (phy_timer_synced_eth56g (defs := Sample.defs) hw 1).
Proof.
  intros hw. split; [exact sample_capture_regs_known_eth56g|].
  apply (ice_sync_phy_timer_eth56g_difference (defs := Sample.defs) hw 1).
  exact sample_capture_regs_known_eth56g.
Defined.

(** The PHC time 0x1_0000_0010 captured with the port time 0: the NOP for
    the source timer, then the two words of the difference for the Tx and
    for the Rx timer of port 1. *)
Example ice_sync_phy_timer_eth56g_words :
  let mmio addr := if addr =? 0x000888E0 then 0x10
                   else if addr =? 0x000888E8 then 1 else 0 in
  let hw := Sample.hw_of ICE_PHY_ETH56G 2 (SampleTime.holding_dev mmio) in
  let r := ice_sync_phy_timer_eth56g (defs := Sample.defs) hw 1 [] in
  let wr addr val :=
    EvSbq {| dest_dev := 8; opcode := ice_sbq_msg_wr; msg_addr_low := addr;
             msg_addr_high := 9; data := val |} true 0 0 in
  fst r = 0 /\
  firstn 5 (skipn 16 (snd r)) =
    [EvWr32 0x00088810 0; wr 8412 0x10; wr 8416 1; wr 8444 0x10; wr 8448 1].
Proof. vm_compute. split; reflexivity. Qed.

Lemma ice_sync_phy_timer_eth56g_locked_witness :
  let hw := Sample.hw_of ICE_PHY_ETH56G 2 Sample.quiet_dev in
  shape (ice_sync_phy_timer_eth56g (defs := Sample.defs) hw 1)
        (locked_section (defs := Sample.defs) hw).
Proof.
  intros hw.
  apply (ice_sync_phy_timer_eth56g_locked (defs := Sample.defs) hw 1).
  - vm_compute. lia.
  - vm_compute. lia.
Defined.

(** The semaphore held by another function for good: -EBUSY and no
    register written; a sideband queue that fails from its third
    transaction on: the error is returned and the semaphore released. *)
Example ice_sync_phy_timer_eth56g_samples :
  let busy := Sample.hw_of ICE_PHY_ETH56G 2 Sample.busy_sem_dev in
  let failing := Sample.hw_of ICE_PHY_ETH56G 2 (Sample.failing_dev 4 (-5)) in
  fst (ice_sync_phy_timer_eth56g (defs := Sample.defs) busy 1 []) = -16 /\
  count_ev is_write (snd (ice_sync_phy_timer_eth56g (defs := Sample.defs) busy 1 [])) = 0%nat /\
  fst (ice_sync_phy_timer_eth56g (defs := Sample.defs) failing 1 []) = -5 /\
  last (snd (ice_sync_phy_timer_eth56g (defs := Sample.defs) failing 1 [])) EvFlush =
    EvWr32 0x00088880 0.
Proof. vm_compute. repeat split. Qed.
(** ** Clearing a timestamp: what each family does *)

Section ClearTimestampExact.
Context {defs : IceDefs}.

(** The result and the events of a run from the empty history. *)
Lemma shape_at_nil {A : Type} (m : M A) (S : A -> list event -> Prop) :
  shape m S -> S (fst (m [])) (snd (m [])).
Proof.
  intros H. destruct (H []) as (a & evs & E & HS). rewrite E. exact HS.
Qed.

Lemma ice_read_phy_tstamp_eth56g_exact hw port idx :
  port < max_phy_port hw ->
  shape (ice_read_phy_tstamp_eth56g hw port idx)
    (fun r evs =>
       tstamp_read (tstamp_low_read_eth56g hw port idx)
                   (tstamp_high_read_eth56g hw port idx) (fst r) evs).
Proof.
  intros Hp. unfold ice_read_phy_tstamp_eth56g.
  eapply shape_bind; [apply ice_phy_port_mem_read_eth56g_shape, Hp|].
  cbv beta. intros [s lo] e1 [v ->]. cbn [fst].
  case_failed.
  - shape_step. exists s, v. left. auto.
  - eapply shape_bind; [apply ice_phy_port_mem_read_eth56g_shape, Hp|].
    cbv beta. intros [s2 hi] e2 [v2 ->]. cbn [fst].
    case_failed; shape_step; exists 0, v; right; (split; [reflexivity|]);
      exists v2; reflexivity.
Qed.

Lemma ice_clear_phy_tstamp_eth56g_exact hw port idx :
  port < max_phy_port hw ->
  shape (ice_clear_phy_tstamp_eth56g hw port idx)
    (tstamp_cleared_eth56g hw port idx).
Proof.
  intros Hp. unfold ice_clear_phy_tstamp_eth56g.
  eapply shape_bind; [apply ice_read_phy_tstamp_eth56g_exact, Hp|].
  cbv beta. intros [rs ts] reads Hrd. cbn [fst] in Hrd.
  eapply shape_bind; [apply ice_phy_port_mem_write_eth56g_shape, Hp|].
  cbv beta. intros st e2 [w ->].
  case_failed; shape_step; exists rs, reads, w; (split; [exact Hrd|]);
    rewrite app_nil_r; reflexivity.
Qed.

Lemma ice_read_phy_tstamp_e810_exact hw lport idx :
  shape (ice_read_phy_tstamp_e810 hw lport idx)
    (fun r evs => tstamp_read_e810 hw lport idx (fst r) evs).
Proof.
  unfold ice_read_phy_tstamp_e810, tstamp_read_e810. destruct (ts_ll_read hw).
  - unfold ice_read_phy_tstamp_ll_e810.
    apply shape_bind_assoc. shape_step.
    eapply shape_bind;
      [apply (ice_read_phy_tstamp_ll_e810_loop_shape hw _ 0%nat []); reflexivity|].
    cbv beta. intros [[s hi] lo] polls H. cbn [app Nat.add] in H.
    case_failed; shape_step; eexists _, polls; rewrite app_nil_r;
      (split; [reflexivity|]); (split; [exact H | reflexivity]).
  - unfold ice_read_phy_tstamp_sbq_e810, ice_read_phy_reg_e810.
    apply shape_bind_assoc.
    eapply shape_bind; [apply ice_read_phy_reg_e810_lp_shape|].
    cbv beta. intros [s lo] e1 (s1 & v1 & -> & _ & Hr).
    destruct Hr as [[Hs E] | [-> E]]; injection E as -> ->.
    + case_failed; [|contradiction]. shape_step.
      case_failed; [|contradiction]. shape_step.
      exists s1, v1. left. auto.
    + cbn [failed Z.eqb negb]. apply shape_bind_assoc.
      eapply shape_bind; [apply ice_read_phy_reg_e810_lp_shape|].
      cbv beta. intros [s2 hi] e2 (s3 & v3 & -> & _ & Hr2).
      destruct Hr2 as [[Hs E2] | [-> E2]]; injection E2 as -> ->.
      * case_failed; [|contradiction]. shape_step.
        case_failed; [|contradiction]. shape_step.
        exists 0, v1. right. split; [reflexivity|]. exists v3. reflexivity.
      * cbn [failed Z.eqb negb]. shape_step. cbn [failed Z.eqb negb]. shape_step.
        exists 0, v1. right. split; [reflexivity|]. exists v3. reflexivity.
Qed.

Lemma ice_clear_phy_tstamp_e810_exact hw lport idx :
  shape (ice_clear_phy_tstamp_e810 hw lport idx) (tstamp_cleared_e810 hw lport idx).
Proof.
  unfold ice_clear_phy_tstamp_e810.
  eapply shape_bind; [apply ice_read_phy_tstamp_e810_exact|].
  cbv beta. intros [rs ts] reads Hrd. cbn [fst] in Hrd.
  case_failed.
  { shape_step. exists rs, reads. split; [exact Hrd|]. left.
    rewrite app_nil_r. auto. }
  eapply shape_bind; [apply ice_write_phy_reg_e810_shape|].
  cbv beta. intros s_lo e2 [w_lo ->].
  case_failed.
  { shape_step. exists 0, reads. split; [exact Hrd|]. right.
    split; [reflexivity|]. exists s_lo, w_lo. left.
    rewrite app_nil_r. auto. }
  eapply shape_bind; [apply ice_write_phy_reg_e810_shape|].
  cbv beta. intros s_hi e3 [w_hi ->].
  case_failed; shape_step; exists 0, reads; (split; [exact Hrd|]); right;
    (split; [reflexivity|]); exists 0, w_lo; right; (split; [reflexivity|]);
    exists w_hi; rewrite app_nil_r; reflexivity.
Qed.

Lemma ice_read_quad_reg_e822_exact hw quad offset :
  quad < ICE_MAX_QUAD ->
  shape (ice_read_quad_reg_e822 hw quad offset)
    (fun r evs => exists v,
       evs = [EvSbq (quad_reg_msg quad offset ice_sbq_msg_rd 0) true (fst r) v]).
Proof.
  intros Hq.
  unfold ice_read_quad_reg_e822, ice_read_quad_reg_e822_lp, ice_fill_quad_msg_e822.
  destruct (Z.geb_spec quad ICE_MAX_QUAD); [lia|].
  shape_step. case_failed; shape_step; exists v; reflexivity.
Qed.

Lemma ice_clear_phy_tstamp_e822_exact hw quad idx :
  quad < ICE_MAX_QUAD ->
  shape (ice_clear_phy_tstamp_e822 hw quad idx) (tstamp_cleared_e822 quad idx).
Proof.
  intros Hq. unfold ice_clear_phy_tstamp_e822, ice_read_phy_tstamp_e822.
  apply shape_bind_assoc.
  eapply shape_bind; [apply ice_read_quad_reg_e822_exact, Hq|].
  cbv beta. intros [s lo] e1 [v ->]. cbn [fst].
  case_failed.
  - shape_step. case_failed; [|contradiction]. shape_step.
    exists s, v. left. auto.
  - apply shape_bind_assoc.
    eapply shape_bind; [apply ice_read_quad_reg_e822_exact, Hq|].
    cbv beta. intros [s2 hi] e2 [v2 ->]. cbn [fst].
    case_failed.
    + shape_step. case_failed; [|contradiction]. shape_step.
      exists 0, v. right. split; [reflexivity|]. exists v2. reflexivity.
    + shape_step. cbn [failed Z.eqb negb]. shape_step.
      exists 0, v. right. split; [reflexivity|]. exists v2. reflexivity.
Qed.

Lemma tstamp_read_no_write lo hi status evs :
  opcode lo = ice_sbq_msg_rd -> opcode hi = ice_sbq_msg_rd ->
  tstamp_read lo hi status evs -> count_ev is_write evs = 0%nat.
Proof.
  intros Hlo Hhi (s1 & v1 & [(_ & _ & ->) | (_ & v2 & ->)]);
    unfold count_ev; cbn [filter is_write]; rewrite ?Hlo, ?Hhi; reflexivity.
Qed.

(** C10, as the code has it.  On the 56G PHY (for a port below
    max_phy_port, hw->phy_ports not being 0) ice_clear_phy_tstamp reads the
    low word of the indexed timestamp and, if that succeeded, its high
    word; then, whether or not the read succeeded, it writes zero to the
    low word, which is its last transaction and gives the status
    returned.  On the E810 it reads the timestamp, over the sideband queue
    or with the low latency read; if the read fails it returns the error
    and writes neither word; otherwise it writes zero to the low word and
    then, if that succeeded, to the high word.  On the E822 (for a quad
    below ICE_MAX_QUAD) it reads the low word and, if that succeeded, the
    high word, and does nothing else: no register is written. *)
Theorem ice_clear_phy_tstamp_by_family (hw : ice_hw) (block idx : Z) :
  (phy_model hw = ICE_PHY_ETH56G -> phy_ports hw <> 0 -> block < max_phy_port hw ->
   shape (ice_clear_phy_tstamp hw block idx) (tstamp_cleared_eth56g hw block idx))
  /\
  (phy_model hw = ICE_PHY_E810 ->
   shape (ice_clear_phy_tstamp hw block idx) (tstamp_cleared_e810 hw block idx))
  /\
  (phy_model hw = ICE_PHY_E822 -> block < ICE_MAX_QUAD ->
   shape (ice_clear_phy_tstamp hw block idx)
     (fun status evs =>
        tstamp_cleared_e822 block idx status evs /\
        count_ev is_write evs = 0%nat)).
Proof.
  unfold ice_clear_phy_tstamp. repeat split; intros Hm; rewrite Hm.
  - intros _ Hp. apply ice_clear_phy_tstamp_eth56g_exact, Hp.
  - apply ice_clear_phy_tstamp_e810_exact.
  - intros Hq. eapply shape_weaken; [apply ice_clear_phy_tstamp_e822_exact, Hq|].
    cbv beta. intros status evs H. split; [exact H|].
    eapply tstamp_read_no_write; [| |exact H]; reflexivity.
Qed.

End ClearTimestampExact.

(** Timestamp 3 of block 1 in the three families, on quiet devices: the
    events of each run are those the family's case describes. *)
Lemma ice_clear_phy_tstamp_by_family_witness :
  let hw56 := Sample.hw_of ICE_PHY_ETH56G 2 Sample.quiet_dev in
  let hw810 := Sample.hw_of ICE_PHY_E810 2 Sample.quiet_dev in
  let hw822 := Sample.hw_of ICE_PHY_E822 2 Sample.quiet_dev in
  let run hw := ice_clear_phy_tstamp (defs := Sample.defs) hw 1 3 [] in
  (phy_ports hw56 <> 0 /\ 1 < max_phy_port hw56 /\
   tstamp_cleared_eth56g (defs := Sample.defs) hw56 1 3
     (fst (run hw56)) (snd (run hw56))) /\
  tstamp_cleared_e810 (defs := Sample.defs) hw810 1 3
    (fst (run hw810)) (snd (run hw810)) /\
  (1 < ICE_MAX_QUAD (IceDefs := Sample.defs) /\
   tstamp_cleared_e822 (defs := Sample.defs) 1 3 (fst (run hw822)) (snd (run hw822)) /\
   count_ev is_write (snd (run hw822)) = 0%nat).
Proof.
  intros hw56 hw810 hw822 run.
  assert (Hports : phy_ports hw56 <> 0) by (cbn; lia).
  assert (Hport : 1 < max_phy_port hw56) by (cbn; lia).
  assert (Hquad : 1 < ICE_MAX_QUAD (IceDefs := Sample.defs)) by (cbn; lia).
  destruct (ice_clear_phy_tstamp_by_family (defs := Sample.defs) hw56 1 3)
    as (H56 & _ & _).
  destruct (ice_clear_phy_tstamp_by_family (defs := Sample.defs) hw810 1 3)
    as (_ & H810 & _).
  destruct (ice_clear_phy_tstamp_by_family (defs := Sample.defs) hw822 1 3)
    as (_ & _ & H822).
  split; [|split].
  - split; [exact Hports|]. split; [exact Hport|].
    exact (shape_at_nil _ _ (H56 eq_refl Hports Hport)).
  - exact (shape_at_nil _ _ (H810 eq_refl)).
  - split; [exact Hquad|].
    exact (shape_at_nil _ _ (H822 eq_refl Hquad)).
Defined.

(** The 56G PHY: both words are read, then zero is written to the low
    word. *)
Example ice_clear_phy_tstamp_eth56g_run :
  let hw := Sample.hw_of ICE_PHY_ETH56G 2 Sample.quiet_dev in
  ice_clear_phy_tstamp (defs := Sample.defs) hw 1 3 [] =
    (0, [EvSbq (tstamp_low_read_eth56g (defs := Sample.defs) hw 1 3) true 0 0;
         EvSbq (tstamp_high_read_eth56g (defs := Sample.defs) hw 1 3) true 0 0;
         EvSbq (tstamp_low_zero_eth56g (defs := Sample.defs) hw 1 3) true 0 0]).
Proof. vm_compute. reflexivity. Qed.

(** The 56G PHY when the read of the low word fails with -5: the high word
    is not read, and zero is written to the low word all the same. *)
Example ice_clear_phy_tstamp_eth56g_failed_read :
  let hw := Sample.hw_of ICE_PHY_ETH56G 2
              {| dev_rd32 := fun _ _ => 0;
                 dev_sbq := fun t _ _ => match t with [] => (-5, 0) | _ => (0, 0) end;
                 dev_aq_get_cgu_dpll_status := fun _ _ => Sample.no_dpll_status;
                 dev_uninit := fun _ => 0 |} in
  ice_clear_phy_tstamp (defs := Sample.defs) hw 1 3 [] =
    (0, [EvSbq (tstamp_low_read_eth56g (defs := Sample.defs) hw 1 3) true (-5) 0;
         EvSbq (tstamp_low_zero_eth56g (defs := Sample.defs) hw 1 3) true 0 0]).
Proof. vm_compute. reflexivity. Qed.

(** The E810: both words are read, then zero is written to the low and to
    the high word. *)
Example ice_clear_phy_tstamp_e810_run :
  let hw := Sample.hw_of ICE_PHY_E810 2 Sample.quiet_dev in
  ice_clear_phy_tstamp (defs := Sample.defs) hw 1 3 [] =
    (0, [EvSbq (tstamp_low_read_e810 (defs := Sample.defs) 1 3) true 0 0;
         EvSbq (tstamp_high_read_e810 (defs := Sample.defs) 1 3) true 0 0;
         EvSbq (tstamp_low_zero_e810 (defs := Sample.defs) 1 3) true 0 0;
         EvSbq (tstamp_high_zero_e810 (defs := Sample.defs) 1 3) true 0 0]).
Proof. vm_compute. reflexivity. Qed.

(** The E810 when the read of the high word fails with -5: the error is
    returned and nothing is written. *)
Example ice_clear_phy_tstamp_e810_failed_read :
  let hw := Sample.hw_of ICE_PHY_E810 2 (Sample.failing_dev 1 (-5)) in
  ice_clear_phy_tstamp (defs := Sample.defs) hw 1 3 [] =
    (-5, [EvSbq (tstamp_low_read_e810 (defs := Sample.defs) 1 3) true 0 0;
          EvSbq (tstamp_high_read_e810 (defs := Sample.defs) 1 3) true (-5) 0]).
Proof. vm_compute. reflexivity. Qed.

(** The E822: both words are read, nothing is written. *)
Example ice_clear_phy_tstamp_e822_run :
  let hw := Sample.hw_of ICE_PHY_E822 2 Sample.quiet_dev in
  ice_clear_phy_tstamp (defs := Sample.defs) hw 1 3 [] =
    (0, [EvSbq (tstamp_low_read_e822 (defs := Sample.defs) 1 3) true 0 0;
         EvSbq (tstamp_high_read_e822 (defs := Sample.defs) 1 3) true 0 0]).
Proof. vm_compute. reflexivity. Qed.
(** ** The Vernier offsets on a port whose registers keep what is written *)

(** The events of a reading step are no sideband writes. *)
Ltac only_reads :=
  unfold no_phy_write, src_incval_reads, incval_reads, reads_64b, E_rd in *;
  repeat first
    [ assumption
    | apply Forall_nil
    | apply Forall_cons; [first [exact I | reflexivity]|]
    | apply Forall_app; split ].

Section Runs.
Context {defs : IceDefs}.

Lemma bind_eq {A B : Type} (m : M A) (k : A -> M B) t a t' :
  m t = (a, t') -> bind m k t = k a t'.
Proof. intros E. unfold bind. rewrite E. reflexivity. Qed.

Lemma bind_assoc_eq {A B C : Type} (m : M A) (k1 : A -> M B) (k2 : B -> M C) t :
  bind (bind m k1) k2 t = bind m (fun a => bind (k1 a) k2) t.
Proof. unfold bind. destruct (m t). reflexivity. Qed.

Lemma bind_ret_eq {A B : Type} (a : A) (k : A -> M B) t : bind (ret a) k t = k a t.
Proof. reflexivity. Qed.



Lemma reg_after_reads init t evs msg :
  no_phy_write evs -> reg_after init (t ++ evs) msg = reg_after init t msg.
Proof.
  intros H. unfold reg_after. rewrite fold_left_app.
  generalize (fold_left
    (fun acc e =>
       match e with
       | EvSbq m _ _ _ =>
           match opcode m with
           | ice_sbq_msg_wr => if same_register m msg then data m else acc
           | ice_sbq_msg_rd => acc
           end
       | _ => acc
       end) t init) as acc.
  induction H as [|e evs He _ IH]; intros acc; [reflexivity|].
  cbn [fold_left]. rewrite <- (IH acc) at 1. f_equal.
  destruct e; try reflexivity. cbn [read_event] in He. rewrite He. reflexivity.
Qed.

Lemma port_reg_reads port regs t evs offset :
  no_phy_write evs -> port_reg port regs (t ++ evs) offset = port_reg port regs t offset.
Proof. intros H. unfold port_reg. rewrite reg_after_reads by exact H. reflexivity. Qed.




End Runs.

Section KeptPort.
Context {defs : IceDefs}.
Variables (hw : ice_hw) (port : Z) (regs mmio : Z -> Z).
Hypothesis Hkeeps : port_keeps hw port regs mmio.

Local Abbreviation cur := (port_reg port regs).

Lemma read_eq t offset :
  ice_read_phy_reg_e822 hw port offset t
  = ((0, cur t offset), t ++ [E_rd port offset 0 (cur t offset)]).
Proof.
  unfold ice_read_phy_reg_e822, ice_read_phy_reg_e822_lp, ice_sbq_rw_reg_lp, bind, ret.
  destruct (Hkeeps t) as (_ & Hrd & _). rewrite (Hrd offset).
  cbn [failed Z.eqb negb]. reflexivity.
Qed.

Lemma write_eq t offset val :
  exists w,
    ice_write_phy_reg_e822 hw port offset val t = (0, t ++ [E_wr port offset val 0 w]).
Proof.
  unfold ice_write_phy_reg_e822, ice_write_phy_reg_e822_lp, ice_sbq_rw_reg_lp, bind, ret.
  destruct (Hkeeps t) as (Hwr & _ & _).
  pose proof (Hwr (ice_fill_phy_msg_e822 port offset ice_sbq_msg_wr (u32 val)) true
                eq_refl) as Hs.
  destruct (dev_sbq _ _ _ _) as [s w]. cbn [fst] in Hs. subst s.
  cbn [failed Z.eqb negb]. exists (u32 w). reflexivity.
Qed.

Lemma incval_eq t :
  ice_ptp_read_src_incval hw t = (src_incval hw mmio, t ++ src_incval_reads hw mmio).
Proof.
  pose proof (ice_ptp_read_src_incval_eq hw t) as E. cbv zeta in E.
  assert (Hmm : forall h a, dev_rd32 (dev hw) h a = mmio a)
    by (intros h a; apply Hkeeps).
  rewrite !Hmm in E. exact E.
Qed.

Lemma read64_eq t low high :
  ice_is_64b_phy_reg_e822 low = Some high ->
  ice_read_64b_phy_reg_e822 hw port low t
  = ((0, val_64b (cur t low) (cur t high)),
     t ++ reads_64b port low high (cur t low) (cur t high)).
Proof.
  intros H. unfold ice_read_64b_phy_reg_e822. rewrite H.
  rewrite (bind_eq _ _ _ _ _ (read_eq t low)). cbn [failed Z.eqb negb].
  rewrite (bind_eq _ _ _ _ _ (read_eq _ high)). cbn [failed Z.eqb negb].
  rewrite port_reg_reads by only_reads.
  unfold ret. rewrite <- app_assoc. reflexivity.
Qed.

Lemma speed_eq t link :
  link_of (cur t P_REG_LINK_SPEED) = Some link ->
  ice_phy_get_speed_and_fec_e822 hw port t
  = ((0, link, P_REG_LINK_SPEED_FEC_MODE (cur t P_REG_LINK_SPEED)),
     t ++ [E_rd port P_REG_LINK_SPEED 0 (cur t P_REG_LINK_SPEED)]).
Proof.
  unfold link_of. intros H. unfold ice_phy_get_speed_and_fec_e822.
  rewrite (bind_eq _ _ _ _ _ (read_eq t P_REG_LINK_SPEED)). cbn [failed Z.eqb negb].
  rewrite H. reflexivity.
Qed.

Lemma program_eq t low high ready total :
  ice_is_64b_phy_reg_e822 low = Some high ->
  exists w1 w2 w3,
    (status <- ice_write_64b_phy_reg_e822 hw port low total ;;
     if failed status then ret status
     else
       status <- ice_write_phy_reg_e822 hw port ready 1 ;;
       if failed status then ret status
       else ret 0) t
    = (0, t ++ programmed port low high ready total w1 w2 w3).
Proof.
  intros H. unfold ice_write_64b_phy_reg_e822. rewrite H.
  destruct (write_eq t low (lower_32_bits total)) as [w1 E1].
  destruct (write_eq (t ++ [E_wr port low (lower_32_bits total) 0 w1]) high
              (upper_32_bits total)) as [w2 E2].
  destruct (write_eq ((t ++ [E_wr port low (lower_32_bits total) 0 w1])
                        ++ [E_wr port high (upper_32_bits total) 0 w2]) ready 1)
    as [w3 E3].
  exists w1, w2, w3. unfold bind at 1.
  rewrite (bind_eq _ _ _ _ _ E1). cbn [failed Z.eqb negb].
  rewrite (bind_eq _ _ _ _ _ E2). cbn [failed Z.eqb negb]. unfold ret at 1.
  cbn [failed Z.eqb negb].
  rewrite (bind_eq _ _ _ _ _ E3). cbn [failed Z.eqb negb]. unfold ret, programmed.
  rewrite <- !app_assoc. reflexivity.
Qed.

(** *** The steps of a call, from the history [t ++ evs] *)

Lemma read_at t evs offset :
  no_phy_write evs ->
  ice_read_phy_reg_e822 hw port offset (t ++ evs)
  = ((0, cur t offset), t ++ (evs ++ [E_rd port offset 0 (cur t offset)])).
Proof.
  intros H. rewrite read_eq, (port_reg_reads _ _ _ _ _ H), <- app_assoc. reflexivity.
Qed.

Lemma incval_at t evs :
  ice_ptp_read_src_incval hw (t ++ evs)
  = (src_incval hw mmio, t ++ (evs ++ src_incval_reads hw mmio)).
Proof. rewrite incval_eq, <- app_assoc. reflexivity. Qed.

Lemma read64_at t evs low high :
  no_phy_write evs -> ice_is_64b_phy_reg_e822 low = Some high ->
  ice_read_64b_phy_reg_e822 hw port low (t ++ evs)
  = ((0, val_64b (cur t low) (cur t high)),
     t ++ (evs ++ reads_64b port low high (cur t low) (cur t high))).
Proof.
  intros H H64.
  rewrite (read64_eq _ _ _ H64), !(port_reg_reads _ _ _ _ _ H), <- app_assoc.
  reflexivity.
Qed.

Lemma speed_at t evs link :
  no_phy_write evs -> link_of (cur t P_REG_LINK_SPEED) = Some link ->
  ice_phy_get_speed_and_fec_e822 hw port (t ++ evs)
  = ((0, link, P_REG_LINK_SPEED_FEC_MODE (cur t P_REG_LINK_SPEED)),
     t ++ (evs ++ [E_rd port P_REG_LINK_SPEED 0 (cur t P_REG_LINK_SPEED)])).
Proof.
  intros H Hlink.
  rewrite (speed_eq _ link), !(port_reg_reads _ _ _ _ _ H), <- ?app_assoc;
    [reflexivity|].
  rewrite (port_reg_reads _ _ _ _ _ H). exact Hlink.
Qed.


Lemma fixed_rx_at t evs link :
  ice_calc_fixed_rx_offset_e822 hw link (t ++ evs)
  = (fixed_rx_offset_of hw link (src_incval hw mmio),
     t ++ (evs ++ src_incval_reads hw mmio)).
Proof.
  unfold ice_calc_fixed_rx_offset_e822.
  rewrite (bind_eq _ _ _ _ _ (incval_at t evs)). reflexivity.
Qed.

Lemma program_at t evs low high ready total :
  ice_is_64b_phy_reg_e822 low = Some high ->
  exists w1 w2 w3,
    (status <- ice_write_64b_phy_reg_e822 hw port low total ;;
     if failed status then ret status
     else
       status <- ice_write_phy_reg_e822 hw port ready 1 ;;
       if failed status then ret status
       else ret 0) (t ++ evs)
    = (0, t ++ evs ++ programmed port low high ready total w1 w2 w3).
Proof.
  intros H. destruct (program_eq (t ++ evs) low high ready total H)
    as (w1 & w2 & w3 & E).
  exists w1, w2, w3. rewrite E, <- app_assoc. reflexivity.
Qed.

Lemma pmd_at t evs link fec :
  no_phy_write evs ->
  ice_phy_calc_pmd_adj_e822 hw port link fec (t ++ evs)
  = ((0, rx_pmd_of hw link fec (src_incval hw mmio) (cur t)),
     t ++ (evs ++ E_rd port P_REG_PMD_ALIGNMENT 0 (cur t P_REG_PMD_ALIGNMENT)
               :: src_incval_reads hw mmio
               ++ rx_cycle_reads port link (rx_cycle_count link (cur t)))).
Proof.
  intros H. unfold ice_phy_calc_pmd_adj_e822.
  erewrite bind_eq by (apply read_at; exact H). cbn [failed Z.eqb negb].
  erewrite bind_eq by apply incval_at.
  fold (tu_per_sec_of hw (src_incval hw mmio)).
  unfold rx_pmd_of, pmd_adj_of.
  destruct link; cbn [link_spd_eqb rx_cycle_reads rx_cycle_count rx_cycle_term];
    try (destruct (pmd_adj_mult _ _ _ =? 0) eqn:Em; unfold ret;
         rewrite <- ?app_assoc; cbn [app]; rewrite ?app_nil_r, ?pmd_scale_u64;
         reflexivity).
  - rewrite !pmd_adj_mult_rs by auto.
    erewrite bind_eq by (apply read_at; only_reads). cbn [failed Z.eqb negb].
    destruct (u8 (Z.land (cur t P_REG_RX_40_TO_160_CNT)
                    P_REG_RX_40_TO_160_CNT_RXCYC_M) =? 0);
      cbn [negb]; unfold ret; rewrite <- ?app_assoc; cbn [app];
      rewrite ?pmd_scale_u64; reflexivity.
  - rewrite !pmd_adj_mult_rs by auto.
    erewrite bind_eq by (apply read_at; only_reads). cbn [failed Z.eqb negb].
    destruct (u8 (Z.land (cur t P_REG_RX_80_TO_160_CNT)
                    P_REG_RX_80_TO_160_CNT_RXCYC_M) =? 0);
      cbn [negb]; unfold ret; rewrite <- ?app_assoc; cbn [app];
      rewrite ?pmd_scale_u64; reflexivity.
Qed.

(** *** A call that programs: its reads, then the programming step *)


Lemma rx_reads_eq t link :
  offset_case_labels_distinct ->
  cur t P_REG_RX_OR = 0 ->
  Z.land (cur t P_REG_RX_OV_STATUS) P_REG_RX_OV_STATUS_OV_M <> 0 ->
  link_of (cur t P_REG_LINK_SPEED) = Some link ->
  ice_phy_cfg_rx_offset_e822 hw port t
  = (status <- ice_write_64b_phy_reg_e822 hw port P_REG_TOTAL_RX_OFFSET_L
                 (rx_total_of hw link (P_REG_LINK_SPEED_FEC_MODE (cur t P_REG_LINK_SPEED))
                    (src_incval hw mmio) (cur t)) ;;
     if failed status then ret status
     else
       status <- ice_write_phy_reg_e822 hw port P_REG_RX_OR 1 ;;
       if failed status then ret status
       else ret 0) (t ++ rx_offset_reads hw port link (cur t) mmio).
Proof.
  intros Hlabels Hor Hov Hlink.
  destruct (offset_labels_64b Hlabels) as (Hpcs & Hpar & _ & _).
  unfold ice_phy_cfg_rx_offset_e822.
  rewrite (bind_eq _ _ _ _ _ (read_eq t P_REG_RX_OR)). cbn [failed Z.eqb negb].
  destruct (Z.eqb_spec (cur t P_REG_RX_OR) 0) as [_|]; [|contradiction]. cbn [negb].
  erewrite bind_eq by (apply read_at; only_reads). cbn [failed Z.eqb negb app].
  destruct (Z.eqb_spec (Z.land (cur t P_REG_RX_OV_STATUS) P_REG_RX_OV_STATUS_OV_M) 0)
    as [|_]; [contradiction|].
  erewrite bind_eq by (apply speed_at; [only_reads | exact Hlink]).
  cbn [failed Z.eqb negb app].
  erewrite bind_eq by apply fixed_rx_at. cbn [app].
  erewrite bind_eq by (apply read64_at; [only_reads | exact Hpcs]).
  cbn [failed Z.eqb negb app].
  unfold rx_offset_reads, rx_total_of, rx_base_of, rx_base_offset, par_rx_reads.
  rewrite rx_multi_lane_eq.
  destruct (rx_multi_lane link);
    repeat first
      [ rewrite bind_assoc_eq
      | rewrite bind_ret_eq
      | erewrite bind_eq by (apply read64_at; [only_reads | exact Hpar]) ];
    cbn [failed Z.eqb negb app];
    repeat first
      [ rewrite bind_assoc_eq
      | rewrite bind_ret_eq ];
    cbn [failed Z.eqb negb app];
    (erewrite bind_eq by (apply pmd_at; only_reads));
    cbn [failed Z.eqb negb app];
    unfold src_incval_reads, incval_reads, reads_64b; cbn [app];
    rewrite ?app_nil_r; reflexivity.
Qed.

(** *** One call *)






Lemma rx_programs_eq t link :
  offset_case_labels_distinct ->
  cur t P_REG_RX_OR = 0 ->
  Z.land (cur t P_REG_RX_OV_STATUS) P_REG_RX_OV_STATUS_OV_M <> 0 ->
  link_of (cur t P_REG_LINK_SPEED) = Some link ->
  exists w1 w2 w3,
    ice_phy_cfg_rx_offset_e822 hw port t
    = (0, t ++ rx_offset_reads hw port link (cur t) mmio
            ++ programmed port P_REG_TOTAL_RX_OFFSET_L P_REG_TOTAL_RX_OFFSET_U
                 P_REG_RX_OR
                 (rx_total_of hw link
                    (P_REG_LINK_SPEED_FEC_MODE (cur t P_REG_LINK_SPEED))
                    (src_incval hw mmio) (cur t))
                 w1 w2 w3).
Proof.
  intros Hlabels Hor Hov Hlink.
  destruct (offset_labels_64b Hlabels) as (_ & _ & _ & Htot).
  destruct (program_at t (rx_offset_reads hw port link (cur t) mmio) _ _
              P_REG_RX_OR
              (rx_total_of hw link
                 (P_REG_LINK_SPEED_FEC_MODE (cur t P_REG_LINK_SPEED))
                 (src_incval hw mmio) (cur t)) Htot)
    as (w1 & w2 & w3 & E).
  exists w1, w2, w3. rewrite (rx_reads_eq t link) by assumption. exact E.
Qed.

(** *** Calls in a row *)






End KeptPort.

Section Offsets56g.
Context {defs : IceDefs}.



End Offsets56g.

Section OffsetClaims.
Context {defs : IceDefs}.


(** C9: on an E822 port whose registers keep what is written to them, a
    call of ice_phy_cfg_rx_offset_e822 that reads the ready flag as 0, the
    Rx offset-valid bit as set and a known link speed reads the increment
    value, the Vernier offsets, the PMD alignment counter and, for 25G-RS
    and 50G-RS, the Rx cycle count, and then programs, with success, the
    base offset plus the PMD alignment adjustment when the FEC mode of the
    link speed register is RS-FEC, and the base offset minus the
    adjustment for every other FEC mode.  The adjustment is the scaled
    multiplier the link speed assigns to the alignment counter, plus, for
    25G-RS and 50G-RS, the scaled term of the cycle count.  On any device,
    a call that gets as far as programming attempts to program this total
    of the values it read, and any other call writes no register. *)
Theorem ice_phy_cfg_rx_offset_e822_pmd_adjustment (hw : ice_hw) (port : Z) :
  offset_case_labels_distinct ->
  (forall regs mmio t link,
     port_keeps hw port regs mmio ->
     let cur := port_reg port regs t in
     let fec := P_REG_LINK_SPEED_FEC_MODE (cur P_REG_LINK_SPEED) in
     let incval := src_incval hw mmio in
     let base := rx_base_of hw link incval cur in
     let pmd :=
       pmd_adj_of link fec (tu_per_sec_of hw incval) (u8 (cur P_REG_PMD_ALIGNMENT))
         (rx_cycle_count link cur) in
     let total :=
       if fec =? ICE_PTP_FEC_MODE_RS_FEC then u64 (base + pmd)
       else u64 (base - pmd) in
     cur P_REG_RX_OR = 0 ->
     Z.land (cur P_REG_RX_OV_STATUS) P_REG_RX_OV_STATUS_OV_M <> 0 ->
     link_of (cur P_REG_LINK_SPEED) = Some link ->
     exists w1 w2 w3,
       ice_phy_cfg_rx_offset_e822 hw port t
       = (0, t ++ rx_offset_reads hw port link cur mmio
               ++ programmed port P_REG_TOTAL_RX_OFFSET_L P_REG_TOTAL_RX_OFFSET_U
                    P_REG_RX_OR total w1 w2 w3))
  /\
  shape (ice_phy_cfg_rx_offset_e822 hw port) (rx_offset_outcome hw port).
Proof.
  intros Hlabels. split.
  - intros regs mmio t link Hkeeps cur fec incval base pmd total Hor Hov Hlink.
    apply (rx_programs_eq hw port regs mmio Hkeeps t link); assumption.
  - apply ice_phy_cfg_rx_offset_e822_paths, Hlabels.
Qed.

End OffsetClaims.

(** ** The offsets on the sample devices *)

(** The sample device with memory behind the sideband queue keeps what is
    written to the registers of port 0. *)
Lemma sample_port_keeps init mmio :
  port_keeps (defs := Sample.defs)
    (Sample.hw_of ICE_PHY_E822 2 (Sample.memory_dev init mmio)) 0
    (fun offset =>
       init (ice_fill_phy_msg_e822 (defs := Sample.defs) 0 offset ice_sbq_msg_rd 0))
    mmio.
Proof.
  intros t. split; [|split].
  - intros msg lock Hop. cbn. rewrite Hop. reflexivity.
  - intros offset. reflexivity.
  - intros addr. reflexivity.
Qed.



(** Port 0 of an E822 device with valid offsets and a 25G link with
    RS-FEC, the alignment counter 5 and the Rx cycle count 1: the
    adjustment, 7496670190 for the counter and 19991120506 for the cycle
    count, is added to the base offset 1268518592994. *)
Lemma ice_phy_cfg_rx_offset_e822_pmd_adjustment_witness :
  let hw := Sample.hw_of ICE_PHY_E822 2
              (Sample.memory_dev (Sample.offsets_valid_at 0x12 5 1)
                 Sample.incval_mmio) in
  let regs := fun offset =>
    Sample.offsets_valid_at 0x12 5 1
      (ice_fill_phy_msg_e822 (defs := Sample.defs) 0 offset ice_sbq_msg_rd 0) in
  let cur := port_reg (defs := Sample.defs) 0 regs [] in
  offset_case_labels_distinct (defs := Sample.defs) /\
  port_keeps (defs := Sample.defs) hw 0 regs Sample.incval_mmio /\
  cur (P_REG_RX_OR (IceDefs := Sample.defs)) = 0 /\
  Z.land (cur (P_REG_RX_OV_STATUS (IceDefs := Sample.defs)))
         (P_REG_RX_OV_STATUS_OV_M (IceDefs := Sample.defs)) <> 0 /\
  link_of (defs := Sample.defs) (cur (P_REG_LINK_SPEED (IceDefs := Sample.defs)))
    = Some ICE_PTP_LNK_SPD_25G_RS /\
  P_REG_LINK_SPEED_FEC_MODE (IceDefs := Sample.defs)
    (cur (P_REG_LINK_SPEED (IceDefs := Sample.defs)))
    = ICE_PTP_FEC_MODE_RS_FEC (IceDefs := Sample.defs) /\
  (exists w1 w2 w3,
     ice_phy_cfg_rx_offset_e822 (defs := Sample.defs) hw 0 []
     = (0, [] ++ rx_offset_reads (defs := Sample.defs) hw 0 ICE_PTP_LNK_SPD_25G_RS
                   cur Sample.incval_mmio
              ++ programmed (defs := Sample.defs) 0
                   (P_REG_TOTAL_RX_OFFSET_L (IceDefs := Sample.defs))
                   (P_REG_TOTAL_RX_OFFSET_U (IceDefs := Sample.defs))
                   (P_REG_RX_OR (IceDefs := Sample.defs))
                   (1268518592994 + (7496670190 + 19991120506)) w1 w2 w3)) /\
  shape (ice_phy_cfg_rx_offset_e822 (defs := Sample.defs) hw 0)
    (rx_offset_outcome (defs := Sample.defs) hw 0).
Proof.
  intros hw regs cur.
  destruct (ice_phy_cfg_rx_offset_e822_pmd_adjustment (defs := Sample.defs) hw 0
              sample_offset_case_labels_distinct) as [Hexact Hpaths].
  assert (Hset : forall x : Z, x = 1 -> Z.land x 1 <> 0) by (intros x ->; discriminate).
  split; [exact sample_offset_case_labels_distinct|].
  split; [exact (sample_port_keeps (Sample.offsets_valid_at 0x12 5 1) Sample.incval_mmio)|].
  split; [reflexivity|]. split; [exact (Hset _ eq_refl)|].
  split; [reflexivity|]. split; [reflexivity|].
  split; [|exact Hpaths].
  exact (Hexact regs Sample.incval_mmio [] ICE_PTP_LNK_SPD_25G_RS
           (sample_port_keeps (Sample.offsets_valid_at 0x12 5 1) Sample.incval_mmio)
           eq_refl (Hset _ eq_refl) eq_refl).
Defined.
